(* ===== verification/_CoqProject ===== *)
-Q . S2P
Prelude.v
Tlm.v
HostMemory.v
Float32.v
Registers.v
MatMul.v
Device.v
Handshake.v
Interrupts.v
Correct.v
Session.v
Atomic.v
Testbench.v
Cosim.v
PciConfig.v
Topology.v
Kernel.v
Chardev.v
Driver.v
Probe.v
Lifecycle.v
Endpoint.v
Concurrency.v
Adapter.v
App.v
Integration.v
System.v
