(* ===== verification/Prelude.v ===== *)
(** * Verification of the PCIe matrix-multiplier co-simulation

    The repository couples a SystemC model of a PCIe matrix multiplier with QEMU and a
    Linux driver.  Its own code has three parts:

    - the device and its testbench (custom-endpoint/): [matrix_multiplier_pcie.h] is the
      endpoint, a register file behind BAR 0, a compute thread that fetches two float
      matrices by DMA, multiplies them and stores the product, and an interrupt
      controller; [testbench.cpp] drives it against a memory model;
    - the co-simulation server (custom-endpoint/): [main.cc] puts a traffic monitor and
      a placeholder endpoint behind the remote-port library; [qemu-bridge.h] and
      [pcie_system_top.h] wire the endpoint to a PCIe controller and a bridge;
    - the guest side (kernel-device-driver/): a character driver whose [ioctl] moves 4x4
      matrices to and from registers of the endpoint, and an application that uses it.

    ** What models what

    - [Prelude]: undefined behaviour as an error value, loops, machine words, bytes and
      [memcpy].
    - [Tlm]: the generic payload, and the interfaces between modules: [Target] (a
      [b_transport]), [WellBehaved], and [MemTarget], what a DMA engine relies on.
    - [HostMemory]: [host_memory] of [testbench.cpp]; [memory_b_transport],
      [write_data], [read_data].  It implements [MemTarget].
    - [Float32]: [float] as 32-bit words; IEEE-754 binary32 addition and multiplication
      through the Standard Library's [SpecFloat].
    - [Registers]: the members of [matrix_multiplier_pcie], [reset_device],
      [handle_mmio_read], [handle_mmio_write], [bar0_transport] (for
      [bar0_b_transport]).
    - [MatMul]: the triple loop of [perform_matrix_multiply].
    - [Device]: [compute_thread] with [perform_matrix_multiply], [dma_read] and
      [dma_write] ([compute_resume]), [interrupt_controller], the events, and the step
      relation that interleaves the two threads with host transactions.
    - [Handshake], [Interrupts], [Correct]: the theorems about the device; [Session]: a
      whole use of it, with the configuration writes of [test_sequence] ([program]).
    - [Atomic]: the specification of the device, in which a whole computation is one
      step ([spec_step]), and the simulation that shows [Device] implements it, over any
      [DmaTarget].
    - [Testbench]: [test_driver] ([test_resume] for [test_sequence]), [sc_main] of
      [testbench.cpp] and the timed simulation.
    - [Cosim]: [TrafficMonitor], [DummyTarget] and [sc_main] of [main.cc], and
      [PCIeQemuBridge::b_transport].
    - [PciConfig]: the configuration space that [PCIeCoSimTop] of [main.cc] and
      [create_pf_config] of [pcie_system_top.h] ask for, the constants of
      [pci-defs-fix.h], the identifiers of the driver.
    - [Topology]: the socket bindings of the four designs, with what the constructors of
      [PCIeQemuBridge] and [PCIeRPAdapter] bind.
    - [Kernel]: the interfaces below the driver and the application ([Bar], [UserMem],
      [IoctlAbi]), with a concrete instance of each.
    - [Chardev]: the command codes of [chardev.h].
    - [Driver]: [dev_ioctl], [read], [write], [llseek], [irq_handler].
    - [Probe]: [pci_probe], [pci_remove], [myinit]: which resources each path acquires
      and releases.
    - [Lifecycle]: the same two functions with the static variables they assign and the
      handles they pass to the kernel, call by call, with the interrupt handler running
      in between ([lstep]).
    - [Endpoint]: [MatrixMultiplier] of [main.cc], which is commented out in this
      revision but is the only definition of the register layout the driver uses; and
      the contract [MatrixBar] that it keeps.
    - [Concurrency]: [dev_ioctl] calls of several processes, interleaved access by access.
    - [Adapter]: the two callbacks of [PCIeRPAdapter] of [main.cc], also commented out.
    - [App]: [main] of [app.c].
    - [Integration]: application, driver and endpoint together.
    - [System]: the same with the life of the driver: inserting a device, using it,
      removing it ([machine], [insert_device], [remove_device]).

    ** How the code is modelled

    Registers and addresses are integers with the wrap-around of the code's types
    written out ([w32], [w64]); buffers are lists of bytes.  An access outside an object
    yields [UB]; the absence of undefined behaviour is a theorem where it holds.
    A SystemC thread is the [wait] it is suspended at, with its locals ([cloc],
    [tloc]), and a function that runs it to the next [wait]; which runnable thread runs
    next is left open.  An event notification is immediate and lost unless the thread
    waits for it.  A target is a function on its state; the device is parametric in the
    target of its DMA, and its theorems use the laws of [MemTarget] only.  Time is in
    nanoseconds.  Console output is left out, except for the output of the traffic
    monitor, which is that module's purpose.

    SystemC is taken as the language of the models: the evaluation, update and time
    phases of the simulation and the attributes of a transaction are those of the
    standard (IEEE 1666).  Other code outside the repository is a parameter: the initiator
    behind the server (the remote-port library), the kernel functions
    called by the probe (their results are the records [outcomes] and [kernel]; the one
    assumption is that integer results are not positive), user memory ([UserMem]: the
    user-copy functions return 0 exactly when the whole range is accessible), the command
    encoding ([IoctlAbi]: it separates direction, type, number and size), and the system
    call layer with QEMU ([driver_sys], [target_bar]; [machine_sys] opens the file when its
    node and its character device are there).

    ** What is shown

    - The device computes the row-major product ([device_computes_product]) under every
      interleaving with host transactions that do not reprogram it, and so does a whole
      session from an idle device on ([session_computes]); left alone it takes
      [n + 4] resumptions at most and an exact time ([uninterrupted_run]); against the
      testbench memory every outcome is determined, errors included
      ([host_memory_outcomes]); on small integers the float product is exact
      ([integer_product_exact]), and with the identity it copies every finite matrix
      ([identity_copies]).
    - The device refines an atomic multiplier ([device_refines_atomic]): for hosts that
      leave the configuration alone while STATUS is not IDLE, whatever can be observed of
      the threads, over any number of computations, can be observed of a device that
      computes in one step; and the threads complete what that device completes
      ([atomic_completion_reached]).
    - The register file refines the documented register map
      ([mmio_write_refines_map] and the other theorems of [Registers]).
    - Under every interleaving registers stay typed and STATUS legal, computations
      terminate and do not go wrong, and without resets no start is lost and the
      interrupt line, after an activation of the started controller, follows the
      registers ([Handshake], [Interrupts]).  With a reset in
      the middle of a computation they do not hold: what happens instead is stated.
    - The testbench passes under every scheduling ([testbench_passes]).
    - The server's modules, start-up and wiring ([Cosim], [Topology]).
    - The driver's commands are exactly the documented accesses
      ([dev_ioctl_refines_spec]); what the probe acquires, releases and leaks on every
      path ([Probe]); with one device the interrupt handler always finds its BAR mapped
      ([handler_always_mapped]), with two it does not
      ([second_device_breaks_first]); a GET_RESULT is atomic among concurrent SETs, or
      among other GET_RESULTs, but not among both ([get_result_snapshot],
      [concurrent_calls_tear]); the calls of the application ([app_calls]).
    - The window of the adapter ([adapter_window]), by itself: in the sources the
      callback is registered with no socket.
    - Over the contract of the endpoint the application prints the product it announces
      ([app_prints_product]); over the endpoints that are live in this revision, which do
      not keep the contract, it does not ([app_on_dummy_target], [app_on_live_device]).
    - Over its whole life: between a successful probe and the removal the application
      does what it does over the bare device, and outside it finds no file
      ([load_use_unload]), except for a window at either end in which it goes
      wrong ([app_in_unmapped_window]); with the identifiers of the simulated device the
      driver is never probed ([simulated_device_not_offered]).

    ** Bounds and fuel

    Dimensions are those the device accepts, 1 to 256; all index and size computations
    are shown not to wrap there.  [compute_run] has fuel [n + 4]: two resumptions
    up to the DMA of each operand, one for each row, one up to the DMA of the result and
    one for the end.  [explore] runs the
    testbench with 200 steps, of which it needs fewer; running out would make the
    theorem false, not true.  Loops over constants are recursion on a list of indices.

    ** What is not modelled

    The remote-port library and the PCIe controller (library code; what the sources ask
    of them is in [PciConfig] and [Topology]), and with them every path from QEMU to an
    endpoint, the text the modules and the
    driver print, the start-up code in [main.cc] that is commented out ([atoi] of a
    port), generated and build files, and the socket dump tool, a Python script around an
    eBPF program. *)

From stdpp Require Export base tactics numbers list list_numbers gmap.
From Stdlib Require Export ZArith Lia.

Local Open Scope Z_scope.

Create HintDb mmio.
Create Rewrite HintDb mmio.
Create Rewrite HintDb mm.

(** ** Undefined behaviour as an error value

    The C++ and C code copies raw memory.  A read or a write outside the object
    it names is undefined behaviour; the model makes it an explicit result, so
    that "no undefined behaviour" is a statement one can prove. *)

Inductive ub :=
| OutOfBoundsRead
| OutOfBoundsWrite.

Inductive res (A : Type) :=
| Ok (a : A)
| UB (u : ub).
Arguments Ok {A} a.
Arguments UB {A} u.

#[export] Instance ub_eq_dec : EqDecision ub.
Proof. solve_decision. Defined.

#[export] Instance res_eq_dec {A} `{EqDecision A} : EqDecision (res A).
Proof. solve_decision. Defined.

#[export] Instance res_ret : MRet res := fun A a => Ok a.
#[export] Instance res_bind : MBind res := fun A B f r =>
  match r with Ok a => f a | UB u => UB u end.

Definition is_ok {A} (r : res A) : Prop := ∃ a, r = Ok a.

Lemma ok_inj {A} (a b : A) : Ok a = Ok b → a = b.
Proof. by intros [= ->]. Qed.

Lemma bind_ok {A B} (f : A → res B) a : (Ok a ≫= f) = f a.
Proof. done. Qed.

Lemma bind_inv {A B} (r : res A) (f : A → res B) b :
  (r ≫= f) = Ok b → ∃ a, r = Ok a ∧ f a = Ok b.
Proof. destruct r; [eauto | done]. Qed.

(** Take a hypothesis [do-block = Ok _] apart. *)
Ltac res_inv :=
  repeat match goal with
  | H : Ok _ = Ok _ |- _ => apply ok_inj in H
  | H : (_, _) = (_, _) |- _ => apply pair_equal_spec in H as [H ?]
  | _ => progress subst
  | H : UB _ = Ok _ |- _ => discriminate H
  | H : (_ ≫= _) = Ok _ |- _ =>
      let a := fresh "a" in let Ha := fresh "Ha" in
      apply bind_inv in H as (a & Ha & H); cbv beta in H
  | H : context [match ?p with (_, _) => _ end] |- _ => destruct p eqn:?
  end.

(** ** Loops *)

Fixpoint foldM {A B} (f : A → B → res A) (a : A) (l : list B) : res A :=
  match l with
  | [] => Ok a
  | b :: l => a' ← f a b; foldM f a' l
  end.

(** [for (uint32_t k = 0; k < n; k++) body] *)
Definition for_range {A} (n : Z) (body : Z → A → res A) (a : A) : res A :=
  foldM (λ a k, body k a) a (seqZ 0 n).

Lemma foldM_inv {A} (I : Z → A → Prop) (body : Z → A → res A) k n a :
  0 ≤ n →
  (∀ i s, k ≤ i < k + n → I i s → ∃ s', body i s = Ok s' ∧ I (i + 1) s') →
  I k a →
  ∃ a', foldM (λ a i, body i a) a (seqZ k n) = Ok a' ∧ I (k + n) a'.
Proof.
  intros Hn. revert k a. pattern n. apply natlike_ind; [| |done]; clear n Hn.
  - intros k a _ Ha. exists a. by rewrite Z.add_0_r.
  - intros n Hn IH k a Hstep Ha.
    rewrite seqZ_cons by lia. cbn [foldM].
    destruct (Hstep k a ltac:(lia) Ha) as (s' & -> & Hs'). rewrite bind_ok.
    replace (Z.pred (Z.succ n)) with n by lia.
    replace (k + Z.succ n) with (Z.succ k + n) by lia.
    apply IH; [|by replace (Z.succ k) with (k + 1) by lia].
    intros i s Hi. apply Hstep. lia.
Qed.

(** The loop rule: an invariant indexed by the loop counter. *)
Lemma for_range_inv {A} (I : Z → A → Prop) (body : Z → A → res A) n a :
  0 ≤ n →
  (∀ i s, 0 ≤ i < n → I i s → ∃ s', body i s = Ok s' ∧ I (i + 1) s') →
  I 0 a →
  ∃ a', for_range n body a = Ok a' ∧ I n a'.
Proof. intros Hn Hstep Ha. by apply (foldM_inv I body 0 n a Hn Hstep Ha). Qed.

(** The 16 iterations of a doubly nested loop over a 4x4 matrix, in row-major order. *)
Lemma for_range_4x4 {A} (f : Z → A → res A) a :
  for_range 4 (λ i a, for_range 4 (λ j a, f (i * 4 + j) a) a) a = for_range 16 f a.
Proof.
  unfold for_range. change (seqZ 0 4) with [0; 1; 2; 3].
  change (seqZ 0 16) with [0; 1; 2; 3; 4; 5; 6; 7; 8; 9; 10; 11; 12; 13; 14; 15].
  cbv [foldM Z.add Z.mul Pos.add Pos.mul Pos.succ].
  repeat (match goal with |- context [f ?k ?x] =>
    destruct (f k x) as [?|?]; rewrite ?bind_ok; try done end).
Qed.

(** The same when the body is given by row and column. *)
Lemma for_range_4x4_ij {A} (g : Z → Z → A → res A) a :
  for_range 4 (λ i a, for_range 4 (λ j a, g i j a) a) a =
  for_range 16 (λ k a, g (k / 4) (k mod 4) a) a.
Proof. by rewrite <-(for_range_4x4 (λ k a, g (k / 4) (k mod 4) a)). Qed.

Lemma foldM_ext {A B} (f g : A → B → res A) a l :
  (∀ a b, b ∈ l → f a b = g a b) → foldM f a l = foldM g a l.
Proof.
  revert a. induction l as [|b l IH]; intros a H; [done|]. cbn [foldM].
  rewrite H by by left. destruct (g a b); [|done]. rewrite !bind_ok.
  apply IH. intros. apply H. by right.
Qed.

Lemma for_range_ext {A} (f g : Z → A → res A) n a :
  (∀ k a, 0 ≤ k < n → f k a = g k a) → for_range n f a = for_range n g a.
Proof. intros H. apply foldM_ext. intros b k Hk. apply elem_of_seqZ in Hk. apply H. lia. Qed.

(** ** Machine words *)

Definition w32 (z : Z) : Z := z mod 2 ^ 32.
Definition w64 (z : Z) : Z := z mod 2 ^ 64.
Abbreviation u32 z := (0 ≤ z < 2 ^ 32) (only parsing).
Abbreviation u64 z := (0 ≤ z < 2 ^ 64) (only parsing).

(** [~x] on [uint32_t]. *)
Definition not32 (z : Z) : Z := w32 (Z.lnot z).

Lemma w32_range z : u32 (w32 z).
Proof. unfold w32. apply Z.mod_pos_bound. lia. Qed.
Lemma w64_range z : u64 (w64 z).
Proof. unfold w64. apply Z.mod_pos_bound. lia. Qed.
Lemma w32_id z : u32 z → w32 z = z.
Proof. apply Z.mod_small. Qed.
Lemma w64_id z : u64 z → w64 z = z.
Proof. apply Z.mod_small. Qed.

Lemma land_bound n a b : 0 ≤ n → 0 ≤ a < 2 ^ n → 0 ≤ b → 0 ≤ Z.land a b < 2 ^ n.
Proof.
  intros Hn Ha Hb.
  assert (Z.land a b = Z.land a b mod 2 ^ n) as ->; [|apply Z.mod_pos_bound; lia].
  rewrite <-Z.land_ones by lia. rewrite <-Z.land_assoc, (Z.land_comm b), Z.land_assoc.
  by rewrite (Z.land_ones a), (Z.mod_small a) by lia.
Qed.

Lemma lor_bound n a b : 0 ≤ n → 0 ≤ a < 2 ^ n → 0 ≤ b < 2 ^ n → 0 ≤ Z.lor a b < 2 ^ n.
Proof.
  intros Hn Ha Hb.
  assert (Z.lor a b = Z.lor a b mod 2 ^ n) as ->; [|apply Z.mod_pos_bound; lia].
  rewrite <-Z.land_ones, Z.land_lor_distr_l, !Z.land_ones by lia.
  by rewrite !Z.mod_small by lia.
Qed.

Lemma land_ones_shift p n : 0 ≤ n → 0 ≤ p →
  Z.land p (Z.shiftl (Z.ones n) n) = Z.shiftl (Z.land (Z.shiftr p n) (Z.ones n)) n.
Proof.
  intros Hn Hp. apply Z.bits_inj'. intros i Hi.
  rewrite Z.land_spec, !Z.shiftl_spec by lia.
  destruct (decide (i < n)).
  - rewrite !(Z.testbit_neg_r _ (i - n)) by lia. apply andb_false_r.
  - rewrite Z.land_spec, Z.shiftr_spec by lia. do 2 f_equal. lia.
Qed.

Lemma disjoint_halves q r n : 0 ≤ n → 0 ≤ r < 2 ^ n →
  Z.land (Z.shiftl q n) r = 0.
Proof.
  intros Hn Hr. apply Z.bits_inj'. intros i Hi.
  rewrite Z.land_spec, Z.bits_0, Z.shiftl_spec by lia.
  destruct (decide (i < n)).
  - by rewrite Z.testbit_neg_r by lia.
  - rewrite <-(Z.mod_small r (2 ^ n)) by lia.
    rewrite Z.mod_pow2_bits_high by lia. apply andb_false_r.
Qed.

(** The 32-bit half merges of the pointer registers, as arithmetic. *)
Lemma merge_lo p v : u64 p → u32 v →
  Z.lor (Z.land p 0xFFFFFFFF00000000) v = (p / 2 ^ 32) * 2 ^ 32 + v.
Proof.
  intros Hp Hv.
  change 0xFFFFFFFF00000000 with (Z.shiftl (Z.ones 32) 32).
  rewrite land_ones_shift by lia.
  rewrite Z.land_ones, Z.shiftr_div_pow2 by lia.
  rewrite <-Z.add_nocarry_lor by (apply disjoint_halves; lia).
  rewrite Z.shiftl_mul_pow2 by lia. f_equal. f_equal.
  apply Z.mod_small. split; [apply Z.div_pos; lia|].
  apply Z.div_lt_upper_bound; lia.
Qed.

Lemma merge_hi p v : u64 p → u32 v →
  Z.lor (Z.land p 0xFFFFFFFF) (w64 (Z.shiftl v 32)) = v * 2 ^ 32 + p mod 2 ^ 32.
Proof.
  intros Hp Hv. change 0xFFFFFFFF with (Z.ones 32).
  rewrite Z.land_ones by lia. unfold w64.
  rewrite (Z.mod_small (Z.shiftl v 32)).
  2:{ rewrite Z.shiftl_mul_pow2 by lia. lia. }
  rewrite Z.lor_comm, <-Z.add_nocarry_lor.
  2:{ apply disjoint_halves; [lia|]. apply Z.mod_pos_bound. lia. }
  by rewrite Z.shiftl_mul_pow2 by lia.
Qed.

Lemma not32_spec v : u32 v → not32 v = 2 ^ 32 - 1 - v.
Proof.
  intros Hv. unfold not32, w32.
  replace (Z.lnot v) with (- v - 1) by (pose proof (Z.add_lnot_diag v); lia).
  rewrite <-(Z.mod_add _ 1) by lia. rewrite Z.mod_small; lia.
Qed.

(** [x &= ~m], bit by bit. *)
Lemma testbit_clear x m i : u32 x → u32 m → 0 ≤ i →
  Z.testbit (Z.land x (not32 m)) i = Z.testbit x i && negb (Z.testbit m i).
Proof.
  intros Hx Hm Hi. rewrite Z.land_spec. unfold not32, w32.
  destruct (decide (i < 32)).
  - by rewrite Z.mod_pow2_bits_low, Z.lnot_spec by lia.
  - rewrite <-(Z.mod_small x (2 ^ 32)) by lia.
    by rewrite Z.mod_pow2_bits_high by lia.
Qed.

(** ** Little-endian object representations

    A byte is a [Z] in [0, 256); the buffers the code points into are lists of
    bytes. *)

Abbreviation byte_ok b := (0 ≤ b < 256) (only parsing).
Definition bytes_ok (bs : list Z) : Prop := Forall (λ b, byte_ok b) bs.

Fixpoint le_bytes (n : nat) (z : Z) : list Z :=
  match n with
  | O => []
  | S n => z mod 256 :: le_bytes n (z / 256)
  end.

Fixpoint le_val (bs : list Z) : Z :=
  match bs with
  | [] => 0
  | b :: bs => b + 256 * le_val bs
  end.

Lemma length_le_bytes n z : length (le_bytes n z) = n.
Proof. revert z. induction n; intros z; cbn; congruence. Qed.

Lemma le_bytes_ok n z : bytes_ok (le_bytes n z).
Proof.
  revert z. induction n as [|n IH]; intros z; constructor; [|apply IH].
  apply Z.mod_pos_bound. lia.
Qed.

Lemma pow256_S n : 256 ^ Z.of_nat (S n) = 256 * 256 ^ Z.of_nat n.
Proof. rewrite Nat2Z.inj_succ, Z.pow_succ_r by lia. done. Qed.

Lemma le_val_bytes n z : le_val (le_bytes n z) = z mod 256 ^ Z.of_nat n.
Proof.
  revert z. induction n as [|n IH]; intros z.
  - by rewrite Z.mod_1_r.
  - cbn [le_bytes le_val]. rewrite IH, pow256_S, Z.rem_mul_r; lia.
Qed.

Lemma le_val_range bs : bytes_ok bs → 0 ≤ le_val bs < 256 ^ Z.of_nat (length bs).
Proof.
  induction 1 as [|b bs Hb _ IH]; [done|].
  cbn [le_val length]. rewrite pow256_S. lia.
Qed.

Lemma le_bytes_val bs : bytes_ok bs → le_bytes (length bs) (le_val bs) = bs.
Proof.
  induction 1 as [|b bs Hb _ IH]; [done|].
  cbn [le_val length le_bytes]. f_equal.
  - rewrite Z.mul_comm, Z.mod_add, Z.mod_small; lia.
  - rewrite Z.mul_comm, Z.div_add, Z.div_small by lia. by rewrite Z.add_0_l.
Qed.

Lemma le_val32 z : u32 z → le_val (le_bytes 4 z) = z.
Proof. intros Hz. rewrite le_val_bytes. by apply Z.mod_small. Qed.
Lemma le_val64 z : u64 z → le_val (le_bytes 8 z) = z.
Proof. intros Hz. rewrite le_val_bytes. by apply Z.mod_small. Qed.

(** Arrays of 32-bit words ([float[]], [uint32_t[4][4]]) as bytes and back. *)
Definition words_bytes (ws : list Z) : list Z := ws ≫= le_bytes 4.

Fixpoint bytes_words (bs : list Z) : list Z :=
  match bs with
  | b0 :: b1 :: b2 :: b3 :: bs => le_val [b0; b1; b2; b3] :: bytes_words bs
  | _ => []
  end.

Lemma length_words_bytes ws : length (words_bytes ws) = (4 * length ws)%nat.
Proof.
  induction ws as [|w ws IH]; [done|].
  change (words_bytes (w :: ws)) with (le_bytes 4 w ++ words_bytes ws).
  rewrite length_app, length_le_bytes, IH. cbn. lia.
Qed.

Lemma words_bytes_ok ws : bytes_ok (words_bytes ws).
Proof.
  induction ws as [|w ws IH]; [constructor|].
  apply Forall_app. split; [apply le_bytes_ok | done].
Qed.

Lemma bytes_words_cons bs1 bs2 : length bs1 = 4%nat →
  bytes_words (bs1 ++ bs2) = le_val bs1 :: bytes_words bs2.
Proof. intros H. by destruct bs1 as [|? [|? [|? [|? [|]]]]]. Qed.

Lemma bytes_words_bytes ws : Forall (λ w, u32 w) ws → bytes_words (words_bytes ws) = ws.
Proof.
  induction 1 as [|w ws Hw _ IH]; [done|].
  change (words_bytes (w :: ws)) with (le_bytes 4 w ++ words_bytes ws).
  rewrite bytes_words_cons by apply length_le_bytes.
  by rewrite IH, le_val32.
Qed.

Lemma split4 (bs : list Z) k : length bs = (4 * S k)%nat →
  ∃ b0 b1 b2 b3 bs', bs = b0 :: b1 :: b2 :: b3 :: bs' ∧ length bs' = (4 * k)%nat.
Proof.
  intros H. destruct bs as [|b0 [|b1 [|b2 [|b3 bs]]]]; cbn in H; try lia.
  exists b0, b1, b2, b3, bs. split; [done | lia].
Qed.

Lemma length_bytes_words bs k : length bs = (4 * k)%nat → length (bytes_words bs) = k.
Proof.
  revert bs. induction k as [|k IH]; intros bs H.
  - by apply length_zero_iff_nil in H as ->.
  - apply split4 in H as (b0 & b1 & b2 & b3 & bs' & -> & H). cbn. f_equal. by apply IH.
Qed.

Lemma bytes_words_u32 bs : bytes_ok bs → Forall (λ w, u32 w) (bytes_words bs).
Proof.
  induction bs as [bs IH] using (induction_ltof1 _ (@length Z)). intros Hbs.
  destruct bs as [|b0 [|b1 [|b2 [|b3 bs]]]]; try (by constructor).
  change (bytes_ok ([b0; b1; b2; b3] ++ bs)) in Hbs. apply Forall_app in Hbs as [H4 Hr].
  change (bytes_words _) with (le_val [b0; b1; b2; b3] :: bytes_words bs).
  constructor; [exact (le_val_range _ H4)|].
  apply IH; [|done]. unfold ltof. cbn. lia.
Qed.

(** ** [memcpy]

    [memcpy dst src n] is the contents of the object [dst] points to after
    [memcpy(dst, src, n)], given the contents of both objects. *)
Definition memcpy (dst src : list Z) (n : Z) : res (list Z) :=
  if Z.of_nat (length src) <? n then UB OutOfBoundsRead
  else if Z.of_nat (length dst) <? n then UB OutOfBoundsWrite
  else Ok (take (Z.to_nat n) src ++ drop (Z.to_nat n) dst).

Lemma memcpy_ok dst src n :
  n ≤ Z.of_nat (length src) → n ≤ Z.of_nat (length dst) →
  memcpy dst src n = Ok (take (Z.to_nat n) src ++ drop (Z.to_nat n) dst).
Proof.
  intros H1 H2. unfold memcpy.
  destruct (Z.ltb_spec (Z.of_nat (length src)) n); [lia|].
  destruct (Z.ltb_spec (Z.of_nat (length dst)) n); [lia|]. done.
Qed.

Lemma memcpy_all dst src n :
  Z.of_nat (length src) = n → Z.of_nat (length dst) = n → memcpy dst src n = Ok src.
Proof.
  intros H1 H2. rewrite memcpy_ok by lia.
  by rewrite take_ge, drop_ge, app_nil_r by lia.
Qed.

Lemma memcpy_overread dst src n :
  Z.of_nat (length src) < n → memcpy dst src n = UB OutOfBoundsRead.
Proof. intros H. unfold memcpy. by destruct (Z.ltb_spec (Z.of_nat (length src)) n); [|lia]. Qed.

Lemma memcpy_inv dst src n bs : memcpy dst src n = Ok bs →
  n ≤ Z.of_nat (length src) ∧ n ≤ Z.of_nat (length dst) ∧
  bs = take (Z.to_nat n) src ++ drop (Z.to_nat n) dst.
Proof.
  unfold memcpy. destruct (Z.ltb_spec (Z.of_nat (length src)) n); [done|].
  destruct (Z.ltb_spec (Z.of_nat (length dst)) n); [done|].
  intros [= <-]. done.
Qed.

Lemma memcpy_length dst src n bs : memcpy dst src n = Ok bs → length bs = length dst.
Proof.
  intros (H1 & H2 & ->)%memcpy_inv. rewrite length_app, length_take, length_drop. lia.
Qed.

Lemma memcpy_bytes_ok dst src n bs :
  bytes_ok dst → bytes_ok src → memcpy dst src n = Ok bs → bytes_ok bs.
Proof.
  intros Hd Hs (_ & _ & ->)%memcpy_inv. apply Forall_app. split.
  - by apply Forall_take.
  - by apply Forall_drop.
Qed.
