(* ===== verification/Tlm.v ===== *)
(** * Transactions and blocking targets

    The interface between the SystemC modules: the generic payload with the
    attributes the sources set and read, and two classes.  [Target] is a module
    with a registered [b_transport]; [MemTarget] is what an initiator such as the
    DMA engine of [matrix_multiplier_pcie.h] relies on when its target is memory:
    valid ranges can be loaded and stored, and nothing else changes.  The client's
    theorems are proved against [MemTarget]; [HostMemory.v] and [Cosim.v] provide
    instances.

    The payload type belongs to the TLM-2.0 library; only its attributes are
    modelled, as the record below, with [is_response_ok] as the standard defines
    it.  Time is in nanoseconds. *)

From S2P Require Import Prelude.
Local Open Scope Z_scope.

Inductive tlm_command :=
| TLM_READ_COMMAND
| TLM_WRITE_COMMAND
| TLM_IGNORE_COMMAND.

Inductive tlm_response :=
| TLM_OK_RESPONSE
| TLM_INCOMPLETE_RESPONSE
| TLM_GENERIC_ERROR_RESPONSE
| TLM_ADDRESS_ERROR_RESPONSE.

#[export] Instance tlm_command_eq_dec : EqDecision tlm_command.
Proof. solve_decision. Defined.
#[export] Instance tlm_response_eq_dec : EqDecision tlm_response.
Proof. solve_decision. Defined.

(** [data] is the contents of the buffer [data_ptr] points to: [b_transport] may
    overwrite it in place. *)
Record payload := Payload {
  command : tlm_command;
  address : Z;
  data : list Z;
  data_length : Z;
  response : tlm_response
}.

#[export] Instance payload_eq_dec : EqDecision payload.
Proof. solve_decision. Defined.

Definition set_data (bs : list Z) (p : payload) : payload :=
  Payload (command p) (address p) bs (data_length p) (response p).
Definition set_response (r : tlm_response) (p : payload) : payload :=
  Payload (command p) (address p) (data p) (data_length p) r.

Definition is_read (p : payload) : bool := bool_decide (command p = TLM_READ_COMMAND).
Definition is_response_ok (p : payload) : bool := bool_decide (response p = TLM_OK_RESPONSE).

(** A payload as every initiator of the sources prepares it: the response starts
    out as [TLM_INCOMPLETE_RESPONSE], the streaming width is the length, and no
    byte enables are used. *)
Definition request (c : tlm_command) (addr : Z) (bs : list Z) (len : Z) : payload :=
  Payload c addr bs len TLM_INCOMPLETE_RESPONSE.

(** A module with a [b_transport]: its new state, the payload on return and the
    annotated delay. *)
Class Target (S : Type) :=
  b_transport : S → payload → Z → res (S * payload * Z).

(** What is common to all targets of the development: the request attributes are
    read-only, the data buffer keeps its size, a response is always set, and the
    delay only grows. *)
Definition answers (p p' : payload) : Prop :=
  command p' = command p ∧ address p' = address p ∧ data_length p' = data_length p ∧
  length (data p') = length (data p) ∧ response p' ≠ TLM_INCOMPLETE_RESPONSE.

Class WellBehaved (S : Type) `{Target S} :=
  transport_answers : ∀ s p d s' p' d',
    b_transport s p d = Ok (s', p', d') → answers p p' ∧ d ≤ d'.

Class MemTarget (S : Type) `{Target S} := {
  mem_valid : S → Z → Z → Prop;
  mem_load : S → Z → Z → list Z;
  mem_store : S → Z → list Z → S;
  mem_latency : Z;
  mem_load_length s a n : mem_valid s a n → Z.of_nat (length (mem_load s a n)) = n;
  mem_read_spec s p d :
    command p = TLM_READ_COMMAND →
    mem_valid s (address p) (data_length p) →
    Z.of_nat (length (data p)) = data_length p →
    b_transport s p d =
      Ok (s, set_response TLM_OK_RESPONSE
               (set_data (mem_load s (address p) (data_length p)) p), d + mem_latency);
  mem_write_spec s p d :
    command p = TLM_WRITE_COMMAND →
    mem_valid s (address p) (data_length p) →
    Z.of_nat (length (data p)) = data_length p →
    b_transport s p d =
      Ok (mem_store s (address p) (data p), set_response TLM_OK_RESPONSE p, d + mem_latency);
  mem_store_valid s a bs b n : mem_valid (mem_store s a bs) b n ↔ mem_valid s b n;
  mem_load_store s a bs :
    mem_valid s a (Z.of_nat (length bs)) →
    mem_load (mem_store s a bs) a (Z.of_nat (length bs)) = bs;
  mem_load_store_disjoint s a bs b n :
    mem_valid s a (Z.of_nat (length bs)) → mem_valid s b n →
    b + n ≤ a ∨ a + Z.of_nat (length bs) ≤ b →
    mem_load (mem_store s a bs) b n = mem_load s b n
}.

(** Simplify the attributes of an updated payload. *)
Ltac payload_simpl :=
  cbn [set_data set_response request command address data data_length response] in *.
