(* ===== verification/HostMemory.v ===== *)
(** * The host memory of the testbench

    [host_memory] of [testbench.cpp]: a 16 MiB vector of bytes behind a TLM target
    socket, with the backdoor accessors [write_data] and [read_data] used by
    [sc_main].  The bounds check of the three operations adds a 64-bit address and
    a length in 64-bit arithmetic. *)

From S2P Require Import Prelude Tlm.
Local Open Scope Z_scope.

(** [std::vector<unsigned char> memory]: its size and its bytes.  A cell that was
    never written holds 0, as [resize] left it. *)
Record host_memory := HostMemory {
  mem_size : Z;
  mem_cells : gmap Z Z
}.

(** The constructor: [memory.resize(16 * 1024 * 1024, 0)]. *)
Definition host_memory_init : host_memory := HostMemory (16 * 1024 * 1024) ∅.

Definition cell (m : host_memory) (a : Z) : Z := default 0 (mem_cells m !! a).

(** The [n] bytes from [&memory[a]] on. *)
Definition cells (m : host_memory) (a n : Z) : list Z := cell m <$> seqZ a n.

Fixpoint put_cells (c : gmap Z Z) (a : Z) (bs : list Z) : gmap Z Z :=
  match bs with
  | [] => c
  | b :: bs => put_cells (<[a := b]> c) (a + 1) bs
  end.

Definition store (m : host_memory) (a : Z) (bs : list Z) : host_memory :=
  HostMemory (mem_size m) (put_cells (mem_cells m) a bs).

(** [memory[a]] is defined below the size only, and a [memcpy] of [n] bytes from or
    to [&memory[a]] stays in the vector only if it ends there. *)
Definition in_vector (m : host_memory) (a n : Z) : bool :=
  (a <? mem_size m) && (a + n <=? mem_size m).

(** [memcpy(dst, &memory[addr], len)] *)
Definition copy_out (m : host_memory) (dst : list Z) (addr len : Z) : res (list Z) :=
  if in_vector m addr len then memcpy dst (cells m addr len) len
  else UB OutOfBoundsRead.

(** [memcpy(&memory[addr], src, len)] *)
Definition copy_in (m : host_memory) (addr : Z) (src : list Z) (len : Z) : res host_memory :=
  if in_vector m addr len then
    if Z.of_nat (length src) <? len then UB OutOfBoundsRead
    else Ok (store m addr (take (Z.to_nat len) src))
  else UB OutOfBoundsWrite.

Definition memory_b_transport (m : host_memory) (trans : payload) (delay : Z)
    : res (host_memory * payload * Z) :=
  let cmd := command trans in
  let addr := address trans in
  let ptr := data trans in
  let len := data_length trans in
  if mem_size m <? w64 (addr + len) then
    Ok (m, set_response TLM_ADDRESS_ERROR_RESPONSE trans, delay)
  else
    '(m, ptr) ←
      match cmd with
      | TLM_READ_COMMAND => ptr ← copy_out m ptr addr len; Ok (m, ptr)
      | TLM_WRITE_COMMAND => m ← copy_in m addr ptr len; Ok (m, ptr)
      | TLM_IGNORE_COMMAND => Ok (m, ptr)
      end;
    Ok (m, set_response TLM_OK_RESPONSE (set_data ptr trans), delay + 20).

#[export] Instance host_memory_target : Target host_memory := memory_b_transport.

(** [write_data] and [read_data]; [sizeof] the argument buffer is [len]. *)
Definition write_data (m : host_memory) (addr : Z) (data : list Z) (len : Z) : res host_memory :=
  if w64 (addr + len) <=? mem_size m then copy_in m addr data len else Ok m.

Definition read_data (m : host_memory) (addr : Z) (data : list Z) (len : Z) : res (list Z) :=
  if w64 (addr + len) <=? mem_size m then copy_out m data addr len else Ok data.

(** ** Loads and stores *)

Lemma length_cells m a n : 0 ≤ n → Z.of_nat (length (cells m a n)) = n.
Proof. intros Hn. unfold cells. rewrite length_fmap, length_seqZ. lia. Qed.

Lemma cell_store m a bs x :
  cell (store m a bs) x =
    if bool_decide (a ≤ x < a + Z.of_nat (length bs)) then bs !!! Z.to_nat (x - a) else cell m x.
Proof.
  unfold store, cell. cbn. generalize (mem_cells m) as c.
  revert a. induction bs as [|b bs IH]; intros a c; cbn [put_cells length].
  - rewrite bool_decide_eq_false_2 by lia. done.
  - rewrite IH. destruct (decide (x = a)) as [->|Hx].
    + rewrite bool_decide_eq_false_2, bool_decide_eq_true_2, lookup_insert_eq by lia.
      by replace (Z.to_nat (a - a)) with 0%nat by lia.
    + case_bool_decide.
      * rewrite bool_decide_eq_true_2 by lia.
        by replace (Z.to_nat (x - a)) with (S (Z.to_nat (x - (a + 1)))) by lia.
      * rewrite bool_decide_eq_false_2, lookup_insert_ne by lia. done.
Qed.

Lemma cells_ext m1 m2 a n :
  (∀ x, a ≤ x < a + n → cell m1 x = cell m2 x) → cells m1 a n = cells m2 a n.
Proof.
  intros H. unfold cells. apply list_fmap_ext. intros i x Hx.
  apply lookup_seqZ in Hx as [-> ?]. apply H. lia.
Qed.

Lemma lookup_cells m a n i :
  0 ≤ i < n → cells m a n !! Z.to_nat i = Some (cell m (a + i)).
Proof.
  intros Hi. unfold cells. rewrite list_lookup_fmap, lookup_seqZ_lt by lia.
  cbn. do 2 f_equal. lia.
Qed.

Lemma cells_store m a bs : cells (store m a bs) a (Z.of_nat (length bs)) = bs.
Proof.
  apply list_eq. intros i. destruct (decide (i < length bs)%nat) as [Hi|Hi].
  - rewrite <-(Nat2Z.id i), lookup_cells by lia.
    rewrite cell_store, bool_decide_eq_true_2 by lia.
    replace (a + Z.of_nat i - a) with (Z.of_nat i) by lia.
    rewrite Nat2Z.id. symmetry. apply list_lookup_lookup_total_lt. lia.
  - rewrite !lookup_ge_None_2; [done|lia|].
    pose proof (length_cells (store m a bs) a (Z.of_nat (length bs))). lia.
Qed.

Lemma cells_store_disjoint m a bs b n :
  b + n ≤ a ∨ a + Z.of_nat (length bs) ≤ b → cells (store m a bs) b n = cells m b n.
Proof.
  intros H. apply cells_ext. intros x Hx.
  rewrite cell_store, bool_decide_eq_false_2 by lia. done.
Qed.

(** ** The transport *)

(** A range the check accepts for the right reason. *)
Definition valid_range (m : host_memory) (a n : Z) : Prop :=
  0 ≤ a ∧ 0 < n ∧ a + n ≤ mem_size m ∧ mem_size m < 2 ^ 64.

Lemma in_vector_spec m a n :
  in_vector m a n = true ↔ a < mem_size m ∧ a + n ≤ mem_size m.
Proof. unfold in_vector. rewrite andb_true_iff, Z.ltb_lt, Z.leb_le. done. Qed.

Lemma valid_in_vector m a n : valid_range m a n → in_vector m a n = true.
Proof. intros (? & ? & ? & ?). apply in_vector_spec. lia. Qed.

Lemma valid_no_error m a n : valid_range m a n → (mem_size m <? w64 (a + n)) = false.
Proof. intros (? & ? & ? & ?). apply Z.ltb_ge. rewrite w64_id by lia. done. Qed.

Lemma memory_read_spec m p d :
  command p = TLM_READ_COMMAND →
  valid_range m (address p) (data_length p) →
  Z.of_nat (length (data p)) = data_length p →
  memory_b_transport m p d =
    Ok (m, set_response TLM_OK_RESPONSE
             (set_data (cells m (address p) (data_length p)) p), d + 20).
Proof.
  intros Hc Hv Hl. unfold memory_b_transport, copy_out.
  rewrite valid_no_error, Hc, valid_in_vector by done.
  destruct Hv as (? & ? & ? & ?).
  rewrite memcpy_all; [done| |done]. apply length_cells. lia.
Qed.

Lemma memory_write_spec m p d :
  command p = TLM_WRITE_COMMAND →
  valid_range m (address p) (data_length p) →
  Z.of_nat (length (data p)) = data_length p →
  memory_b_transport m p d =
    Ok (store m (address p) (data p), set_response TLM_OK_RESPONSE p, d + 20).
Proof.
  intros Hc Hv Hl. unfold memory_b_transport, copy_in.
  rewrite valid_no_error, Hc, valid_in_vector by done.
  rewrite (proj2 (Z.ltb_ge _ _)) by lia.
  rewrite take_ge by lia. by destruct p.
Qed.

#[export] Program Instance host_memory_mem : MemTarget host_memory := {
  mem_valid := valid_range;
  mem_load := cells;
  mem_store := store;
  mem_latency := 20
}.
Next Obligation. intros m a n (? & ? & ? & ?). apply length_cells. lia. Qed.
Next Obligation. apply memory_read_spec. Qed.
Next Obligation. apply memory_write_spec. Qed.
Next Obligation. done. Qed.
Next Obligation. intros m a bs _. apply cells_store. Qed.
Next Obligation. intros m a bs b n _ _. apply cells_store_disjoint. Qed.

#[export] Instance host_memory_well_behaved : WellBehaved host_memory.
Proof.
  intros m p d m' p' d' H. unfold b_transport, host_memory_target, memory_b_transport in H.
  destruct (mem_size m <? _).
  - res_inv. by split; [|lia].
  - destruct (command p) eqn:Hc; unfold copy_out, copy_in in H.
    + destruct (in_vector m _ _); [|done]. res_inv.
      split; [|lia]. repeat split; try done. cbn. by eapply memcpy_length.
    + destruct (in_vector m _ _); [|done].
      destruct (_ <? _); [done|]. res_inv. by split; [|lia].
    + res_inv. by split; [|lia].
Qed.

(** ** The same memory, whatever its representation

    Two records stand for the same vector when they agree on the size and on every
    byte; the operations respect this equivalence. *)

#[export] Instance host_memory_equiv : Equiv host_memory := fun m1 m2 =>
  mem_size m1 = mem_size m2 ∧ ∀ a, cell m1 a = cell m2 a.

#[export] Instance host_memory_equivalence : Equivalence (≡@{host_memory}).
Proof.
  split.
  - by intros m.
  - intros m1 m2 [H1 H2]. split; [done|]. intros a. by rewrite H2.
  - intros m1 m2 m3 [H1 H2] [H3 H4]. split; [congruence|]. intros a. by rewrite H2.
Qed.

#[export] Instance cells_proper :
  Proper ((≡@{host_memory}) ==> (=) ==> (=) ==> (=)) cells.
Proof. intros m1 m2 [_ H] a ? <- n ? <-. apply cells_ext. auto. Qed.

#[export] Instance store_proper :
  Proper ((≡@{host_memory}) ==> (=) ==> (=) ==> (≡)) store.
Proof.
  intros m1 m2 [Hs H] a ? <- bs ? <-. split; [done|]. intros x.
  rewrite !cell_store. case_bool_decide; [done|]. apply H.
Qed.

#[export] Instance in_vector_proper :
  Proper ((≡@{host_memory}) ==> (=) ==> (=) ==> (=)) in_vector.
Proof. intros m1 m2 [Hs _] a ? <- n ? <-. unfold in_vector. by rewrite Hs. Qed.

(** Storing back what was loaded changes nothing. *)
Lemma store_cells m a n : 0 ≤ n → store m a (cells m a n) ≡ m.
Proof.
  intros Hn. split; [done|]. intros x. rewrite cell_store, length_cells by done.
  case_bool_decide; [|done].
  apply list_lookup_total_correct.
  rewrite lookup_cells by lia. do 2 f_equal. lia.
Qed.

(** Later stores to the same range win. *)
Lemma store_store m a bs1 bs2 : length bs1 = length bs2 →
  store (store m a bs1) a bs2 ≡ store m a bs2.
Proof.
  intros Hl. split; [done|]. intros x. rewrite !cell_store.
  case_bool_decide; [done|]. by rewrite bool_decide_eq_false_2 by lia.
Qed.

(** ** Properties *)

(** C24: the bounds check of [host_memory::b_transport], for every 64-bit address
    and every non-empty transfer whose buffer has the announced length.  In bounds
    the transfer succeeds; past the end, without wrap-around, the address error is
    reported and nothing changes; but when [addr + len] wraps around 2^64 to a
    value within the size the check passes and the [memcpy] leaves the vector. *)
Theorem memory_check_cases (m : host_memory) (p : payload) (d : Z) :
  u64 (address p) → 0 < data_length p < 2 ^ 32 →
  Z.of_nat (length (data p)) = data_length p →
  0 ≤ mem_size m < 2 ^ 64 →
  command p ≠ TLM_IGNORE_COMMAND →
  (address p + data_length p ≤ mem_size m →
     memory_b_transport m p d =
       match command p with
       | TLM_READ_COMMAND =>
           Ok (m, set_response TLM_OK_RESPONSE
                    (set_data (cells m (address p) (data_length p)) p), d + 20)
       | _ => Ok (store m (address p) (data p), set_response TLM_OK_RESPONSE p, d + 20)
       end) ∧
  (mem_size m < address p + data_length p < 2 ^ 64 →
     memory_b_transport m p d = Ok (m, set_response TLM_ADDRESS_ERROR_RESPONSE p, d)) ∧
  (2 ^ 64 ≤ address p + data_length p →
     if address p + data_length p - 2 ^ 64 <=? mem_size m
     then ∃ u, memory_b_transport m p d = UB u
     else memory_b_transport m p d = Ok (m, set_response TLM_ADDRESS_ERROR_RESPONSE p, d)).
Proof.
  intros Ha Hl Hb Hm Hc. split; [|split].
  - intros Hr. assert (valid_range m (address p) (data_length p)) by (unfold valid_range; lia).
    destruct (command p) eqn:Hcmd; [| |done].
    + by apply memory_read_spec.
    + by apply memory_write_spec.
  - intros Hr. unfold memory_b_transport. rewrite w64_id by lia.
    by rewrite (proj2 (Z.ltb_lt _ _)) by lia.
  - intros Hw. unfold memory_b_transport.
    assert (w64 (address p + data_length p) = address p + data_length p - 2 ^ 64) as ->.
    { unfold w64. rewrite <-(Z.mod_add _ (-1)) by lia. rewrite Z.mod_small; lia. }
    destruct (Z.leb_spec (address p + data_length p - 2 ^ 64) (mem_size m)).
    + rewrite (proj2 (Z.ltb_ge _ _)) by lia.
      assert (in_vector m (address p) (data_length p) = false) as Hv.
      { apply not_true_iff_false. rewrite in_vector_spec. lia. }
      unfold copy_out, copy_in. rewrite Hv. destruct (command p); [| |done]; eauto.
    + by rewrite (proj2 (Z.ltb_lt _ _)) by lia.
Qed.

(** A write of 64 bytes at the last word of the address space: the sum is 60. *)
Lemma memory_check_cases_witness :
  let p := request TLM_WRITE_COMMAND (2 ^ 64 - 4) (replicate 64 7) 64 in
  (2 ^ 64 ≤ address p + data_length p) ∧
  ∃ u, memory_b_transport host_memory_init p 0 = UB u.
Proof.
  intros p. split; [vm_compute; congruence|].
  refine (proj2 (proj2 (memory_check_cases host_memory_init p 0 _ _ _ _ _)) _);
    try (vm_compute; first [done | split; congruence]).
Defined.

(** C25: what [write_data] puts into memory [read_data] gets back, and other ranges
    are left alone; out of range (without wrap-around) both do nothing. *)
Theorem backdoor_roundtrip (m : host_memory) (a : Z) (bs buf : list Z) :
  let n := Z.of_nat (length bs) in
  0 ≤ a → 0 < n → a + n < 2 ^ 64 → length buf = length bs → mem_size m < 2 ^ 64 →
  (a + n ≤ mem_size m →
     ∃ m', write_data m a bs n = Ok m' ∧ read_data m' a buf n = Ok bs ∧
       ∀ b k buf', 0 ≤ b → 0 < k → b + k ≤ mem_size m → b + k ≤ a ∨ a + n ≤ b →
         read_data m' b buf' k = read_data m b buf' k) ∧
  (mem_size m < a + n → write_data m a bs n = Ok m ∧ read_data m a buf n = Ok buf).
Proof.
  intros n Ha Hn Hw Hbuf Hm. unfold write_data, read_data, copy_in, copy_out.
  rewrite w64_id by lia. split.
  - intros Hr. rewrite (proj2 (Z.leb_le _ _)) by lia.
    assert (in_vector m a n = true) as -> by (apply in_vector_spec; lia).
    rewrite (proj2 (Z.ltb_ge _ _)) by (subst n; lia).
    subst n. rewrite take_ge by lia.
    eexists. split; [done|]. split.
    + rewrite (proj2 (Z.leb_le _ _)) by done.
      change (in_vector (store m a bs)) with (in_vector m).
      rewrite (proj2 (in_vector_spec m _ _)) by lia.
      rewrite cells_store. by rewrite memcpy_all by lia.
    + intros b k buf' Hb Hk Hbk Hdis. change (in_vector (store m a bs)) with (in_vector m).
      change (mem_size (store m a bs)) with (mem_size m).
      by rewrite cells_store_disjoint by done.
  - intros Hr. by rewrite (proj2 (Z.leb_gt _ _)) by lia.
Qed.

Lemma backdoor_roundtrip_witness :
  ∃ m', write_data host_memory_init 0x1000 [1; 2; 3; 4] 4 = Ok m' ∧
        read_data m' 0x1000 [0; 0; 0; 0] 4 = Ok [1; 2; 3; 4].
Proof.
  destruct (backdoor_roundtrip host_memory_init 0x1000 [1; 2; 3; 4] [0; 0; 0; 0]
    ltac:(lia) ltac:(cbn; lia) ltac:(cbn; lia) ltac:(done) ltac:(done)) as [H _].
  destruct (H ltac:(vm_compute; congruence)) as (m' & H1 & H2 & _). eauto.
Defined.
