(* ===== verification/Float32.v ===== *)
(** * [float] as bit patterns

    The device stores, moves and multiplies [float]s.  Here a [float] is its object
    representation, a 32-bit word, and the two operations the code uses are a class
    [FloatOps] on words: nothing about the control flow of the multiplication
    depends on how they round.  The instance [binary32] decodes a word to the
    Standard Library's executable IEEE-754 specification ([SpecFloat], precision 24,
    maximal exponent 128), rounds to nearest even, and encodes the result.  Each
    operation rounds separately: the build files select no instruction set with a fused
    multiply-add.
    A NaN result is encoded as the quiet NaN 0x7FC00000: its sign and payload are
    the only bits C++ leaves open. *)

From S2P Require Import Prelude.
From Stdlib Require Import SpecFloat.
Local Open Scope Z_scope.

Class FloatOps := {
  fadd : Z → Z → Z;
  fmul : Z → Z → Z
}.

(** The sum of two floats is again a 32-bit word. *)
Class FloatOk `{FloatOps} := fadd_u32 x y : u32 (fadd x y).

Definition f_zero : Z := 0.

(** ** The IEEE-754 binary32 format *)

Definition f_decode (w : Z) : spec_float :=
  let s := Z.testbit w 31 in
  let e := (w / 2 ^ 23) mod 2 ^ 8 in
  let f := w mod 2 ^ 23 in
  if e =? 0 then
    match f with Zpos p => S754_finite s p (-149) | _ => S754_zero s end
  else if e =? 255 then
    if f =? 0 then S754_infinity s else S754_nan
  else
    match f + 2 ^ 23 with Zpos p => S754_finite s p (e - 150) | _ => S754_nan end.

Definition f_sign (s : bool) : Z := if s then 2 ^ 31 else 0.

Definition f_encode (x : spec_float) : Z :=
  match x with
  | S754_zero s => f_sign s
  | S754_infinity s => f_sign s + 0x7F800000
  | S754_nan => 0x7FC00000
  | S754_finite s m e =>
      if Zpos m <? 2 ^ 23 then f_sign s + Zpos m
      else f_sign s + (e + 150) * 2 ^ 23 + (Zpos m - 2 ^ 23)
  end.

Definition f32_add (x y : Z) : Z := w32 (f_encode (SFadd 24 128 (f_decode x) (f_decode y))).
Definition f32_mul (x y : Z) : Z := w32 (f_encode (SFmul 24 128 (f_decode x) (f_decode y))).

(** The conversion of an integer constant to [float]. *)
Definition f32_of_Z (z : Z) : Z := f_encode (binary_normalize 24 128 z 0 false).

#[export] Instance binary32 : FloatOps := { fadd := f32_add; fmul := f32_mul }.
#[export] Instance binary32_ok : FloatOk.
Proof. intros x y. apply w32_range. Qed.

(** Reference values of the format: 1.0f, 2.0f, 0.1f + 0.2f, an overflow, inf - inf. *)
Example float_constants : f32_of_Z 1 = 0x3F800000 ∧ f32_of_Z 2 = 0x40000000 ∧ f32_of_Z (-3) = 0xC0400000.
Proof. done. Qed.
Example float_sums :
  f32_add 0x3DCCCCCD 0x3E4CCCCD = 0x3E99999A ∧
  f32_add 0x7F7FFFFF 0x7F7FFFFF = 0x7F800000 ∧
  f32_add 0x7F800000 0xFF800000 = 0x7FC00000.
Proof. done. Qed.
Example float_products :
  f32_mul 0x3DCCCCCD 0x3DCCCCCD = 0x3C23D70B ∧ f32_mul 0x00000001 0x3F000000 = 0.
Proof. done. Qed.

(** ** Exactness on integers

    Integers below 2^24 in absolute value are floats, and sums and products of such
    integers that stay below 2^24 are exact. *)

Lemma digits_log2 p : Zpos (digits2_pos p) = Z.log2 (Zpos p) + 1.
Proof.
  induction p as [p IH|p IH|]; cbn [digits2_pos]; [| |done].
  - rewrite Pos2Z.inj_succ, IH, (Pos2Z.inj_xI p), Z.log2_succ_double by lia. lia.
  - rewrite Pos2Z.inj_succ, IH, (Pos2Z.inj_xO p), Z.log2_double by lia. lia.
Qed.

Lemma iter_xO_shiftl m d : Zpos (Pos.iter xO m d) = Zpos m * 2 ^ Zpos d.
Proof.
  rewrite (Pos.iter_swap_gen _ _ Zpos xO (Z.mul 2)) by done.
  change (Pos.iter (Z.mul 2) (Zpos m) d) with (Z.shiftl (Zpos m) (Zpos d)).
  by rewrite Z.shiftl_mul_pow2 by lia.
Qed.

Lemma shl_align_spec m e e' :
  Zpos (fst (shl_align m e e')) = Zpos m * 2 ^ (e - Z.min e e') ∧
  snd (shl_align m e e') = Z.min e e'.
Proof.
  unfold shl_align. destruct (e' - e) as [|d|d] eqn:He; cbn [fst snd].
  - replace (Z.min e e') with e by lia. rewrite Z.sub_diag. lia.
  - replace (Z.min e e') with e by lia. rewrite Z.sub_diag. lia.
  - replace (Z.min e e') with e' by lia. rewrite iter_xO_shiftl. split; [|done].
    do 2 f_equal. lia.
Qed.

(** Shifting out zeros loses nothing. *)
Lemma shr_exact p m :
  iter_pos shr_1 p (Build_shr_record (Zpos m * 2 ^ Zpos p) false false) =
  Build_shr_record (Zpos m) false false.
Proof.
  assert (∀ q, shr_1 (Build_shr_record (2 * Zpos q) false false) =
               Build_shr_record (Zpos q) false false) as H1 by done.
  assert (∀ q r, Zpos q * 2 ^ Zpos r = Zpos (Pos.iter xO q r)) as Hp.
  { intros. by rewrite iter_xO_shiftl. }
  revert m. induction p as [p IH|p IH|]; intros m; cbn [iter_pos].
  - replace (Zpos m * 2 ^ Zpos p~1) with (2 * (Zpos m * 2 ^ Zpos p * 2 ^ Zpos p)).
    2:{ rewrite (Pos2Z.inj_xI p), Z.pow_add_r, Z.pow_twice_r by lia. ring. }
    rewrite !Hp, H1, <-Hp, IH. rewrite <-Hp. apply IH.
  - replace (Zpos m * 2 ^ Zpos p~0) with (Zpos m * 2 ^ Zpos p * 2 ^ Zpos p).
    2:{ rewrite (Pos2Z.inj_xO p), Z.pow_twice_r. ring. }
    rewrite !Hp, <-Hp, IH. rewrite <-Hp. apply IH.
  - rewrite Z.mul_comm. apply H1.
Qed.

(** The float whose significand and exponent represent the integer [p]. *)
Definition f_significand (p : positive) : positive := Z.to_pos (Zpos p * 2 ^ (23 - Z.log2 (Zpos p))).
Definition f_int (s : bool) (p : positive) : spec_float :=
  S754_finite s (f_significand p) (Z.log2 (Zpos p) - 23).

Lemma log2_small p : Zpos p < 2 ^ 24 → 0 ≤ Z.log2 (Zpos p) ≤ 23.
Proof.
  intros Hp. split; [apply Z.log2_nonneg|].
  assert (Z.log2 (Zpos p) < 24); [|lia]. apply Z.log2_lt_pow2; lia.
Qed.

Lemma f_significand_spec p : Zpos p < 2 ^ 24 →
  Zpos (f_significand p) = Zpos p * 2 ^ (23 - Z.log2 (Zpos p)) ∧
  2 ^ 23 ≤ Zpos (f_significand p) < 2 ^ 24.
Proof.
  intros Hp. pose proof (log2_small p Hp). unfold f_significand.
  rewrite Z2Pos.id by (apply Z.mul_pos_pos; [lia | apply Z.pow_pos_nonneg; lia]).
  split; [done|].
  destruct (Z.log2_spec (Zpos p) ltac:(lia)) as [H1 H2].
  replace (2 ^ 23) with (2 ^ Z.log2 (Zpos p) * 2 ^ (23 - Z.log2 (Zpos p))).
  2:{ rewrite <-Z.pow_add_r by lia. f_equal. lia. }
  replace (2 ^ 24) with (2 ^ Z.succ (Z.log2 (Zpos p)) * 2 ^ (23 - Z.log2 (Zpos p))).
  2:{ rewrite <-Z.pow_add_r by lia. f_equal. lia. }
  assert (0 < 2 ^ (23 - Z.log2 (Zpos p))) by (apply Z.pow_pos_nonneg; lia).
  split; [apply Z.mul_le_mono_nonneg_r | apply Z.mul_lt_mono_pos_r]; lia.
Qed.

(** [m * 2^e = p], stated over the integers. *)
Definition same_value (m : positive) (e : Z) (p : positive) : Prop :=
  ∃ k, 0 ≤ k ∧ 0 ≤ e + k ∧ Zpos m * 2 ^ (e + k) = Zpos p * 2 ^ k.

Lemma same_value_log2 m e p : same_value m e p → Z.log2 (Zpos m) + e = Z.log2 (Zpos p).
Proof.
  intros (k & Hk & He & H). apply (f_equal Z.log2) in H.
  rewrite !Z.log2_mul_pow2 in H by lia. lia.
Qed.

(** A significand at or below the canonical exponent is the canonical one, shifted. *)
Lemma same_value_shift m e p : Zpos p < 2 ^ 24 → same_value m e p →
  e ≤ Z.log2 (Zpos p) - 23 →
  Zpos m = Zpos (f_significand p) * 2 ^ (Z.log2 (Zpos p) - 23 - e).
Proof.
  intros Hp (k & Hk & He & H) Hle.
  destruct (f_significand_spec p Hp) as [-> _]. pose proof (log2_small p Hp).
  apply (Z.mul_cancel_r _ _ (2 ^ (e + k))); [apply Z.pow_nonzero; lia|].
  rewrite H, <-!Z.mul_assoc. f_equal. rewrite <-!Z.pow_add_r by lia. f_equal. lia.
Qed.

Lemma fexp_int p : Zpos p < 2 ^ 24 →
  fexp 24 128 (Z.log2 (Zpos p) + 1) = Z.log2 (Zpos p) - 23.
Proof. intros Hp. pose proof (log2_small p Hp). unfold fexp, emin. lia. Qed.

Lemma shr_fexp_int m e p : Zpos p < 2 ^ 24 → same_value m e p →
  e ≤ Z.log2 (Zpos p) - 23 →
  shr_fexp 24 128 (Zpos m) e loc_Exact =
    (Build_shr_record (Zpos (f_significand p)) false false, Z.log2 (Zpos p) - 23).
Proof.
  intros Hp Hv Hle. unfold shr_fexp, Zdigits2, shr_record_of_loc.
  rewrite digits_log2.
  replace (Z.log2 (Zpos m) + 1 + e) with (Z.log2 (Zpos p) + 1)
    by (pose proof (same_value_log2 _ _ _ Hv); lia).
  rewrite fexp_int by done.
  rewrite (same_value_shift m e p Hp Hv Hle).
  destruct (Z.log2 (Zpos p) - 23 - e) as [|n|n] eqn:Hn; [| |lia]; cbn [shr].
  - rewrite Z.mul_1_r. f_equal. lia.
  - rewrite shr_exact. f_equal. lia.
Qed.

Lemma f_int_value p : Zpos p < 2 ^ 24 →
  same_value (f_significand p) (Z.log2 (Zpos p) - 23) p.
Proof.
  intros Hp. pose proof (log2_small p Hp). exists (23 - Z.log2 (Zpos p)).
  split; [lia|]. split; [lia|].
  replace (Z.log2 (Zpos p) - 23 + (23 - Z.log2 (Zpos p))) with 0 by lia.
  destruct (f_significand_spec p Hp) as [-> _]. lia.
Qed.

Lemma round_aux_int s m e p : Zpos p < 2 ^ 24 → same_value m e p →
  e ≤ Z.log2 (Zpos p) - 23 →
  binary_round_aux 24 128 s (Zpos m) e loc_Exact = f_int s p.
Proof.
  intros Hp Hv Hle. unfold binary_round_aux. rewrite (shr_fexp_int m e p) by done.
  cbn [loc_of_shr_record round_nearest_even shr_m].
  rewrite (shr_fexp_int _ _ p) by (done || by apply f_int_value).
  cbn [shr_m]. pose proof (log2_small p Hp).
  by rewrite (proj2 (Z.leb_le _ _)) by lia.
Qed.

Lemma round_int s m e p : Zpos p < 2 ^ 24 → same_value m e p →
  binary_round 24 128 s m e = f_int s p.
Proof.
  intros Hp Hv. unfold binary_round. rewrite digits_log2.
  replace (Z.log2 (Zpos m) + 1 + e) with (Z.log2 (Zpos p) + 1)
    by (pose proof (same_value_log2 _ _ _ Hv); lia).
  rewrite fexp_int by done.
  destruct (shl_align _ _ _) as [mz ez] eqn:Ha.
  destruct (shl_align_spec m e (Z.log2 (Zpos p) - 23)) as [H1 H2].
  rewrite Ha in H1, H2. cbn [fst snd] in H1, H2. subst ez.
  apply round_aux_int; [done| |lia].
  destruct Hv as (k & Hk & He & H).
  exists (k + (e - Z.min e (Z.log2 (Zpos p) - 23))). split; [lia|]. split; [lia|].
  rewrite H1, (Z.pow_add_r 2 k), Z.mul_assoc, <-H by lia.
  rewrite <-!Z.mul_assoc, <-!Z.pow_add_r by lia. do 2 f_equal. lia.
Qed.

(** Integers as floats: zero is positive zero. *)
Definition sf_int (z : Z) : spec_float :=
  match z with
  | Z0 => S754_zero false
  | Zpos p => f_int false p
  | Zneg p => f_int true p
  end.

Lemma normalize_int m e z :
  Z.abs z < 2 ^ 24 →
  (∃ k, 0 ≤ k ∧ 0 ≤ e + k ∧ m * 2 ^ (e + k) = z * 2 ^ k) →
  binary_normalize 24 128 m e false = sf_int z.
Proof.
  intros Hz (k & Hk & He & H).
  assert (Z.sgn m = Z.sgn z) as Hsgn.
  { apply (f_equal Z.sgn) in H. rewrite !Z.sgn_mul in H.
    rewrite (Z.sgn_pos (2 ^ (e + k))), (Z.sgn_pos (2 ^ k)) in H by (apply Z.pow_pos_nonneg; lia).
    by rewrite !Z.mul_1_r in H. }
  destruct m as [|m|m], z as [|p|p]; try discriminate Hsgn; cbn [binary_normalize sf_int]; [done| |].
  - apply round_int; [done|]. by exists k.
  - apply round_int; [done|]. exists k. split; [done|]. split; [done|].
    rewrite <-!Pos2Z.opp_pos, !Z.mul_opp_l in H. lia.
Qed.

Lemma of_Z_int z : Z.abs z < 2 ^ 24 → f32_of_Z z = f_encode (sf_int z).
Proof.
  intros Hz. unfold f32_of_Z. f_equal.
  apply normalize_int; [done|]. exists 0. by rewrite Z.add_0_l.
Qed.

Lemma decode_zero s : f_decode (f_encode (S754_zero s)) = S754_zero s.
Proof. by destruct s. Qed.

Lemma encode_normal s m e : 2 ^ 23 ≤ Zpos m < 2 ^ 24 → -149 ≤ e ≤ 104 →
  let w := f_encode (S754_finite s m e) in
  u32 w ∧ f_decode w = S754_finite s m e.
Proof.
  intros Hm He. cbn [f_encode]. rewrite (proj2 (Z.ltb_ge _ _)) by lia.
  set (w := f_sign s + (e + 150) * 2 ^ 23 + (Zpos m - 2 ^ 23)).
  assert (w = (f_sign s / 2 ^ 23 + (e + 150)) * 2 ^ 23 + (Zpos m - 2 ^ 23)) as Hw.
  { unfold w. destruct s; unfold f_sign; [change (2 ^ 31 / 2 ^ 23) with 256 | change (0 / 2 ^ 23) with 0]; lia. }
  assert (w / 2 ^ 23 = f_sign s / 2 ^ 23 + (e + 150)) as Hq.
  { rewrite Hw, Z.div_add_l, (Z.div_small (Zpos m - 2 ^ 23)) by lia. lia. }
  cbv zeta. split.
  { unfold w. destruct s; unfold f_sign; lia. }
  unfold f_decode. rewrite Hq.
  replace ((f_sign s / 2 ^ 23 + (e + 150)) mod 2 ^ 8) with (e + 150).
  2:{ replace (f_sign s / 2 ^ 23) with ((if s then 1 else 0) * 2 ^ 8) by (by destruct s).
      rewrite (Z.add_comm (_ * _)), Z.mod_add, Z.mod_small by lia. done. }
  replace (w mod 2 ^ 23) with (Zpos m - 2 ^ 23).
  2:{ rewrite Hw, (Z.add_comm (_ * _)), Z.mod_add, Z.mod_small by lia. done. }
  rewrite !(proj2 (Z.eqb_neq _ _)) by lia.
  replace (Zpos m - 2 ^ 23 + 2 ^ 23) with (Zpos m) by lia.
  f_equal; [|lia].
  rewrite Z.testbit_odd, Z.shiftr_div_pow2 by lia.
  destruct s; cbn [f_sign] in w.
  - replace (w / 2 ^ 31) with 1; [done|].
    apply (Z.div_unique _ _ _ (w - 2 ^ 31)); lia.
  - rewrite Z.div_small; [done|lia].
Qed.

Lemma decode_int z : Z.abs z < 2 ^ 24 →
  u32 (f_encode (sf_int z)) ∧ f_decode (f_encode (sf_int z)) = sf_int z.
Proof.
  intros Hz. destruct z as [|p|p]; cbn [sf_int]; [by split| |];
    (assert (Zpos p < 2 ^ 24) by lia; pose proof (log2_small p ltac:(done));
     destruct (f_significand_spec p ltac:(done)) as [_ ?];
     apply encode_normal; lia).
Qed.

Lemma of_Z_u32 z : Z.abs z < 2 ^ 24 → u32 (f32_of_Z z).
Proof. intros Hz. rewrite of_Z_int by done. by apply decode_int. Qed.

Lemma decode_of_Z z : Z.abs z < 2 ^ 24 → f_decode (f32_of_Z z) = sf_int z.
Proof. intros Hz. rewrite of_Z_int by done. by apply decode_int. Qed.

(** Addition of integers. *)
Lemma SFadd_int a b : Z.abs a < 2 ^ 24 → Z.abs b < 2 ^ 24 → Z.abs (a + b) < 2 ^ 24 →
  SFadd 24 128 (sf_int a) (sf_int b) = sf_int (a + b).
Proof.
  intros Ha Hb Hab.
  assert (∀ s p e, Zpos p < 2 ^ 24 → e ≤ Z.log2 (Zpos p) - 23 → e ≤ 0 →
    cond_Zopp s (Zpos (fst (shl_align (f_significand p) (Z.log2 (Zpos p) - 23) e))) =
    cond_Zopp s (Zpos p) * 2 ^ (- e)) as Hal.
  { intros s p e Hp He He0. pose proof (log2_small p Hp).
    destruct (shl_align_spec (f_significand p) (Z.log2 (Zpos p) - 23) e) as [-> _].
    rewrite Z.min_r by lia.
    destruct (f_significand_spec p Hp) as [-> _].
    rewrite <-Z.mul_assoc, <-Z.pow_add_r by lia.
    replace (23 - _ + _) with (- e) by lia. destruct s; cbn [cond_Zopp]; ring. }
  assert (∀ (sa sb : bool) (p q : positive), Zpos p < 2 ^ 24 → Zpos q < 2 ^ 24 →
    cond_Zopp sa (Zpos p) = a → cond_Zopp sb (Zpos q) = b →
    SFadd 24 128 (f_int sa p) (f_int sb q) = sf_int (a + b)) as Hfin.
  { intros sa sb p q Hp Hq HA HB. unfold f_int. cbn [SFadd].
    pose proof (log2_small p Hp). pose proof (log2_small q Hq).
    rewrite !Hal by lia. rewrite HA, HB.
    set (ez := Z.min _ _).
    apply normalize_int; [done|]. exists (- ez). split; [lia|]. split; [lia|].
    rewrite Z.add_opp_diag_r, Z.mul_1_r. ring. }
  destruct a as [|p|p], b as [|q|q]; try done;
    try (apply Hfin; done || lia).
Qed.

(** A product of integers, up to the sign of zero, which a sum forgets. *)
Lemma SFmul_int a b : Z.abs a < 2 ^ 24 → Z.abs b < 2 ^ 24 → Z.abs (a * b) < 2 ^ 24 →
  SFmul 24 128 (sf_int a) (sf_int b) = sf_int (a * b) ∨
  (a * b = 0 ∧ SFmul 24 128 (sf_int a) (sf_int b) = S754_zero true).
Proof.
  intros Ha Hb Hab.
  assert (∀ (sa sb : bool) (p q : positive), Zpos p < 2 ^ 24 → Zpos q < 2 ^ 24 →
    Zpos (p * q) < 2 ^ 24 →
    SFmul 24 128 (f_int sa p) (f_int sb q) = f_int (xorb sa sb) (p * q)) as Hfin.
  { intros sa sb p q Hp Hq Hpq. unfold f_int at 1 2. cbn [SFmul].
    pose proof (log2_small p Hp). pose proof (log2_small q Hq).
    destruct (f_significand_spec p Hp) as [H1 H1']. destruct (f_significand_spec q Hq) as [H2 H2'].
    assert (same_value (f_significand p * f_significand q)
      (Z.log2 (Zpos p) - 23 + (Z.log2 (Zpos q) - 23)) (p * q)) as Hv.
    { exists (46 - Z.log2 (Zpos p) - Z.log2 (Zpos q)). split; [lia|]. split; [lia|].
      rewrite !Pos2Z.inj_mul, H1, H2.
      replace (_ + _) with 0 by lia. rewrite Z.mul_1_r.
      replace (46 - _ - _) with ((23 - Z.log2 (Zpos p)) + (23 - Z.log2 (Zpos q))) by lia.
      rewrite Z.pow_add_r by lia. ring. }
    apply round_aux_int; [done|done|].
    pose proof (same_value_log2 _ _ _ Hv).
    assert (46 ≤ Z.log2 (Zpos (f_significand p * f_significand q))); [|lia].
    apply Z.log2_le_pow2; [lia|]. rewrite Pos2Z.inj_mul.
    change (2 ^ 46) with (2 ^ 23 * 2 ^ 23). apply Z.mul_le_mono_nonneg; lia. }
  destruct a as [|p|p], b as [|q|q]; try (by left); try (by right);
    left; cbn [sf_int Z.mul]; rewrite Hfin by lia; done.
Qed.

(** One step of the inner loop, [sum += a * b], on integers. *)
Lemma f32_mac_int s a b :
  Z.abs s < 2 ^ 24 → Z.abs a < 2 ^ 24 → Z.abs b < 2 ^ 24 →
  Z.abs (a * b) < 2 ^ 24 → Z.abs (s + a * b) < 2 ^ 24 →
  f32_add (f32_of_Z s) (f32_mul (f32_of_Z a) (f32_of_Z b)) = f32_of_Z (s + a * b).
Proof.
  intros Hs Ha Hb Hab Hsab. unfold f32_add, f32_mul.
  rewrite !decode_of_Z by done.
  destruct (SFmul_int a b Ha Hb Hab) as [-> | [H0 ->]].
  - rewrite (w32_id (f_encode (sf_int (a * b)))) by (by apply decode_int).
    rewrite (proj2 (decode_int _ Hab)), SFadd_int by done.
    rewrite of_Z_int by done. apply w32_id. by apply decode_int.
  - rewrite (w32_id (f_encode (S754_zero true))), decode_zero by (cbn; lia).
    rewrite H0, Z.add_0_r.
    transitivity (w32 (f_encode (sf_int s))).
    + by destruct s.
    + rewrite of_Z_int by done. apply w32_id. by apply decode_int.
Qed.

(** ** One and zero

    Multiplication by 1 and 0 is exact for every finite float, subnormal ones included. *)

(** The significand and exponent [f_decode] gives to a finite non-zero float. *)
Definition canonical (m : positive) (e : Z) : Prop :=
  (2 ^ 23 ≤ Zpos m < 2 ^ 24 ∧ -149 ≤ e ≤ 104) ∨ (Zpos m < 2 ^ 23 ∧ e = -149).

Lemma canonical_log2 m e : canonical m e →
  0 ≤ Z.log2 (Zpos m) ≤ 23 ∧ fexp 24 128 (Z.log2 (Zpos m) + 1 + e) = e ∧ -149 ≤ e ≤ 104.
Proof.
  intros Hc. assert (0 ≤ Z.log2 (Zpos m) ≤ 23) as Hl.
  { apply log2_small. destruct Hc as [[[_ ?] _]|[? _]]; lia. }
  split; [done|]. unfold fexp, emin. destruct Hc as [[[H1 H2] He]|[Hm ->]]; [|lia].
  assert (Z.log2 (Zpos m) = 23) as ->; [|lia].
  apply Z.log2_unique; [lia|]. change (2 ^ Z.succ 23) with (2 ^ 24). lia.
Qed.

(** A canonical significand, shifted left by any amount, rounds to itself. *)
Lemma shr_fexp_canonical m e d : canonical m e → 0 ≤ d →
  shr_fexp 24 128 (Zpos m * 2 ^ d) (e - d) loc_Exact =
    (Build_shr_record (Zpos m) false false, e).
Proof.
  intros Hc Hd. destruct (canonical_log2 m e Hc) as (Hl & Hf & _).
  assert (∃ q, Zpos m * 2 ^ d = Zpos q) as [q Hq].
  { exists (Z.to_pos (Zpos m * 2 ^ d)). rewrite Z2Pos.id; [done|].
    apply Z.mul_pos_pos; [lia|]. apply Z.pow_pos_nonneg; lia. }
  unfold shr_fexp, Zdigits2, shr_record_of_loc. rewrite Hq, digits_log2, <-Hq.
  rewrite Z.log2_mul_pow2 by lia.
  replace (d + Z.log2 (Zpos m) + 1 + (e - d)) with (Z.log2 (Zpos m) + 1 + e) by lia.
  rewrite Hf. replace (e - (e - d)) with d by lia.
  destruct d as [|d|d]; [|cbn [shr]|lia].
  - cbn [shr]. rewrite Z.mul_1_r. f_equal. lia.
  - rewrite shr_exact. f_equal. lia.
Qed.

Lemma round_aux_canonical s m e d : canonical m e → 0 ≤ d →
  binary_round_aux 24 128 s (Zpos m * 2 ^ d) (e - d) loc_Exact = S754_finite s m e.
Proof.
  intros Hc Hd. unfold binary_round_aux. rewrite shr_fexp_canonical by done.
  cbn [loc_of_shr_record round_nearest_even shr_m].
  pose proof (shr_fexp_canonical m e 0 Hc ltac:(lia)) as H0.
  rewrite Z.mul_1_r, Z.sub_0_r in H0. rewrite H0. cbn [shr_m].
  destruct (canonical_log2 m e Hc) as (_ & _ & He).
  by rewrite (proj2 (Z.leb_le _ _)) by lia.
Qed.

(** Not an infinity and not a NaN. *)
Definition f_finite (w : Z) : Prop := u32 w ∧ (w / 2 ^ 23) mod 2 ^ 8 ≠ 255.

(** [+0.0] or [-0.0] *)
Definition f_is_zero (w : Z) : bool := w mod 2 ^ 31 =? 0.

Lemma u32_parts w : u32 w →
  w = f_sign (Z.testbit w 31) + (w / 2 ^ 23) mod 2 ^ 8 * 2 ^ 23 + w mod 2 ^ 23 ∧
  0 ≤ (w / 2 ^ 23) mod 2 ^ 8 < 256 ∧ 0 ≤ w mod 2 ^ 23 < 2 ^ 23.
Proof.
  intros [H0 H1]. pose proof (Z.mod_pos_bound w (2 ^ 23) ltac:(lia)).
  pose proof (Z.mod_pos_bound (w / 2 ^ 23) (2 ^ 8) ltac:(lia)).
  split; [|lia].
  rewrite Z.testbit_odd, Z.shiftr_div_pow2 by lia.
  pose proof (Z.div_mod w (2 ^ 23) ltac:(lia)) as E1.
  pose proof (Z.div_mod (w / 2 ^ 23) (2 ^ 8) ltac:(lia)) as E2.
  rewrite Z.div_div in E2 by lia. change (2 ^ 23 * 2 ^ 8) with (2 ^ 31) in E2.
  assert (w / 2 ^ 31 = 0 ∨ w / 2 ^ 31 = 1) as [E|E].
  { assert (0 ≤ w / 2 ^ 31) by (apply Z.div_pos; lia).
    assert (w / 2 ^ 31 < 2) by (apply Z.div_lt_upper_bound; lia). lia. }
  all: rewrite E in E2 |- *; unfold f_sign; cbn [Z.odd]; lia.
Qed.

(** A finite float is zero or a canonical number, and encodes back to itself. *)
Lemma decode_finite w : f_finite w →
  (f_is_zero w = true ∧ f_decode w = S754_zero (Z.testbit w 31)) ∨
  (f_is_zero w = false ∧ ∃ s m e, f_decode w = S754_finite s m e ∧ canonical m e ∧
     w32 (f_encode (S754_finite s m e)) = w).
Proof.
  intros [Hw He]. destruct (u32_parts w Hw) as (E & Hr & Hf).
  assert (f_is_zero w = ((w / 2 ^ 23) mod 2 ^ 8 =? 0) && (w mod 2 ^ 23 =? 0)) as ->.
  { unfold f_is_zero. set (x := (w / 2 ^ 23) mod 2 ^ 8) in *. set (f := w mod 2 ^ 23) in *.
    assert (w mod 2 ^ 31 = x * 2 ^ 23 + f) as ->.
    { rewrite E. unfold f_sign. destruct (Z.testbit w 31).
      - replace (2 ^ 31 + x * 2 ^ 23 + f) with (x * 2 ^ 23 + f + 1 * 2 ^ 31) by lia.
        rewrite Z.mod_add by lia. rewrite Z.mod_small; lia.
      - rewrite Z.mod_small; lia. }
    destruct (Z.eqb_spec x 0), (Z.eqb_spec f 0), (Z.eqb_spec (x * 2 ^ 23 + f) 0); cbn; lia. }
  unfold f_decode. set (s := Z.testbit w 31) in *. set (x := (w / 2 ^ 23) mod 2 ^ 8) in *.
  set (f := w mod 2 ^ 23) in *. clearbody s x f.
  destruct (Z.eqb_spec x 0) as [->|Hx].
  - destruct f as [|p|p]; [by left| |lia]. right. split; [done|].
    exists s, p, (-149). split; [done|]. split; [right; lia|].
    cbn [f_encode]. rewrite (proj2 (Z.ltb_lt _ _)) by lia. rewrite w32_id; [lia|].
    rewrite E in Hw. destruct Hw. lia.
  - rewrite (proj2 (Z.eqb_neq x 255)) by exact He. right. split; [done|].
    destruct (f + 2 ^ 23) as [|p|p] eqn:Hp; [lia| |lia].
    exists s, p, (x - 150). split; [done|]. split; [left; lia|].
    cbn [f_encode]. rewrite (proj2 (Z.ltb_ge _ _)) by lia.
    replace (f_sign s + (x - 150 + 150) * 2 ^ 23 + (Zpos p - 2 ^ 23)) with w by lia.
    by apply w32_id.
Qed.

Definition f_one : Z := 0x3F800000.

(** [0.0f * x] is a zero, [s + 0.0f] is [s]; [1.0f * x] is [x], but for the sign of
    zero which the sum of the loop forgets. *)
Definition unsigned_zero (w : Z) : Z := if f_is_zero w then 0 else w.

Lemma f32_mul_zero w : f_finite w → f32_mul 0 w = 0 ∨ f32_mul 0 w = 2 ^ 31.
Proof.
  intros Hw. unfold f32_mul. change (f_decode 0) with (S754_zero false).
  destruct (decode_finite w Hw) as [[_ ->]|(_ & s & m & e & -> & _)]; cbn [SFmul];
    [destruct (Z.testbit w 31)|destruct s]; vm_compute; auto.
Qed.

Lemma f32_mul_one w : f_finite w → f_is_zero w = false → f32_mul f_one w = w.
Proof.
  intros Hw Hz. unfold f32_mul.
  change (f_decode f_one) with (S754_finite false 8388608 (-23)).
  destruct (decode_finite w Hw) as [[? _]|(_ & s & m & e & -> & Hc & He)]; [congruence|].
  cbn [SFmul]. rewrite Bool.xorb_false_l.
  replace (Zpos (8388608 * m)) with (Zpos m * 2 ^ 23) by lia.
  replace (-23 + e) with (e - 23) by lia. by rewrite round_aux_canonical.
Qed.

Lemma f32_mul_one_zero w : f_finite w → f_is_zero w = true →
  f32_mul f_one w = 0 ∨ f32_mul f_one w = 2 ^ 31.
Proof.
  intros Hw Hz. unfold f32_mul.
  change (f_decode f_one) with (S754_finite false 8388608 (-23)).
  destruct (decode_finite w Hw) as [[_ ->]|(? & _)]; [|congruence].
  cbn [SFmul]. destruct (Z.testbit w 31); vm_compute; auto.
Qed.

(** A finite float, [-0.0] excepted, keeps its value when a zero is added. *)
Lemma f32_add_zero w z : f_finite w → (f_is_zero w = true → w = 0) → z = 0 ∨ z = 2 ^ 31 →
  f32_add w z = w.
Proof.
  intros Hw H0 Hz. unfold f32_add.
  assert (∃ s, f_decode z = S754_zero s) as [sz ->].
  { destruct Hz as [-> | ->]; [by exists false|by exists true]. }
  destruct (decode_finite w Hw) as [[Hzero ->]|(_ & s & m & e & -> & _ & He)].
  - rewrite (H0 Hzero). change (Z.testbit 0 31) with false. by destruct sz.
  - exact He.
Qed.

Lemma f32_add_zero_l w : f_finite w → f_is_zero w = false → f32_add 0 w = w.
Proof.
  intros Hw Hz. unfold f32_add. change (f_decode 0) with (S754_zero false).
  destruct (decode_finite w Hw) as [[? _]|(_ & s & m & e & -> & _ & He)]; [congruence|].
  exact He.
Qed.

Lemma unsigned_zero_finite w : f_finite w →
  f_finite (unsigned_zero w) ∧ (f_is_zero (unsigned_zero w) = true → unsigned_zero w = 0).
Proof.
  intros Hw. unfold unsigned_zero. destruct (f_is_zero w) eqn:Hz.
  - split; [|done]. by split.
  - split; [done|]. congruence.
Qed.
