(* ===== verification/Registers.v ===== *)
(** * The register file of the matrix multiplier

    The MMIO side of [matrix_multiplier_pcie.h]: the register map, [reset_device],
    [handle_mmio_read], [handle_mmio_write] and the transport callback
    [bar0_b_transport].  The events the handlers notify are returned, in order; what
    a notification does is the business of [Device.v]. *)

From S2P Require Import Prelude Tlm.
Local Open Scope Z_scope.

Definition REG_CONTROL : Z := 0x0000.
Definition REG_STATUS : Z := 0x0004.
Definition REG_DIM_N : Z := 0x0008.
Definition REG_MATRIX_A_PTR : Z := 0x0010.
Definition REG_MATRIX_B_PTR : Z := 0x0018.
Definition REG_MATRIX_C_PTR : Z := 0x0020.
Definition REG_INT_STATUS : Z := 0x0028.
Definition REG_INT_ENABLE : Z := 0x002C.

Definition CTRL_START : Z := Z.shiftl 1 0.
Definition CTRL_RESET : Z := Z.shiftl 1 1.

Definition STATUS_IDLE : Z := Z.shiftl 1 0.
Definition STATUS_BUSY : Z := Z.shiftl 1 1.
Definition STATUS_DONE : Z := Z.shiftl 1 2.
Definition STATUS_ERROR : Z := Z.shiftl 1 3.

Definition INT_DONE : Z := Z.shiftl 1 0.

(** The data members of the module. *)
Record dev := Dev {
  reg_control : Z;
  reg_status : Z;
  reg_dim_n : Z;
  reg_matrix_a_ptr : Z;
  reg_matrix_b_ptr : Z;
  reg_matrix_c_ptr : Z;
  reg_int_status : Z;
  reg_int_enable : Z;
  computation_requested : bool
}.

#[export] Instance dev_eq_dec : EqDecision dev.
Proof. solve_decision. Defined.

(** The two [sc_event] members. *)
Inductive event :=
| start_event
| interrupt_update_event.

#[export] Instance event_eq_dec : EqDecision event.
Proof. solve_decision. Defined.

(** Assignments to one member. *)
Definition set_control (v : Z) (d : dev) : dev :=
  Dev v (reg_status d) (reg_dim_n d) (reg_matrix_a_ptr d) (reg_matrix_b_ptr d)
    (reg_matrix_c_ptr d) (reg_int_status d) (reg_int_enable d) (computation_requested d).
Definition set_status (v : Z) (d : dev) : dev :=
  Dev (reg_control d) v (reg_dim_n d) (reg_matrix_a_ptr d) (reg_matrix_b_ptr d)
    (reg_matrix_c_ptr d) (reg_int_status d) (reg_int_enable d) (computation_requested d).
Definition set_dim_n (v : Z) (d : dev) : dev :=
  Dev (reg_control d) (reg_status d) v (reg_matrix_a_ptr d) (reg_matrix_b_ptr d)
    (reg_matrix_c_ptr d) (reg_int_status d) (reg_int_enable d) (computation_requested d).
Definition set_a_ptr (v : Z) (d : dev) : dev :=
  Dev (reg_control d) (reg_status d) (reg_dim_n d) v (reg_matrix_b_ptr d)
    (reg_matrix_c_ptr d) (reg_int_status d) (reg_int_enable d) (computation_requested d).
Definition set_b_ptr (v : Z) (d : dev) : dev :=
  Dev (reg_control d) (reg_status d) (reg_dim_n d) (reg_matrix_a_ptr d) v
    (reg_matrix_c_ptr d) (reg_int_status d) (reg_int_enable d) (computation_requested d).
Definition set_c_ptr (v : Z) (d : dev) : dev :=
  Dev (reg_control d) (reg_status d) (reg_dim_n d) (reg_matrix_a_ptr d) (reg_matrix_b_ptr d)
    v (reg_int_status d) (reg_int_enable d) (computation_requested d).
Definition set_int_status (v : Z) (d : dev) : dev :=
  Dev (reg_control d) (reg_status d) (reg_dim_n d) (reg_matrix_a_ptr d) (reg_matrix_b_ptr d)
    (reg_matrix_c_ptr d) v (reg_int_enable d) (computation_requested d).
Definition set_int_enable (v : Z) (d : dev) : dev :=
  Dev (reg_control d) (reg_status d) (reg_dim_n d) (reg_matrix_a_ptr d) (reg_matrix_b_ptr d)
    (reg_matrix_c_ptr d) (reg_int_status d) v (computation_requested d).
Definition set_requested (b : bool) (d : dev) : dev :=
  Dev (reg_control d) (reg_status d) (reg_dim_n d) (reg_matrix_a_ptr d) (reg_matrix_b_ptr d)
    (reg_matrix_c_ptr d) (reg_int_status d) (reg_int_enable d) b.

(** [reset_device] assigns every member, so it has no argument. *)
Definition reset_device : dev :=
  Dev 0 STATUS_IDLE 0 0 0 0 0 0 false.

(** [if (x & bit)] *)
Definition has_bit (x bit : Z) : bool := negb (Z.land x bit =? 0).

(** ** Reads

    The result is the contents of the buffer [data] points to. *)
Definition handle_mmio_read (d : dev) (addr : Z) (data : list Z) (len : Z) : res (list Z) :=
  let reply value := memcpy data (le_bytes 4 value) len in
  if addr =? REG_CONTROL then reply (reg_control d)
  else if addr =? REG_STATUS then reply (reg_status d)
  else if addr =? REG_DIM_N then reply (reg_dim_n d)
  else if addr =? REG_MATRIX_A_PTR then
    if len =? 8 then memcpy data (le_bytes 8 (reg_matrix_a_ptr d)) 8
    else reply (w32 (reg_matrix_a_ptr d))
  else if addr =? REG_MATRIX_A_PTR + 4 then reply (w32 (Z.shiftr (reg_matrix_a_ptr d) 32))
  else if addr =? REG_MATRIX_B_PTR then
    if len =? 8 then memcpy data (le_bytes 8 (reg_matrix_b_ptr d)) 8
    else reply (w32 (reg_matrix_b_ptr d))
  else if addr =? REG_MATRIX_B_PTR + 4 then reply (w32 (Z.shiftr (reg_matrix_b_ptr d) 32))
  else if addr =? REG_MATRIX_C_PTR then
    if len =? 8 then memcpy data (le_bytes 8 (reg_matrix_c_ptr d)) 8
    else reply (w32 (reg_matrix_c_ptr d))
  else if addr =? REG_MATRIX_C_PTR + 4 then reply (w32 (Z.shiftr (reg_matrix_c_ptr d) 32))
  else if addr =? REG_INT_STATUS then reply (reg_int_status d)
  else if addr =? REG_INT_ENABLE then reply (reg_int_enable d)
  else reply 0xDEADBEEF.

(** ** Writes *)

(** The low and the high half of a 64-bit pointer register. *)
Definition put_lo (ptr value : Z) : Z := Z.lor (Z.land ptr 0xFFFFFFFF00000000) value.
Definition put_hi (ptr value : Z) : Z :=
  Z.lor (Z.land ptr 0xFFFFFFFF) (w64 (Z.shiftl value 32)).

(** [case REG_CONTROL] *)
Definition write_control (d : dev) (value : Z) : dev * list event :=
  let d := set_control value d in
  let d := if has_bit value CTRL_RESET then reset_device else d in
  if has_bit value CTRL_START then
    if has_bit (reg_status d) STATUS_IDLE then (set_requested true d, [start_event])
    else (d, [])
  else (d, []).

Definition handle_mmio_write (d : dev) (addr : Z) (data : list Z) (len : Z)
    : res (dev * list event) :=
  value ← (if len =? 4 then v ← memcpy (replicate 4 0) data 4; Ok (le_val v) else Ok 0);
  value64 ← (if len =? 4 then Ok 0
             else if len =? 8 then v ← memcpy (replicate 8 0) data 8; Ok (le_val v) else Ok 0);
  Ok (
  if addr =? REG_CONTROL then write_control d value
  else if addr =? REG_DIM_N then (set_dim_n value d, [])
  else if addr =? REG_MATRIX_A_PTR then
    if len =? 8 then (set_a_ptr value64 d, [])
    else (set_a_ptr (put_lo (reg_matrix_a_ptr d) value) d, [])
  else if addr =? REG_MATRIX_A_PTR + 4 then
    (set_a_ptr (put_hi (reg_matrix_a_ptr d) value) d, [])
  else if addr =? REG_MATRIX_B_PTR then
    if len =? 8 then (set_b_ptr value64 d, [])
    else (set_b_ptr (put_lo (reg_matrix_b_ptr d) value) d, [])
  else if addr =? REG_MATRIX_B_PTR + 4 then
    (set_b_ptr (put_hi (reg_matrix_b_ptr d) value) d, [])
  else if addr =? REG_MATRIX_C_PTR then
    if len =? 8 then (set_c_ptr value64 d, [])
    else (set_c_ptr (put_lo (reg_matrix_c_ptr d) value) d, [])
  else if addr =? REG_MATRIX_C_PTR + 4 then
    (set_c_ptr (put_hi (reg_matrix_c_ptr d) value) d, [])
  else if addr =? REG_INT_STATUS then
    (set_int_status (Z.land (reg_int_status d) (not32 value)) d, [interrupt_update_event])
  else if addr =? REG_INT_ENABLE then
    (set_int_enable value d, [interrupt_update_event])
  else (d, [])).

(** ** The transport callback of BAR 0 *)
Definition bar0_transport (d : dev) (trans : payload) (delay : Z)
    : res (dev * list event * payload * Z) :=
  let cmd := command trans in
  let addr := address trans in
  let ptr := data trans in
  let len := data_length trans in
  if negb (len =? 4) && negb (len =? 8) then
    Ok (d, [], set_response TLM_GENERIC_ERROR_RESPONSE trans, delay)
  else
    '(d, evs, ptr) ←
      (if bool_decide (cmd = TLM_READ_COMMAND) then
         ptr ← handle_mmio_read d addr ptr len; Ok (d, [], ptr)
       else if bool_decide (cmd = TLM_WRITE_COMMAND) then
         '(d, evs) ← handle_mmio_write d addr ptr len; Ok (d, evs, ptr)
       else Ok (d, [], ptr));
    Ok (d, evs, set_response TLM_OK_RESPONSE (set_data ptr trans), delay + 10).

(** ** Well-formed registers *)

Record dev_wf (d : dev) : Prop := {
  wf_control : u32 (reg_control d);
  wf_status : u32 (reg_status d);
  wf_dim_n : u32 (reg_dim_n d);
  wf_a_ptr : u64 (reg_matrix_a_ptr d);
  wf_b_ptr : u64 (reg_matrix_b_ptr d);
  wf_c_ptr : u64 (reg_matrix_c_ptr d);
  wf_int_status : u32 (reg_int_status d);
  wf_int_enable : u32 (reg_int_enable d)
}.
#[export] Hint Resolve wf_control wf_status wf_dim_n wf_a_ptr wf_b_ptr wf_c_ptr
  wf_int_status wf_int_enable : mmio.

Lemma reset_device_wf : dev_wf reset_device.
Proof. by split. Qed.

(** ** The halves of a pointer register *)

Lemma put_lo_spec p v : u64 p → u32 v →
  put_lo p v mod 2 ^ 32 = v ∧ put_lo p v / 2 ^ 32 = p / 2 ^ 32 ∧ u64 (put_lo p v).
Proof.
  intros Hp Hv. unfold put_lo. rewrite merge_lo by done.
  pose proof (Z.div_mod p (2 ^ 32)). pose proof (Z.mod_pos_bound p (2 ^ 32)).
  split; [|split].
  - rewrite Z.add_comm, Z.mod_add, Z.mod_small; lia.
  - rewrite Z.div_add_l, (Z.div_small v) by lia. lia.
  - lia.
Qed.

Lemma put_hi_spec p v : u64 p → u32 v →
  put_hi p v mod 2 ^ 32 = p mod 2 ^ 32 ∧ put_hi p v / 2 ^ 32 = v ∧ u64 (put_hi p v).
Proof.
  intros Hp Hv. unfold put_hi. rewrite merge_hi by done.
  pose proof (Z.mod_pos_bound p (2 ^ 32) ltac:(lia)).
  split; [|split].
  - rewrite Z.add_comm, Z.mod_add, Z.mod_small; lia.
  - rewrite Z.div_add_l, (Z.div_small (p mod 2 ^ 32)) by lia. lia.
  - lia.
Qed.

(** Both halves, in either order, amount to one 64-bit assignment. *)
Lemma put_halves p q : u64 p → u64 q →
  put_hi (put_lo p (q mod 2 ^ 32)) (q / 2 ^ 32) = q ∧
  put_lo (put_hi p (q / 2 ^ 32)) (q mod 2 ^ 32) = q.
Proof.
  intros Hp Hq.
  assert (u32 (q mod 2 ^ 32)) by (apply Z.mod_pos_bound; lia).
  assert (u32 (q / 2 ^ 32)).
  { split; [apply Z.div_pos; lia | apply Z.div_lt_upper_bound; lia]. }
  destruct (put_lo_spec p (q mod 2 ^ 32)) as (L1 & L2 & L3); [done|done|].
  destruct (put_hi_spec p (q / 2 ^ 32)) as (H1 & H2 & H3); [done|done|].
  pose proof (Z.div_mod q (2 ^ 32)).
  split.
  - unfold put_hi. rewrite merge_hi by done. lia.
  - unfold put_lo. rewrite merge_lo by done. lia.
Qed.

(** ** Words and access modes

    The documented register map ([print_device_info] of [pcie_system_top.h]), by
    32-bit words: a 64-bit register is two of them. *)

Inductive access := RW | RO | RW1C.

Definition register_map : gmap Z access := list_to_map
  [(0x0000, RW); (0x0004, RO); (0x0008, RW);
   (0x0010, RW); (0x0014, RW); (0x0018, RW); (0x001C, RW); (0x0020, RW); (0x0024, RW);
   (0x0028, RW1C); (0x002C, RW)].

(** The word a register map entry shows. *)
Definition word_at (d : dev) (a : Z) : option Z :=
  if a =? 0x0000 then Some (reg_control d)
  else if a =? 0x0004 then Some (reg_status d)
  else if a =? 0x0008 then Some (reg_dim_n d)
  else if a =? 0x0010 then Some (reg_matrix_a_ptr d mod 2 ^ 32)
  else if a =? 0x0014 then Some (reg_matrix_a_ptr d / 2 ^ 32)
  else if a =? 0x0018 then Some (reg_matrix_b_ptr d mod 2 ^ 32)
  else if a =? 0x001C then Some (reg_matrix_b_ptr d / 2 ^ 32)
  else if a =? 0x0020 then Some (reg_matrix_c_ptr d mod 2 ^ 32)
  else if a =? 0x0024 then Some (reg_matrix_c_ptr d / 2 ^ 32)
  else if a =? 0x0028 then Some (reg_int_status d)
  else if a =? 0x002C then Some (reg_int_enable d)
  else None.

(** What a write of [v] makes of a word that holds [old]. *)
Definition after_write (acc : access) (old v : Z) : Z :=
  match acc with
  | RW => v
  | RO => old
  | RW1C => Z.ldiff old v
  end.

(** Split on the address of an access: a mapped address, or none of them. *)
Ltac case_addr :=
  repeat match goal with
  | |- context [?a =? ?b] =>
      destruct (Z.eqb_spec a b); [subst; cbn [Z.eqb Pos.eqb] in * | ]
  end.

(** ** Reads and writes, word by word *)

Lemma w32_shiftr p : u64 p → w32 (Z.shiftr p 32) = p / 2 ^ 32.
Proof.
  intros Hp. rewrite Z.shiftr_div_pow2 by lia. apply w32_id.
  split; [apply Z.div_pos; lia | apply Z.div_lt_upper_bound; lia].
Qed.

Lemma read_word d a buf : dev_wf d → length buf = 4%nat →
  handle_mmio_read d a buf 4 = Ok (le_bytes 4 (default 0xDEADBEEF (word_at d a))).
Proof.
  intros Hd Hb.
  assert (∀ v, memcpy buf (le_bytes 4 v) 4 = Ok (le_bytes 4 v)) as Hm.
  { intros v. apply memcpy_all; rewrite ?length_le_bytes; lia. }
  unfold handle_mmio_read, word_at.
  unfold REG_CONTROL, REG_STATUS, REG_DIM_N, REG_MATRIX_A_PTR, REG_MATRIX_B_PTR,
    REG_MATRIX_C_PTR, REG_INT_STATUS, REG_INT_ENABLE.
  cbn [Z.add Pos.add Z.eqb Pos.eqb]. rewrite !Hm.
  case_addr; cbn [default]; rewrite ?w32_shiftr by auto with mmio; done.
Qed.

Lemma write_word_value v : u32 v →
  memcpy (replicate 4 0) (le_bytes 4 v) 4 = Ok (le_bytes 4 v).
Proof. intros Hv. by apply memcpy_all; rewrite ?length_le_bytes. Qed.


Lemma clear_bits_ldiff x m : u32 x → u32 m → Z.land x (not32 m) = Z.ldiff x m.
Proof.
  intros Hx Hm. apply Z.bits_inj'. intros i Hi.
  by rewrite testbit_clear, Z.ldiff_spec by done.
Qed.

Lemma clear_bits_u32 x m : u32 x → u32 m → u32 (Z.land x (not32 m)).
Proof. intros Hx Hm. apply land_bound; [lia|done|]. apply w32_range. Qed.
#[export] Hint Resolve clear_bits_u32 : mmio.

Lemma write_value d a v : u32 v →
  handle_mmio_write d a (le_bytes 4 v) 4 = Ok (
    if a =? REG_CONTROL then write_control d v
    else if a =? REG_DIM_N then (set_dim_n v d, [])
    else if a =? REG_MATRIX_A_PTR then (set_a_ptr (put_lo (reg_matrix_a_ptr d) v) d, [])
    else if a =? REG_MATRIX_A_PTR + 4 then (set_a_ptr (put_hi (reg_matrix_a_ptr d) v) d, [])
    else if a =? REG_MATRIX_B_PTR then (set_b_ptr (put_lo (reg_matrix_b_ptr d) v) d, [])
    else if a =? REG_MATRIX_B_PTR + 4 then (set_b_ptr (put_hi (reg_matrix_b_ptr d) v) d, [])
    else if a =? REG_MATRIX_C_PTR then (set_c_ptr (put_lo (reg_matrix_c_ptr d) v) d, [])
    else if a =? REG_MATRIX_C_PTR + 4 then (set_c_ptr (put_hi (reg_matrix_c_ptr d) v) d, [])
    else if a =? REG_INT_STATUS then
      (set_int_status (Z.land (reg_int_status d) (not32 v)) d, [interrupt_update_event])
    else if a =? REG_INT_ENABLE then (set_int_enable v d, [interrupt_update_event])
    else (d, [])).
Proof.
  intros Hv. unfold handle_mmio_write. cbn [Z.eqb Pos.eqb].
  rewrite write_word_value by done. rewrite bind_ok. cbv beta.
  rewrite (le_val32 v) by done. done.
Qed.

(** The state a write leaves at an uninvolved or involved word, for one register. *)
Lemma word_at_dim_n d v b :
  word_at (set_dim_n v d) b = if b =? 8 then Some v else word_at d b.
Proof. unfold word_at. cbn. by case_addr. Qed.
Lemma word_at_a_ptr d p b :
  word_at (set_a_ptr p d) b =
    if b =? 0x10 then Some (p mod 2 ^ 32)
    else if b =? 0x14 then Some (p / 2 ^ 32) else word_at d b.
Proof. unfold word_at. cbn -[Z.pow]. by case_addr. Qed.
Lemma word_at_b_ptr d p b :
  word_at (set_b_ptr p d) b =
    if b =? 0x18 then Some (p mod 2 ^ 32)
    else if b =? 0x1C then Some (p / 2 ^ 32) else word_at d b.
Proof. unfold word_at. cbn -[Z.pow]. by case_addr. Qed.
Lemma word_at_c_ptr d p b :
  word_at (set_c_ptr p d) b =
    if b =? 0x20 then Some (p mod 2 ^ 32)
    else if b =? 0x24 then Some (p / 2 ^ 32) else word_at d b.
Proof. unfold word_at. cbn -[Z.pow]. by case_addr. Qed.
Lemma word_at_int_status d v b :
  word_at (set_int_status v d) b = if b =? 0x28 then Some v else word_at d b.
Proof. unfold word_at. cbn. by case_addr. Qed.
Lemma word_at_int_enable d v b :
  word_at (set_int_enable v d) b = if b =? 0x2C then Some v else word_at d b.
Proof. unfold word_at. cbn. by case_addr. Qed.
#[export] Hint Rewrite word_at_dim_n word_at_a_ptr word_at_b_ptr word_at_c_ptr
  word_at_int_status word_at_int_enable : mmio.

(** The mapped addresses, and the unmapped ones. *)
Lemma register_map_some a acc : register_map !! a = Some acc →
  (a, acc) ∈ [(0x0000, RW); (0x0004, RO); (0x0008, RW);
    (0x0010, RW); (0x0014, RW); (0x0018, RW); (0x001C, RW); (0x0020, RW); (0x0024, RW);
    (0x0028, RW1C); (0x002C, RW)].
Proof. intros H. unfold register_map in H. by apply elem_of_list_to_map_2 in H. Qed.

Lemma register_map_none a : register_map !! a = None →
  a ∉ [0; 4; 8; 0x10; 0x14; 0x18; 0x1C; 0x20; 0x24; 0x28; 0x2C].
Proof.
  intros H Hin. unfold register_map in H. apply not_elem_of_list_to_map_2 in H. apply H.
  cbn. exact Hin.
Qed.

(** The words after one write of [v] to [a]. *)
Definition word_write_spec (d : dev) (a v : Z) (d' : dev) : Prop :=
  ∀ b, word_at d' b =
    if b =? a then
      match word_at d a, register_map !! a with
      | Some w, Some acc => Some (after_write acc w v)
      | _, _ => None
      end
    else word_at d b.

Lemma write_word_spec (d : dev) (a v : Z) :
  dev_wf d → u32 v → a ≠ REG_CONTROL →
  ∃ d',
    handle_mmio_write d a (le_bytes 4 v) 4 =
      Ok (d', if (a =? REG_INT_STATUS) || (a =? REG_INT_ENABLE)
              then [interrupt_update_event] else []) ∧
    word_write_spec d a v d' ∧
    dev_wf d' ∧
    computation_requested d' = computation_requested d.
Proof.
  intros Hd Hv Ha. rewrite write_value by done.
  pose proof (put_lo_spec (reg_matrix_a_ptr d) v (wf_a_ptr _ Hd) Hv) as (AL1 & AL2 & AL3).
  pose proof (put_hi_spec (reg_matrix_a_ptr d) v (wf_a_ptr _ Hd) Hv) as (AH1 & AH2 & AH3).
  pose proof (put_lo_spec (reg_matrix_b_ptr d) v (wf_b_ptr _ Hd) Hv) as (BL1 & BL2 & BL3).
  pose proof (put_hi_spec (reg_matrix_b_ptr d) v (wf_b_ptr _ Hd) Hv) as (BH1 & BH2 & BH3).
  pose proof (put_lo_spec (reg_matrix_c_ptr d) v (wf_c_ptr _ Hd) Hv) as (CL1 & CL2 & CL3).
  pose proof (put_hi_spec (reg_matrix_c_ptr d) v (wf_c_ptr _ Hd) Hv) as (CH1 & CH2 & CH3).
  pose proof (clear_bits_u32 (reg_int_status d) v (wf_int_status _ Hd) Hv).
  pose proof (clear_bits_ldiff (reg_int_status d) v (wf_int_status _ Hd) Hv) as Hclr.
  destruct (register_map !! a) as [acc|] eqn:Hacc.
  - pose proof (register_map_some a acc Hacc) as Hin.
    repeat (apply elem_of_cons in Hin as [[= -> ->]|Hin]); try done; [..|by apply elem_of_nil in Hin];
      (eexists; split; [reflexivity|]; split; [|by destruct Hd; split; [split|]]);
      intros b; rewrite Hacc; autorewrite with mmio; unfold word_at;
      cbn -[Z.pow Z.land Z.modulo Z.div not32 Z.ldiff];
      case_addr; congruence.
  - apply register_map_none in Hacc. rewrite !not_elem_of_cons in Hacc.
    destruct_and! Hacc. exists d. split; [|split; [|done]].
    + unfold REG_CONTROL, REG_DIM_N, REG_MATRIX_A_PTR, REG_MATRIX_B_PTR,
        REG_MATRIX_C_PTR, REG_INT_STATUS, REG_INT_ENABLE. cbn [Z.add Pos.add].
      case_addr; done.
    + intros b. destruct (Z.eqb_spec b a) as [->|]; [|done].
      unfold word_at. case_addr; done.
Qed.

(** C10: every 32-bit write other than to CONTROL implements the register map: a
    plain register takes the value, STATUS and unmapped addresses ignore it,
    INT_STATUS clears the bits written as 1, a pointer half leaves the other half
    alone; no other word and no pending request is touched, and the interrupt
    controller is notified exactly by writes to INT_STATUS and INT_ENABLE. *)
Theorem mmio_write_refines_map (d : dev) (a v : Z) :
  dev_wf d → u32 v → a ≠ REG_CONTROL →
  ∃ d',
    handle_mmio_write d a (le_bytes 4 v) 4 =
      Ok (d', if (a =? REG_INT_STATUS) || (a =? REG_INT_ENABLE)
              then [interrupt_update_event] else []) ∧
    word_write_spec d a v d' ∧
    dev_wf d' ∧
    computation_requested d' = computation_requested d.
Proof. apply write_word_spec. Qed.

Lemma mmio_write_refines_map_witness :
  let d := set_int_status 3 reset_device in
  handle_mmio_write d 0x28 (le_bytes 4 1) 4 = Ok (set_int_status 2 d, [interrupt_update_event]) ∧
  ∃ d', word_write_spec d 0x28 1 d' ∧ dev_wf d'.
Proof.
  intros d. split; [reflexivity|].
  destruct (mmio_write_refines_map d 0x28 1) as (d' & _ & H & H' & _);
    [by split | done | done | eauto].
Defined.

(** ** 64-bit accesses *)

Lemma write_value64 d a v : u64 v →
  handle_mmio_write d a (le_bytes 8 v) 8 = Ok (
    if a =? REG_CONTROL then write_control d 0
    else if a =? REG_DIM_N then (set_dim_n 0 d, [])
    else if a =? REG_MATRIX_A_PTR then (set_a_ptr v d, [])
    else if a =? REG_MATRIX_A_PTR + 4 then (set_a_ptr (put_hi (reg_matrix_a_ptr d) 0) d, [])
    else if a =? REG_MATRIX_B_PTR then (set_b_ptr v d, [])
    else if a =? REG_MATRIX_B_PTR + 4 then (set_b_ptr (put_hi (reg_matrix_b_ptr d) 0) d, [])
    else if a =? REG_MATRIX_C_PTR then (set_c_ptr v d, [])
    else if a =? REG_MATRIX_C_PTR + 4 then (set_c_ptr (put_hi (reg_matrix_c_ptr d) 0) d, [])
    else if a =? REG_INT_STATUS then
      (set_int_status (Z.land (reg_int_status d) (not32 0)) d, [interrupt_update_event])
    else if a =? REG_INT_ENABLE then (set_int_enable 0 d, [interrupt_update_event])
    else (d, [])).
Proof.
  intros Hv. unfold handle_mmio_write. cbn [Z.eqb Pos.eqb].
  rewrite (memcpy_all (replicate 8 0) (le_bytes 8 v)) by done. rewrite !bind_ok. cbv beta.
  by rewrite le_val64.
Qed.

(** The three 64-bit pointer registers. *)
Inductive ptr_reg := PTR_A | PTR_B | PTR_C.

Definition ptr_addr (r : ptr_reg) : Z :=
  match r with
  | PTR_A => REG_MATRIX_A_PTR | PTR_B => REG_MATRIX_B_PTR | PTR_C => REG_MATRIX_C_PTR
  end.
Definition get_ptr (r : ptr_reg) (d : dev) : Z :=
  match r with
  | PTR_A => reg_matrix_a_ptr d | PTR_B => reg_matrix_b_ptr d | PTR_C => reg_matrix_c_ptr d
  end.
Definition set_ptr (r : ptr_reg) (v : Z) (d : dev) : dev :=
  match r with PTR_A => set_a_ptr v d | PTR_B => set_b_ptr v d | PTR_C => set_c_ptr v d end.

(** Decide the address tests of an access to a pointer register. *)
Ltac ptr_case :=
  cbv [REG_CONTROL REG_DIM_N REG_MATRIX_A_PTR REG_MATRIX_B_PTR REG_MATRIX_C_PTR
    Z.add Pos.add Pos.succ Z.eqb Pos.eqb].

(** C21: a pointer register may be programmed by one 64-bit write or by its two
    32-bit halves in either order, with the same final state, and read back by one
    64-bit read or by halves. *)
Theorem pointer_access_widths_agree (d : dev) (r : ptr_reg) (q : Z) (buf4 buf8 : list Z) :
  dev_wf d → u64 q → length buf4 = 4%nat → length buf8 = 8%nat →
  let lo a d := handle_mmio_write d a (le_bytes 4 (q mod 2 ^ 32)) 4 in
  let hi a d := handle_mmio_write d (a + 4) (le_bytes 4 (q / 2 ^ 32)) 4 in
  let a := ptr_addr r in
  let d' := set_ptr r q d in
  handle_mmio_write d a (le_bytes 8 q) 8 = Ok (d', []) ∧
  ('(d1, _) ← lo a d; hi a d1) = Ok (d', []) ∧
  ('(d1, _) ← hi a d; lo a d1) = Ok (d', []) ∧
  handle_mmio_read d' a buf8 8 = Ok (le_bytes 8 q) ∧
  handle_mmio_read d' a buf4 4 = Ok (le_bytes 4 (q mod 2 ^ 32)) ∧
  handle_mmio_read d' (a + 4) buf4 4 = Ok (le_bytes 4 (q / 2 ^ 32)).
Proof.
  intros Hd Hq H4 H8 lo hi a d'.
  assert (u32 (q mod 2 ^ 32)) as Hlo by (apply Z.mod_pos_bound; lia).
  assert (u32 (q / 2 ^ 32)) as Hhi.
  { split; [apply Z.div_pos; lia | apply Z.div_lt_upper_bound; lia]. }
  assert (u64 (get_ptr r d)) as Hp by (destruct r; auto with mmio).
  destruct (put_halves (get_ptr r d) q Hp Hq) as [E1 E2].
  assert (dev_wf d') as Hd' by (destruct Hd, r; by split).
  assert (∀ v, memcpy buf8 (le_bytes 8 v) 8 = Ok (le_bytes 8 v)) as Hm8.
  { intros v. apply memcpy_all; rewrite ?length_le_bytes; lia. }
  unfold lo, hi, a. rewrite write_value64, !write_value by done.
  split; [by destruct r|]. split; [|split; [|split; [|split]]].
  - destruct r; cbn [ptr_addr get_ptr set_ptr] in *; rewrite bind_ok; ptr_case;
      rewrite write_value by done; do 2 f_equal;
      unfold set_a_ptr, set_b_ptr, set_c_ptr; cbn; by rewrite E1.
  - destruct r; cbn [ptr_addr get_ptr set_ptr] in *; rewrite bind_ok; ptr_case;
      rewrite write_value by done; do 2 f_equal;
      unfold set_a_ptr, set_b_ptr, set_c_ptr; cbn; by rewrite E2.
  - destruct r; cbn -[le_bytes memcpy]; apply Hm8.
  - rewrite read_word by done. by destruct r.
  - rewrite read_word by done. by destruct r.
Qed.

Lemma pointer_access_widths_agree_witness :
  handle_mmio_write reset_device 0x18 (le_bytes 8 0x123456789) 8 =
    Ok (set_b_ptr 0x123456789 reset_device, []) ∧
  handle_mmio_read (set_b_ptr 0x123456789 reset_device) 0x1C [0; 0; 0; 0] 4 =
    Ok [1; 0; 0; 0].
Proof.
  destruct (pointer_access_widths_agree reset_device PTR_B 0x123456789
    [0; 0; 0; 0] [0; 0; 0; 0; 0; 0; 0; 0]) as (H1 & _ & _ & _ & _ & H2);
    [by split | done | done | done | by split].
Defined.

Definition is_ptr_addr (a : Z) : bool :=
  (a =? REG_MATRIX_A_PTR) || (a =? REG_MATRIX_B_PTR) || (a =? REG_MATRIX_C_PTR).

Lemma not_ptr_addr a : is_ptr_addr a = false →
  a ≠ REG_MATRIX_A_PTR ∧ a ≠ REG_MATRIX_B_PTR ∧ a ≠ REG_MATRIX_C_PTR.
Proof. unfold is_ptr_addr. rewrite !orb_false_iff, !Z.eqb_neq. tauto. Qed.

Lemma wide_read_ub d a buf : is_ptr_addr a = false →
  handle_mmio_read d a buf 8 = UB OutOfBoundsRead.
Proof.
  intros (Ha & Hb & Hc)%not_ptr_addr. unfold handle_mmio_read.
  rewrite (proj2 (Z.eqb_neq a REG_MATRIX_A_PTR)), (proj2 (Z.eqb_neq a REG_MATRIX_B_PTR)),
    (proj2 (Z.eqb_neq a REG_MATRIX_C_PTR)) by done.
  repeat case_match; apply memcpy_overread; rewrite length_le_bytes; lia.
Qed.

(** Outside the three pointer registers a 64-bit access does not do what its
    width says.  The read copies 8 bytes out of a 4-byte variable, which is
    undefined behaviour; the write drops its data and acts as a 32-bit write of 0,
    so that it clears DIM_N, INT_ENABLE or the high half of a pointer. *)
Theorem wide_access_of_narrow_register (d : dev) (a v : Z) (buf : list Z) :
  u64 v → is_ptr_addr a = false →
  handle_mmio_read d a buf 8 = UB OutOfBoundsRead ∧
  handle_mmio_write d a (le_bytes 8 v) 8 = handle_mmio_write d a (le_bytes 4 0) 4.
Proof.
  intros Hv Hp. split; [by apply wide_read_ub|]. apply not_ptr_addr in Hp as (Ha & Hb & Hc).
  rewrite write_value64, write_value by done.
  by rewrite (proj2 (Z.eqb_neq a REG_MATRIX_A_PTR)), (proj2 (Z.eqb_neq a REG_MATRIX_B_PTR)),
    (proj2 (Z.eqb_neq a REG_MATRIX_C_PTR)) by done.
Qed.

Lemma wide_access_of_narrow_register_witness :
  handle_mmio_read reset_device REG_STATUS (replicate 8 0) 8 = UB OutOfBoundsRead ∧
  handle_mmio_write (set_dim_n 4 reset_device) REG_DIM_N (le_bytes 8 4) 8 =
    Ok (set_dim_n 0 reset_device, []).
Proof.
  split.
  - by apply (wide_access_of_narrow_register reset_device REG_STATUS 0).
  - by rewrite (proj2 (wide_access_of_narrow_register (set_dim_n 4 reset_device)
      REG_DIM_N 4 [] ltac:(done) ltac:(done))).
Defined.

(** ** The control register *)

Lemma has_bit_testbit x i : 0 ≤ x → 0 ≤ i → has_bit x (Z.shiftl 1 i) = Z.testbit x i.
Proof.
  intros Hx Hi. unfold has_bit. rewrite Z.shiftl_1_l.
  destruct (Z.testbit x i) eqn:Ht.
  - apply negb_true_iff, Z.eqb_neq. intros H0.
    assert (Z.testbit (Z.land x (2 ^ i)) i = false) as Hf by (by rewrite H0, Z.bits_0).
    by rewrite Z.land_spec, Ht, Z.pow2_bits_true in Hf.
  - apply negb_false_iff, Z.eqb_eq. apply Z.bits_inj'. intros j Hj.
    rewrite Z.land_spec, Z.pow2_bits_eqb, Z.bits_0 by done.
    destruct (Z.eqb_spec i j) as [->|]; [by rewrite Ht | apply andb_false_r].
Qed.

(** C20: A 32-bit write to CONTROL, by its two command bits.  A reset clears every register,
    CONTROL included, and leaves the device idle, so that a start bit in the same
    write is always accepted; without a reset the start bit is accepted exactly when
    STATUS says idle; other bits are only stored. *)
Theorem control_write_cases (d : dev) (v : Z) :
  dev_wf d → u32 v →
  handle_mmio_write d REG_CONTROL (le_bytes 4 v) 4 = Ok
    match Z.testbit v 1, Z.testbit v 0, Z.testbit (reg_status d) 0 with
    | true, true, _ => (set_requested true reset_device, [start_event])
    | true, false, _ => (reset_device, [])
    | false, true, true => (set_requested true (set_control v d), [start_event])
    | false, _, _ => (set_control v d, [])
    end.
Proof.
  intros Hd Hv. pose proof (wf_status d Hd).
  rewrite write_value by done. cbn [Z.eqb REG_CONTROL]. unfold write_control.
  unfold CTRL_RESET, CTRL_START, STATUS_IDLE.
  rewrite !(has_bit_testbit v) by lia.
  destruct (Z.testbit v 1), (Z.testbit v 0); try done.
  rewrite has_bit_testbit by (cbn; lia). cbn [reg_status set_control].
  by destruct (Z.testbit (reg_status d) 0).
Qed.

Lemma control_write_cases_witness :
  handle_mmio_write (set_status 2 reset_device) REG_CONTROL (le_bytes 4 1) 4 =
    Ok (set_control 1 (set_status 2 reset_device), []) ∧
  handle_mmio_write (set_status 2 reset_device) REG_CONTROL (le_bytes 4 0xAB) 4 =
    Ok (set_requested true reset_device, [start_event]).
Proof.
  split; rewrite control_write_cases; done || by split.
Defined.

(** ** The transport *)

Lemma write_control_wf d v : dev_wf d → u32 v → dev_wf (write_control d v).1.
Proof.
  intros Hd Hv. unfold write_control.
  assert (dev_wf (set_control v d)) by (by destruct Hd; split).
  assert (∀ e, dev_wf e → dev_wf (set_requested true e)) as Hr by (intros e []; by split).
  pose proof reset_device_wf. repeat case_match; cbn; auto.
Qed.

Lemma write_control_value d v : u32 v →
  reg_control (write_control d v).1 = if Z.testbit v 1 then 0 else v.
Proof.
  intros Hv. unfold write_control, CTRL_RESET. rewrite has_bit_testbit by lia.
  by destruct (Z.testbit v 1); repeat case_match.
Qed.

(** C19: every 32-bit read returns the addressed word, or 0xDEADBEEF off the register
    map, and a 32-bit read of the address just written returns what the access mode
    says: the value written (RW), the old word (RO), the old word without the bits
    written as 1 (RW1C), 0xDEADBEEF off the map.  The one exception is CONTROL, which is
    documented as RW: a value with the reset bit reads back as 0. *)
Theorem mmio_read_after_write (d : dev) (a v : Z) (buf : list Z) :
  dev_wf d → u32 v → length buf = 4%nat →
  handle_mmio_read d a buf 4 = Ok (le_bytes 4 (default 0xDEADBEEF (word_at d a))) ∧
  ∃ d' evs, handle_mmio_write d a (le_bytes 4 v) 4 = Ok (d', evs) ∧
    handle_mmio_read d' a buf 4 = Ok (le_bytes 4
      match word_at d a, register_map !! a with
      | Some w, Some acc =>
          if (a =? REG_CONTROL) && Z.testbit v 1 then 0 else after_write acc w v
      | _, _ => 0xDEADBEEF
      end).
Proof.
  intros Hd Hv Hb. split; [by apply read_word|].
  destruct (Z.eqb_spec a REG_CONTROL) as [->|Ha].
  - exists (write_control d v).1, (write_control d v).2. split.
    { rewrite write_value by done. cbn [Z.eqb REG_CONTROL]. by destruct (write_control d v). }
    rewrite read_word by (done || by apply write_control_wf).
    change (word_at (write_control d v).1 REG_CONTROL)
      with (Some (reg_control (write_control d v).1)).
    by rewrite write_control_value.
  - destruct (write_word_spec d a v Hd Hv Ha) as (d' & Hw & Hs & Hd' & _).
    eexists d', _. split; [exact Hw|].
    rewrite read_word by done. rewrite (Hs a), Z.eqb_refl.
    by destruct (word_at d a), (register_map !! a).
Qed.

(** STATUS is read-only; 0xAB written to CONTROL reads back as 0. *)
Lemma mmio_read_after_write_witness :
  handle_mmio_read (set_status 5 reset_device) 4 [0; 0; 0; 0] 4 = Ok [5; 0; 0; 0] ∧
  ∃ d' evs, handle_mmio_write reset_device 0 (le_bytes 4 0xAB) 4 = Ok (d', evs) ∧
    handle_mmio_read d' 0 [0; 0; 0; 0] 4 = Ok [0; 0; 0; 0].
Proof.
  split.
  - refine (proj1 (mmio_read_after_write (set_status 5 reset_device) 4 0xFF [0; 0; 0; 0] _ _ _));
      [by split | done | done].
  - refine (proj2 (mmio_read_after_write reset_device 0 0xAB [0; 0; 0; 0] _ _ _));
      [by split | done | done].
Defined.

Lemma write_control_events d v :
  (write_control d v).2 = [] ∨ (write_control d v).2 = [start_event].
Proof. unfold write_control. repeat case_match; auto. Qed.

Lemma value_u32 v data r :
  bytes_ok data → memcpy (replicate 4 0) data 4 = Ok r → v = le_val r → u32 v.
Proof.
  intros Hd Hm ->. pose proof (memcpy_length _ _ _ _ Hm) as Hl.
  change (2 ^ 32) with (256 ^ Z.of_nat 4). rewrite length_replicate in Hl. rewrite <-Hl.
  apply le_val_range. eapply memcpy_bytes_ok; [|done|done]. by apply Forall_replicate.
Qed.

Lemma value_u64 v data r :
  bytes_ok data → memcpy (replicate 8 0) data 8 = Ok r → v = le_val r → u64 v.
Proof.
  intros Hd Hm ->. pose proof (memcpy_length _ _ _ _ Hm) as Hl.
  change (2 ^ 64) with (256 ^ Z.of_nat 8). rewrite length_replicate in Hl. rewrite <-Hl.
  apply le_val_range. eapply memcpy_bytes_ok; [|done|done]. by apply Forall_replicate.
Qed.

Lemma put_lo_u64 p v : u64 p → u32 v → u64 (put_lo p v).
Proof. intros. by apply put_lo_spec. Qed.
Lemma put_hi_u64 p v : u64 p → u32 v → u64 (put_hi p v).
Proof. intros. by apply put_hi_spec. Qed.
#[export] Hint Resolve put_lo_u64 put_hi_u64 : mmio.

Lemma handle_mmio_write_wf d a data len d' evs :
  dev_wf d → bytes_ok data → handle_mmio_write d a data len = Ok (d', evs) →
  dev_wf d' ∧ (evs = [] ∨ evs = [start_event] ∨ evs = [interrupt_update_event]).
Proof.
  intros Hd Hb H. unfold handle_mmio_write in H.
  apply bind_inv in H as (v & Hv & H). apply bind_inv in H as (v64 & Hv64 & H).
  assert (u32 v) as Hv'.
  { destruct (len =? 4); res_inv; [|lia]. by eapply value_u32. }
  assert (u64 v64) as Hv64'.
  { destruct (len =? 4); [res_inv; lia|].
    destruct (len =? 8); res_inv; [|lia]. by eapply value_u64. }
  clear Hv Hv64. injection H as H.
  assert (∀ r, r = (d', evs) →
    dev_wf r.1 ∧ (r.2 = [] ∨ r.2 = [start_event] ∨ r.2 = [interrupt_update_event]) →
    dev_wf d' ∧ (evs = [] ∨ evs = [start_event] ∨ evs = [interrupt_update_event])) as Hgo.
  { by intros ? ->. }
  eapply Hgo; [exact H|]. clear H Hgo.
  pose proof (write_control_wf d v Hd Hv'). pose proof (write_control_events d v).
  destruct Hd. repeat case_match; cbn [fst snd];
    (split; [first [assumption | split; cbn; auto with mmio] | tauto]).
Qed.

(** What the callback does when nothing goes wrong. *)
Definition transport_post (d : dev) (p : payload) (t : Z)
    (d' : dev) (evs : list event) (p' : payload) (t' : Z) : Prop :=
  dev_wf d' ∧ bytes_ok (data p') ∧ answers p p' ∧
  (response p' = TLM_OK_RESPONSE ↔ data_length p = 4 ∨ data_length p = 8) ∧
  (response p' = TLM_OK_RESPONSE → t' = t + 10) ∧
  (response p' ≠ TLM_OK_RESPONSE →
     d' = d ∧ evs = [] ∧ t' = t ∧ p' = set_response TLM_GENERIC_ERROR_RESPONSE p) ∧
  (command p ≠ TLM_WRITE_COMMAND → d' = d ∧ evs = []).

Lemma transport_ok d p t d' evs p' t' : dev_wf d → bytes_ok (data p) →
  bar0_transport d p t = Ok (d', evs, p', t') → transport_post d p t d' evs p' t'.
Proof.
  intros Hd Hb H. unfold transport_post. unfold bar0_transport in H.
  destruct (negb (data_length p =? 4) && negb (data_length p =? 8)) eqn:Hl.
  - res_inv. apply andb_true_iff in Hl as [H1%negb_true_iff H2%negb_true_iff].
    apply Z.eqb_neq in H1, H2. payload_simpl. unfold answers. payload_simpl.
    split_and!; try done; naive_solver.
  - assert (data_length p = 4 ∨ data_length p = 8) as Hlen.
    { apply andb_false_iff in Hl as [Hl|Hl]; apply negb_false_iff, Z.eqb_eq in Hl; auto. }
    apply bind_inv in H as ([[d1 evs1] ptr] & H1 & H). res_inv. payload_simpl.
    assert (dev_wf d' ∧ bytes_ok ptr ∧ length ptr = length (data p) ∧
      (command p ≠ TLM_WRITE_COMMAND → d' = d ∧ evs = [])) as (G1 & G2 & G3 & G4).
    { case_bool_decide; [|case_bool_decide]; res_inv.
      - split; [done|]. unfold handle_mmio_read in Ha.
        repeat case_match; (split; [|split]; [|by eapply memcpy_length|done]);
          (eapply memcpy_bytes_ok; [|apply le_bytes_ok|]; done).
      - by destruct (handle_mmio_write_wf _ _ _ _ _ _ Hd Hb Ha).
      - done. }
    unfold answers. payload_simpl. split_and!; try done; naive_solver.
Qed.

(** A 64-bit read of anything but a pointer register. *)
Definition wide_read (p : payload) : bool :=
  is_read p && (data_length p =? 8) && negb (is_ptr_addr (address p)).

Lemma read_total d a data len : dev_wf d → Z.of_nat (length data) = len → len = 4 ∨ len = 8 →
  if (len =? 8) && negb (is_ptr_addr a)
  then handle_mmio_read d a data len = UB OutOfBoundsRead
  else is_ok (handle_mmio_read d a data len).
Proof.
  intros Hd Hl [->| ->].
  - eexists. apply read_word; [done|lia].
  - cbn [Z.eqb Pos.eqb andb]. destruct (is_ptr_addr a) eqn:Ha; cbn [negb].
    + assert (∀ v, memcpy data (le_bytes 8 v) 8 = Ok (le_bytes 8 v)) as Hm
        by (intros v; apply memcpy_all; rewrite ?length_le_bytes; lia).
      unfold is_ptr_addr in Ha. rewrite !orb_true_iff, !Z.eqb_eq in Ha.
      destruct Ha as [[->| ->]| ->]; eexists; apply Hm.
    + by apply (wide_read_ub d a data).
Qed.

Lemma write_total d a data len : Z.of_nat (length data) = len → len = 4 ∨ len = 8 →
  is_ok (handle_mmio_write d a data len).
Proof.
  intros Hl [->| ->]; unfold handle_mmio_write.
  - cbn [Z.eqb Pos.eqb]. rewrite memcpy_all by (cbn; lia). by eexists.
  - cbn [Z.eqb Pos.eqb]. rewrite memcpy_all by (cbn; lia). by eexists.
Qed.

Lemma transport_total d p t : dev_wf d → Z.of_nat (length (data p)) = data_length p →
  if wide_read p then bar0_transport d p t = UB OutOfBoundsRead
  else is_ok (bar0_transport d p t).
Proof.
  intros Hd Hl. unfold wide_read, is_read, bar0_transport.
  destruct (negb (data_length p =? 4) && negb (data_length p =? 8)) eqn:Hn.
  { apply andb_true_iff in Hn as [_ ->%negb_true_iff]. rewrite andb_false_r. by eexists. }
  assert (data_length p = 4 ∨ data_length p = 8) as Hlen.
  { apply andb_false_iff in Hn as [Hn|Hn]; apply negb_false_iff, Z.eqb_eq in Hn; auto. }
  case_bool_decide; cbn [andb]; [|case_bool_decide].
  - pose proof (read_total d (address p) (data p) _ Hd Hl Hlen) as Hr. revert Hr.
    destruct ((data_length p =? 8) && negb (is_ptr_addr (address p))); [by intros ->|].
    intros [bs ->]. by eexists.
  - destruct (write_total d (address p) (data p) _ Hl Hlen) as [[d' evs] ->]. by eexists.
  - by eexists.
Qed.

(** C22: the outcome of [bar0_b_transport] on every transaction whose buffer has the
    announced length.  A 64-bit read of any word but the three pointers is undefined
    behaviour: it copies 8 bytes out of a 4-byte variable.  Every other transaction is
    answered, with the registers kept within their C++ types: exactly the lengths 4 and
    8 are accepted, an accepted transaction takes 10 ns, and a rejected one gets the
    generic error and changes nothing; only a write changes the device. *)
Theorem bar0_transport_invariant (d : dev) (p : payload) (t : Z) :
  dev_wf d → bytes_ok (data p) → Z.of_nat (length (data p)) = data_length p →
  if is_read p && (data_length p =? 8) && negb (is_ptr_addr (address p)) then
    bar0_transport d p t = UB OutOfBoundsRead
  else
    ∃ d' evs p' t', bar0_transport d p t = Ok (d', evs, p', t') ∧
      dev_wf d' ∧ bytes_ok (data p') ∧ answers p p' ∧
      (response p' = TLM_OK_RESPONSE ↔ data_length p = 4 ∨ data_length p = 8) ∧
      (response p' = TLM_OK_RESPONSE → t' = t + 10) ∧
      (response p' ≠ TLM_OK_RESPONSE →
         d' = d ∧ evs = [] ∧ t' = t ∧ p' = set_response TLM_GENERIC_ERROR_RESPONSE p) ∧
      (command p ≠ TLM_WRITE_COMMAND → d' = d ∧ evs = []).
Proof.
  intros Hd Hb Hl. pose proof (transport_total d p t Hd Hl) as H. revert H.
  unfold wide_read. destruct (_ && _); [done|].
  intros ([[[d' evs] p'] t'] & E). exists d', evs, p', t'. split; [done|]. by apply transport_ok.
Qed.

(** A write of DIM_N; a 64-bit read of STATUS. *)
Lemma bar0_transport_invariant_witness :
  (∃ d' evs p' t', bar0_transport reset_device (request TLM_WRITE_COMMAND 0x8 [4; 0; 0; 0] 4) 0 =
     Ok (d', evs, p', t') ∧ dev_wf d') ∧
  bar0_transport reset_device (request TLM_READ_COMMAND REG_STATUS (replicate 8 0) 8) 0 =
    UB OutOfBoundsRead.
Proof.
  split.
  - destruct (bar0_transport_invariant reset_device
      (request TLM_WRITE_COMMAND 0x8 [4; 0; 0; 0] 4) 0) as (d' & evs & p' & t' & E & H & _);
      [by split | by repeat constructor | done |].
    exists d', evs, p', t'. split; [exact E | exact H].
  - refine (bar0_transport_invariant reset_device
      (request TLM_READ_COMMAND REG_STATUS (replicate 8 0) 8) 0 _ _ _);
      [by split | by repeat constructor | done].
Defined.
