(* ===== verification/MatMul.v ===== *)
(** * The multiplication loop

    The triple loop of [perform_matrix_multiply] ([matrix_multiplier_pcie.h]) on
    row-major vectors of floats, with the 32-bit index arithmetic and the unchecked
    [operator[]] of the code, against the mathematical product.  The row loop is cut
    where the thread waits: [compute_row] is the work done between two waits. *)

From S2P Require Import Prelude Float32.
Local Open Scope Z_scope.

(** [std::vector<float>::operator[]] *)
Definition vget (v : list Z) (i : Z) : res Z :=
  match v !! Z.to_nat i with Some x => Ok x | None => UB OutOfBoundsRead end.
Definition vset (v : list Z) (i x : Z) : res (list Z) :=
  if decide (Z.to_nat i < length v)%nat then Ok (<[Z.to_nat i := x]> v)
  else UB OutOfBoundsWrite.

Section loops.
Context {F : FloatOps}.

(** [float sum = 0.0f; for (k...) sum += matrix_a[i*n+k] * matrix_b[k*n+j];] *)
Definition dot_loop (n : Z) (a b : list Z) (i j : Z) : res Z :=
  for_range n (λ k sum,
    x ← vget a (w32 (w32 (i * n) + k));
    y ← vget b (w32 (w32 (k * n) + j));
    Ok (fadd sum (fmul x y))) f_zero.

(** [for (j...) { ...; matrix_c[i*n+j] = sum; }] *)
Definition compute_row (n : Z) (a b : list Z) (i : Z) (c : list Z) : res (list Z) :=
  for_range n (λ j c,
    sum ← dot_loop n a b i j;
    vset c (w32 (w32 (i * n) + j)) sum) c.

(** With vectors of the right size the loops stay in bounds. *)
Lemma compute_row_ok n a b c i :
  0 < n ≤ 256 → 0 ≤ i < n → Z.of_nat (length a) = n * n →
  Z.of_nat (length b) = n * n → Z.of_nat (length c) = n * n →
  ∃ c', compute_row n a b i c = Ok c' ∧ Z.of_nat (length c') = n * n.
Proof.
  intros Hn Hi Ha Hb Hc.
  assert (∀ x y, 0 ≤ x < n → 0 ≤ y < n →
    Z.to_nat (w32 (w32 (x * n) + y)) = Z.to_nat (x * n + y) ∧ 0 ≤ x * n + y < n * n) as Hidx.
  { intros x y Hx Hy. assert (0 ≤ x * n ≤ 65536) by nia.
    rewrite !w32_id by (rewrite ?w32_id; lia). split; [done | nia]. }
  assert (∀ v x y, Z.of_nat (length v) = n * n → 0 ≤ x < n → 0 ≤ y < n →
    ∃ r, vget v (w32 (w32 (x * n) + y)) = Ok r) as Hget.
  { intros v x y Hv Hx Hy. destruct (Hidx x y Hx Hy) as [Hi1 Hi2].
    unfold vget. rewrite Hi1.
    destruct (lookup_lt_is_Some_2 v (Z.to_nat (x * n + y)) ltac:(lia)) as [r ->]. eauto. }
  apply (for_range_inv (λ _ c, Z.of_nat (length c) = n * n)); [lia| |done].
  intros j c' Hj Hc'.
  assert (∃ s, dot_loop n a b i j = Ok s) as [s ->].
  { destruct (for_range_inv (λ _ _, True)
      (λ k sum, x ← vget a (w32 (w32 (i * n) + k)); y ← vget b (w32 (w32 (k * n) + j));
                Ok (fadd sum (fmul x y))) n f_zero) as (s & Hs & _); [lia| |done|by exists s].
    intros k s Hk _. destruct (Hget a i k) as [x ->]; [lia..|].
    destruct (Hget b k j) as [y ->]; [lia..|]. rewrite !bind_ok. eauto. }
  rewrite bind_ok. unfold vset. destruct (Hidx i j Hi Hj) as [-> ?].
  rewrite decide_True by lia. eexists. split; [done|]. by rewrite length_insert.
Qed.

(** ** The product *)

Definition entry (n : nat) (a b : list Z) (i j : nat) : Z :=
  foldl (λ s k, fadd s (fmul (a !!! (i * n + k)%nat) (b !!! (k * n + j)%nat)))
    f_zero (seq 0 n).

Definition mat_mul (n : nat) (a b : list Z) : list Z :=
  (λ p, entry n a b (p / n) (p mod n)) <$> seq 0 (n * n).

Lemma length_mat_mul n a b : length (mat_mul n a b) = (n * n)%nat.
Proof. unfold mat_mul. by rewrite length_fmap, length_seq. Qed.

(** The first [m] elements of [c], in row-major order, are computed. *)
Definition filled (n : nat) (a b c : list Z) (m : nat) : Prop :=
  length c = (n * n)%nat ∧
  ∀ p, (p < m)%nat → c !! p = Some (entry n a b (p / n) (p mod n)).

Lemma filled_init n a b c : length c = (n * n)%nat → filled n a b c 0.
Proof. intros Hc. split; [done | lia]. Qed.

Lemma filled_all n a b c : filled n a b c (n * n) → c = mat_mul n a b.
Proof.
  intros [Hl Hf]. apply list_eq. intros p.
  destruct (decide (p < n * n)%nat) as [Hp|Hp].
  - rewrite Hf by done. unfold mat_mul.
    by rewrite list_lookup_fmap, lookup_seq_lt by done.
  - by rewrite !lookup_ge_None_2 by (rewrite ?length_mat_mul; lia).
Qed.

Lemma filled_step n a b c i j :
  (i < n)%nat → (j < n)%nat → filled n a b c (i * n + j) →
  filled n a b (<[(i * n + j)%nat := entry n a b i j]> c) (i * n + j + 1).
Proof.
  intros Hi Hj [Hl Hf]. split; [by rewrite length_insert|].
  intros p Hp. destruct (decide (p = i * n + j)%nat) as [->|Hne].
  - rewrite list_lookup_insert_eq by nia.
    by rewrite Nat.div_add_l, Nat.div_small, Nat.add_0_r,
      Nat.add_comm, Nat.Div0.mod_add, Nat.mod_small by lia.
  - rewrite list_lookup_insert_ne by done. apply Hf. lia.
Qed.

(** ** The loop computes the product *)

Variables (n : nat) (a b : list Z).
Hypothesis Hn : (0 < n ≤ 256)%nat.
Hypothesis Ha : length a = (n * n)%nat.
Hypothesis Hb : length b = (n * n)%nat.

(** The 32-bit index arithmetic does not wrap around. *)
Lemma index_exact i j : (i < n)%nat → (j < n)%nat →
  Z.to_nat (w32 (w32 (Z.of_nat i * Z.of_nat n) + Z.of_nat j)) = (i * n + j)%nat.
Proof.
  intros Hi Hj. assert (0 ≤ Z.of_nat i * Z.of_nat n ≤ 256 * 256) by nia.
  rewrite !w32_id by (rewrite ?w32_id; lia). lia.
Qed.

Lemma index_bound i j : (i < n)%nat → (j < n)%nat → (i * n + j < n * n)%nat.
Proof. nia. Qed.

Lemma vget_index v i j : length v = (n * n)%nat → (i < n)%nat → (j < n)%nat →
  vget v (w32 (w32 (Z.of_nat i * Z.of_nat n) + Z.of_nat j)) = Ok (v !!! (i * n + j)%nat).
Proof.
  intros Hv Hi Hj. unfold vget. rewrite index_exact by done.
  rewrite (list_lookup_lookup_total_lt v) by (rewrite Hv; by apply index_bound). done.
Qed.

Lemma dot_loop_spec i j : (i < n)%nat → (j < n)%nat →
  dot_loop (Z.of_nat n) a b (Z.of_nat i) (Z.of_nat j) = Ok (entry n a b i j).
Proof.
  intros Hi Hj. unfold dot_loop, entry.
  set (f := λ (s : Z) (k : nat), fadd s (fmul (a !!! (i * n + k)%nat) (b !!! (k * n + j)%nat))).
  destruct (for_range_inv (λ k s, s = foldl f f_zero (seq 0 (Z.to_nat k)))
    (λ k sum, x ← vget a (w32 (w32 (Z.of_nat i * Z.of_nat n) + k));
              y ← vget b (w32 (w32 (k * Z.of_nat n) + Z.of_nat j));
              Ok (fadd sum (fmul x y))) (Z.of_nat n) f_zero) as (s & -> & ->).
  - lia.
  - intros k s Hk ->. rewrite <-(Z2Nat.id k) by lia.
    rewrite !vget_index by (done || lia). rewrite !bind_ok.
    eexists; split; [done|]. rewrite Nat2Z.id.
    replace (Z.to_nat (Z.of_nat (Z.to_nat k) + 1)) with (S (Z.to_nat k)) by lia.
    by rewrite seq_S, foldl_app.
  - done.
  - by rewrite Nat2Z.id.
Qed.

Lemma compute_row_spec i c : (i < n)%nat → filled n a b c (i * n) →
  ∃ c', compute_row (Z.of_nat n) a b (Z.of_nat i) c = Ok c' ∧ filled n a b c' (S i * n).
Proof.
  intros Hi Hc. unfold compute_row.
  destruct (for_range_inv (λ j c, filled n a b c (i * n + Z.to_nat j))
    (λ j c, sum ← dot_loop (Z.of_nat n) a b (Z.of_nat i) j;
            vset c (w32 (w32 (Z.of_nat i * Z.of_nat n) + j)) sum) (Z.of_nat n) c)
    as (c' & Hc' & Hf).
  - lia.
  - intros j s Hj Hs. rewrite <-(Z2Nat.id j) in * by lia.
    rewrite dot_loop_spec, bind_ok by lia. unfold vset.
    rewrite index_exact by lia. rewrite Nat2Z.id in Hs.
    pose proof (index_bound i (Z.to_nat j) Hi ltac:(lia)).
    destruct (decide _) as [_|Hbad]; [|destruct Hs; lia].
    eexists; split; [done|].
    replace (Z.to_nat (Z.of_nat (Z.to_nat j) + 1)) with (Z.to_nat j + 1)%nat by lia.
    rewrite Nat.add_assoc. apply filled_step; [done|lia|done].
  - by rewrite Nat.add_0_r.
  - exists c'. split; [done|]. rewrite Nat2Z.id in Hf.
    by replace (S i * n)%nat with (i * n + n)%nat by lia.
Qed.
End loops.

(** ** Integer matrices

    With [binary32] the product of integer matrices is exact as long as no partial sum
    can reach 2^24: the order of the additions does not matter then. *)

Definition int_entry (n : nat) (a b : list Z) (i j : nat) : Z :=
  foldl (λ s k, s + (a !!! (i * n + k)%nat) * (b !!! (k * n + j)%nat)) 0 (seq 0 n).

Definition int_mat_mul (n : nat) (a b : list Z) : list Z :=
  (λ p, int_entry n a b (p / n) (p mod n)) <$> seq 0 (n * n).

Section integers.
Variables (n : nat) (A B : list Z) (ma mb : Z).
Hypothesis HA : length A = (n * n)%nat ∧ Forall (λ x, Z.abs x ≤ ma) A.
Hypothesis HB : length B = (n * n)%nat ∧ Forall (λ x, Z.abs x ≤ mb) B.
Hypothesis Hm : 0 ≤ ma < 2 ^ 24 ∧ 0 ≤ mb < 2 ^ 24 ∧ Z.of_nat n * (ma * mb) < 2 ^ 24.

Lemma bounded_lookup v p k : length v = (n * n)%nat → Forall (λ x, Z.abs x ≤ p) v →
  (k < n * n)%nat → Z.abs (v !!! k) ≤ p ∧ (f32_of_Z <$> v) !!! k = f32_of_Z (v !!! k).
Proof.
  intros Hl Hv Hk. destruct (lookup_lt_is_Some_2 v k ltac:(lia)) as [x Hx].
  rewrite (list_lookup_total_correct _ _ _ Hx). split.
  - by apply (Forall_lookup_1 _ _ _ _ Hv Hx).
  - apply list_lookup_total_correct. by rewrite list_lookup_fmap, Hx.
Qed.

Lemma entry_int i j : (i < n)%nat → (j < n)%nat →
  entry n (f32_of_Z <$> A) (f32_of_Z <$> B) i j = f32_of_Z (int_entry n A B i j).
Proof.
  destruct HA as [HlA HfA], HB as [HlB HfB]. intros Hi Hj. unfold entry, int_entry.
  assert (∀ k, (k ≤ n)%nat →
    let s := foldl (λ s k, s + (A !!! (i * n + k)%nat) * (B !!! (k * n + j)%nat)) 0 (seq 0 k) in
    Z.abs s ≤ Z.of_nat k * (ma * mb) ∧
    foldl (λ s k, fadd s (fmul ((f32_of_Z <$> A) !!! (i * n + k)%nat)
      ((f32_of_Z <$> B) !!! (k * n + j)%nat))) f_zero (seq 0 k) = f32_of_Z s) as Hk.
  2:{ by apply Hk. }
  induction k as [|k IH]; intros Hk; cbv zeta; [by vm_compute|].
  destruct IH as [IH1 IH2]; [lia|]. rewrite !seq_S, !foldl_app. cbn [foldl plus].
  rewrite IH2. set (s := foldl _ 0 (seq 0 k)) in *. clearbody s.
  destruct (bounded_lookup A ma (i * n + k) HlA HfA ltac:(nia)) as [Ga ->].
  destruct (bounded_lookup B mb (k * n + j) HlB HfB ltac:(nia)) as [Gb ->].
  set (x := A !!! _) in *. set (y := B !!! _) in *. clearbody x y.
  assert (Z.abs (x * y) ≤ ma * mb) as Gxy by (rewrite Z.abs_mul; nia).
  assert (ma * mb ≤ Z.of_nat n * (ma * mb)) by nia.
  assert (Z.of_nat (S k) * (ma * mb) ≤ Z.of_nat n * (ma * mb)) by nia.
  assert (Z.of_nat (S k) * (ma * mb) = Z.of_nat k * (ma * mb) + ma * mb) by nia.
  split; [lia|]. apply f32_mac_int; lia.
Qed.

Lemma mat_mul_int :
  mat_mul n (f32_of_Z <$> A) (f32_of_Z <$> B) = f32_of_Z <$> int_mat_mul n A B.
Proof.
  unfold mat_mul, int_mat_mul. rewrite <-list_fmap_compose.
  apply list_fmap_ext. intros i p Hp. apply lookup_seq in Hp as [-> Hp]. cbn.
  apply entry_int; [|apply Nat.mod_upper_bound; lia].
  apply Nat.Div0.div_lt_upper_bound. lia.
Qed.
End integers.

(** ** The identity matrix

    A product with the identity on the left gives back every finite matrix, but for the
    sign of its zeros. *)

Definition identity (n : nat) : list Z :=
  (λ p, if decide (p / n = p mod n)%nat then f_one else f_zero) <$> seq 0 (n * n).

Lemma identity_lookup n i k : (i < n)%nat → (k < n)%nat →
  identity n !!! (i * n + k)%nat = if decide (i = k) then f_one else f_zero.
Proof.
  intros Hi Hk. apply list_lookup_total_correct. unfold identity.
  rewrite list_lookup_fmap, lookup_seq_lt by nia. cbn.
  by rewrite Nat.div_add_l, Nat.div_small, Nat.add_0_r, Nat.add_comm, Nat.Div0.mod_add,
    Nat.mod_small by lia.
Qed.

Section identity.
Variables (n : nat) (B : list Z).
Hypothesis HB : length B = (n * n)%nat.
Hypothesis Hfin : Forall f_finite B.

Lemma finite_lookup i j : (i < n)%nat → (j < n)%nat → f_finite (B !!! (i * n + j)%nat).
Proof.
  intros Hi Hj. destruct (lookup_lt_is_Some_2 B (i * n + j) ltac:(nia)) as [x Hx].
  rewrite (list_lookup_total_correct _ _ _ Hx). by apply (Forall_lookup_1 _ _ _ _ Hfin Hx).
Qed.

Lemma entry_identity i j : (i < n)%nat → (j < n)%nat →
  entry n (identity n) B i j = unsigned_zero (B !!! (i * n + j)%nat).
Proof.
  intros Hi Hj. unfold entry.
  assert (∀ k, (k ≤ n)%nat →
    foldl (λ s k, fadd s (fmul (identity n !!! (i * n + k)%nat) (B !!! (k * n + j)%nat)))
      f_zero (seq 0 k) =
    if decide (k ≤ i)%nat then 0 else unsigned_zero (B !!! (i * n + j)%nat)) as Hk.
  2:{ rewrite Hk by done. rewrite decide_False by lia. done. }
  pose proof (finite_lookup i j Hi Hj) as Hw.
  destruct (unsigned_zero_finite _ Hw) as [Huf Hu0].
  induction k as [|k IH]; intros Hk; [done|].
  rewrite seq_S, foldl_app. cbn [foldl plus]. rewrite IH by lia.
  rewrite identity_lookup by lia. pose proof (finite_lookup k j ltac:(lia) Hj) as Hx.
  cbn [fadd fmul binary32].
  destruct (decide (i = k)) as [->|Hne].
  - rewrite decide_True, decide_False by lia. unfold unsigned_zero.
    destruct (f_is_zero (B !!! (k * n + j)%nat)) eqn:Hz.
    + apply f32_add_zero; [by split|done|]. by apply f32_mul_one_zero.
    + rewrite f32_mul_one by done. by apply f32_add_zero_l.
  - pose proof (f32_mul_zero _ Hx) as Hm.
    destruct (decide (k ≤ i)%nat).
    + rewrite decide_True by lia. by apply f32_add_zero; [by split|..].
    + rewrite decide_False by lia. by apply f32_add_zero.
Qed.

Lemma mat_mul_identity : mat_mul n (identity n) B = unsigned_zero <$> B.
Proof.
  apply list_eq. intros p. destruct (decide (p < n * n)%nat) as [Hp|Hp].
  - assert (p = (p / n) * n + p mod n)%nat as E by (rewrite Nat.mul_comm; apply Nat.div_mod; lia).
    assert (p / n < n)%nat by (apply Nat.Div0.div_lt_upper_bound; lia).
    assert (p mod n < n)%nat by (apply Nat.mod_upper_bound; lia).
    unfold mat_mul. rewrite list_lookup_fmap, lookup_seq_lt by done. cbn.
    rewrite entry_identity, <-E by done. rewrite list_lookup_fmap.
    by rewrite (list_lookup_lookup_total_lt B) by lia.
  - by rewrite !lookup_ge_None_2 by (rewrite ?length_fmap, ?length_mat_mul; lia).
Qed.
End identity.
