(* ===== verification/Device.v ===== *)
(** * The threads of the matrix multiplier

    The processes of [matrix_multiplier_pcie.h]: [compute_thread] with
    [perform_matrix_multiply], [dma_read] and [dma_write], the interrupt controller,
    and the transport callback, running against any DMA target.

    A SystemC thread runs without interruption between two [wait]s.  A thread is
    modelled by the [wait] it is suspended at, with the values of its local variables
    there ([cloc]), and by the code up to the next [wait] ([compute_resume]).  The
    only assumption on the scheduler is that it resumes a thread that may run: the
    step relation lets the host, the compute thread and the interrupt controller
    interleave in every order.  [notify] on an event is immediate: it makes a thread
    that is waiting for the event runnable, and is lost otherwise. *)

From S2P Require Import Prelude Tlm Float32 Registers MatMul.
Local Open Scope Z_scope.

(** Where [compute_thread] is suspended. *)
Inductive cloc :=
| C_init                                   (* not yet run *)
| C_start                                  (* [wait(start_event)] *)
| C_dma_a (n : Z) (a : list Z) (ok : bool) (* in [dma_read] of matrix A *)
| C_dma_b (n : Z) (a b : list Z) (ok : bool)
| C_row (n : Z) (a b c : list Z) (i : Z)   (* the wait after row [i] *)
| C_dma_c (ok : bool).                     (* in [dma_write] of matrix C *)

#[export] Instance cloc_eq_dec : EqDecision cloc.
Proof. solve_decision. Defined.

(** In the middle of a computation. *)
Definition in_flight (l : cloc) : bool :=
  match l with C_init | C_start => false | _ => true end.

Section device.
Context {F : FloatOps} {M : Type} {T : Target M}.

(** [dma_read] and [dma_write]: the transport call, and what the caller gets when
    the [wait(delay)] is over; the last component is that delay. *)
Definition dma_read (m : M) (addr : Z) (data : list Z) (len : Z)
    : res (M * list Z * bool * Z) :=
  '(m, trans, delay) ← b_transport m (request TLM_READ_COMMAND addr data len) 50;
  Ok (m, Tlm.data trans, is_response_ok trans, delay).

Definition dma_write (m : M) (addr : Z) (data : list Z) (len : Z)
    : res (M * bool * Z) :=
  '(m, trans, delay) ← b_transport m (request TLM_WRITE_COMMAND addr data len) 50;
  Ok (m, is_response_ok trans, delay).

(** [n * n] elements and their size in bytes, in the code's 32-bit arithmetic. *)
Definition elements (n : Z) : Z := w32 (n * n).
Definition byte_count (n : Z) : Z := w32 (elements n * 4).

(** [std::vector<float> v(n * n)] *)
Definition new_vector (n : Z) : list Z := replicate (Z.to_nat (elements n)) f_zero.

(** What a run of the thread yields: registers, target, where it is suspended
    next, the events it notified, and the time it waits ([0] for an event). *)
Definition segment : Type := dev * M * cloc * list event * Z.

(** The end of the loop body of [compute_thread], from [if (success)] on. *)
Definition finish (d : dev) (m : M) (success : bool) : segment :=
  let d :=
    if success then
      let d := set_status (Z.lor STATUS_IDLE STATUS_DONE) d in
      set_int_status (Z.lor (reg_int_status d) INT_DONE) d
    else set_status (Z.lor STATUS_IDLE STATUS_ERROR) d in
  (d, m, C_start, [interrupt_update_event], 0).

(** From the resumption at [wait(start_event)] to the first DMA. *)
Definition begin_compute (d : dev) (m : M) : res segment :=
  if negb (computation_requested d) then Ok (d, m, C_start, [], 0)
  else
    let d := set_status STATUS_BUSY d in
    let d := set_status (Z.land (reg_status d) (not32 STATUS_IDLE)) d in
    let d := set_requested false d in
    let n := reg_dim_n d in
    if (n =? 0) || (256 <? n) then Ok (finish d m false)
    else
      '(m, bs, ok, w) ←
        dma_read m (reg_matrix_a_ptr d) (words_bytes (new_vector n)) (byte_count n);
      Ok (d, m, C_dma_a n (bytes_words bs) ok, [], w).

(** One row of the product, up to [wait(sc_time(n * 2, SC_NS))]. *)
Definition run_row (d : dev) (m : M) (n : Z) (a b c : list Z) (i : Z) : res segment :=
  c ← compute_row n a b i c;
  Ok (d, m, C_row n a b c i, [], w32 (n * 2)).

Definition compute_resume (d : dev) (m : M) (l : cloc) : res segment :=
  match l with
  | C_init => Ok (d, m, C_start, [], 0)
  | C_start => begin_compute d m
  | C_dma_a n a ok =>
      if negb ok then Ok (finish d m false)
      else
        '(m, bs, ok, w) ←
          dma_read m (reg_matrix_b_ptr d) (words_bytes (new_vector n)) (byte_count n);
        Ok (d, m, C_dma_b n a (bytes_words bs) ok, [], w)
  | C_dma_b n a b ok =>
      if negb ok then Ok (finish d m false)
      else run_row d m n a b (new_vector n) 0
  | C_row n a b c i =>
      if w32 (i + 1) <? n then run_row d m n a b c (w32 (i + 1))
      else
        '(m, ok, w) ← dma_write m (reg_matrix_c_ptr d) (words_bytes c) (byte_count n);
        Ok (d, m, C_dma_c ok, [], w)
  | C_dma_c ok => Ok (finish d m ok)
  end.
End device.

(** ** The module *)

(** [m_ready]: the compute thread may run although it waits for no time-out (at the
    start of the simulation, and after [start_event]).  The interrupt controller is
    not run at the start ([dont_initialize]): its first activation runs it from the
    top to its first [wait].  [m_irq] is the value last written to the port. *)
Record mm := MM {
  m_dev : dev;
  m_loc : cloc;
  m_ready : bool;
  m_irq_started : bool;
  m_irq_ready : bool;
  m_irq : bool
}.

#[export] Instance mm_eq_dec : EqDecision mm.
Proof. solve_decision. Defined.

(** After the constructor and [start_of_simulation]. *)
Definition mm_init : mm := MM reset_device C_init true false false false.

Definition with_dev (d : dev) (s : mm) : mm :=
  MM d (m_loc s) (m_ready s) (m_irq_started s) (m_irq_ready s) (m_irq s).

Definition notify (s : mm) (e : event) : mm :=
  match e with
  | start_event =>
      MM (m_dev s) (m_loc s) (m_ready s || bool_decide (m_loc s = C_start))
        (m_irq_started s) (m_irq_ready s) (m_irq s)
  | interrupt_update_event =>
      MM (m_dev s) (m_loc s) (m_ready s) (m_irq_started s) true (m_irq s)
  end.

(** [(reg_int_status & reg_int_enable) != 0] *)
Definition pending (d : dev) : bool :=
  negb (Z.land (reg_int_status d) (reg_int_enable d) =? 0).

(** One activation of [interrupt_controller]: the first one only reaches [wait()]. *)
Definition interrupt_controller (s : mm) : mm :=
  MM (m_dev s) (m_loc s) (m_ready s) true false
    (if m_irq_started s then pending (m_dev s) else m_irq s).

(** The compute thread may be resumed: it was notified, or it waits for a time-out. *)
Definition compute_enabled (s : mm) : bool := in_flight (m_loc s) || m_ready s.

Section module.
Context {F : FloatOps} {M : Type} {T : Target M}.

(** The BAR 0 target of the module. *)
#[export] Instance mm_target : Target mm := fun s p t =>
  '(d, evs, p, t) ← bar0_transport (m_dev s) p t;
  Ok (foldl notify (with_dev d s) evs, p, t).

(** A resumption of the compute thread. *)
Definition run_compute (s : mm) (m : M) : res (mm * M * Z) :=
  '(d, m, l, evs, w) ← compute_resume (m_dev s) m (m_loc s);
  let s := MM d l false (m_irq_started s) (m_irq_ready s) (m_irq s) in
  Ok (foldl notify s evs, m, w).

(** A transaction of the host, a resumption of one of the two threads. *)
Inductive action :=
| A_host (p : payload)
| A_compute
| A_irq.

Inductive step : mm * M → action → mm * M → Prop :=
| step_host s m p s' p' t' :
    bytes_ok (data p) →
    b_transport s p 0 = Ok (s', p', t') →
    step (s, m) (A_host p) (s', m)
| step_compute s m s' m' w :
    compute_enabled s = true →
    run_compute s m = Ok (s', m', w) →
    step (s, m) A_compute (s', m')
| step_irq s m :
    m_irq_ready s = true →
    step (s, m) A_irq (interrupt_controller s, m).

Inductive steps : mm * M → list action → mm * M → Prop :=
| steps_nil x : steps x [] x
| steps_cons x a y l z : step x a y → steps y l z → steps x (a :: l) z.

(** The same, as a function. *)
Definition do_action (x : mm * M) (a : action) : option (mm * M) :=
  match a with
  | A_host p =>
      if decide (bytes_ok (data p)) then
        match b_transport x.1 p 0 with Ok (s', _, _) => Some (s', x.2) | UB _ => None end
      else None
  | A_compute =>
      if compute_enabled x.1 then
        match run_compute x.1 x.2 with Ok (s', m', _) => Some (s', m') | UB _ => None end
      else None
  | A_irq => if m_irq_ready x.1 then Some (interrupt_controller x.1, x.2) else None
  end.

Fixpoint exec (x : mm * M) (l : list action) : option (mm * M) :=
  match l with
  | [] => Some x
  | a :: l => y ← do_action x a; exec y l
  end.

Lemma step_do_action x a y : step x a y ↔ do_action x a = Some y.
Proof.
  split.
  - intros []; cbn.
    + rewrite decide_True by done. by case_match; simplify_eq.
    + case_match; [|done]. by case_match; simplify_eq.
    + by case_match.
  - destruct x as [s m], a; cbn; intros Hd.
    + case_decide; [|done]. case_match; [|done]. repeat case_match; simplify_eq.
      by econstructor.
    + case_match; [|done]. case_match; [|done]. repeat case_match; simplify_eq.
      by econstructor.
    + case_match; [|done]. simplify_eq. by econstructor.
Qed.

Lemma exec_steps x l y : exec x l = Some y ↔ steps x l y.
Proof.
  revert x. induction l as [|a l IH]; intros x; cbn.
  - split; [intros [= ->]; constructor | by inversion 1].
  - rewrite bind_Some. split.
    + intros (z & Hz & Hl). econstructor; [by apply step_do_action | by apply IH].
    + inversion 1; subst. eexists. rewrite <-step_do_action, IH. eauto.
Qed.

Lemma steps_app x l1 y l2 z : steps x l1 y → steps y l2 z → steps x (l1 ++ l2) z.
Proof. induction 1; [done|]. intros. econstructor; eauto. Qed.
End module.

(** Find the state an execution on concrete input ends in. *)
Ltac exec_result :=
  lazymatch goal with
  | |- ∃ s m, ?x = Some (s, m) ∧ _ =>
      let v := eval vm_compute in x in
      lazymatch v with
      | Some (?s, ?m) => exists s, m; split; [vm_compute; reflexivity|]
      end
  end.

(** ** What one step can change *)

(** The host writes CONTROL; it resets the device if the reset bit is set. *)
Definition is_control (p : payload) : bool :=
  bool_decide (command p = TLM_WRITE_COMMAND) && (address p =? REG_CONTROL) &&
  (data_length p =? 4).
Definition is_reset (p : payload) : bool :=
  is_control p && has_bit (le_val (take 4 (data p))) CTRL_RESET.

Definition same_status (d d' : dev) : Prop :=
  reg_status d' = reg_status d ∧ computation_requested d' = computation_requested d.
Definition same_interrupts (d d' : dev) : Prop :=
  reg_int_status d' = reg_int_status d ∧ reg_int_enable d' = reg_int_enable d.

(** The effect of a host transaction, by class: on STATUS and the request only a
    write to CONTROL has one; on the interrupt registers only a reset does without
    notifying the interrupt controller. *)
Inductive host_effect (d : dev) (p : payload) : dev → list event → Prop :=
| he_plain d' :
    same_status d d' → same_interrupts d d' → host_effect d p d' []
| he_interrupt d' :
    same_status d d' → host_effect d p d' [interrupt_update_event]
| he_start v :
    is_control p = true → is_reset p = false → has_bit (reg_status d) STATUS_IDLE = true →
    host_effect d p (set_requested true (set_control v d)) [start_event]
| he_reset :
    is_reset p = true → host_effect d p reset_device []
| he_reset_start :
    is_reset p = true → host_effect d p (set_requested true reset_device) [start_event].

(** The reset bit of the value a write to CONTROL delivers; a wide one delivers 0. *)
Lemma is_reset_value p v :
  command p = TLM_WRITE_COMMAND → data_length p = 4 ∨ data_length p = 8 →
  address p = REG_CONTROL →
  (if data_length p =? 4 then v ← memcpy (replicate 4 0) (data p) 4; Ok (le_val v) else Ok 0)
    = Ok v →
  is_reset p = has_bit v CTRL_RESET.
Proof.
  intros Hc Hl Ha Hv. unfold is_reset, is_control. rewrite Hc, Ha.
  rewrite bool_decide_eq_true_2 by done. destruct Hl as [Hl|Hl]; rewrite Hl in *; cbn in Hv |- *.
  - apply bind_inv in Hv as (bs & (_ & _ & ->)%memcpy_inv & [= <-]).
    cbn. by rewrite app_nil_r.
  - by simplify_eq.
Qed.

Lemma write_effect d p d' evs :
  command p = TLM_WRITE_COMMAND → data_length p = 4 ∨ data_length p = 8 →
  handle_mmio_write d (address p) (data p) (data_length p) = Ok (d', evs) →
  host_effect d p d' evs.
Proof.
  intros Hc Hl Hw. unfold handle_mmio_write in Hw.
  apply bind_inv in Hw as (v & Hv & Hw). apply bind_inv in Hw as (v64 & _ & Hw).
  apply ok_inj in Hw.
  destruct (address p =? REG_CONTROL) eqn:Ha.
  - assert (is_reset p = has_bit v CTRL_RESET) as Hr.
    { by apply is_reset_value; [|..|apply Z.eqb_eq|]. }
    assert (v ≠ 0 → is_control p = true) as Hctl.
    { unfold is_control. rewrite Hc, Ha. rewrite bool_decide_eq_true_2 by done.
      destruct Hl as [Hl|Hl]; rewrite Hl in *; [done|]. cbn in Hv. by simplify_eq. }
    unfold write_control in Hw.
    destruct (has_bit v CTRL_RESET) eqn:Hreset;
      destruct (has_bit v CTRL_START) eqn:Hstart; cbn -[has_bit] in Hw.
    + change (has_bit STATUS_IDLE STATUS_IDLE) with true in Hw.
      cbv iota in Hw. simplify_eq. by constructor.
    + simplify_eq. by constructor.
    + assert (v ≠ 0) as Hv0 by (intros ->; done).
      destruct (has_bit (reg_status d) STATUS_IDLE) eqn:Hi; simplify_eq;
        constructor; by auto.
    + simplify_eq. by constructor.
  - repeat case_match; simplify_eq; by constructor.
Qed.

Lemma transport_effect d p t d' evs p' t' :
  bar0_transport d p t = Ok (d', evs, p', t') → host_effect d p d' evs.
Proof.
  unfold bar0_transport. intros Ht.
  destruct (negb (data_length p =? 4) && negb (data_length p =? 8)) eqn:Hl.
  - simplify_eq. by constructor.
  - assert (data_length p = 4 ∨ data_length p = 8).
    { apply andb_false_iff in Hl as [Hl|Hl]; apply negb_false_iff, Z.eqb_eq in Hl; auto. }
    apply bind_inv in Ht as ([[d1 evs1] ptr] & H1 & Ht). res_inv.
    case_bool_decide; [res_inv; by constructor|].
    case_bool_decide; res_inv; [by apply write_effect | by constructor].
Qed.

Section effects.
Context {F : FloatOps} {M : Type} {T : Target M}.
Implicit Types (s : mm) (m : M).

(** The end of a computation: STATUS says how it went, and the controller is told. *)
Definition finished (ok : bool) (d : dev) : dev :=
  if ok then
    set_int_status (Z.lor (reg_int_status d) INT_DONE)
      (set_status (Z.lor STATUS_IDLE STATUS_DONE) d)
  else set_status (Z.lor STATUS_IDLE STATUS_ERROR) d.

Definition accepted (d : dev) : dev :=
  set_requested false (set_status (Z.land STATUS_BUSY (not32 STATUS_IDLE)) d).

(** The effect of a resumption on the registers, by the place it started from. *)
Inductive compute_effect (d : dev) : cloc → dev → cloc → list event → Prop :=
| ce_init : compute_effect d C_init d C_start []
| ce_spurious :
    computation_requested d = false → compute_effect d C_start d C_start []
| ce_refused :
    computation_requested d = true →
    compute_effect d C_start (finished false (accepted d)) C_start [interrupt_update_event]
| ce_begin l' :
    computation_requested d = true → in_flight l' = true →
    compute_effect d C_start (accepted d) l' []
| ce_continue l l' :
    in_flight l = true → in_flight l' = true → compute_effect d l d l' []
| ce_finish l ok :
    in_flight l = true →
    compute_effect d l (finished ok d) C_start [interrupt_update_event].

Lemma resume_effect d m l d' m' l' evs w :
  compute_resume d m l = Ok (d', m', l', evs, w) → compute_effect d l d' l' evs.
Proof.
  intros Hr. destruct l; cbn [compute_resume] in Hr.
  - simplify_eq. constructor.
  - unfold begin_compute in Hr.
    destruct (computation_requested d) eqn:Hq; cbn [negb] in Hr.
    + case_match; [simplify_eq; by constructor|].
      apply bind_inv in Hr as ([[[m1 bs] ok] w1] & _ & Hr). simplify_eq. by constructor.
    + simplify_eq. by constructor.
  - case_match; [unfold finish in Hr; simplify_eq; by apply (ce_finish d _ false)|].
    apply bind_inv in Hr as ([[[m1 bs] ok'] w1] & _ & Hr). simplify_eq. by constructor.
  - case_match; [unfold finish in Hr; simplify_eq; by apply (ce_finish d _ false)|].
    apply bind_inv in Hr as (c & _ & Hr). simplify_eq. by constructor.
  - case_match.
    + apply bind_inv in Hr as (c' & _ & Hr). simplify_eq. by constructor.
    + apply bind_inv in Hr as ([[m1 ok'] w1] & _ & Hr). simplify_eq. by constructor.
  - unfold finish in Hr. simplify_eq. by apply (ce_finish d _ ok).
Qed.
End effects.
