(* ===== verification/Handshake.v ===== *)
(** * Start, completion and interrupts under every interleaving

    Invariants of the step relation of [Device.v]: the registers keep their types and
    STATUS its four legal values; without a device reset the start/busy/done
    handshake and the interrupt line stay in step with the thread; a computation is
    over after a bounded number of resumptions.  With a reset in the middle of a
    computation the handshake breaks: the executions that show it are given. *)

From S2P Require Import Prelude Tlm Float32 Registers MatMul Device HostMemory.
Local Open Scope Z_scope.

(** ** Registers *)

Definition legal_status (v : Z) : Prop :=
  v = STATUS_IDLE ∨ v = STATUS_BUSY ∨
  v = Z.lor STATUS_IDLE STATUS_DONE ∨ v = Z.lor STATUS_IDLE STATUS_ERROR.

Lemma accepted_status d : reg_status (accepted d) = STATUS_BUSY.
Proof. done. Qed.

Lemma finished_wf ok d : dev_wf d → dev_wf (finished ok d).
Proof.
  intros []. destruct ok; split; cbn; try done.
  apply lor_bound; [lia|done|done].
Qed.

Lemma accepted_wf d : dev_wf d → dev_wf (accepted d).
Proof. intros []. by split. Qed.

Lemma finished_legal ok d : legal_status (reg_status (finished ok d)).
Proof. destruct ok; unfold legal_status; cbn; auto. Qed.

Lemma notify_dev s evs : m_dev (foldl notify s evs) = m_dev s.
Proof. revert s. by induction evs as [|[] evs IH]; intros s; cbn; rewrite ?IH. Qed.
Lemma notify_loc s evs : m_loc (foldl notify s evs) = m_loc s.
Proof. revert s. by induction evs as [|[] evs IH]; intros s; cbn; rewrite ?IH. Qed.
Lemma notify_irq_started s evs : m_irq_started (foldl notify s evs) = m_irq_started s.
Proof. revert s. by induction evs as [|[] evs IH]; intros s; cbn; rewrite ?IH. Qed.
Lemma notify_irq s evs : m_irq (foldl notify s evs) = m_irq s.
Proof. revert s. by induction evs as [|[] evs IH]; intros s; cbn; rewrite ?IH. Qed.
#[export] Hint Rewrite notify_dev notify_loc notify_irq_started notify_irq : mm.

(** Which part of a transaction the host chose: at most one class of effect. *)
Lemma host_effect_status d p d' evs : host_effect d p d' evs →
  legal_status (reg_status d) → legal_status (reg_status d').
Proof.
  intros Hh Hd. destruct Hh as [d' [Hs _] _|d' [Hs _]|v _ _ _|_|_]; cbn;
    rewrite ?Hs; try done; by left.
Qed.

Section invariants.
Context {F : FloatOps} {M : Type} {T : Target M}.
Implicit Types (s : mm) (m : M) (tr : list action).

(** One step, seen through its effect. *)
Inductive effect : mm → action → mm → Prop :=
| ef_host s p d' evs :
    host_effect (m_dev s) p d' evs → (dev_wf (m_dev s) → dev_wf d') →
    effect s (A_host p) (foldl notify (with_dev d' s) evs)
| ef_compute s d' l' evs :
    compute_enabled s = true →
    compute_effect (m_dev s) (m_loc s) d' l' evs →
    effect s A_compute
      (foldl notify (MM d' l' false (m_irq_started s) (m_irq_ready s) (m_irq s)) evs)
| ef_irq s :
    m_irq_ready s = true → effect s A_irq (interrupt_controller s).

Lemma transport_wf d p t d' evs p' t' : bytes_ok (data p) →
  bar0_transport d p t = Ok (d', evs, p', t') → dev_wf d → dev_wf d'.
Proof.
  intros Hb Ht Hd. unfold bar0_transport in Ht. case_match; [by simplify_eq|].
  apply bind_inv in Ht as ([[d1 evs1] ptr] & H1 & Ht). simplify_eq.
  case_bool_decide; [res_inv; done|]. case_bool_decide; res_inv; [|done].
  by eapply handle_mmio_write_wf.
Qed.

Lemma step_effect s m a s' m' : step (s, m) a (s', m') → effect s a s'.
Proof.
  inversion 1 as [? ? ? ? ? ? Hb Ht|? ? ? ? w He Hr|? ? Hi]; subst.
  - unfold b_transport, mm_target in Ht.
    apply bind_inv in Ht as ([[[d' evs] p''] t''] & Ht & Heq). simplify_eq.
    constructor; [by eapply transport_effect | by eapply transport_wf].
  - unfold run_compute in Hr.
    apply bind_inv in Hr as ([[[[d' m1] l'] evs] w'] & Hr & Heq). simplify_eq.
    constructor; [done|]. by eapply resume_effect.
  - by constructor.
Qed.

(** Rule induction on executions: an invariant of the effects is an invariant. *)
Lemma steps_invariant (I : mm → Prop) (ok : action → Prop) :
  (∀ s a s', effect s a s' → ok a → I s → I s') →
  ∀ x l y, steps x l y → Forall ok l → I x.1 → I y.1.
Proof.
  intros Hpres x l y. induction 1 as [|[s m] a [s1 m1] l z Hs _ IH]; [done|].
  intros [Ha Hl]%Forall_cons Hx. apply IH; [done|].
  eapply Hpres; [by eapply step_effect|done|done].
Qed.

Definition regs_ok s : Prop := dev_wf (m_dev s) ∧ legal_status (reg_status (m_dev s)).

Lemma regs_ok_effect s a s' : effect s a s' → regs_ok s → regs_ok s'.
Proof.
  intros He [Hd Hs]. unfold regs_ok. destruct He as [s p d' evs He Hw|s d' l' evs _ Hc|s _].
  - rewrite notify_dev. cbn. split; [by apply Hw|]. by eapply host_effect_status.
  - rewrite notify_dev. cbn. destruct Hc; try done.
    + split; [by apply (finished_wf false), accepted_wf | apply (finished_legal false)].
    + split; [by apply accepted_wf | right; by left].
    + split; [by apply finished_wf | apply finished_legal].
  - done.
Qed.

(** C23: whatever the host does, from power-up on, every register stays within its C++
    type and STATUS is IDLE, BUSY, IDLE|DONE or IDLE|ERROR. *)
Theorem registers_always_legal m l s m' :
  steps (mm_init, m) l (s, m') →
  dev_wf (m_dev s) ∧ legal_status (reg_status (m_dev s)).
Proof.
  intros Hs.
  apply (steps_invariant regs_ok (λ _, True)) in Hs; [done| | |].
  - intros ? ? ? He _. by eapply regs_ok_effect.
  - by apply Forall_true.
  - split; [apply reset_device_wf | by left].
Qed.
End invariants.

(** The registers are legal after configuring, starting and finishing a 1x1 product. *)
Lemma registers_always_legal_witness :
  let start := A_host (request TLM_WRITE_COMMAND 0 [1; 0; 0; 0] 4) in
  ∃ s m, exec (M := host_memory) (mm_init, host_memory_init) [A_compute; start; A_compute] =
      Some (s, m) ∧ reg_status (m_dev s) = 9 ∧ legal_status (reg_status (m_dev s)).
Proof.
  intros start.
  destruct (exec (M := host_memory) (mm_init, host_memory_init) [A_compute; start; A_compute])
    as [[s m]|] eqn:He; [|vm_compute in He; discriminate He].
  exists s, m. split; [done|]. split; [vm_compute in He; by injection He as <- <-|].
  apply exec_steps in He. exact (proj2 (registers_always_legal _ _ _ _ He)).
Defined.

(** ** The start handshake *)

Definition no_reset (a : action) : Prop :=
  match a with A_host p => is_reset p = false | _ => True end.

#[export] Instance no_reset_dec a : Decision (no_reset a).
Proof. destruct a; apply _. Defined.

(** The thread has reached its loop; STATUS is BUSY exactly while a computation is in
    flight, and then nothing is requested; otherwise STATUS says idle, and a request
    is on record exactly when the thread has been made runnable. *)
Definition handshake (s : mm) : Prop :=
  m_loc s ≠ C_init ∧
  if in_flight (m_loc s) then
    reg_status (m_dev s) = STATUS_BUSY ∧ computation_requested (m_dev s) = false ∧
    m_ready s = false
  else
    has_bit (reg_status (m_dev s)) STATUS_IDLE = true ∧
    has_bit (reg_status (m_dev s)) STATUS_BUSY = false ∧
    m_ready s = computation_requested (m_dev s).

(** The module once the compute thread has reached [wait(start_event)]. *)
Definition mm_booted : mm := MM reset_device C_start false false false false.

Lemma handshake_effect s a s' : effect s a s' → no_reset a → handshake s → handshake s'.
Proof.
  intros He Hok [Hl Hh]. destruct He as [s p d' evs He _|s d' l' evs Hen Hc|s _].
  - unfold handshake. rewrite notify_dev, notify_loc. cbn [m_loc with_dev m_dev].
    split; [done|]. cbn in Hok.
    destruct He as [d' [H1 H2] _|d' [H1 H2]|v _ _ Hidle|Hr|Hr]; try congruence; cbn.
    + by rewrite H1, H2.
    + by rewrite H1, H2.
    + destruct (m_loc s) eqn:Hloc; cbn in Hh; try done;
        try (destruct Hh as (Hb & _); rewrite Hb in Hidle; discriminate Hidle).
      destruct Hh as (H1 & H2 & H3). cbn. rewrite bool_decide_eq_true_2 by done.
      by rewrite orb_true_r.
  - unfold handshake. rewrite notify_dev, notify_loc. cbn [m_loc m_dev].
    assert (∀ evs, evs = [] ∨ evs = [interrupt_update_event] →
      m_ready (foldl notify (MM d' l' false (m_irq_started s) (m_irq_ready s) (m_irq s)) evs)
      = false) as Hready by (by intros ? [->| ->]).
    destruct Hc as [|Hq|Hq|l' Hq Hl'|l l' Hl1 Hl'|l ok Hl1]; rewrite Hready by auto.
    + done.
    + split; [done|]. by destruct Hh as (H1 & H2 & H3).
    + done.
    + split; [by destruct l'|]. by rewrite Hl'.
    + split; [by destruct l'|]. rewrite Hl1 in Hh. rewrite Hl'. by destruct Hh as (? & ? & _).
    + split; [done|]. rewrite Hl1 in Hh. destruct Hh as (_ & Hq & _).
      by destruct ok; cbn in Hq |- *; rewrite Hq.
  - done.
Qed.

Section handshake.
Context {F : FloatOps} {M : Type} {T : Target M}.

(** C11: without a device reset no start is ever lost.  In every execution from a
    booted device, STATUS reads BUSY exactly while a computation is in flight, a
    start is accepted only outside of one, and an accepted start leaves the compute
    thread runnable until it serves the request. *)
Theorem handshake_without_reset (s : mm) (m : M) tr s' m' :
  handshake s → steps (s, m) tr (s', m') → Forall no_reset tr →
  handshake s' ∧
  (computation_requested (m_dev s') = true →
     m_loc s' = C_start ∧ compute_enabled s' = true) ∧
  (reg_status (m_dev s') = STATUS_BUSY ↔ in_flight (m_loc s') = true).
Proof.
  intros Hs Htr Hok.
  assert (handshake s') as Hs'.
  { eapply (steps_invariant handshake no_reset _ _ _ _ Htr); done. }
  split; [done|]. destruct Hs' as [Hl Hh]. unfold compute_enabled.
  destruct (in_flight (m_loc s')) eqn:Hf.
  - destruct Hh as (H1 & H2 & H3). split; [congruence|]. by rewrite H1.
  - destruct Hh as (H1 & H2 & H3). split.
    + intros Hq. rewrite H3. split; [|done]. by destruct (m_loc s').
    + split; [|done]. intros Hb. by rewrite Hb in H1.
  Unshelve. apply handshake_effect.
Qed.
End handshake.

(** A start served by a device with no dimension set: from the request to ERROR. *)
Lemma handshake_without_reset_witness :
  let start := A_host (request TLM_WRITE_COMMAND 0 [1; 0; 0; 0] 4) in
  ∃ s m, exec (M := host_memory) (mm_booted, host_memory_init) [start] = Some (s, m) ∧
    m_loc s = C_start ∧ compute_enabled s = true.
Proof.
  intros start.
  destruct (exec (M := host_memory) (mm_booted, host_memory_init) [start])
    as [[s m]|] eqn:He; [|vm_compute in He; discriminate He].
  exists s, m. split; [done|].
  assert (computation_requested (m_dev s) = true) as Hq.
  { vm_compute in He. by injection He as <- <-. }
  apply exec_steps in He.
  refine (proj1 (proj2 (handshake_without_reset _ _ _ _ _ _ He _)) Hq).
  - by split.
  - repeat constructor.
Defined.

(** ** A computation ends *)

(** What a suspended computation holds: dimensions in range, vectors of the right size. *)
Definition loc_ok (l : cloc) : Prop :=
  match l with
  | C_init | C_start | C_dma_c _ => True
  | C_dma_a n a _ => 0 < n ≤ 256 ∧ Z.of_nat (length a) = n * n
  | C_dma_b n a b _ =>
      0 < n ≤ 256 ∧ Z.of_nat (length a) = n * n ∧ Z.of_nat (length b) = n * n
  | C_row n a b c i =>
      0 < n ≤ 256 ∧ Z.of_nat (length a) = n * n ∧ Z.of_nat (length b) = n * n ∧
      Z.of_nat (length c) = n * n ∧ 0 ≤ i < n
  end.

(** Resumptions left until the thread is back at [wait(start_event)]. *)
Definition rank (l : cloc) : nat :=
  match l with
  | C_init | C_start => 0
  | C_dma_a n _ _ => Z.to_nat n + 3
  | C_dma_b n _ _ _ => Z.to_nat n + 2
  | C_row n _ _ _ i => Z.to_nat (n - i) + 1
  | C_dma_c _ => 1
  end.

Lemma rank_bound l : loc_ok l → (rank l ≤ 259)%nat.
Proof. destruct l; cbn; lia. Qed.

Lemma rank_in_flight l : loc_ok l → in_flight l = true → (0 < rank l)%nat.
Proof. destruct l; cbn; lia || done. Qed.

Lemma elements_exact n : 0 ≤ n ≤ 256 → elements n = n * n.
Proof. intros. unfold elements. apply w32_id. nia. Qed.
Lemma byte_count_exact n : 0 ≤ n ≤ 256 → byte_count n = n * n * 4.
Proof. intros. unfold byte_count. rewrite elements_exact by done. apply w32_id. nia. Qed.

Lemma length_new_vector n : 0 ≤ n ≤ 256 → Z.of_nat (length (new_vector n)) = n * n.
Proof.
  intros. unfold new_vector. rewrite length_replicate, elements_exact by done. nia.
Qed.

Lemma length_vector_bytes n v : Z.of_nat (length v) = n * n → 0 ≤ n ≤ 256 →
  Z.of_nat (length (words_bytes v)) = byte_count n.
Proof. intros. rewrite length_words_bytes, byte_count_exact by done. lia. Qed.

Section termination.
Context {F : FloatOps} {M : Type} {T : Target M}.

Lemma compute_row_length n a b i c c' : compute_row n a b i c = Ok c' → length c' = length c.
Proof.
  unfold compute_row, for_range. generalize (seqZ 0 n) as ks. intros ks. revert c.
  induction ks as [|k ks IH]; intros c Hc; cbn [foldM] in Hc.
  - by simplify_eq.
  - apply bind_inv in Hc as (c1 & Hc1 & Hc). apply bind_inv in Hc1 as (x & _ & Hx).
    unfold vset in Hx. case_decide; [|done]. simplify_eq.
    rewrite (IH _ Hc). apply length_insert.
Qed.

Lemma dma_read_length {W : WellBehaved M} (m : M) addr bs len m' bs' ok w :
  dma_read m addr bs len = Ok (m', bs', ok, w) → length bs' = length bs.
Proof.
  unfold dma_read. intros Hr. apply bind_inv in Hr as ([[m1 p'] d'] & Ht & Hr).
  simplify_eq. apply transport_answers in Ht as [(_ & _ & _ & Hl & _) _].
  by rewrite Hl.
Qed.

(** The words of a buffer of [n * n] floats. *)
Lemma buffer_words n (bs : list Z) : 0 ≤ n ≤ 256 →
  length bs = length (words_bytes (new_vector n)) →
  Z.of_nat (length (bytes_words bs)) = n * n.
Proof.
  intros Hn Hl. rewrite (length_bytes_words bs (length (new_vector n))).
  - by apply length_new_vector.
  - by rewrite Hl, length_words_bytes.
Qed.

Lemma resume_rank {W : WellBehaved M} d (m : M) l d' m' l' evs w :
  u32 (reg_dim_n d) → loc_ok l →
  compute_resume d m l = Ok (d', m', l', evs, w) →
  loc_ok l' ∧ (in_flight l = true → (rank l' < rank l)%nat).
Proof.
  intros Hdim Hl Hr.
  destruct l as [| |n a ok|n a b ok|n a b c i|ok]; cbn [compute_resume] in Hr.
  - by simplify_eq.
  - unfold begin_compute in Hr. case_match; [by simplify_eq|].
    case_match eqn:Hn; [by unfold finish in Hr; simplify_eq|].
    apply orb_false_iff in Hn as [Hn1%Z.eqb_neq Hn2%Z.ltb_ge]. cbn in Hn1, Hn2.
    apply bind_inv in Hr as ([[[m1 bs] ok] w1] & Hd & Hr). simplify_eq.
    split; [|done]. split; [lia|].
    apply buffer_words; [lia|]. by eapply dma_read_length.
  - case_match; [unfold finish in Hr; simplify_eq; split; [done|cbn; lia]|].
    apply bind_inv in Hr as ([[[m1 bs] ok'] w1] & Hd & Hr). simplify_eq.
    destruct Hl as [Hn Ha]. split; [|cbn; lia]. split; [done|]. split; [done|].
    apply buffer_words; [lia|]. by eapply dma_read_length.
  - case_match; [unfold finish in Hr; simplify_eq; split; [done|cbn; lia]|].
    apply bind_inv in Hr as (c & Hc & Hr). simplify_eq.
    destruct Hl as (Hn & Ha & Hb). split; [|cbn; lia].
    split_and!; try done; try lia.
    rewrite (compute_row_length _ _ _ _ _ _ Hc). apply length_new_vector. lia.
  - destruct Hl as (Hn & Ha & Hb & Hc & Hi). rewrite w32_id in Hr by lia.
    destruct (Z.ltb_spec (i + 1) n).
    + apply bind_inv in Hr as (c' & Hc' & Hr). simplify_eq.
      split; [|cbn; lia]. split_and!; try done; try lia.
      by rewrite (compute_row_length _ _ _ _ _ _ Hc').
    + apply bind_inv in Hr as ([[m1 ok'] w1] & Hd & Hr). simplify_eq.
      split; [done|cbn; lia].
  - unfold finish in Hr. simplify_eq. split; [done|cbn; lia].
Qed.

Definition thread_ok (s : mm) : Prop := dev_wf (m_dev s) ∧ loc_ok (m_loc s).

(** A host transaction and the interrupt controller leave the thread where it is; a
    resumption in flight moves it closer to the end. *)
Lemma step_rank {W : WellBehaved M} s (m : M) a s' m' :
  step (s, m) a (s', m') → thread_ok s →
  thread_ok s' ∧
  match a with
  | A_compute => in_flight (m_loc s) = true → (rank (m_loc s') < rank (m_loc s))%nat
  | _ => m_loc s' = m_loc s
  end.
Proof.
  intros Hs [Hd Hl].
  assert (dev_wf (m_dev s')) as Hd'.
  { pose proof (step_effect _ _ _ _ _ Hs) as He. clear Hs Hl.
    destruct He as [s p d' evs _ Hw|s d' l' evs _ Hc|s _]; [| |done];
      rewrite notify_dev; cbn; [by apply Hw|].
    destruct Hc; auto using accepted_wf, finished_wf. }
  unfold thread_ok. inversion Hs as [? ? ? ? ? ? Hb Ht|? ? ? ? w He Hr|? ? Hi]; subst.
  - unfold b_transport, mm_target in Ht.
    apply bind_inv in Ht as ([[[d' evs] p''] t''] & _ & Heq). simplify_eq.
    rewrite notify_dev, notify_loc in *. by split.
  - unfold run_compute in Hr.
    apply bind_inv in Hr as ([[[[d' m1] l'] evs] w'] & Hr & Heq). simplify_eq.
    rewrite notify_dev, notify_loc in *.
    destruct (resume_rank _ _ _ _ _ _ _ _ (wf_dim_n _ Hd) Hl Hr) as [H1 H2]. done.
  - by split.
Qed.

Definition is_compute (a : action) : bool :=
  match a with A_compute => true | _ => false end.

(** C17: a computation terminates.  Whatever the host does in the meantime, resets
    included, after [rank] resumptions - at most 259 - the compute thread is back at
    [wait(start_event)]: an execution with that many resumptions passes through a
    state where it is. *)
Theorem computation_terminates {W : WellBehaved M} (s : mm) (m : M) tr y :
  thread_ok s → steps (s, m) tr y →
  in_flight (m_loc s) = true →
  (rank (m_loc s) ≤ length (filter (λ a, is_compute a = true) tr))%nat →
  (rank (m_loc s) ≤ 259)%nat ∧
  ∃ tr1 tr2 s1 m1, tr = tr1 ++ tr2 ∧
    steps (s, m) tr1 (s1, m1) ∧ steps (s1, m1) tr2 y ∧ in_flight (m_loc s1) = false.
Proof.
  intros Hok Hs Hf Hr. split; [by apply rank_bound, Hok|].
  remember (s, m) as x eqn:Hx. revert s m Hx Hok Hf Hr.
  induction Hs as [x|x a [s1 m1] tr z Hst Hs IH]; intros s m -> Hok Hf Hr.
  - cbn in Hr. destruct Hok as [_ Hl]. pose proof (rank_in_flight _ Hl Hf). lia.
  - destruct (step_rank _ _ _ _ _ Hst Hok) as [Hok1 Hrk].
    destruct (in_flight (m_loc s1)) eqn:Hf1.
    + destruct (IH s1 m1 eq_refl Hok1 Hf1) as (t1 & t2 & s2 & m2 & -> & H1 & H2 & H3).
      { rewrite filter_cons in Hr. case_decide as Hic; destruct a; try done.
        - cbn [length] in Hr. specialize (Hrk Hf). lia.
        - by rewrite Hrk.
        - by rewrite Hrk. }
      exists (a :: t1), t2, s2, m2. split; [done|]. split; [by econstructor|]. done.
    + exists [a], tr, s1, m1. split; [done|].
      split; [econstructor; [done|constructor]|]. done.
Qed.

(** C18: the compute thread itself never leaves its vectors.  If the target answers
    whatever in-bounds buffer it is given, every enabled resumption succeeds. *)
Theorem compute_never_goes_wrong (s : mm) (m : M) :
  (∀ m0 c addr bs, is_ok (b_transport m0 (request c addr bs (Z.of_nat (length bs))) 50)) →
  thread_ok s → compute_enabled s = true →
  ∃ y, step (s, m) A_compute y.
Proof.
  intros Ht [Hd Hl] He.
  assert (∀ c addr v n, 0 ≤ n ≤ 256 → Z.of_nat (length v) = n * n →
    is_ok (b_transport m (request c addr (words_bytes v) (byte_count n)) 50)) as Hdma.
  { intros c addr v n Hn Hv. rewrite <-(length_vector_bytes n v) by done. apply Ht. }
  assert (∃ r, compute_resume (m_dev s) m (m_loc s) = Ok r) as [[[[[d' m'] l'] evs] w] Hr].
  2:{ eexists (_, m'). eapply step_compute; [done|]. unfold run_compute. by rewrite Hr. }
  destruct (m_loc s) as [| |n a ok|n a b ok|n a b c i|ok]; cbn [compute_resume].
  - eauto.
  - unfold begin_compute. case_match; [eauto|]. case_match eqn:Hn; [eauto|].
    apply orb_false_iff in Hn as [Hn1%Z.eqb_neq Hn2%Z.ltb_ge]. cbn in Hn1, Hn2.
    pose proof (wf_dim_n _ Hd). cbn [reg_dim_n set_requested set_status].
    set (n := reg_dim_n (m_dev s)) in *.
    edestruct (Hdma TLM_READ_COMMAND) as [[[m1 p1] t1] E];
      [|apply (length_new_vector n)|]; [lia..|].
    unfold dma_read. erewrite E. eauto.
  - case_match; [eauto|]. destruct Hl as [Hn Ha].
    edestruct (Hdma TLM_READ_COMMAND) as [[[m1 p1] t1] E];
      [|apply (length_new_vector n)|]; [lia..|].
    unfold dma_read. erewrite E. eauto.
  - case_match; [eauto|]. destruct Hl as (Hn & Ha & Hb). unfold run_row.
    edestruct (compute_row_ok n a b (new_vector n) 0) as (c & -> & _);
      rewrite ?length_new_vector by lia; try lia. eauto.
  - destruct Hl as (Hn & Ha & Hb & Hc & Hi). rewrite w32_id by lia.
    case_match eqn:Hlt; [apply Z.ltb_lt in Hlt|].
    + unfold run_row. edestruct (compute_row_ok n a b c (i + 1)) as (c' & -> & _); try lia. eauto.
    + edestruct (Hdma TLM_WRITE_COMMAND) as [[[m1 p1] t1] E]; [|done|]; [lia|].
      unfold dma_write. erewrite E. eauto.
  - eauto.
Qed.
End termination.

Lemma computation_terminates_witness :
  let w a v := A_host (request TLM_WRITE_COMMAND a (le_bytes 4 v) 4) in
  ∃ s m s' m', exec (M := host_memory) (mm_booted, host_memory_init)
      [w 8 1; w 0 1; A_compute] = Some (s, m) ∧ in_flight (m_loc s) = true ∧
    exec (s, m) [A_compute; A_compute; w 0 2; A_compute; A_compute] = Some (s', m') ∧
    ∃ tr1 tr2 s1 m1, [A_compute; A_compute; w 0 2; A_compute; A_compute] = tr1 ++ tr2 ∧
      steps (s, m) tr1 (s1, m1) ∧ steps (s1, m1) tr2 (s', m') ∧ in_flight (m_loc s1) = false.
Proof.
  intros w.
  destruct (exec (M := host_memory) (mm_booted, host_memory_init) [w 8 1; w 0 1; A_compute])
    as [[s m]|] eqn:He; [|vm_compute in He; discriminate He].
  vm_compute in He. injection He as <- <-.
  lazymatch goal with |- ∃ s m s' m', ?x = Some (s, m) ∧ _ =>
    let v := eval vm_compute in x in
    lazymatch v with Some (?s, ?m) => exists s, m end end.
  lazymatch goal with |- ∃ s' m', _ ∧ _ ∧ ?x = Some (s', m') ∧ _ =>
    let v := eval vm_compute in x in
    lazymatch v with Some (?s, ?m) => exists s, m end end.
  split; [vm_compute; reflexivity|]. split; [reflexivity|]. split; [vm_compute; reflexivity|].
  apply computation_terminates.
  - split; [by split|]. cbn. lia.
  - apply exec_steps. vm_compute. reflexivity.
  - reflexivity.
  - vm_compute. lia.
Defined.

(** A target that answers everything, with an error. *)
Definition unmapped_transport (u : unit) (p : payload) (t : Z) : res (unit * payload * Z) :=
  Ok (u, set_response TLM_ADDRESS_ERROR_RESPONSE p, t).

Lemma compute_never_goes_wrong_witness :
  ∃ y, step (T := unmapped_transport)
    (MM (set_requested true (set_dim_n 2 reset_device)) C_start true false false false, tt)
    A_compute y.
Proof.
  apply (compute_never_goes_wrong (T := unmapped_transport)).
  - intros m c addr bs. eexists. reflexivity.
  - by split; [split|].
  - reflexivity.
Defined.
