(* ===== verification/Interrupts.v ===== *)
(** * The interrupt line, and what a device reset does not do

    The interrupt controller thread drives the port from the two interrupt
    registers.  It is activated by [interrupt_update_event] only, and its very first
    activation merely starts it.  Without resets, and once it has been started, the
    line follows the registers.  A reset notifies nothing: it neither lowers the line
    nor stops a computation in flight; what follows from that is stated for every
    state and every later execution. *)

From S2P Require Import Prelude Tlm Float32 Registers MatMul Device Handshake HostMemory.
Local Open Scope Z_scope.

(** The controller has started, and the line shows the registers or is about to. *)
Definition irq_coherent (s : mm) : Prop :=
  m_irq_started s = true ∧ (m_irq_ready s = true ∨ m_irq s = pending (m_dev s)).

Lemma notify_irq_ready s evs :
  m_irq_ready (foldl notify s evs) = m_irq_ready s || bool_decide (interrupt_update_event ∈ evs).
Proof.
  revert s. induction evs as [|[] evs IH]; intros s; cbn [foldl].
  - rewrite bool_decide_eq_false_2 by apply not_elem_of_nil. by rewrite orb_false_r.
  - rewrite IH. cbn. f_equal. apply bool_decide_ext. rewrite elem_of_cons.
    split; [by right | by intros [?|?]].
  - rewrite IH. cbn. rewrite (bool_decide_eq_true_2 (_ ∈ _ :: _)) by by left.
    by rewrite orb_true_r.
Qed.
#[export] Hint Rewrite notify_irq_ready : mm.

Lemma same_interrupts_pending d d' : same_interrupts d d' → pending d' = pending d.
Proof. intros [H1 H2]. unfold pending. by rewrite H1, H2. Qed.

Lemma irq_coherent_effect s a s' :
  effect s a s' → no_reset a → irq_coherent s → irq_coherent s'.
Proof.
  intros He Hok [Hst Hc]. unfold irq_coherent.
  destruct He as [s p d' evs He _|s d' l' evs _ He|s _]; autorewrite with mm; cbn in *.
  - split; [done|]. destruct He as [d' _ Hi|d' _|v|Hr|Hr]; cbn; try congruence.
    + rewrite orb_false_r, (same_interrupts_pending _ _ Hi). done.
    + rewrite orb_true_r. by left.
    + by rewrite orb_false_r.
  - split; [done|]. destruct He; cbn; rewrite ?orb_false_r, ?orb_true_r; auto.
  - split; [done|]. right. by rewrite Hst.
Qed.

(** A 32-bit register write of the host. *)
Definition write32 (a v : Z) : action :=
  A_host (request TLM_WRITE_COMMAND a (le_bytes 4 v) 4).

Section line.
Context {F : FloatOps} {M : Type} {T : Target M}.

Lemma started_effect s a s' :
  effect s a s' → m_irq_started s = true → m_irq_started s' = true.
Proof. intros He Hst. destruct He; autorewrite with mm; done. Qed.

(** An activation of a started controller makes the line right, whatever it was. *)
Lemma activation_coherent x tr y : steps x tr y → Forall no_reset tr →
  m_irq_started x.1 = true → irq_coherent x.1 ∨ A_irq ∈ tr → irq_coherent y.1.
Proof.
  induction 1 as [|[s m] a [s1 m1] tr z H1 Hs IH]; cbn [fst];
    intros Hok Hst [Hc|Hin]; try done.
  - by apply not_elem_of_nil in Hin.
  - apply Forall_cons in Hok as [Ha Hok]. pose proof (step_effect _ _ _ _ _ H1) as He.
    apply IH; [done|by eapply started_effect|left]. by eapply irq_coherent_effect.
  - apply Forall_cons in Hok as [Ha Hok]. pose proof (step_effect _ _ _ _ _ H1) as He.
    apply IH; [done|by eapply started_effect|].
    apply elem_of_cons in Hin as [<-|Hin]; [left|by right].
    inversion H1; subst. split; [done|]. right. cbn. by rewrite Hst.
Qed.

(** C16: the interrupt line follows the registers.  Take a state in which the interrupt
    controller has been started and, besides, the line already agrees with the
    registers, or the controller has been notified, or the execution that follows
    activates it at least once.  In every execution from there without resets, whenever
    the controller has nothing left to do, the line is raised exactly when an enabled
    interrupt is pending.  (The first activation of all only starts the controller and
    leaves the line alone, so that being started is not enough.) *)
Theorem interrupt_line_follows_registers (s : mm) (m : M) tr s' m' :
  m_irq_started s = true →
  m_irq s = pending (m_dev s) ∨ m_irq_ready s = true ∨ A_irq ∈ tr →
  steps (s, m) tr (s', m') → Forall no_reset tr →
  m_irq_started s' = true ∧
  (m_irq_ready s' = false → m_irq s' = pending (m_dev s')).
Proof.
  intros Hst Hl Htr Hok.
  destruct (activation_coherent _ _ _ Htr Hok Hst) as [H1 H2].
  { unfold irq_coherent. cbn. destruct Hl as [Hl|[Hl|Hl]]; auto. }
  split; [done|]. intros H3. cbn in H2. destruct H2; [congruence|done].
Qed.

Lemma write32_step (s : mm) (m : M) a v y : u32 v →
  step (s, m) (write32 a v) y →
  ∃ d' evs, handle_mmio_write (m_dev s) a (le_bytes 4 v) 4 = Ok (d', evs) ∧
    y = (foldl notify (with_dev d' s) evs, m).
Proof.
  intros Hv Hs. unfold write32 in Hs. inversion Hs as [? ? ? s' p' t' _ Ht| |]; subst.
  unfold b_transport, mm_target in Ht.
  apply bind_inv in Ht as ([[[d' evs] p''] t''] & Ht & Heq). simplify_eq.
  unfold bar0_transport in Ht. cbn -[handle_mmio_write le_bytes] in Ht.
  apply bind_inv in Ht as ([[d1 evs1] ptr] & Ht & Heq). simplify_eq.
  apply bind_inv in Ht as ([d2 evs2] & Ht & Heq). simplify_eq. eauto.
Qed.

(** The controller's first activation updates nothing, which is harmless when it
    is spent on an INT_ENABLE write made while no interrupt is raised or pending: from
    then on, the line follows the registers. *)
Theorem enable_first_starts_controller (s : mm) (m : M) v tr s' m' :
  u32 v → dev_wf (m_dev s) →
  m_irq_started s = false → m_irq s = false → reg_int_status (m_dev s) = 0 →
  steps (s, m) (write32 REG_INT_ENABLE v :: A_irq :: tr) (s', m') →
  Forall no_reset tr →
  m_irq_started s' = true ∧
  (m_irq_ready s' = false → m_irq s' = pending (m_dev s')).
Proof.
  intros Hv Hd Hst Hirq H0 Hs Hok.
  inversion_clear Hs as [|? ? y1 ? ? H1 Hs1]. inversion_clear Hs1 as [|? ? y2 ? ? H2 Hs2].
  apply write32_step in H1 as (d' & evs & Hw & ->); [|done].
  rewrite write_value in Hw by done. cbn in Hw. simplify_eq.
  inversion H2; subst.
  assert (irq_coherent (interrupt_controller
    (notify (with_dev (set_int_enable v (m_dev s)) s) interrupt_update_event))) as Hc.
  { split; [done|]. right. cbn. rewrite Hst, Hirq. unfold pending. cbn. by rewrite H0. }
  destruct (steps_invariant irq_coherent no_reset irq_coherent_effect _ _ _ Hs2 Hok Hc)
    as [G1 G2]. cbn in G1, G2.
  split; [done|]. intros G3. destruct G2; [congruence|done].
Qed.
End line.

(** Interrupts enabled and the controller started, but with the line raised wrongly: a
    failed computation and an activation put it right. *)
Lemma interrupt_line_follows_registers_witness :
  let s := MM (set_int_enable 1 reset_device) C_start false true false true in
  ∃ s' m', exec (M := host_memory) (s, host_memory_init)
      [write32 0 1; A_compute; write32 0x2C 0; A_irq] = Some (s', m') ∧
    m_irq s' = pending (m_dev s') ∧ m_irq s' = false.
Proof.
  intros s.
  destruct (exec (M := host_memory) (s, host_memory_init)
    [write32 0 1; A_compute; write32 0x2C 0; A_irq]) as [[s' m']|] eqn:He;
    [|vm_compute in He; discriminate He].
  exists s', m'. split; [done|].
  assert (m_irq_ready s' = false ∧ m_irq s' = false) as [Hr Hi]
    by (vm_compute in He; by injection He as <- <-).
  split; [|exact Hi]. apply exec_steps in He.
  refine (proj2 (interrupt_line_follows_registers s _ _ _ _ _ _ He _) Hr).
  - done.
  - right. right. rewrite !elem_of_cons. auto.
  - by repeat constructor.
Defined.

Lemma enable_first_starts_controller_witness :
  ∃ s m, exec (M := host_memory) (mm_booted, host_memory_init)
      (write32 0x2C 1 :: A_irq :: [write32 0 1; A_compute]) = Some (s, m) ∧
    m_irq_started s = true.
Proof.
  destruct (exec (M := host_memory) (mm_booted, host_memory_init)
    (write32 0x2C 1 :: A_irq :: [write32 0 1; A_compute])) as [[s m]|] eqn:He;
    [|vm_compute in He; discriminate He].
  exists s, m. split; [done|]. apply exec_steps in He.
  refine (proj1 (enable_first_starts_controller mm_booted _ 1 _ _ _ _ _ _ _ _ He _));
    first [done | by split | by repeat constructor].
Defined.

(** ** Reset *)

Section reset.
Context {F : FloatOps} {M : Type} {T : Target M}.

Lemma write_control_step (s : mm) (m : M) v y : u32 v →
  step (s, m) (write32 REG_CONTROL v) y →
  y = (foldl notify (with_dev (write_control (m_dev s) v).1 s) (write_control (m_dev s) v).2, m).
Proof.
  intros Hv Hs. apply write32_step in Hs as (d' & evs & Hw & ->); [|done].
  rewrite write_value in Hw by done. cbn [Z.eqb REG_CONTROL] in Hw.
  injection Hw as Hw. by rewrite Hw.
Qed.

(** A reset does not lower the interrupt line.  It clears both interrupt
    registers without notifying the controller, so the line keeps its level, raised
    if it was, with nothing pending and no activation of the controller due; and the
    compute thread stays where it was, in flight or not. *)
Theorem reset_keeps_interrupt_line (s : mm) (m : M) v y :
  u32 v → Z.testbit v 1 = true → Z.testbit v 0 = false →
  step (s, m) (write32 REG_CONTROL v) y →
  m_dev y.1 = reset_device ∧ pending (m_dev y.1) = false ∧
  m_irq y.1 = m_irq s ∧ m_irq_ready y.1 = m_irq_ready s ∧ m_loc y.1 = m_loc s.
Proof.
  intros Hv H1 H0 ->%write_control_step; [|done].
  unfold write_control, CTRL_RESET, CTRL_START.
  rewrite !has_bit_testbit, H0, H1 by lia. done.
Qed.

Definition no_control (a : action) : Prop :=
  match a with A_host p => is_control p = false | _ => True end.

(** A request on record with nothing to wake the thread for it. *)
Definition request_lost (s : mm) : Prop :=
  computation_requested (m_dev s) = true ∧ m_ready s = false ∧ m_loc s ≠ C_init.

Lemma request_lost_effect s a s' :
  effect s a s' → no_control a → request_lost s → request_lost s'.
Proof.
  intros He Hok (Hq & Hr & Hl). unfold request_lost.
  destruct He as [s p d' evs He _|s d' l' evs Hen He|s _]; autorewrite with mm; cbn in *.
  - destruct He as [d' [_ H1] _|d' [_ H1]|v|H1|H1]; cbn; try congruence.
    + by rewrite H1.
    + by rewrite H1.
    + unfold is_reset in H1. rewrite Hok in H1. discriminate H1.
    + unfold is_reset in H1. rewrite Hok in H1. discriminate H1.
  - unfold compute_enabled in Hen. rewrite Hr, orb_false_r in Hen.
    destruct He as [| | | |l l' H1 H2|l ok H1]; try done.
    + cbn. split; [done|]. split; [done|]. by destruct l'.
    + cbn. split; [by destruct ok|]. done.
  - done.
Qed.

(** C39: a start right after a reset in the middle of a computation is lost.  The
    reset makes STATUS idle, so the start is accepted, but the thread is not at
    [wait(start_event)] and misses the notification: however the execution goes on,
    until CONTROL is written again the request stays on record and unserved. *)
Theorem start_after_reset_in_flight_is_lost (s : mm) (m : M) v y tr z :
  u32 v → Z.testbit v 1 = true → Z.testbit v 0 = true →
  in_flight (m_loc s) = true → m_ready s = false →
  step (s, m) (write32 REG_CONTROL v) y → steps y tr z → Forall no_control tr →
  computation_requested (m_dev z.1) = true ∧
  (m_loc z.1 = C_start → compute_enabled z.1 = false).
Proof.
  intros Hv H1 H0 Hf Hr ->%write_control_step Hs Hok; [|done].
  assert (request_lost z.1) as (G1 & G2 & G3).
  { apply (steps_invariant request_lost no_control request_lost_effect _ _ _ Hs Hok).
    assert (write_control (m_dev s) v = (set_requested true reset_device, [start_event])) as ->.
    { unfold write_control, CTRL_RESET, CTRL_START.
      by rewrite !has_bit_testbit, H0, H1 by lia. }
    unfold request_lost. cbn. rewrite Hr. by destruct (m_loc s). }
  split; [done|]. intros Hl. unfold compute_enabled. by rewrite Hl, G2.
Qed.
End reset.

Lemma reset_keeps_interrupt_line_witness :
  let d := set_int_status 1 (set_int_enable 1 reset_device) in
  let s := MM d C_start false true false true in
  ∃ s' m', exec (M := host_memory) (s, host_memory_init) [write32 0 2] = Some (s', m') ∧
    m_irq s' = true ∧ pending (m_dev s') = false.
Proof.
  intros d s.
  destruct (exec (M := host_memory) (s, host_memory_init) [write32 0 2])
    as [[s' m']|] eqn:He; [|vm_compute in He; discriminate He].
  exists s', m'. split; [done|]. apply exec_steps in He.
  inversion_clear He as [|? ? y ? ? H1 H2]. inversion H2; subst.
  destruct (reset_keeps_interrupt_line s host_memory_init 2 (s', m')) as (_ & G1 & G2 & _);
    try done.
Defined.

Lemma start_after_reset_in_flight_is_lost_witness :
  let s := MM (set_status 2 reset_device) (C_dma_c true) false true false false in
  ∃ s' m', exec (M := host_memory) (s, host_memory_init) [write32 0 3; A_compute; A_irq] =
      Some (s', m') ∧
    m_loc s' = C_start ∧ computation_requested (m_dev s') = true ∧ compute_enabled s' = false.
Proof.
  intros s.
  destruct (exec (M := host_memory) (s, host_memory_init) [write32 0 3; A_compute; A_irq])
    as [[s' m']|] eqn:He; [|vm_compute in He; discriminate He].
  exists s', m'. split; [done|].
  assert (m_loc s' = C_start) as Hl by (vm_compute in He; by injection He as <- <-).
  split; [done|]. apply exec_steps in He. inversion_clear He as [|? ? y ? ? H1 H2].
  destruct (start_after_reset_in_flight_is_lost s host_memory_init 3 y
    [A_compute; A_irq] (s', m')) as [G1 G2]; try done.
  - by repeat constructor.
  - split; [exact G1 | by apply G2].
Defined.

(** C40: the pointers are read when they are needed, so a reset before the last DMA
    sends the result to host address 0: the next resumption stores matrix C there,
    whatever MATRIX_C_PTR was. *)
Theorem reset_redirects_result {F : FloatOps} {M : Type} {T : Target M} {MT : MemTarget M}
    (s : mm) (m : M) n a b c v y :
  u32 v → Z.testbit v 1 = true → Z.testbit v 0 = false →
  m_loc s = C_row n a b c (n - 1) → loc_ok (m_loc s) →
  mem_valid m 0 (byte_count n) →
  step (s, m) (write32 REG_CONTROL v) y →
  ∃ z, step y A_compute z ∧ z.2 = mem_store m 0 (words_bytes c) ∧ m_loc z.1 = C_dma_c true.
Proof.
  intros Hv H1 H0 Hl Hok Hm ->%write_control_step; [|done].
  unfold write_control, CTRL_RESET, CTRL_START.
  rewrite !has_bit_testbit, H0, H1 by lia. cbn [fst snd foldl].
  rewrite Hl in Hok. destruct Hok as (Hn & _ & _ & Hc & _).
  eexists (_, _). split; [eapply step_compute|].
  - unfold compute_enabled. cbn. by rewrite Hl.
  - unfold run_compute. cbn [m_dev m_loc with_dev]. rewrite Hl. cbn [compute_resume].
    rewrite w32_id, (proj2 (Z.ltb_ge _ _)) by lia.
    unfold dma_write. cbn [reg_matrix_c_ptr reset_device].
    rewrite mem_write_spec; [done|done|done|]. apply length_vector_bytes; [done|lia].
  - done.
Qed.

Lemma reset_redirects_result_witness :
  let s := MM (set_c_ptr 0x3000 reset_device) (C_row 1 [5] [6] [0x40C00000] 0) false true false false in
  ∃ z, step (M := host_memory) (with_dev reset_device s, host_memory_init) A_compute z ∧
    z.2 = store host_memory_init 0 [0; 0; 192; 64].
Proof.
  intros s.
  destruct (reset_redirects_result (M := host_memory) s host_memory_init 1 [5] [6] [0x40C00000] 2
    (with_dev reset_device s, host_memory_init)) as (z & H1 & H2 & _); try done.
  - apply step_do_action. vm_compute. reflexivity.
  - exists z. split; [exact H1 | exact H2].
Defined.

(** The controller's lost first activation can cost an interrupt.  There is an
    execution without resets in which a computation completes, the host enables the
    interrupt before the controller first runs, and the execution ends with the
    interrupt enabled and pending, the line low and no activation due. *)
Theorem first_interrupt_can_be_lost :
  ∃ tr s m, steps (mm_booted, host_memory_init) tr (s, m) ∧
    Forall no_reset tr ∧
    pending (m_dev s) = true ∧ m_irq s = false ∧ m_irq_ready s = false.
Proof.
  pose (tr := [write32 8 1; write32 0x10 0x1000; write32 0x18 0x2000; write32 0x20 0x3000;
          write32 0 1; A_compute; A_compute; A_compute; A_compute; A_compute;
          write32 0x2C 1; A_irq]). exists tr.
  destruct (exec (mm_booted, host_memory_init) tr) as [[s m]|] eqn:He;
    [|vm_compute in He; discriminate He].
  exists s, m. split; [by apply exec_steps|]. split; [by repeat constructor|].
  vm_compute in He. by injection He as <- <-.
Qed.
