(* ===== verification/Correct.v ===== *)
(** * The device computes the product

    Functional correctness of a computation against any memory-like DMA target, for
    every interleaving in which the host does not reprogram the device: the pointers
    are read one DMA at a time, so the registers are part of the invariant. *)

From S2P Require Import Prelude Tlm Float32 Registers MatMul Device Handshake HostMemory.
Local Open Scope Z_scope.

(** A write to CONTROL, DIM_N or a pointer register. *)
Definition is_config (p : payload) : bool :=
  bool_decide (command p = TLM_WRITE_COMMAND) &&
  ((address p =? 0) || (address p =? 8) || ((0x10 <=? address p) && (address p <? 0x28))).

Definition quiet (a : action) : Prop :=
  match a with A_host p => is_config p = false | _ => True end.

#[export] Instance quiet_dec a : Decision (quiet a).
Proof. destruct a; apply _. Defined.

(** Equal but for the interrupt registers. *)
Definition same_config (d d' : dev) : Prop :=
  reg_control d' = reg_control d ∧ reg_status d' = reg_status d ∧
  reg_dim_n d' = reg_dim_n d ∧ reg_matrix_a_ptr d' = reg_matrix_a_ptr d ∧
  reg_matrix_b_ptr d' = reg_matrix_b_ptr d ∧ reg_matrix_c_ptr d' = reg_matrix_c_ptr d ∧
  computation_requested d' = computation_requested d.

Lemma quiet_transport d p t d' evs p' t' :
  bar0_transport d p t = Ok (d', evs, p', t') → is_config p = false →
  same_config d d' ∧ (evs = [] ∨ evs = [interrupt_update_event]).
Proof.
  intros Ht Hq. unfold bar0_transport in Ht. case_match; [simplify_eq; split; [done|by left]|].
  apply bind_inv in Ht as ([[d1 evs1] ptr] & H1 & Ht). simplify_eq.
  case_bool_decide; [res_inv; split; [done|by left]|].
  case_bool_decide as Hw; [|res_inv; split; [done|by left]].
  unfold is_config in Hq. rewrite bool_decide_eq_true_2 in Hq by done. cbn in Hq.
  rewrite !orb_false_iff, andb_false_iff, !Z.eqb_neq, Z.leb_gt, Z.ltb_ge in Hq.
  apply bind_inv in H1 as ([d2 evs2] & H1 & Heq). simplify_eq.
  unfold handle_mmio_write in H1.
  apply bind_inv in H1 as (v & _ & H1). apply bind_inv in H1 as (v64 & _ & H1).
  apply ok_inj in H1. unfold REG_CONTROL, REG_DIM_N, REG_MATRIX_A_PTR, REG_MATRIX_B_PTR,
    REG_MATRIX_C_PTR in H1.
  repeat case_match; simplify_eq; rewrite ?Z.eqb_eq in *; try lia;
    (split; [done|auto]).
Qed.

(** Close a step to the next stage once the resumption is computed. *)
Ltac stage_done :=
  eexists _, _, _; split; [reflexivity|];
  cbn -[Z.mul Z.add Z.sub Z.of_nat filled]; split_and!;
  rewrite ?orb_false_r, ?bool_decide_eq_true_2 by done; try done; try lia.

Section correct.
Context {F : FloatOps} {M : Type} {T : Target M} {MT : MemTarget M}.

Lemma dma_read_ok (m : M) addr bs len :
  mem_valid m addr len → Z.of_nat (length bs) = len →
  dma_read m addr bs len = Ok (m, mem_load m addr len, true, 50 + mem_latency).
Proof. intros Hv Hl. unfold dma_read. by rewrite mem_read_spec. Qed.

Lemma dma_write_ok (m : M) addr bs len :
  mem_valid m addr len → Z.of_nat (length bs) = len →
  dma_write m addr bs len = Ok (mem_store m addr bs, true, 50 + mem_latency).
Proof. intros Hv Hl. unfold dma_write. by rewrite mem_write_spec. Qed.

(** The target refuses a transfer: an error response, nothing stored, no latency. *)
Definition refused_read (m : M) (a n : Z) : Prop := ∀ bs, Z.of_nat (length bs) = n →
  ∃ bs', length bs' = length bs ∧ dma_read m a bs n = Ok (m, bs', false, 50).
Definition refused_write (m : M) (a n : Z) : Prop := ∀ bs, Z.of_nat (length bs) = n →
  dma_write m a bs n = Ok (m, false, 50).

Variables (n : nat) (pa pb pc : Z) (m0 : M).
Hypothesis Hn : (0 < n ≤ 256)%nat.

Definition mat_bytes : Z := Z.of_nat n * Z.of_nat n * 4.
Hypothesis Hva : mem_valid m0 pa mat_bytes.
Hypothesis Hvb : mem_valid m0 pb mat_bytes.

(** Whether the target takes the result. *)
Variable c_ok : bool.
Hypothesis Hvc : if c_ok then mem_valid m0 pc mat_bytes else refused_write m0 pc mat_bytes.

(** The matrices in memory when the computation is armed, their product, and the
    memory at the end: with the product stored, if the target takes it. *)
Definition mem_matrix (m : M) (p : Z) : list Z := bytes_words (mem_load m p mat_bytes).
Definition product : list Z := mat_mul n (mem_matrix m0 pa) (mem_matrix m0 pb).
Definition stored : M := mem_store m0 pc (words_bytes product).
Definition final : M := if c_ok then stored else m0.
Definition last_dma : Z := 50 + if c_ok then mem_latency else 0.

Lemma length_mem_matrix p : mem_valid m0 p mat_bytes → length (mem_matrix m0 p) = (n * n)%nat.
Proof.
  intros Hv. apply length_bytes_words. pose proof (mem_load_length _ _ _ Hv) as Hl.
  unfold mat_bytes in Hl |- *. lia.
Qed.

Lemma byte_count_n : byte_count (Z.of_nat n) = mat_bytes.
Proof. rewrite byte_count_exact by lia. done. Qed.

Lemma new_vector_bytes : Z.of_nat (length (words_bytes (new_vector (Z.of_nat n)))) = mat_bytes.
Proof.
  rewrite <-byte_count_n. apply length_vector_bytes; [apply length_new_vector|]; lia.
Qed.

Lemma length_product_bytes : Z.of_nat (length (words_bytes product)) = mat_bytes.
Proof. rewrite length_words_bytes. unfold product. rewrite length_mat_mul. unfold mat_bytes. lia. Qed.

Lemma write_result :
  dma_write m0 pc (words_bytes product) mat_bytes = Ok (final, c_ok, last_dma).
Proof.
  unfold final, last_dma. destruct c_ok.
  - rewrite dma_write_ok; [done|done|apply length_product_bytes].
  - rewrite Z.add_0_r. apply Hvc, length_product_bytes.
Qed.

Definition configured (d : dev) : Prop :=
  reg_dim_n d = Z.of_nat n ∧ reg_matrix_a_ptr d = pa ∧ reg_matrix_b_ptr d = pb ∧
  reg_matrix_c_ptr d = pc.

(** The progress of the computation, place by place. *)
Definition stage (x : mm * M) : Prop :=
  let '(s, m) := x in
  configured (m_dev s) ∧
  match m_loc s with
  | C_init => False
  | C_start =>
      if m_ready s then computation_requested (m_dev s) = true ∧ m = m0
      else reg_status (m_dev s) = Z.lor STATUS_IDLE (if c_ok then STATUS_DONE else STATUS_ERROR) ∧
           m = final
  | C_dma_a n' a ok => n' = Z.of_nat n ∧ a = mem_matrix m0 pa ∧ ok = true ∧ m = m0
  | C_dma_b n' a b ok =>
      n' = Z.of_nat n ∧ a = mem_matrix m0 pa ∧ b = mem_matrix m0 pb ∧ ok = true ∧ m = m0
  | C_row n' a b c i =>
      n' = Z.of_nat n ∧ a = mem_matrix m0 pa ∧ b = mem_matrix m0 pb ∧ m = m0 ∧
      0 ≤ i < Z.of_nat n ∧ filled n a b c (S (Z.to_nat i) * n)
  | C_dma_c ok => ok = c_ok ∧ m = final
  end ∧ (in_flight (m_loc s) = true → m_ready s = false).

Lemma row_stage i c : (i < n)%nat →
  filled n (mem_matrix m0 pa) (mem_matrix m0 pb) c (i * n) →
  ∃ c', compute_row (Z.of_nat n) (mem_matrix m0 pa) (mem_matrix m0 pb) (Z.of_nat i) c = Ok c' ∧
    filled n (mem_matrix m0 pa) (mem_matrix m0 pb) c' (S i * n).
Proof.
  intros Hi Hc. apply compute_row_spec; [done| | |done|done];
    by apply length_mem_matrix.
Qed.

(** The simulated time a computation still takes at each place: a DMA takes the 50 ns
    of the initiator and the latency of the target, a row takes [2 * n] ns. *)
Definition time_left (s : mm) : Z :=
  let dma := 50 + mem_latency in
  match m_loc s with
  | C_init => 0
  | C_start => if m_ready s then 2 * dma + last_dma + Z.of_nat n * (2 * Z.of_nat n) else 0
  | C_dma_a _ _ _ => dma + last_dma + Z.of_nat n * (2 * Z.of_nat n)
  | C_dma_b _ _ _ _ => last_dma + Z.of_nat n * (2 * Z.of_nat n)
  | C_row _ _ _ _ i => last_dma + (Z.of_nat n - 1 - i) * (2 * Z.of_nat n)
  | C_dma_c _ => 0
  end.

(** The registers after a resumption, and whether it was the last one. *)
Definition next_dev (l : cloc) (d : dev) : dev :=
  match l with C_start => accepted d | C_dma_c _ => finished c_ok d | _ => d end.
Definition is_last (l : cloc) : bool := match l with C_dma_c _ => true | _ => false end.

(** From every stage the thread reaches the next one. *)
Lemma stage_resume s m : stage (s, m) → compute_enabled s = true →
  ∃ s' m' w, run_compute s m = Ok (s', m', w) ∧ stage (s', m') ∧
    w + time_left s' = time_left s ∧ m_dev s' = next_dev (m_loc s) (m_dev s) ∧
    in_flight (m_loc s') = negb (is_last (m_loc s)) ∧
    m_irq_ready s' = (m_irq_ready s || is_last (m_loc s)) ∧ m_ready s' = false ∧
    (in_flight (m_loc s) = true → (rank (m_loc s') < rank (m_loc s))%nat).
Proof.
  intros ((Hdim & Hpa & Hpb & Hpc) & Hst & Hrd) He.
  unfold run_compute, time_left.
  destruct (m_loc s) as [| |n' a ok|n' a b ok|n' a b c i|ok] eqn:Hl;
    cbn [compute_resume next_dev is_last].
  - done.
  - unfold compute_enabled in He. rewrite Hl in He. cbn in He. rewrite He in Hst |- *.
    destruct Hst as [Hq ->]. unfold begin_compute. rewrite Hq. cbn [negb].
    cbn [reg_dim_n set_requested set_status reg_matrix_a_ptr]. rewrite Hdim, Hpa.
    rewrite (proj2 (Z.eqb_neq _ _)), (proj2 (Z.ltb_ge _ _)) by lia. cbn [orb].
    rewrite byte_count_n, dma_read_ok by (done || apply new_vector_bytes).
    rewrite !bind_ok. stage_done.
  - destruct Hst as (-> & -> & -> & ->). cbn [negb]. rewrite Hpb.
    rewrite byte_count_n, dma_read_ok by (done || apply new_vector_bytes).
    rewrite !bind_ok. stage_done.
  - destruct Hst as (-> & -> & -> & -> & ->). cbn [negb]. unfold run_row.
    destruct (row_stage 0 (new_vector (Z.of_nat n))) as (c' & Hc' & Hf); [lia| |].
    { apply filled_init. pose proof (length_new_vector (Z.of_nat n) ltac:(lia)). lia. }
    change (Z.of_nat 0) with 0 in Hc'. rewrite Hc', !bind_ok, w32_id by lia. stage_done.
  - destruct Hst as (-> & -> & -> & -> & Hi & Hf). rewrite w32_id by lia.
    destruct (Z.ltb_spec (i + 1) (Z.of_nat n)).
    + unfold run_row.
      destruct (row_stage (S (Z.to_nat i)) c) as (c' & Hc' & Hf'); [lia|done|].
      replace (i + 1) with (Z.of_nat (S (Z.to_nat i))) by lia.
      rewrite Hc', !bind_ok, w32_id by lia. stage_done. by rewrite Nat2Z.id.
    + assert (c = product) as ->.
      { apply filled_all. by replace (S (Z.to_nat i)) with n in Hf by lia. }
      rewrite Hpc, byte_count_n, write_result, !bind_ok. stage_done.
      replace i with (Z.of_nat n - 1) by lia. lia.
  - destruct Hst as (-> & ->). unfold finish. rewrite !bind_ok.
    destruct c_ok eqn:Hok; stage_done; by rewrite Hok.
Qed.

Lemma stage_step x a y : step x a y → quiet a → stage x → stage y.
Proof.
  intros Hs Hq Hx. inversion Hs as [s m ? s' p' t' Hb Ht|s m s' m' w He Hr|s m Hi]; subst.
  - unfold b_transport, mm_target in Ht.
    apply bind_inv in Ht as ([[[d' evs] p''] t''] & Ht & Heq). simplify_eq.
    apply quiet_transport in Ht as [(_ & E2 & E3 & E4 & E5 & E6 & E7) Hevs]; [|done].
    destruct Hx as ((Hdim & Hpa & Hpb & Hpc) & Hst & Hrd).
    unfold stage, configured. rewrite notify_dev, notify_loc. cbn [m_dev m_loc with_dev].
    rewrite E2, E3, E4, E5, E6, E7.
    assert (m_ready (foldl notify (with_dev d' s) evs) = m_ready s) as ->
      by (by destruct Hevs as [->| ->]).
    done.
  - destruct (stage_resume s m Hx He) as (s1 & m1 & w1 & Hr' & Hst & _). congruence.
  - done.
Qed.

(** A computation is armed: configured for these matrices, requested, the thread
    notified, the memory as it is. *)
Definition armed (s : mm) : Prop :=
  configured (m_dev s) ∧ m_loc s = C_start ∧ m_ready s = true ∧
  computation_requested (m_dev s) = true.

Lemma armed_stage s : armed s → stage (s, m0).
Proof. intros (Hc & Hl & Hr & Hq). unfold stage. by rewrite Hl, Hr. Qed.

(** The product is in memory, and nothing else has changed. *)
Definition product_stored (m : M) : Prop :=
  mem_load m pc mat_bytes = words_bytes product ∧
  ∀ b k, mem_valid m0 b k → b + k ≤ pc ∨ pc + mat_bytes ≤ b →
    mem_load m b k = mem_load m0 b k.

Lemma final_stored : mem_valid m0 pc mat_bytes → product_stored stored.
Proof.
  intros Hv. unfold product_stored, stored. rewrite <-length_product_bytes. split.
  - apply mem_load_store. by rewrite length_product_bytes.
  - intros b k Hb Hd. apply mem_load_store_disjoint; [|done|done].
    by rewrite length_product_bytes.
Qed.

Lemma stage_steps x tr y : steps x tr y → Forall quiet tr → stage x → stage y.
Proof.
  induction 1 as [|x a y tr z H1 _ IH]; [done|].
  intros [Hqa Hqt]%Forall_cons Hx. apply IH; [done|]. by eapply stage_step.
Qed.

Lemma stage_idle s m : stage (s, m) → compute_enabled s = false →
  m_loc s = C_start ∧ m = final ∧
  reg_status (m_dev s) = Z.lor STATUS_IDLE (if c_ok then STATUS_DONE else STATUS_ERROR).
Proof.
  intros (_ & Hst & _) He. unfold compute_enabled in He.
  apply orb_false_iff in He as [He1 He2].
  destruct (m_loc s) eqn:Hl; try done. rewrite He2 in Hst. by destruct Hst.
Qed.

(** Resume the compute thread until it has nothing left to do, adding up the time. *)
Fixpoint compute_run (fuel : nat) (s : mm) (m : M) (t : Z) : res (option (mm * M * Z)) :=
  if compute_enabled s then
    match fuel with
    | O => Ok None
    | S fuel => '(s, m, w) ← run_compute s m; compute_run fuel s m (t + w)
    end
  else Ok (Some (s, m, t)).

Lemma stage_rank s m : stage (s, m) → in_flight (m_loc s) = true →
  (0 < rank (m_loc s) ≤ n + 3)%nat.
Proof.
  intros (_ & Hst & _). destruct (m_loc s); cbn; done || lia.
Qed.

(** From a stage in flight the thread runs to the end, in the time that was left. *)
Lemma run_in_flight fuel s m t :
  stage (s, m) → in_flight (m_loc s) = true → (rank (m_loc s) ≤ fuel)%nat →
  ∃ s', compute_run fuel s m t = Ok (Some (s', final, t + time_left s)) ∧
    m_dev s' = finished c_ok (m_dev s) ∧ m_loc s' = C_start ∧ m_irq_ready s' = true.
Proof.
  revert s m t. induction fuel as [|fuel IH]; intros s m t Hst Hf Hr.
  { pose proof (stage_rank _ _ Hst Hf). lia. }
  assert (compute_enabled s = true) as He by (unfold compute_enabled; by rewrite Hf).
  destruct (stage_resume s m Hst He)
    as (s1 & m1 & w & E & Hst1 & Ht & Hd & Hfl & Hi & Hrd & Hrk).
  specialize (Hrk Hf). cbn [compute_run]. rewrite He, E, bind_ok.
  destruct (is_last (m_loc s)) eqn:Hlast; cbn in Hfl.
  - assert (compute_enabled s1 = false) as He1
      by (unfold compute_enabled; by rewrite Hfl, Hrd).
    assert (compute_run fuel s1 m1 (t + w) = Ok (Some (s1, m1, t + w))) as ->
      by (destruct fuel; cbn [compute_run]; by rewrite He1).
    destruct (stage_idle s1 m1 Hst1 He1) as (Hl1 & -> & _).
    unfold time_left at 1 in Ht. rewrite Hl1, Hrd in Ht.
    exists s1. split; [by rewrite <-Ht, Z.add_0_r|]. rewrite Hd, Hi, orb_true_r.
    by destruct (m_loc s).
  - destruct (IH s1 m1 (t + w) Hst1 Hfl ltac:(lia)) as (s2 & -> & Hd2 & Hl2 & Hi2).
    exists s2. split; [by rewrite <-Ht, Z.add_assoc|]. rewrite Hd2, Hd.
    by destruct (m_loc s).
Qed.

Lemma run_armed (s : mm) : armed s →
  ∃ s', compute_run (n + 4) s m0 0 =
      Ok (Some (s', final,
        2 * (50 + mem_latency) + last_dma + Z.of_nat n * (2 * Z.of_nat n))) ∧
    m_dev s' = finished c_ok (accepted (m_dev s)) ∧ m_loc s' = C_start ∧
    m_irq_ready s' = true.
Proof.
  intros Ha. pose proof (armed_stage s Ha) as Hst. destruct Ha as (_ & Hl & Hr & _).
  assert (compute_enabled s = true) as He
    by (unfold compute_enabled; by rewrite Hr, orb_true_r).
  destruct (stage_resume s m0 Hst He) as (s1 & m1 & w & E & Hst1 & Ht & Hd & Hfl & _).
  rewrite Hl in Hd, Hfl. cbn in Hd, Hfl. unfold time_left at 2 in Ht. rewrite Hl, Hr in Ht.
  replace (n + 4)%nat with (S (n + 3)) by lia. cbn [compute_run]. rewrite He, E, bind_ok.
  destruct (run_in_flight (n + 3) s1 m1 (0 + w) Hst1 Hfl) as (s2 & -> & Hd2 & Hl2 & Hi2).
  { by apply (stage_rank s1 m1). }
  exists s2. rewrite <-Ht, Hd2, Hd. done.
Qed.
End correct.

Section failures.
Context {F : FloatOps} {M : Type} {T : Target M} {MT : MemTarget M}.
Variables (n : nat) (pa pb pc : Z) (m : M).
Hypothesis Hn : (0 < n ≤ 256)%nat.

(** What an armed computation leaves behind when a matrix cannot be read. *)
Definition failed_run (s : mm) (t : Z) : Prop :=
  ∃ s', compute_run (n + 4) s m 0 = Ok (Some (s', m, t)) ∧
    m_dev s' = finished false (accepted (m_dev s)) ∧ m_loc s' = C_start ∧
    m_irq_ready s' = true.

Lemma compute_run_step k s m1 t s' m' w : compute_enabled s = true →
  run_compute s m1 = Ok (s', m', w) → compute_run (S k) s m1 t = compute_run k s' m' (t + w).
Proof. intros He Hr. cbn [compute_run]. by rewrite He, Hr, bind_ok. Qed.

Lemma compute_run_stop k s m1 t : compute_enabled s = false →
  compute_run k s m1 t = Ok (Some (s, m1, t)).
Proof. intros He. destruct k; cbn [compute_run]; by rewrite He. Qed.

Lemma begin_run s bs ok w : armed n pa pb pc s →
  dma_read m pa (words_bytes (new_vector (Z.of_nat n))) (mat_bytes n) = Ok (m, bs, ok, w) →
  run_compute s m =
    Ok (MM (accepted (m_dev s)) (C_dma_a (Z.of_nat n) (bytes_words bs) ok) false
          (m_irq_started s) (m_irq_ready s) (m_irq s), m, w).
Proof.
  intros ((Hd & Ha & _) & Hl & _ & Hq) Hr. unfold run_compute. rewrite Hl. cbn [compute_resume].
  unfold begin_compute. rewrite Hq. cbn [negb reg_dim_n set_requested set_status reg_matrix_a_ptr].
  rewrite Hd, Ha, (proj2 (Z.eqb_neq _ _)), (proj2 (Z.ltb_ge _ _)) by lia. cbn [orb].
  by rewrite byte_count_n, Hr.
Qed.

Lemma armed_enabled s : armed n pa pb pc s → compute_enabled s = true.
Proof. intros (_ & _ & Hr & _). unfold compute_enabled. by rewrite Hr, orb_true_r. Qed.

Lemma fail_a s : armed n pa pb pc s → refused_read m pa (mat_bytes n) → failed_run s 50.
Proof.
  intros Ha Hr. destruct (Hr (words_bytes (new_vector (Z.of_nat n)))) as (bs & _ & Hd).
  { by apply new_vector_bytes. }
  unfold failed_run. replace (n + 4)%nat with (S (S (n + 2))) by lia.
  erewrite compute_run_step; [|by eapply armed_enabled|by eapply begin_run].
  erewrite compute_run_step by reflexivity. rewrite compute_run_stop by done.
  eexists. split; [reflexivity|]. done.
Qed.

Lemma fail_b s : armed n pa pb pc s → mem_valid m pa (mat_bytes n) →
  refused_read m pb (mat_bytes n) → failed_run s (50 + mem_latency + 50).
Proof.
  intros Ha Hv Hr. pose proof (new_vector_bytes n Hn) as Hl.
  destruct (Hr _ Hl) as (bs & _ & Hd).
  unfold failed_run. replace (n + 4)%nat with (S (S (S (n + 1)))) by lia.
  erewrite compute_run_step;
    [|by eapply armed_enabled|by eapply begin_run; [done|apply dma_read_ok]].
  pose proof Ha as ((_ & _ & Hb & _) & _).
  erewrite compute_run_step; [|done|].
  2:{ unfold run_compute. cbn [m_loc compute_resume m_dev negb].
      cbn [accepted set_requested set_status reg_matrix_b_ptr].
      by rewrite Hb, byte_count_n, Hd, !bind_ok by done. }
  erewrite compute_run_step by reflexivity. rewrite compute_run_stop by done.
  eexists. split; [by rewrite Z.add_0_r, Z.add_0_l|]. done.
Qed.
End failures.

(** ** Properties *)

Section results.
Context {F : FloatOps} {M : Type} {T : Target M} {MT : MemTarget M}.

(** C2: the device computes the product of the two matrices in memory, whatever the
    interleaving.  From an armed computation on, in every execution in which the host
    does not write CONTROL, DIM_N or a pointer register, the compute thread can always
    go on while it has something to do, and when it has nothing left to do STATUS is
    IDLE|DONE, the memory at MATRIX_C_PTR holds the row-major product, and every range
    that does not overlap it is unchanged.  The three matrices may overlap. *)
Theorem device_computes_product (n : nat) pa pb pc (s : mm) (m : M) tr s' m' :
  (0 < n ≤ 256)%nat →
  mem_valid m pa (mat_bytes n) → mem_valid m pb (mat_bytes n) →
  mem_valid m pc (mat_bytes n) →
  armed n pa pb pc s → steps (s, m) tr (s', m') → Forall quiet tr →
  (compute_enabled s' = true → ∃ y, step (s', m') A_compute y) ∧
  (compute_enabled s' = false →
     m_loc s' = C_start ∧
     reg_status (m_dev s') = Z.lor STATUS_IDLE STATUS_DONE ∧
     product_stored n pa pb pc m m').
Proof.
  intros Hn Hva Hvb Hvc Ha Hs Hq.
  assert (stage n pa pb pc m true (s', m')) as Hst.
  { apply (stage_steps n pa pb pc m Hn Hva Hvb true Hvc _ _ _ Hs Hq). by apply armed_stage. }
  split; intros He.
  - destruct (stage_resume n pa pb pc m Hn Hva Hvb true Hvc s' m' Hst He)
      as (s1 & m1 & w & Hr & _).
    eexists. by eapply step_compute.
  - destruct (stage_idle n pa pb pc m true s' m' Hst He) as (H1 & -> & H2).
    split; [done|]. split; [done|]. by apply final_stored.
Qed.

(** C9: left alone, an armed computation is over after [n + 4] resumptions at most: it
    ends with the product in memory, STATUS at IDLE|DONE, the DONE interrupt pending
    and the interrupt controller notified, and it takes exactly three DMA latencies
    and [2 * n] ns for each of the [n] rows. *)
Theorem uninterrupted_run (n : nat) pa pb pc (s : mm) (m : M) :
  (0 < n ≤ 256)%nat →
  mem_valid m pa (mat_bytes n) → mem_valid m pb (mat_bytes n) →
  mem_valid m pc (mat_bytes n) →
  armed n pa pb pc s →
  ∃ s' m', compute_run (n + 4) s m 0 =
      Ok (Some (s', m', 3 * (50 + mem_latency) + Z.of_nat n * (2 * Z.of_nat n))) ∧
    m_dev s' = finished true (accepted (m_dev s)) ∧ m_loc s' = C_start ∧
    m_irq_ready s' = true ∧ product_stored n pa pb pc m m'.
Proof.
  intros Hn Hva Hvb Hvc Ha.
  destruct (run_armed n pa pb pc m Hn Hva Hvb true Hvc s Ha) as (s' & E & H1 & H2 & H3).
  exists s'. eexists. split; [|by eauto using final_stored].
  rewrite E. do 3 f_equal. unfold last_dma. lia.
Qed.
End results.

(** An array of [float]s with integer values, as bytes. *)
Definition ints_bytes (l : list Z) : list Z := words_bytes (f32_of_Z <$> l).

(** The registers and the memory of the witnesses: two 2x2 matrices and room for C. *)
Definition armed_dev : dev :=
  set_requested true (set_c_ptr 0x30 (set_b_ptr 0x20 (set_a_ptr 0x10 (set_dim_n 2 reset_device)))).
Definition armed_mm : mm := MM armed_dev C_start true true false false.
Definition armed_memory : host_memory :=
  store (store (HostMemory 64 ∅) 0x10 (ints_bytes [1; 2; 3; 4])) 0x20 (ints_bytes [5; 6; 7; 8]).

Ltac arm := vm_compute; repeat first [done | split; [split|] | split].

Lemma device_computes_product_witness :
  let tr := [A_compute; A_compute; A_host (request TLM_WRITE_COMMAND 0x28 [0; 0; 0; 0] 4); A_compute; A_irq; A_compute; A_compute; A_compute] in
  ∃ s' m', exec (M := host_memory) (armed_mm, armed_memory) tr = Some (s', m') ∧
    compute_enabled s' = false ∧ cells m' 0x30 16 = ints_bytes [19; 22; 43; 50] ∧
    product_stored 2 0x10 0x20 0x30 armed_memory m'.
Proof.
  intros tr. destruct (exec (M := host_memory) (armed_mm, armed_memory) tr)
    as [[s' m']|] eqn:He; [|vm_compute in He; discriminate He].
  exists s', m'. split; [done|].
  assert (compute_enabled s' = false ∧ cells m' 0x30 16 = ints_bytes [19; 22; 43; 50]) as [H1 H2]
    by (vm_compute in He; injection He as <- <-; by vm_compute).
  split; [done|]. split; [done|]. apply exec_steps in He.
  refine (proj2 (proj2 (proj2 (device_computes_product 2 0x10 0x20 0x30 _ _ _ _ _ _ _ _ _ _ He _) H1)));
    try lia; try (by vm_compute); try by arm.
  by repeat constructor.
Defined.

Lemma uninterrupted_run_witness :
  ∃ s' m', compute_run 6 armed_mm armed_memory 0 = Ok (Some (s', m', 218)) ∧
    product_stored 2 0x10 0x20 0x30 armed_memory m'.
Proof.
  destruct (uninterrupted_run (M := host_memory) 2 0x10 0x20 0x30 armed_mm armed_memory)
    as (s' & m' & E & _ & _ & _ & H); [lia|arm..|].
  exists s', m'. split; [exact E | exact H].
Defined.

(** The transfers [host_memory] refuses: those whose end, as computed, is past its own. *)
Lemma host_memory_refuses (m : host_memory) a n : mem_size m < w64 (a + n) →
  refused_read m a n ∧ refused_write m a n.
Proof.
  intros Hr. split; [intros bs _; exists bs; split; [done|] | intros bs _];
    unfold dma_read, dma_write, b_transport, host_memory_target, memory_b_transport;
    cbn [address data_length request]; by rewrite (proj2 (Z.ltb_lt _ _)).
Qed.

(** C4: the device against the memory of the testbench, on every branch.  For pointers
    with no wrap-around at 2^64 an armed computation always ends: with the product
    stored and DONE if the three matrices lie in the memory; otherwise with the memory
    unchanged, STATUS at IDLE|ERROR and INT_STATUS as it was.  In both cases the
    interrupt controller is notified. *)
Theorem host_memory_outcomes {F : FloatOps} (n : nat) pa pb pc (s : mm) (m : host_memory) :
  (0 < n ≤ 256)%nat → 0 ≤ mem_size m < 2 ^ 64 →
  0 ≤ pa < 2 ^ 64 - mat_bytes n → 0 ≤ pb < 2 ^ 64 - mat_bytes n →
  0 ≤ pc < 2 ^ 64 - mat_bytes n →
  armed n pa pb pc s →
  let in_memory p := p + mat_bytes n <=? mem_size m in
  let ok := in_memory pa && in_memory pb && in_memory pc in
  ∃ s' m' t, compute_run (n + 4) s m 0 = Ok (Some (s', m', t)) ∧
    m_dev s' = finished ok (accepted (m_dev s)) ∧ m_loc s' = C_start ∧
    m_irq_ready s' = true ∧
    if ok then product_stored n pa pb pc m m' else m' = m.
Proof.
  intros Hn Hm Hpa Hpb Hpc Ha in_memory ok. subst in_memory ok. cbv beta.
  assert (0 < mat_bytes n) as Hmb by (unfold mat_bytes; lia).
  assert (∀ p, 0 ≤ p → p + mat_bytes n ≤ mem_size m → mem_valid m p (mat_bytes n)) as Hv.
  { intros p H1 H2. cbn. unfold valid_range. lia. }
  destruct (Z.leb_spec (pa + mat_bytes n) (mem_size m)) as [Ga|Ga]; cbn [andb].
  2:{ destruct (fail_a n pa pb pc m Hn s Ha) as (s' & E & H1 & H2 & H3).
      { apply host_memory_refuses. rewrite w64_id; lia. } eauto 10. }
  destruct (Z.leb_spec (pb + mat_bytes n) (mem_size m)) as [Gb|Gb]; cbn [andb].
  2:{ destruct (fail_b n pa pb pc m Hn s Ha) as (s' & E & H1 & H2 & H3);
        [apply Hv; lia|apply host_memory_refuses; rewrite w64_id; lia|eauto 10]. }
  destruct (Z.leb_spec (pc + mat_bytes n) (mem_size m)) as [Gc|Gc].
  - destruct (run_armed n pa pb pc m Hn (Hv pa ltac:(lia) Ga) (Hv pb ltac:(lia) Gb) true
      (Hv pc ltac:(lia) Gc) s Ha) as (s' & E & H1 & H2 & H3).
    exists s'. eexists _, _. split; [exact E|]. split_and!; try done.
    apply final_stored; [done|]. by apply Hv; lia.
  - destruct (run_armed n pa pb pc m Hn (Hv pa ltac:(lia) Ga) (Hv pb ltac:(lia) Gb) false
      ltac:(apply host_memory_refuses; rewrite w64_id; lia) s Ha) as (s' & E & H1 & H2 & H3).
    exists s'. eexists _, _. split; [exact E|]. by split_and!.
Qed.

(** Matrix C past the end of a 64-byte memory. *)
Lemma host_memory_outcomes_witness :
  let s := with_dev (set_c_ptr 0x38 armed_dev) armed_mm in
  ∃ s' t, compute_run 6 s armed_memory 0 = Ok (Some (s', armed_memory, t)) ∧
    reg_status (m_dev s') = 9.
Proof.
  intros s.
  destruct (host_memory_outcomes 2 0x10 0x20 0x38 s armed_memory)
    as (s' & m' & t & E & H1 & _ & _ & H2); [lia|arm..|].
  change (m' = armed_memory) in H2. subst m'.
  exists s', t. split; [exact E|]. by rewrite H1.
Defined.

Lemma bytes_words_ints (l : list Z) : Forall (λ x, Z.abs x < 2 ^ 24) l →
  bytes_words (ints_bytes l) = f32_of_Z <$> l.
Proof.
  intros Hl. apply bytes_words_bytes. apply Forall_fmap.
  eapply Forall_impl; [done|]. intros x. apply of_Z_u32.
Qed.

(** C5: on integer matrices the device is exact.  If the memory holds two matrices of
    integers, of absolute values at most [ma] and [mb] with [n * ma * mb < 2^24], as
    binary32 numbers, then an armed computation ends with DONE, the integer product
    itself at MATRIX_C_PTR, without any rounding. *)
Theorem integer_product_exact {M : Type} {T : Target M} {MT : MemTarget M}
    (n : nat) pa pb pc (s : mm) (m : M) (A B : list Z) (ma mb : Z) :
  (0 < n ≤ 256)%nat →
  mem_valid m pa (mat_bytes n) → mem_valid m pb (mat_bytes n) →
  mem_valid m pc (mat_bytes n) → armed n pa pb pc s →
  length A = (n * n)%nat ∧ Forall (λ x, Z.abs x ≤ ma) A →
  length B = (n * n)%nat ∧ Forall (λ x, Z.abs x ≤ mb) B →
  0 ≤ ma < 2 ^ 24 ∧ 0 ≤ mb < 2 ^ 24 ∧ Z.of_nat n * (ma * mb) < 2 ^ 24 →
  mem_load m pa (mat_bytes n) = ints_bytes A →
  mem_load m pb (mat_bytes n) = ints_bytes B →
  ∃ s' m' t, compute_run (n + 4) s m 0 = Ok (Some (s', m', t)) ∧
    reg_status (m_dev s') = Z.lor STATUS_IDLE STATUS_DONE ∧
    mem_load m' pc (mat_bytes n) = ints_bytes (int_mat_mul n A B).
Proof.
  intros Hn Hva Hvb Hvc Ha HA HB Hm EA EB.
  destruct (run_armed n pa pb pc m Hn Hva Hvb true Hvc s Ha) as (s' & E & H1 & _).
  eexists s', _, _. split; [exact E|]. split; [by rewrite H1|].
  change (final n pa pb pc m true) with (stored n pa pb pc m).
  destruct (final_stored n pa pb pc m Hn Hvc) as [-> _].
  unfold product, mem_matrix. rewrite EA, EB, !bytes_words_ints.
  - unfold ints_bytes. by erewrite mat_mul_int.
  - destruct HB as [_ HB]. eapply Forall_impl; [exact HB|]. cbn. lia.
  - destruct HA as [_ HA]. eapply Forall_impl; [exact HA|]. cbn. lia.
Qed.

Lemma integer_product_exact_witness :
  ∃ s' m' t, compute_run 6 armed_mm armed_memory 0 = Ok (Some (s', m', t)) ∧
    cells m' 0x30 16 = ints_bytes [19; 22; 43; 50].
Proof.
  destruct (integer_product_exact (M := host_memory) 2 0x10 0x20 0x30 armed_mm armed_memory
    [1; 2; 3; 4] [5; 6; 7; 8] 4 8) as (s' & m' & t & E & _ & H);
    [lia|arm|arm|arm|arm|split; [done|repeat constructor; lia]..|lia|
     vm_compute; reflexivity|vm_compute; reflexivity|].
  exists s', m', t. split; [exact E|exact H].
Defined.

Lemma identity_u32 n : Forall (λ w, u32 w) (identity n).
Proof. apply Forall_fmap, Forall_forall. intros p _. cbn. by case_decide. Qed.

(** C6: multiplying by the identity copies, bit for bit.  If matrix A is the identity and
    every element of matrix B is finite (subnormal numbers included), an armed
    computation ends with DONE and with B itself at MATRIX_C_PTR, except that a [-0.0]
    comes out as [+0.0]: no rounding, no overflow and no other loss, for every
    dimension up to 256.  The test of the testbench multiplies by the identity. *)
Theorem identity_copies {M : Type} {T : Target M} {MT : MemTarget M}
    (n : nat) pa pb pc (s : mm) (m : M) (B : list Z) :
  (0 < n ≤ 256)%nat →
  mem_valid m pa (mat_bytes n) → mem_valid m pb (mat_bytes n) →
  mem_valid m pc (mat_bytes n) → armed n pa pb pc s →
  length B = (n * n)%nat → Forall f_finite B →
  mem_load m pa (mat_bytes n) = words_bytes (identity n) →
  mem_load m pb (mat_bytes n) = words_bytes B →
  ∃ s' m' t, compute_run (n + 4) s m 0 = Ok (Some (s', m', t)) ∧
    reg_status (m_dev s') = Z.lor STATUS_IDLE STATUS_DONE ∧
    mem_load m' pc (mat_bytes n) = words_bytes (unsigned_zero <$> B).
Proof.
  intros Hn Hva Hvb Hvc Ha HB Hfin EA EB.
  destruct (run_armed n pa pb pc m Hn Hva Hvb true Hvc s Ha) as (s' & E & H1 & _).
  eexists s', _, _. split; [exact E|]. split; [by rewrite H1|].
  change (final n pa pb pc m true) with (stored n pa pb pc m).
  destruct (final_stored n pa pb pc m Hn Hvc) as [-> _].
  unfold product, mem_matrix. rewrite EA, EB, !bytes_words_bytes.
  - by rewrite mat_mul_identity.
  - eapply Forall_impl; [exact Hfin|]. by intros w [].
  - apply identity_u32.
Qed.

(** A 2x2 matrix with the largest float, the smallest, 0.1f and -0.0f. *)
Definition odd_floats : list Z := [0x7F7FFFFF; 0x00000001; 0x3DCCCCCD; 0x80000000].
Definition identity_memory : host_memory :=
  store (store (HostMemory 64 ∅) 0x10 (words_bytes (identity 2))) 0x20 (words_bytes odd_floats).

Lemma identity_copies_witness :
  ∃ s' m' t, compute_run 6 armed_mm identity_memory 0 = Ok (Some (s', m', t)) ∧
    cells m' 0x30 16 = words_bytes [0x7F7FFFFF; 0x00000001; 0x3DCCCCCD; 0].
Proof.
  destruct (identity_copies (M := host_memory) 2 0x10 0x20 0x30 armed_mm identity_memory odd_floats)
    as (s' & m' & t & E & _ & H);
    [lia|arm|arm|arm|arm|done|by repeat constructor|
     vm_compute; reflexivity|vm_compute; reflexivity|].
  exists s', m', t. split; [exact E|exact H].
Defined.
