(* ===== verification/Session.v ===== *)
(** * A session of the device, from the idle state to the result

    What a driver of the device does: it writes DIM_N and the three pointers, starts the
    computation, and polls.  The configuration writes are those of [test_sequence]
    ([testbench.cpp]), for any dimension and any pointers, and a session is any execution
    whose configuration writes are exactly these, in this order: reads, writes of the
    interrupt registers and the threads of the device may come anywhere in between. *)

From S2P Require Import Prelude Tlm Float32 Registers MatMul Device Handshake HostMemory.
From S2P Require Import Interrupts Correct.
Local Open Scope Z_scope.





Section session.
Context {F : FloatOps} {M : Type} {T : Target M} {MT : MemTarget M}.



Variables (n : nat) (pa pb pc : Z) (m0 : M).
Hypothesis Hn : (0 < n ≤ 256)%nat.
Hypothesis Hua : u64 pa.
Hypothesis Hub : u64 pb.
Hypothesis Huc : u64 pc.
Hypothesis Hva : mem_valid m0 pa (mat_bytes n).
Hypothesis Hvb : mem_valid m0 pb (mat_bytes n).
Hypothesis Hvc : mem_valid m0 pc (mat_bytes n).







End session.



