(* ===== verification/Atomic.v ===== *)
(** * The device as an atomic multiplier

    What [matrix_multiplier_pcie] promises to its host, without its threads: an
    abstract device whose whole computation is one step, which reads the two matrices,
    stores their product and sets STATUS; and the proof that the threads of
    [Device.v] implement it.  The host of both may transfer to any register at any
    time, and store into memory between computations; it must be patient: while STATUS
    does not show IDLE it neither resets the device, nor writes DIM_N or a pointer
    register, nor stores into memory.  Any number of computations may follow each
    other.

    The simulation relation [related] ties the two; between the acceptance of a start
    and its completion the abstract memory is the one the computation started with. *)

From S2P Require Import Prelude Tlm Float32 Registers MatMul Device Handshake HostMemory Interrupts Correct.
Local Open Scope Z_scope.

(** ** What a host sees *)

(** A transaction with its outcome, a store into memory from outside the device, the
    value of the interrupt line after the controller has run. *)
Inductive label :=
| L_host (p q : payload)
| L_memory (a : Z) (bs : list Z)
| L_line (v : bool).

(** The executions of a labelled system; [None] labels a silent step. *)
Section run.
Context {X : Type} (lstep : X → option label → X → Prop).

Inductive run : X → list label → X → Prop :=
| run_nil x : run x [] x
| run_silent x y tr z : lstep x None y → run y tr z → run x tr z
| run_visible x l y tr z : lstep x (Some l) y → run y tr z → run x (l :: tr) z.

Lemma run_app x tr1 y tr2 z : run x tr1 y → run y tr2 z → run x (tr1 ++ tr2) z.
Proof. induction 1; cbn; eauto using run_silent, run_visible. Qed.

Lemma run_once x l y : lstep x l y → run x (option_list l) y.
Proof. intros. destruct l; cbn; [eapply run_visible | eapply run_silent]; eauto using run_nil. Qed.
End run.

(** A write to DIM_N or to a pointer register. *)
Definition is_setup (p : payload) : bool :=
  bool_decide (command p = TLM_WRITE_COMMAND) &&
  ((address p =? REG_DIM_N) ||
   ((REG_MATRIX_A_PTR <=? address p) && (address p <? REG_INT_STATUS))).

(** What a patient host does when the registers are [d]. *)
Definition patient (d : dev) (l : option label) : Prop :=
  has_bit (reg_status d) STATUS_IDLE = false →
  match l with
  | Some (L_host p _) => is_setup p = false ∧ is_reset p = false
  | Some (L_memory _ _) => False
  | _ => True
  end.

(** DIM_N and the pointers. *)
Definition same_setup (d d' : dev) : Prop :=
  reg_dim_n d' = reg_dim_n d ∧ reg_matrix_a_ptr d' = reg_matrix_a_ptr d ∧
  reg_matrix_b_ptr d' = reg_matrix_b_ptr d ∧ reg_matrix_c_ptr d' = reg_matrix_c_ptr d.

Lemma setup_transport d p t d' evs p' t' :
  bar0_transport d p t = Ok (d', evs, p', t') → is_setup p = false → is_reset p = false →
  same_setup d d'.
Proof.
  intros Ht Hq Hr. unfold bar0_transport in Ht.
  destruct (negb (data_length p =? 4) && negb (data_length p =? 8)) eqn:Hl; [by simplify_eq|].
  rewrite andb_false_iff, !negb_false_iff, !Z.eqb_eq in Hl.
  apply bind_inv in Ht as ([[d1 evs1] ptr] & H1 & Ht). simplify_eq.
  case_bool_decide; [by res_inv|]. case_bool_decide as Hw; [|by res_inv].
  unfold is_setup in Hq. rewrite bool_decide_eq_true_2 in Hq by done. cbn in Hq.
  rewrite orb_false_iff, andb_false_iff, Z.eqb_neq, Z.leb_gt, Z.ltb_ge in Hq.
  apply bind_inv in H1 as ([d2 evs2] & H1 & Heq). simplify_eq.
  unfold handle_mmio_write in H1.
  apply bind_inv in H1 as (v & Hv & H1). apply bind_inv in H1 as (v64 & _ & H1).
  apply ok_inj in H1.
  unfold REG_DIM_N, REG_MATRIX_A_PTR, REG_MATRIX_B_PTR, REG_MATRIX_C_PTR, REG_INT_STATUS in *.
  destruct (address p =? REG_CONTROL) eqn:Ha.
  - rewrite is_reset_value with (v := v) in Hr; [|done|done|by apply Z.eqb_eq|done].
    unfold write_control in H1. rewrite Hr in H1. repeat case_match; by simplify_eq.
  - repeat case_match; simplify_eq; rewrite ?Z.eqb_eq in *; done || lia.
Qed.

(** ** The DMA target *)

(** The memory a computation runs against: every transfer with a non-wrapping length
    is served, is refused with nothing changed, or goes wrong. *)
Class DmaTarget (M : Type) `{MT : MemTarget M} := {
  dma_inv : M → Prop;
  dma_inv_store m a bs : dma_inv m → dma_inv (mem_store m a bs);
  dma_cases m a n : dma_inv m → u64 a → 0 < n < 2 ^ 32 →
    mem_valid m a n ∨ (refused_read m a n ∧ refused_write m a n) ∨
    (∀ bs, Z.of_nat (length bs) = n →
       (∃ u, dma_read m a bs n = UB u) ∧ (∃ u, dma_write m a bs n = UB u))
}.

Lemma host_memory_wraps (m : host_memory) a n bs : 0 ≤ mem_size m < 2 ^ 64 →
  u64 a → 0 < n < 2 ^ 32 → 2 ^ 64 ≤ a + n → w64 (a + n) ≤ mem_size m →
  Z.of_nat (length bs) = n →
  (∃ u, dma_read m a bs n = UB u) ∧ (∃ u, dma_write m a bs n = UB u).
Proof.
  intros Hm Ha Hn Hw Hs Hl.
  assert (w64 (a + n) = a + n - 2 ^ 64) as E.
  { unfold w64. rewrite <-(Z.mod_add _ (-1)) by lia. destruct Ha. rewrite Z.mod_small; lia. }
  assert (∀ c, c ≠ TLM_IGNORE_COMMAND →
    ∃ u, b_transport m (request c a bs n) 50 = UB u) as H.
  { intros c Hc. destruct (memory_check_cases m (request c a bs n) 50) as (_ & _ & H); try done.
    cbn [address data_length request] in H. specialize (H Hw).
    by rewrite <-E, (proj2 (Z.leb_le _ _)) in H. }
  unfold dma_read, dma_write.
  split; [destruct (H TLM_READ_COMMAND) as [u ->]|destruct (H TLM_WRITE_COMMAND) as [u ->]];
    by try exists u.
Qed.

#[export] Instance host_memory_dma : DmaTarget host_memory.
Proof.
  refine {| dma_inv m := 0 ≤ mem_size m < 2 ^ 64 |}; [done|].
  intros m a n Hm Ha Hn. cbn [mem_valid host_memory_mem].
  destruct (Z.lt_ge_cases (mem_size m) (w64 (a + n))) as [Hr|Hr].
  { right; left. by apply host_memory_refuses. }
  destruct (Z.lt_ge_cases (a + n) (2 ^ 64)) as [Hw|Hw].
  - left. destruct Ha. rewrite w64_id in Hr by lia. unfold valid_range. lia.
  - right; right. intros bs Hl. by apply host_memory_wraps.
Defined.

(** ** The specification *)

Record spec := Spec {
  sp_dev : dev;
  sp_busy : bool;
  sp_irq_started : bool;
  sp_irq_ready : bool;
  sp_irq : bool
}.

Definition spec_booted : spec := Spec reset_device false false false false.

Definition dim (d : dev) : nat := Z.to_nat (reg_dim_n d).
Definition bad_dim (d : dev) : bool := (reg_dim_n d =? 0) || (256 <? reg_dim_n d).

Section systems.
Context {F : FloatOps} {M : Type} {T : Target M} {MT : MemTarget M}.

(** A whole computation: the product stored, or nothing, if the memory refuses one of
    the three transfers. *)
Inductive multiplication (d : dev) (m : M) : bool → M → Prop :=
| mult_done :
    mem_valid m (reg_matrix_a_ptr d) (mat_bytes (dim d)) →
    mem_valid m (reg_matrix_b_ptr d) (mat_bytes (dim d)) →
    mem_valid m (reg_matrix_c_ptr d) (mat_bytes (dim d)) →
    multiplication d m true
      (stored (dim d) (reg_matrix_a_ptr d) (reg_matrix_b_ptr d) (reg_matrix_c_ptr d) m)
| mult_no_a :
    refused_read m (reg_matrix_a_ptr d) (mat_bytes (dim d)) → multiplication d m false m
| mult_no_b :
    mem_valid m (reg_matrix_a_ptr d) (mat_bytes (dim d)) →
    refused_read m (reg_matrix_b_ptr d) (mat_bytes (dim d)) → multiplication d m false m
| mult_no_c :
    mem_valid m (reg_matrix_a_ptr d) (mat_bytes (dim d)) →
    mem_valid m (reg_matrix_b_ptr d) (mat_bytes (dim d)) →
    refused_write m (reg_matrix_c_ptr d) (mat_bytes (dim d)) → multiplication d m false m.

(** The atomic device.  A request is taken once STATUS shows it; a computation in
    progress is completed in one step. *)
Inductive spec_step : spec * M → option label → spec * M → Prop :=
| spec_host d b st r i m p q t d' evs :
    bytes_ok (data p) → bar0_transport d p 0 = Ok (d', evs, q, t) →
    spec_step (Spec d b st r i, m) (Some (L_host p q))
      (Spec d' b st (r || bool_decide (interrupt_update_event ∈ evs)) i, m)
| spec_memory s m a bs :
    mem_valid m a (Z.of_nat (length bs)) →
    spec_step (s, m) (Some (L_memory a bs)) (s, mem_store m a bs)
| spec_line (d : dev) (b st i : bool) m :
    let v := if st then pending d else i in
    spec_step (Spec d b st true i, m) (Some (L_line v)) (Spec d b true false v, m)
| spec_refuse d st r i m :
    computation_requested d = true → bad_dim d = true →
    spec_step (Spec d false st r i, m) None
      (Spec (finished false (accepted d)) false st true i, m)
| spec_accept d st r i m :
    computation_requested d = true → bad_dim d = false →
    spec_step (Spec d false st r i, m) None (Spec (accepted d) true st r i, m)
| spec_complete d st r i m ok m' :
    multiplication d m ok m' →
    spec_step (Spec d true st r i, m) None (Spec (finished ok d) false st true i, m').

(** The module with the same labels: a resumption of the compute thread is silent. *)
Inductive impl_step : mm * M → option label → mm * M → Prop :=
| impl_host s m p q t s' :
    bytes_ok (data p) → b_transport s p 0 = Ok (s', q, t) →
    impl_step (s, m) (Some (L_host p q)) (s', m)
| impl_memory s m a bs :
    mem_valid m a (Z.of_nat (length bs)) →
    impl_step (s, m) (Some (L_memory a bs)) (s, mem_store m a bs)
| impl_line s m :
    m_irq_ready s = true →
    impl_step (s, m) (Some (L_line (m_irq (interrupt_controller s)))) (interrupt_controller s, m)
| impl_compute s m s' m' w :
    compute_enabled s = true → run_compute s m = Ok (s', m', w) →
    impl_step (s, m) None (s', m').

(** Every step of the module is one of these. *)
Lemma step_impl (x : mm * M) a y : step x a y → ∃ l, impl_step x l y.
Proof. destruct 1; eexists; by econstructor. Qed.

(** Both under a patient host. *)
Definition impl (x : mm * M) (l : option label) (y : mm * M) : Prop :=
  patient (m_dev x.1) l ∧ impl_step x l y.
Definition abstract (x : spec * M) (l : option label) (y : spec * M) : Prop :=
  patient (sp_dev x.1) l ∧ spec_step x l y.
End systems.

(** ** The simulation relation *)

Section simulation.
Context {F : FloatOps} {M : Type} {T : Target M} {MT : MemTarget M} {DT : DmaTarget M}.
Implicit Types (d : dev) (m : M) (l : cloc).

(** How far the thread has got in a computation that found the registers [d] and the
    memory [m0]. *)
Definition progress d (m0 : M) l m : Prop :=
  let n := dim d in
  let a0 := mem_matrix n m0 (reg_matrix_a_ptr d) in
  let b0 := mem_matrix n m0 (reg_matrix_b_ptr d) in
  let valid p := mem_valid m0 p (mat_bytes n) in
  (0 < n ≤ 256)%nat ∧
  match l with
  | C_init | C_start => False
  | C_dma_a n' a ok =>
      n' = Z.of_nat n ∧ m = m0 ∧
      if ok : bool then valid (reg_matrix_a_ptr d) ∧ a = a0
      else refused_read m0 (reg_matrix_a_ptr d) (mat_bytes n)
  | C_dma_b n' a b ok =>
      n' = Z.of_nat n ∧ m = m0 ∧ valid (reg_matrix_a_ptr d) ∧ a = a0 ∧
      if ok : bool then valid (reg_matrix_b_ptr d) ∧ b = b0
      else refused_read m0 (reg_matrix_b_ptr d) (mat_bytes n)
  | C_row n' a b c i =>
      n' = Z.of_nat n ∧ m = m0 ∧ valid (reg_matrix_a_ptr d) ∧ a = a0 ∧
      valid (reg_matrix_b_ptr d) ∧ b = b0 ∧
      0 ≤ i < Z.of_nat n ∧ filled n a0 b0 c (S (Z.to_nat i) * n)
  | C_dma_c ok => multiplication d m0 ok m
  end.

Lemma dim_bytes d : (0 < dim d ≤ 256)%nat → 0 < mat_bytes (dim d) < 2 ^ 32.
Proof. unfold mat_bytes. nia. Qed.

(** A refused transfer is not a valid one. *)
Lemma refused_not_valid n m p : (0 < n ≤ 256)%nat →
  mem_valid m p (mat_bytes n) →
  ¬ refused_read m p (mat_bytes n) ∧ ¬ refused_write m p (mat_bytes n).
Proof.
  intros Hn Hv. pose proof (new_vector_bytes n Hn) as Hl. split; intros Hr.
  - destruct (Hr _ Hl) as (bs & _ & E). rewrite dma_read_ok in E by done. congruence.
  - specialize (Hr _ Hl). rewrite dma_write_ok in Hr by done. congruence.
Qed.

Lemma multiplication_det d m ok1 m1 ok2 m2 : (0 < dim d ≤ 256)%nat →
  multiplication d m ok1 m1 → multiplication d m ok2 m2 → ok1 = ok2 ∧ m1 = m2.
Proof.
  intros Hn H1 H2.
  destruct H1, H2; try done; exfalso;
    match goal with
    | Hv : mem_valid m ?p _, Hr : refused_read m ?p _ |- _ =>
        by apply (proj1 (refused_not_valid _ _ _ Hn Hv))
    | Hv : mem_valid m ?p _, Hr : refused_write m ?p _ |- _ =>
        by apply (proj2 (refused_not_valid _ _ _ Hn Hv))
    end.
Qed.

Lemma multiplication_inv d m ok m' : multiplication d m ok m' → dma_inv m → dma_inv m'.
Proof. destruct 1; try done. apply dma_inv_store. Qed.

(** What a read of a matrix can give. *)
Lemma read_cases d m p bs : (0 < dim d ≤ 256)%nat → dma_inv m → u64 p →
  Z.of_nat (length bs) = mat_bytes (dim d) →
  (mem_valid m p (mat_bytes (dim d)) ∧
     dma_read m p bs (mat_bytes (dim d)) =
       Ok (m, mem_load m p (mat_bytes (dim d)), true, 50 + mem_latency)) ∨
  (refused_read m p (mat_bytes (dim d)) ∧
     ∃ bs', dma_read m p bs (mat_bytes (dim d)) = Ok (m, bs', false, 50)) ∨
  (¬ mem_valid m p (mat_bytes (dim d)) ∧ ¬ refused_read m p (mat_bytes (dim d)) ∧
     ∃ u, dma_read m p bs (mat_bytes (dim d)) = UB u).
Proof.
  intros Hn Hm Hp Hl.
  destruct (dma_cases m p (mat_bytes (dim d)) Hm Hp (dim_bytes d Hn)) as [Hv|[[Hr _]|Hu]].
  - left. split; [done|]. by apply dma_read_ok.
  - right; left. split; [done|]. destruct (Hr bs Hl) as (bs' & _ & E). by exists bs'.
  - right; right. destruct (Hu bs Hl) as [[u E] _]. split_and!; [..|by exists u].
    + intros Hv. rewrite dma_read_ok in E by done. done.
    + intros Hr. destruct (Hr bs Hl) as (bs' & _ & E'). congruence.
Qed.

Lemma write_cases d m p bs : (0 < dim d ≤ 256)%nat → dma_inv m → u64 p →
  Z.of_nat (length bs) = mat_bytes (dim d) →
  (mem_valid m p (mat_bytes (dim d)) ∧
     dma_write m p bs (mat_bytes (dim d)) = Ok (mem_store m p bs, true, 50 + mem_latency)) ∨
  (refused_write m p (mat_bytes (dim d)) ∧
     dma_write m p bs (mat_bytes (dim d)) = Ok (m, false, 50)) ∨
  (¬ mem_valid m p (mat_bytes (dim d)) ∧ ¬ refused_write m p (mat_bytes (dim d)) ∧
     ∃ u, dma_write m p bs (mat_bytes (dim d)) = UB u).
Proof.
  intros Hn Hm Hp Hl.
  destruct (dma_cases m p (mat_bytes (dim d)) Hm Hp (dim_bytes d Hn)) as [Hv|[[_ Hr]|Hu]].
  - left. split; [done|]. by apply dma_write_ok.
  - right; left. split; [done|]. by apply Hr.
  - right; right. destruct (Hu bs Hl) as [_ [u E]]. split_and!; [..|by exists u].
    + intros Hv. rewrite dma_write_ok in E by done. done.
    + intros Hr. rewrite Hr in E; done.
Qed.

(** The outcome of a resumption: one stage further, the end of the multiplication, or
    an error that shows the multiplication has no outcome. *)
Definition resumed d (m0 : M) l (r : res (dev * M * cloc * list event * Z)) : Prop :=
  (∃ m' l' w, r = Ok (d, m', l', [], w) ∧ progress d m0 l' m' ∧ in_flight l' = true ∧
     (rank l' < rank l)%nat) ∨
  (∃ ok m', r = Ok (finished ok d, m', C_start, [interrupt_update_event], 0) ∧
     multiplication d m0 ok m') ∨
  ((∃ u, r = UB u) ∧ ∀ ok m', ¬ multiplication d m0 ok m').

Lemma resumed_end d m0 l ok m' : multiplication d m0 ok m' →
  resumed d m0 l (Ok (finish d m' ok)).
Proof. intros H. right; left. exists ok, m'. by destruct ok. Qed.

Lemma resume_row d m0 l i c : let n := dim d in
  let a := mem_matrix n m0 (reg_matrix_a_ptr d) in
  let b := mem_matrix n m0 (reg_matrix_b_ptr d) in
  (0 < n ≤ 256)%nat → (i < n)%nat →
  mem_valid m0 (reg_matrix_a_ptr d) (mat_bytes n) →
  mem_valid m0 (reg_matrix_b_ptr d) (mat_bytes n) →
  filled n a b c (i * n) → (n - i + 1 < rank l)%nat →
  resumed d m0 l (run_row d m0 (Z.of_nat n) a b c (Z.of_nat i)).
Proof.
  intros n a b Hn Hi Hva Hvb Hc Hr. unfold run_row.
  destruct (row_stage n _ _ m0 Hn Hva Hvb i c Hi Hc) as (c' & E & Hf).
  subst a b. rewrite E. left. eexists _, _, _. rewrite bind_ok. split; [done|].
  split; [|split; [done|cbn; lia]].
  unfold progress. cbn -[Z.of_nat filled]. rewrite Nat2Z.id. split_and!; done || lia.
Qed.

Lemma progress_resume d m0 l m : dev_wf d → dma_inv m0 → progress d m0 l m →
  resumed d m0 l (compute_resume d m l).
Proof.
  intros Hwf Hm (Hn & Hp). pose proof (new_vector_bytes _ Hn) as Hl.
  destruct l as [| |n' a ok|n' a b ok|n' a b c i|ok]; try done; cbn [compute_resume].
  - destruct Hp as (-> & -> & Ha). destruct ok; cbn [negb].
    2:{ by apply resumed_end, mult_no_a. }
    destruct Ha as [Hva ->]. rewrite (byte_count_n _ Hn).
    destruct (read_cases d m0 (reg_matrix_b_ptr d) _ Hn Hm (wf_b_ptr _ Hwf) Hl)
      as [[Hv ->]|[[Hr [bs ->]]|(Hv & Hr & [u ->])]]; cbn [mbind bind_ok].
    + left. eexists _, _, _. rewrite bind_ok. split; [done|]. cbn -[Z.of_nat]. split_and!; done || lia.
    + left. eexists _, _, _. rewrite bind_ok. split; [done|]. cbn -[Z.of_nat]. split_and!; done || lia.
    + right; right. split; [by exists u|]. intros ok m' []; try done.
      by apply (proj1 (refused_not_valid _ _ _ Hn Hva)).
  - destruct Hp as (-> & -> & Hva & -> & Hb). destruct ok; cbn [negb].
    2:{ by apply resumed_end, mult_no_b. }
    destruct Hb as [Hvb ->]. apply (resume_row d m0 _ 0); try done; [lia| |cbn; lia].
    apply filled_init. pose proof (length_new_vector (Z.of_nat (dim d)) ltac:(lia)). lia.
  - destruct Hp as (-> & -> & Hva & -> & Hvb & -> & Hi & Hf). rewrite w32_id by lia.
    destruct (Z.ltb_spec (i + 1) (Z.of_nat (dim d))).
    + replace (i + 1) with (Z.of_nat (S (Z.to_nat i))) by lia.
      apply resume_row; try done; [lia|cbn; lia].
    + rewrite (byte_count_n _ Hn).
      replace (S (Z.to_nat i)) with (dim d) in Hf by lia. apply filled_all in Hf as ->.
      destruct (write_cases d m0 (reg_matrix_c_ptr d)
        (words_bytes (product (dim d) (reg_matrix_a_ptr d) (reg_matrix_b_ptr d) m0)) Hn Hm (wf_c_ptr _ Hwf))
        as [[Hv E]|[[Hr E]|(Hv & Hr & [u E])]]; [by apply length_product_bytes|..];
        unfold product in E; rewrite E.
      * left. eexists _, _, _. rewrite bind_ok. split; [done|].
        split; [|split; [done|cbn; lia]]. split; [done|]. by constructor.
      * left. eexists _, _, _. rewrite bind_ok. split; [done|].
        split; [|split; [done|cbn; lia]]. split; [done|]. by apply mult_no_c.
      * right; right. split; [by exists u|]. intros ok m' []; try done.
        -- by apply (proj1 (refused_not_valid _ _ _ Hn Hva)).
        -- by apply (proj1 (refused_not_valid _ _ _ Hn Hvb)).
  - by apply resumed_end.
Qed.

(** The acceptance of a request. *)
Lemma begin_cases d m : dev_wf d → dma_inv m → computation_requested d = true →
  (bad_dim d = true ∧ begin_compute d m = Ok (finish (accepted d) m false)) ∨
  (bad_dim d = false ∧
   ((∃ l w, begin_compute d m = Ok (accepted d, m, l, [], w) ∧
       progress (accepted d) m l m ∧ in_flight l = true) ∨
    ((∃ u, begin_compute d m = UB u) ∧ ∀ ok m', ¬ multiplication (accepted d) m ok m'))).
Proof.
  intros Hwf Hm Hq. unfold begin_compute, bad_dim. rewrite Hq. cbn [negb].
  cbn [reg_dim_n set_requested set_status reg_matrix_a_ptr].
  destruct ((reg_dim_n d =? 0) || (256 <? reg_dim_n d)) eqn:Hdim; [by left|right].
  split; [done|]. rewrite orb_false_iff, Z.eqb_neq, Z.ltb_ge in Hdim.
  destruct (wf_dim_n _ Hwf) as [Hd0 _].
  assert (0 < dim d ≤ 256)%nat as Hn by (unfold dim; lia).
  assert (reg_dim_n d = Z.of_nat (dim d)) as -> by (unfold dim; lia).
  rewrite (byte_count_n _ Hn).
  destruct (read_cases d m (reg_matrix_a_ptr d) _ Hn Hm (wf_a_ptr _ Hwf) (new_vector_bytes _ Hn))
    as [[Hv ->]|[[Hr [bs ->]]|(Hv & Hr & [u ->])]].
  - left. eexists _, _. rewrite bind_ok. split; [done|]. split; [|done].
    split; [exact Hn|]. by split_and!.
  - left. eexists _, _. rewrite bind_ok. split; [done|]. split; [|done].
    split; [exact Hn|]. by split_and!.
  - right. split; [by exists u|]. intros ok m1 Hx. by destruct Hx.
Qed.

Lemma progress_setup d d' m0 l m : same_setup d d' → progress d m0 l m → progress d' m0 l m.
Proof.
  intros (H1 & H2 & H3 & H4). assert (dim d' = dim d) as Hd by (unfold dim; by rewrite H1).
  unfold progress. rewrite Hd, H2, H3. intros [Hn Hl]. split; [done|].
  destruct l; try done. destruct Hl; rewrite <-?H2, <-?H3, <-?H4, <-?Hd in *;
    [by apply mult_done|by apply mult_no_a|by apply mult_no_b|by apply mult_no_c].
Qed.

(** The module and the atomic device: the same registers and interrupt line; between
    computations the same memory; within one, the thread on its way to the outcome. *)
Definition related (x : mm * M) (y : spec * M) : Prop :=
  let '(s, m) := x in let '(a, m0) := y in
  let d := m_dev s in
  sp_dev a = d ∧ dev_wf d ∧ dma_inv m0 ∧
  sp_irq_started a = m_irq_started s ∧ sp_irq_ready a = m_irq_ready s ∧ sp_irq a = m_irq s ∧
  sp_busy a = in_flight (m_loc s) ∧
  if in_flight (m_loc s) then
    reg_status d = STATUS_BUSY ∧ computation_requested d = false ∧ progress d m0 (m_loc s) m
  else
    m_loc s = C_start ∧ m = m0 ∧ has_bit (reg_status d) STATUS_IDLE = true ∧
    (computation_requested d = true → m_ready s = true).

Lemma booted_related m : dma_inv m → related (mm_booted, m) (spec_booted, m).
Proof. intros Hm. unfold related. cbn. split_and!; done || apply reset_device_wf. Qed.

Lemma related_patient x y (l : option label) : related x y → patient (m_dev x.1) l → patient (sp_dev y.1) l.
Proof. destruct x as [s m], y as [a m0]. intros [E _]. cbn in E |- *. by rewrite E. Qed.


(** One step of the module: matched by a step of the atomic device, or silent. *)
Lemma simulate_host s m a m0 p q t s' :
  related (s, m) (a, m0) → patient (m_dev s) (Some (L_host p q)) →
  bytes_ok (data p) → b_transport s p 0 = Ok (s', q, t) →
  ∃ a', spec_step (a, m0) (Some (L_host p q)) (a', m0) ∧ related (s', m) (a', m0).
Proof.
  intros (Ed & Hwf & Hm & E1 & E2 & E3 & E4 & Hrel) Hpat Hb Ht.
  unfold b_transport, mm_target in Ht.
  apply bind_inv in Ht as ([[[d' evs] p''] t''] & Ht & Heq). simplify_eq.
  pose proof (transport_wf _ _ _ _ _ _ _ Hb Ht Hwf) as Hwf'.
  pose proof (transport_effect _ _ _ _ _ _ _ Ht) as He.
  destruct a as [d b st r i]. cbn in Ed, E1, E2, E3, E4. subst.
  eexists. split; [by econstructor|].
  unfold related. rewrite notify_dev, notify_loc, notify_irq_started, notify_irq_ready, notify_irq.
  cbn [sp_dev sp_busy sp_irq_started sp_irq_ready sp_irq with_dev m_dev m_loc m_irq_started
    m_irq_ready m_irq]. do 7 (split; [done|]).
  destruct (in_flight (m_loc s)) eqn:Hf.
  - destruct Hrel as (Hst & Hq & Hp). unfold patient in Hpat. rewrite Hst in Hpat.
    destruct (Hpat eq_refl) as [Hsetup Hreset].
    pose proof (setup_transport _ _ _ _ _ _ _ Ht Hsetup Hreset) as Hsame.
    apply (progress_setup _ _ _ _ _ Hsame) in Hp.
    destruct He as [d' [Hs1 Hs2] _|d' [Hs1 Hs2]|v _ _ Hidle|Hr|Hr]; try congruence.
    + rewrite Hs1, Hs2. by split_and!; [| |apply Hp].
    + rewrite Hs1, Hs2. by split_and!; [| |apply Hp].
    + by rewrite Hst in Hidle.
  - destruct Hrel as (Hl & -> & Hst & Hq). do 2 (split; [done|]).
    destruct He as [d' [Hs1 Hs2] _|d' [Hs1 Hs2]|v _ _ Hidle|Hr|Hr]; cbn;
      rewrite ?Hs1, ?Hs2; try done; (split; [done|]); intros _;
      by rewrite bool_decide_eq_true_2, orb_true_r.
Qed.

Lemma simulate_compute s m a m0 s' m' w :
  related (s, m) (a, m0) → compute_enabled s = true → run_compute s m = Ok (s', m', w) →
  (∃ y, spec_step (a, m0) None y ∧ related (s', m') y) ∨ related (s', m') (a, m0).
Proof.
  intros (Ed & Hwf & Hm & E1 & E2 & E3 & E4 & Hrel) He Hr. unfold run_compute in Hr.
  apply bind_inv in Hr as ([[[[d' m1] l'] evs] w'] & Hr & Heq). simplify_eq.
  destruct a as [d b st r i]. cbn in Ed, E1, E2, E3, E4. subst.
  destruct (in_flight (m_loc s)) eqn:Hf.
  - destruct Hrel as (Hst & Hq & Hp).
    destruct (progress_resume _ _ _ _ Hwf Hm Hp)
      as [(m2 & l2 & w2 & E & Hp2 & Hl2 & _)|[(ok & m2 & E & Hmul)|[[u E] _]]];
      rewrite Hr in E; simplify_eq.
    + right. unfold related. cbn. rewrite Hl2. by split_and!.
    + left. eexists. split; [by eapply spec_complete|]. unfold related. cbn.
      split_and!; try done; [by apply finished_wf|by eapply multiplication_inv| |];
        destruct ok; cbn; rewrite ?Hq; done.
  - destruct Hrel as (Hl & -> & Hst & Hq). rewrite Hl in Hr. cbn [compute_resume] in Hr.
    destruct (computation_requested (m_dev s)) eqn:Hreq.
    + left. destruct (begin_cases _ _ Hwf Hm Hreq)
        as [[Hdim E]|[Hdim [(l2 & w2 & E & Hp & Hl2)|[[u E] _]]]]; rewrite E in Hr; simplify_eq.
      * eexists. split; [by apply spec_refuse|]. unfold related. cbn. split_and!; try done.
        by apply (finished_wf false), accepted_wf.
      * eexists. split; [by apply spec_accept|]. unfold related. cbn. rewrite Hl2.
        split_and!; try done. by apply accepted_wf.
    + right. unfold begin_compute in Hr. rewrite Hreq in Hr. cbn in Hr. simplify_eq.
      unfold related. cbn. split_and!; done || congruence.
Qed.

Lemma simulate x (l : option label) x' y : impl x l x' → related x y →
  (∃ y', abstract y l y' ∧ related x' y') ∨ (l = None ∧ related x' y).
Proof.
  intros [Hpat Hs] Hr. pose proof (related_patient _ _ _ Hr Hpat) as Hpat'.
  destruct y as [a m0]. destruct Hs as [s m p q t s' Hb Ht|s m b bs Hv|s m Hi|s m s' m' w He Hc].
  - destruct (simulate_host _ _ _ _ _ _ _ _ Hr Hpat Hb Ht) as (a' & H1 & H2).
    left. eexists. by split.
  - left. destruct Hr as (Ed & Hwf & Hm & E1 & E2 & E3 & E4 & Hrel).
    destruct (in_flight (m_loc s)) eqn:Hf.
    + destruct Hrel as (Hst & _). unfold patient in Hpat. cbn in Hpat. rewrite Hst in Hpat.
      by destruct (Hpat eq_refl).
    + destruct Hrel as (Hl & -> & Hrest). eexists. split; [split; [done|by constructor]|].
      unfold related. rewrite Hf. split_and!; try done. by apply dma_inv_store.
      all: apply Hrest.
  - left. destruct Hr as (Ed & Hwf & Hm & E1 & E2 & E3 & E4 & Hrel).
    destruct a as [d b st r i]. cbn in Ed, E1, E2, E3, E4. subst. rewrite Hi.
    eexists. split; [split; [done|apply spec_line]|]. by split_and!.
  - destruct (simulate_compute _ _ _ _ _ _ _ Hr He Hc) as [(y & H1 & H2)|H]; [left|by right].
    exists y. by split.
Qed.

Lemma simulate_run x tr x' y : run impl x tr x' → related x y →
  ∃ y', run abstract y tr y' ∧ related x' y'.
Proof.
  intros Hr. revert y. induction Hr as [x|x x1 tr z Hs _ IH|x l x1 tr z Hs _ IH]; intros y Hy.
  - exists y. split; [constructor|done].
  - destruct (simulate _ _ _ _ Hs Hy) as [(y1 & H1 & H2)|[_ H2]].
    + destruct (IH _ H2) as (y' & H3 & H4). exists y'. split; [by eapply run_silent|done].
    + by apply IH.
  - destruct (simulate _ _ _ _ Hs Hy) as [(y1 & H1 & H2)|[[=] _]].
    destruct (IH _ H2) as (y' & H3 & H4). exists y'. split; [by eapply run_visible|done].
Qed.

(** No step changes what is valid memory. *)
Lemma abstract_valid x tr y : run abstract x tr y →
  ∀ b k, mem_valid y.2 b k ↔ mem_valid x.2 b k.
Proof.
  assert (∀ x (l : option label) y, abstract x l y → ∀ b k, mem_valid y.2 b k ↔ mem_valid x.2 b k) as H.
  { intros ? ? ? [_ Hs] b k. destruct Hs as [| | | | |? ? ? ? ? ? ? Hm]; try done; cbn.
    - apply mem_store_valid.
    - destruct Hm; try done. apply mem_store_valid. }
  induction 1 as [|x1 y1 tr1 z1 Hs _ IH|x1 l1 y1 tr1 z1 Hs _ IH]; [done|..];
    intros b k; rewrite IH; by apply (H _ _ _ Hs).
Qed.

(** A computation that has an outcome reaches it. *)
Lemma run_to_outcome fuel s m a m0 ok m' t :
  related (s, m) (a, m0) → in_flight (m_loc s) = true → (rank (m_loc s) ≤ fuel)%nat →
  multiplication (m_dev s) m0 ok m' →
  ∃ s' t', compute_run fuel s m t = Ok (Some (s', m', t')) ∧
    m_dev s' = finished ok (m_dev s) ∧ m_loc s' = C_start ∧ m_irq_ready s' = true.
Proof.
  revert s m t. induction fuel as [|fuel IH]; intros s m t Hrel Hf Hk Hmul.
  all: pose proof Hrel as (Ed & Hwf & Hm & _ & _ & _ & _ & Hst); rewrite Hf in Hst;
    destruct Hst as (Hs & Hq & Hp).
  { destruct Hp as [Hn Hp]. destruct (m_loc s); cbn in Hk; done || lia. }
  cbn [compute_run]. assert (compute_enabled s = true) as -> by (unfold compute_enabled; by rewrite Hf).
  unfold run_compute.
  destruct (progress_resume _ _ _ _ Hwf Hm Hp)
    as [(m2 & l2 & w2 & E & Hp2 & Hl2 & Hlt)|[(ok2 & m2 & E & Hmul2)|[_ Hno]]].
  - rewrite E, !bind_ok. cbn [foldl].
    destruct (IH (MM (m_dev s) l2 false (m_irq_started s) (m_irq_ready s) (m_irq s)) m2 (t + w2))
      as (s' & t' & Hrun & H1 & H2 & H3); [|done|cbn; lia|done|by exists s', t'].
    destruct Hrel as (_ & _ & _ & ? & ? & ? & ? & _).
    unfold related. cbn. rewrite Hl2. split_and!; try done. congruence.
  - rewrite E, !bind_ok. destruct (proj1 Hp) as [Hn1 Hn2].
    destruct (multiplication_det _ _ _ _ _ _ (proj1 Hp) Hmul Hmul2) as [-> ->].
    rewrite compute_run_stop by done. by eexists _, _.
  - by destruct (Hno ok m').
Qed.
End simulation.

(** ** Properties *)

Section results.
Context {F : FloatOps} {M : Type} {T : Target M} {MT : MemTarget M} {DT : DmaTarget M}.

(** C1: the threads of the device implement the atomic multiplier, for every
    interleaving and any number of computations.  Whatever a patient host does with a
    booted device, and whatever it can observe (the outcome of each transaction and
    the value of the interrupt line after each run of the controller), the atomic
    device can do too, ending with the same registers, the same interrupt line, and
    between computations with the same memory. *)
Theorem device_refines_atomic (m : M) tr s' m' :
  dma_inv m → run impl (mm_booted, m) tr (s', m') →
  ∃ a m0, run abstract (spec_booted, m) tr (a, m0) ∧
    sp_dev a = m_dev s' ∧ sp_irq a = m_irq s' ∧ sp_busy a = in_flight (m_loc s') ∧
    (in_flight (m_loc s') = false → m0 = m').
Proof.
  intros Hm Hr.
  destruct (simulate_run _ _ _ _ Hr (booted_related m Hm)) as ([a m0] & Ha & Hrel).
  exists a, m0. split; [done|].
  destruct Hrel as (Ed & _ & _ & _ & _ & E3 & E4 & Hrel). split_and!; try done.
  intros Hf. rewrite Hf in Hrel. by destruct Hrel as (_ & -> & _).
Qed.

(** C7: and it completes what the atomic device completes.  In every state a patient
    host can bring the device to, with a computation in flight, the atomic device is
    busy with the same registers and the same valid ranges, and if its multiplication has an outcome the compute
    thread, left alone, arrives at that very memory and at those registers after at
    most [n + 3] resumptions. *)
Theorem atomic_completion_reached (m : M) tr s' m' :
  dma_inv m → run impl (mm_booted, m) tr (s', m') → in_flight (m_loc s') = true →
  ∃ a m0, run abstract (spec_booted, m) tr (a, m0) ∧ sp_busy a = true ∧
    sp_dev a = m_dev s' ∧ (∀ b k, mem_valid m0 b k ↔ mem_valid m b k) ∧
    ∀ ok m1, multiplication (sp_dev a) m0 ok m1 →
      ∃ s1 t, compute_run (dim (sp_dev a) + 3) s' m' 0 = Ok (Some (s1, m1, t)) ∧
        m_dev s1 = finished ok (sp_dev a) ∧ m_loc s1 = C_start ∧ m_irq_ready s1 = true.
Proof.
  intros Hm Hr Hf.
  destruct (simulate_run _ _ _ _ Hr (booted_related m Hm)) as ([a m0] & Ha & Hrel).
  exists a, m0. split; [done|]. pose proof Hrel as (Ed & _ & _ & _ & _ & _ & E4 & Hp).
  split; [congruence|]. split; [done|]. split; [by apply (abstract_valid _ _ _ Ha)|].
  rewrite Ed. intros ok m1 Hmul.
  eapply run_to_outcome; [done|done| |done].
  rewrite Hf in Hp. destruct Hp as (_ & _ & Hn & Hp). destruct (m_loc s'); cbn; done || lia.
Qed.
End results.

(** ** Executions for the witnesses *)

(** Drive the module with the memory of the testbench, recording the labels. *)
Inductive input :=
| I_act (a : action)
| I_store (a : Z) (bs : list Z).

Definition idle_or_quiet (d : dev) (p : payload) : bool :=
  has_bit (reg_status d) STATUS_IDLE || (negb (is_setup p) && negb (is_reset p)).

#[export] Instance valid_range_dec m a n : Decision (valid_range m a n).
Proof. unfold valid_range. apply _. Defined.

Definition impl_do (x : mm * host_memory) (i : input) : option (option label * (mm * host_memory)) :=
  let '(s, m) := x in
  match i with
  | I_act (A_host p) =>
      if decide (bytes_ok (data p)) then
        if idle_or_quiet (m_dev s) p then
          match b_transport s p 0 with
          | Ok (s', q, _) => Some (Some (L_host p q), (s', m))
          | UB _ => None
          end
        else None
      else None
  | I_act A_compute =>
      if compute_enabled s then
        match run_compute s m with
        | Ok (s', m', _) => Some (None, (s', m'))
        | UB _ => None
        end
      else None
  | I_act A_irq =>
      if m_irq_ready s then
        Some (Some (L_line (m_irq (interrupt_controller s))), (interrupt_controller s, m))
      else None
  | I_store a bs =>
      if has_bit (reg_status (m_dev s)) STATUS_IDLE &&
         bool_decide (valid_range m a (Z.of_nat (length bs)))
      then Some (Some (L_memory a bs), (s, store m a bs))
      else None
  end.

Fixpoint impl_exec (x : mm * host_memory) (l : list input) : option (list label * (mm * host_memory)) :=
  match l with
  | [] => Some ([], x)
  | i :: l =>
      '(o, x) ← impl_do x i; '(tr, x) ← impl_exec x l; Some (option_list o ++ tr, x)
  end.

Lemma impl_do_step x i o y : impl_do x i = Some (o, y) → impl x o y.
Proof.
  destruct x as [s m], i as [[p| |]|a bs]; cbn; intros Hd.
  - case_decide as Hb; [|done]. destruct (idle_or_quiet (m_dev s) p) eqn:Hi; [|done].
    destruct (b_transport s p 0) as [[[s' q] t]|] eqn:E; [|done]. simplify_eq.
    split; [|by econstructor]. intros Hs. unfold idle_or_quiet in Hi. cbn in Hs.
    rewrite Hs in Hi. cbn in Hi. by rewrite andb_true_iff, !negb_true_iff in Hi.
  - case_match eqn:He; [|done]. case_match eqn:E; [|done]. repeat case_match; simplify_eq.
    split; [done|]. by eapply impl_compute.
  - case_match; [|done]. simplify_eq. split; [done|]. by constructor.
  - case_match eqn:Hi; [|done]. simplify_eq.
    rewrite andb_true_iff, bool_decide_eq_true in Hi. destruct Hi as [Hs Hv].
    split; [intros Hs'; cbn in Hs'; congruence|]. exact (impl_memory s m a bs Hv).
Qed.

Lemma impl_exec_run x l tr y : impl_exec x l = Some (tr, y) → run impl x tr y.
Proof.
  revert x tr. induction l as [|i l IH]; intros x tr He; cbn in He.
  { simplify_eq. constructor. }
  apply bind_Some in He as ([o x1] & H1 & He). apply bind_Some in He as ([tr1 y1] & H2 & He).
  simplify_eq. eapply run_app; [|by apply IH]. by apply run_once, (impl_do_step _ i).
Qed.

(** Two computations in a row on a 64-byte memory: 2 * 3, then, with matrix A replaced
    by the host, 5 * 3, with a STATUS read in the middle. *)
Definition wr a v : input := I_act (A_host (request TLM_WRITE_COMMAND a (le_bytes 4 v) 4)).
Definition session : list input :=
  [I_store 0x10 (ints_bytes [2]); I_store 0x20 (ints_bytes [3]); wr 8 1; wr 0x10 0x10;
   wr 0x18 0x20; wr 0x20 0x30; wr 0 1] ++
  replicate 2 (I_act A_compute) ++
  [I_act (A_host (request TLM_READ_COMMAND 4 [0; 0; 0; 0] 4))] ++
  replicate 3 (I_act A_compute) ++
  [I_act A_irq; I_store 0x10 (ints_bytes [5]); wr 0 1] ++
  replicate 5 (I_act A_compute).

Lemma device_refines_atomic_witness :
  ∃ tr s' m', impl_exec (mm_booted, HostMemory 64 ∅) session = Some (tr, (s', m')) ∧
    cells m' 0x30 4 = ints_bytes [15] ∧
    ∃ a, run abstract (spec_booted, HostMemory 64 ∅) tr (a, m') ∧ sp_dev a = m_dev s'.
Proof.
  destruct (impl_exec (mm_booted, HostMemory 64 ∅) session) as [[tr [s' m']]|] eqn:He;
    [|vm_compute in He; discriminate He].
  exists tr, s', m'. split; [done|].
  assert (cells m' 0x30 4 = ints_bytes [15] ∧ in_flight (m_loc s') = false) as [Hc Hf].
  { vm_compute in He. injection He as <- <- <-. by vm_compute. }
  split; [done|].
  apply impl_exec_run in He.
  pose proof (device_refines_atomic (HostMemory 64 ∅) tr s' m') as H.
  specialize (H ltac:(change (0 ≤ 64 < 2 ^ 64); lia)).
  specialize (H He).
  destruct H as (a & m0 & Ha & Hd & _ & _ & Hm).
  rewrite (Hm Hf) in Ha. exists a. split; [exact Ha|exact Hd].
Defined.

(** The first of the two computations, left alone in the middle of the DMA of B. *)
Lemma atomic_completion_reached_witness :
  ∃ tr s' m', impl_exec (mm_booted, HostMemory 64 ∅) (take 9 session) = Some (tr, (s', m')) ∧
    ∃ a m0, run abstract (spec_booted, HostMemory 64 ∅) tr (a, m0) ∧
      ∃ s1 t, compute_run 4 s' m' 0 =
        Ok (Some (s1, stored 1 0x10 0x20 0x30 m0, t)) ∧ reg_status (m_dev s1) = 5.
Proof.
  destruct (impl_exec (mm_booted, HostMemory 64 ∅) (take 9 session)) as [[tr [s' m']]|] eqn:He;
    [|vm_compute in He; discriminate He].
  exists tr, s', m'. split; [done|].
  assert (in_flight (m_loc s') = true ∧ reg_dim_n (m_dev s') = 1 ∧
    reg_matrix_a_ptr (m_dev s') = 0x10 ∧ reg_matrix_b_ptr (m_dev s') = 0x20 ∧
    reg_matrix_c_ptr (m_dev s') = 0x30) as (Hf & Hd & Ha & Hb & Hc).
  { vm_compute in He. injection He as <- <- <-. by vm_compute. }
  apply impl_exec_run in He.
  pose proof (atomic_completion_reached (HostMemory 64 ∅) tr s' m') as H.
  specialize (H ltac:(change (0 ≤ 64 < 2 ^ 64); lia)). specialize (H He Hf).
  destruct H as (a & m0 & Hrun & _ & E & Hv & H).
  exists a, m0. split; [exact Hrun|]. unfold dim in H. rewrite E in H.
  assert (multiplication (m_dev s') m0 true (stored 1 0x10 0x20 0x30 m0)) as Hm.
  { pose proof (mult_done (m_dev s') m0) as Hm. unfold dim in Hm. rewrite Hd, Ha, Hb, Hc in Hm.
    apply Hm; apply Hv; change (mat_bytes (Z.to_nat 1)) with 4;
      cbn; unfold valid_range; cbn; lia. }
  destruct (H true _ Hm) as (s1 & t & Hc1 & Hd1 & _).
  rewrite Hd in Hc1. exists s1, t. split; [exact Hc1|]. by rewrite Hd1.
Defined.
