(* ===== verification/Testbench.v ===== *)
(** * The testbench

    [test_driver] and [sc_main] of [testbench.cpp]: the thread [test_sequence] over
    any BAR 0 target, and the whole simulation of the testbench, with the device of
    [Device.v], the memory of [HostMemory.v] and simulated time.

    The simulation is a transition system.  As long as a process may run, any such
    process runs, up to its next [wait]; then the signal [irq] takes the value last
    written to the port; then, unless [sc_stop] was called, time advances to the
    earliest time-out.  The order in which the processes of one evaluation phase run
    is left open, as the SystemC standard leaves it: a state has a list of
    successors, and the theorem is about every run. *)

From S2P Require Import Prelude Tlm HostMemory Float32 Registers MatMul Device Handshake Correct.
Local Open Scope Z_scope.

(** ** The driver *)

Section driver.
Context {S : Type} {T : Target S}.

(** [mmio_read32], [mmio_write32] and [mmio_write64]: the call, and the time of the
    [wait] after it.  [data] is the uninitialised local of [mmio_read32]. *)
Definition mmio_read32 (s : S) (data : list Z) (addr : Z) : res (S * Z * Z) :=
  '(s, trans, delay) ← b_transport s (request TLM_READ_COMMAND addr data 4) 0;
  Ok (s, le_val (Tlm.data trans), delay).

Definition mmio_write32 (s : S) (addr data : Z) : res (S * Z) :=
  '(s, trans, delay) ← b_transport s (request TLM_WRITE_COMMAND addr (le_bytes 4 data) 4) 0;
  Ok (s, delay).

Definition mmio_write64 (s : S) (addr data : Z) : res (S * Z) :=
  '(s, trans, delay) ← b_transport s (request TLM_WRITE_COMMAND addr (le_bytes 8 data) 8) 0;
  Ok (s, delay).

(** The [wait]s of [test_sequence]: named after the call they are in, or the loop. *)
Inductive tloc :=
| T_init | T_boot | T_status | T_dim_n | T_matrix_a | T_matrix_b | T_matrix_c
| T_enable | T_start | T_poll | T_final | T_int_status | T_ack | T_last | T_end.

(** Where the thread waits and its locals. *)
Record driver := Driver { t_loc : tloc; t_status : Z; t_int_status : Z }.

Definition driver_init : driver := Driver T_init 0 0.

(** What a run of the thread yields: the target, the thread, and the time it waits, or
    nothing after [sc_stop]. *)
Definition test_segment : Type := S * driver * option Z.

(** [while (interrupt_in.read() == false) wait(10, SC_NS);] and the read after it. *)
Definition poll (junk : list Z) (interrupt_in : bool) (s : S) (dr : driver) : res test_segment :=
  if interrupt_in then
    '(s, v, w) ← mmio_read32 s junk 0x0004;
    Ok (s, Driver T_final v (t_int_status dr), Some w)
  else Ok (s, Driver T_poll (t_status dr) (t_int_status dr), Some 10).

(** [test_sequence], from one [wait] to the next. *)
Definition test_resume (junk : list Z) (interrupt_in : bool) (s : S) (dr : driver)
    : res test_segment :=
  let goto l (r : res (S * Z)) :=
    '(s, w) ← r; Ok (s, Driver l (t_status dr) (t_int_status dr), Some w) in
  match t_loc dr with
  | T_init => goto T_boot (Ok (s, 100))
  | T_boot =>
      '(s, v, w) ← mmio_read32 s junk 0x0004;
      Ok (s, Driver T_status v (t_int_status dr), Some w)
  | T_status => goto T_dim_n (mmio_write32 s 0x0008 4)
  | T_dim_n => goto T_matrix_a (mmio_write64 s 0x0010 0x1000)
  | T_matrix_a => goto T_matrix_b (mmio_write64 s 0x0018 0x2000)
  | T_matrix_b => goto T_matrix_c (mmio_write64 s 0x0020 0x3000)
  | T_matrix_c => goto T_enable (mmio_write32 s 0x002C 0x1)
  | T_enable => goto T_start (mmio_write32 s 0x0000 0x1)
  | T_start | T_poll => poll junk interrupt_in s dr
  | T_final =>
      '(s, v, w) ← mmio_read32 s junk 0x0028;
      Ok (s, Driver T_int_status (t_status dr) v, Some w)
  | T_int_status => goto T_ack (mmio_write32 s 0x0028 (t_int_status dr))
  | T_ack => goto T_last (Ok (s, 100))
  | T_last | T_end => Ok (s, Driver T_end (t_status dr) (t_int_status dr), None)
  end.
End driver.

(** ** The simulation *)

(** [s_cwake] and [s_twake]: the time-outs of the compute thread and of the driver;
    [s_irq]: the current value of the signal; [s_stop]: [sc_stop] was called. *)
Record sim := Sim {
  now : Z;
  s_mm : mm;
  s_mem : host_memory;
  s_driver : driver;
  s_cwake : option Z;
  s_twake : option Z;
  s_irq : bool;
  s_stop : bool
}.

Definition due (s : sim) (t : option Z) : bool :=
  match t with Some t => t <=? now s | None => false end.

(** The three processes: each runs if it may. *)
Definition run_device (s : sim) : res (list sim) :=
  if m_ready (s_mm s) || due s (s_cwake s) then
    '(d, m, w) ← run_compute (s_mm s) (s_mem s);
    let wake := if in_flight (m_loc d) then Some (now s + w) else None in
    Ok [Sim (now s) d m (s_driver s) wake (s_twake s) (s_irq s) (s_stop s)]
  else Ok [].

Definition run_irq (s : sim) : res (list sim) :=
  Ok (if m_irq_ready (s_mm s) then
        [Sim (now s) (interrupt_controller (s_mm s)) (s_mem s) (s_driver s) (s_cwake s)
           (s_twake s) (s_irq s) (s_stop s)]
      else []).

Definition run_driver (junk : list Z) (s : sim) : res (list sim) :=
  if due s (s_twake s) then
    '(d, dr, w) ← test_resume junk (s_irq s) (s_mm s) (s_driver s);
    let wake := w ← w; Some (now s + w) in
    Ok [Sim (now s) d (s_mem s) dr (s_cwake s) wake (s_irq s)
          (match w with None => true | Some _ => s_stop s end)]
  else Ok [].

(** The earliest time-out. *)
Definition next_time (s : sim) : option Z :=
  match s_cwake s, s_twake s with
  | Some a, Some b => Some (Z.min a b)
  | Some a, None => Some a
  | None, b => b
  end.

(** No process may run: update the signal, or advance time, or end. *)
Definition update_or_advance (s : sim) : list sim :=
  if negb (eqb (s_irq s) (m_irq (s_mm s))) then
    [Sim (now s) (s_mm s) (s_mem s) (s_driver s) (s_cwake s) (s_twake s)
       (m_irq (s_mm s)) (s_stop s)]
  else if s_stop s then []
  else match next_time s with
  | Some t =>
      [Sim t (s_mm s) (s_mem s) (s_driver s) (s_cwake s) (s_twake s) (s_irq s) (s_stop s)]
  | None => []
  end.

Definition sim_next (junk : list Z) (s : sim) : res (list sim) :=
  l1 ← run_device s;
  l2 ← run_irq s;
  l3 ← run_driver junk s;
  Ok (match l1 ++ l2 ++ l3 with [] => update_or_advance s | l => l end).

(** ** [sc_main] *)

Definition matrix_a : list Z := [1; 0; 0; 0; 0; 1; 0; 0; 0; 0; 1; 0; 0; 0; 0; 1].
Definition matrix_b : list Z := replicate 16 2.

(** Up to [sc_start]: the modules, and the operands through the backdoor. *)
Definition sc_main_setup : res sim :=
  m ← write_data host_memory_init 0x1000 (ints_bytes matrix_a) 64;
  m ← write_data m 0x2000 (ints_bytes matrix_b) 64;
  Ok (Sim 0 mm_init m driver_init None (Some 0) false false).

(** After it: [read_data] into the uninitialised [matrix_c]. *)
Definition sc_main_result (s : sim) (matrix_c : list Z) : res (list Z) :=
  bs ← read_data (s_mem s) 0x3000 matrix_c 64;
  Ok (bytes_words bs).

(** ** Runs of the simulation *)

Section runs.
Variable junk : list Z.

Definition sim_step (s s' : sim) : Prop := ∃ l, sim_next junk s = Ok l ∧ s' ∈ l.
Definition sim_over (s : sim) : Prop := sim_next junk s = Ok [].

(** Every run from [s] ends, without undefined behaviour, in a state where [P]. *)
Inductive always_ends (P : sim → Prop) (s : sim) : Prop :=
| ends_here : sim_over s → P s → always_ends P s
| ends_later l :
    sim_next junk s = Ok l → l ≠ [] →
    (∀ s', s' ∈ l → always_ends P s') → always_ends P s.

(** Decide that by running every order, with a bound on the number of steps. *)
Fixpoint explore (fuel : nat) (p : sim → bool) (s : sim) : bool :=
  match fuel with
  | O => false
  | S fuel =>
      match sim_next junk s with
      | UB _ => false
      | Ok [] => p s
      | Ok l => forallb (explore fuel p) l
      end
  end.

Lemma explore_sound fuel p s :
  explore fuel p s = true → always_ends (λ s, p s = true) s.
Proof.
  revert s. induction fuel as [|fuel IH]; intros s H; cbn [explore] in H; [done|].
  destruct (sim_next junk s) as [[|s1 l]|u] eqn:E; [by apply ends_here| |done].
  apply (ends_later _ _ (s1 :: l)); [done|done|].
  intros s' Hs'. apply IH. rewrite forallb_forall in H. apply H. by apply list_elem_of_In.
Qed.

Lemma always_ends_impl (P Q : sim → Prop) s :
  (∀ s, P s → Q s) → always_ends P s → always_ends Q s.
Proof.
  intros HPQ. induction 1 as [s Ho HP|s l E Hl _ IH].
  - apply ends_here; auto.
  - by apply (ends_later _ _ l).
Qed.

(** What it means for the runs themselves: they are finite, and none goes wrong. *)
Lemma always_ends_run (P : sim → Prop) s : always_ends P s →
  Acc (flip sim_step) s ∧
  ∀ s', rtc sim_step s s' → is_ok (sim_next junk s') ∧ (sim_over s' → P s').
Proof.
  induction 1 as [s Ho HP|s l E Hl _ IH].
  - assert (∀ s', ¬ sim_step s s') as Hno.
    { intros s' (l & E & Hin). unfold sim_over in Ho. rewrite Ho in E. injection E as <-.
      by apply not_elem_of_nil in Hin. }
    split; [constructor; intros s' Hs'; by destruct (Hno s')|].
    intros s' [->|(s1 & H1 & _)]%rtc_inv; [|by destruct (Hno s1 H1)].
    split; [by eexists|]. by intros _.
  - split.
    + constructor. intros s' (l' & E' & Hin). rewrite E in E'. injection E' as <-.
      exact (proj1 (IH s' Hin)).
    + intros s' Hr. inversion Hr as [|? s1 ? (l' & E' & Hin) H2]; subst.
      * split; [by eexists|]. unfold sim_over. congruence.
      * rewrite E in E'. injection E' as <-. exact (proj2 (IH s1 Hin) s' H2).
Qed.
End runs.

Lemma read_back m a n buf : valid_range m a n → Z.of_nat (length buf) = n →
  read_data m a buf n = Ok (cells m a n).
Proof.
  intros Hv Hl. unfold read_data, copy_out. rewrite valid_in_vector by done.
  destruct Hv as (? & ? & ? & ?). rewrite w64_id, (proj2 (Z.leb_le _ _)) by lia.
  apply memcpy_all; [|done]. apply length_cells. lia.
Qed.

(** What the testbench should end with. *)
Definition good_end (s : sim) : bool :=
  (now s =? 540) && s_stop s && negb (s_irq s) &&
  (t_status (s_driver s) =? 5) && (t_int_status (s_driver s) =? 1) &&
  (reg_int_status (m_dev (s_mm s)) =? 0) && (mem_size (s_mem s) =? 16 * 1024 * 1024) &&
  bool_decide (cells (s_mem s) 0x3000 64 = ints_bytes (replicate 16 2)).

(** C8: the testbench passes, under every scheduling.  Whatever the uninitialised
    locals hold, every run of the simulation from [sc_start] on is finite and free of
    undefined behaviour, and ends by [sc_stop] at 540 ns, where the driver has read
    STATUS = IDLE|DONE and INT_STATUS = DONE, the interrupt is acknowledged and its
    signal low again, and [sc_main] reads back the product: sixteen times 2.0. *)
Theorem testbench_passes (b0 b1 b2 b3 : Z) :
  ∃ s0, sc_main_setup = Ok s0 ∧
    Acc (flip (sim_step [b0; b1; b2; b3])) s0 ∧
    ∀ s, rtc (sim_step [b0; b1; b2; b3]) s0 s →
      is_ok (sim_next [b0; b1; b2; b3] s) ∧
      (sim_over [b0; b1; b2; b3] s →
         now s = 540 ∧ s_stop s = true ∧ s_irq s = false ∧
         t_status (s_driver s) = Z.lor STATUS_IDLE STATUS_DONE ∧
         t_int_status (s_driver s) = INT_DONE ∧ reg_int_status (m_dev (s_mm s)) = 0 ∧
         ∀ matrix_c, length matrix_c = 64%nat →
           sc_main_result s matrix_c = Ok (f32_of_Z <$> replicate 16 2)).
Proof.
  destruct sc_main_setup as [s0|] eqn:E; [|by vm_compute in E].
  exists s0. split; [done|]. apply always_ends_run.
  apply (always_ends_impl _ (λ s, good_end s = true)).
  - intros s Hg. unfold good_end in Hg. rewrite !andb_true_iff, !Z.eqb_eq, negb_true_iff in Hg.
    destruct Hg as [[[[[[[H1 H2] H3] H4] H5] H6] H7] H8].
    apply bool_decide_eq_true in H8. split_and!; try done.
    intros c Hc. unfold sc_main_result. rewrite read_back by (unfold valid_range; lia).
    rewrite H8, bind_ok. by vm_compute.
  - apply (explore_sound _ 200). vm_compute in E. injection E as <-. by vm_compute.
Qed.
