(* ===== verification/Cosim.v ===== *)
(** * The co-simulation server

    The live part of [main.cc]: the monitor between the remote-port master and the
    endpoint, the placeholder endpoint [DummyTarget], and the start-up of [sc_main];
    and the upstream callback of [PCIeQemuBridge] ([qemu-bridge.h]).  What the modules
    print is part of their result, as a list of log entries.  The remote-port library
    is outside the repository: the initiator that drives the chain is arbitrary. *)

From Stdlib Require Import String Ascii.
From S2P Require Import Prelude Tlm HostMemory.
Local Open Scope Z_scope.

(** A [printf] of a module, without its wording. *)
Inductive log_entry :=
| Log_request (is_read : bool) (addr len : Z)   (* [MONITOR] READ/WRITE *)
| Log_response (val : Z)                        (* [MONITOR] Response Data *)
| Log_data (bytes : list Z).                    (* SystemC: Data received *)

#[export] Instance log_entry_eq_dec : EqDecision log_entry.
Proof. solve_decision. Defined.

(** A [b_transport] that also prints. *)
Class LogTarget (S : Type) :=
  log_transport : S → payload → Z → res (S * payload * Z * list log_entry).

(** ** [DummyTarget] *)

Definition dummy_data : Z := 0xABCD1234.

(** The module has no state. *)
Inductive dummy := Dummy.

Definition dummy_b_transport (d : dummy) (trans : payload) (delay : Z)
    : res (dummy * payload * Z * list log_entry) :=
  if is_read trans then
    ptr ← memcpy (data trans) (le_bytes 4 dummy_data) (data_length trans);
    Ok (d, set_response TLM_OK_RESPONSE (set_data ptr trans), delay, [])
  else
    bytes ← for_range (data_length trans) (λ i log,
      match data trans !! Z.to_nat i with
      | Some b => Ok (log ++ [b])
      | None => UB OutOfBoundsRead
      end) [];
    Ok (d, set_response TLM_OK_RESPONSE trans, delay, [Log_data bytes]).

#[export] Instance dummy_log : LogTarget dummy := dummy_b_transport.

(** ** [TrafficMonitor] *)

Section monitor.
Context {S : Type} {T : LogTarget S}.

Definition monitor_b_transport (s : S) (trans : payload) (delay : Z)
    : res (S * payload * Z * list log_entry) :=
  let addr := address trans in
  let len := data_length trans in
  let rd := is_read trans in
  '(s, trans, delay, log) ← log_transport s trans delay;
  response_log ←
    (if rd && is_response_ok trans then
       val ← (if len <=? 4 then memcpy (replicate 4 0) (data trans) len
              else Ok (replicate 4 0));
       Ok [Log_response (le_val val)]
     else Ok []);
  Ok (s, trans, delay, Log_request rd addr len :: log ++ response_log).
End monitor.

(** A target that prints nothing, and a target whose output is not looked at. *)
Definition silent {S} `{Target S} : LogTarget S := fun s p t =>
  '(s, p, t) ← b_transport s p t; Ok (s, p, t, []).
Definition unlogged {S} `{LogTarget S} : Target S := fun s p t =>
  '(s, p, t, _) ← log_transport s p t; Ok (s, p, t).

(** The chain [sc_main] binds: monitor, then endpoint. *)
Definition endpoint_b_transport : dummy → payload → Z → res (dummy * payload * Z * list log_entry) :=
  monitor_b_transport (T := dummy_log).

(** ** [PCIeQemuBridge] *)

(** [b_transport]: DMA requests of the device go on to [init_socket]. *)
Definition bridge_b_transport {S} `{Target S} (s : S) (trans : payload) (delay : Z)
    : res (S * payload * Z) := b_transport s trans delay.

(** ** [sc_main] *)

Local Open Scope string_scope.

(** [strncmp(s, t, n) == 0], on C strings without their terminator. *)
Fixpoint strncmp_eq (s t : string) (n : nat) : bool :=
  match n, s, t with
  | O, _, _ => true
  | S n, EmptyString, EmptyString => true
  | S n, String a s, String b t => Ascii.eqb a b && strncmp_eq s t n
  | S n, _, _ => false
  end.

(** [s + n] *)
Fixpoint string_drop (n : nat) (s : string) : string :=
  match n, s with
  | S n, String _ s => string_drop n s
  | _, _ => s
  end.

(** [sk_descr] and [socket_file]; [argv] is the list of arguments after the name of
    the program. *)
Definition sk_descr (argv : list string) : string :=
  match argv with a :: _ => a | [] => "unix:/tmp/qemu-rport" end.
Definition socket_file (argv : list string) : string :=
  let s := sk_descr argv in
  if strncmp_eq s "unix:" 5 then string_drop 5 s else s.

(** What the program does to its surroundings, in order. *)
Inductive server_action :=
| Unlink (path : string)
| New_adapter (descr : string)
| Register_dev (n : Z)
| Bind (initiator target : string)
| Write_rst (b : bool)
| Sc_start_zero
| Sc_start.

(** [sc_main]; [access path] tells whether the file exists. *)
Definition sc_main (argv : list string) (access : string → bool) : list server_action :=
  (if access (socket_file argv) then [Unlink (socket_file argv)] else []) ++
  [New_adapter (sk_descr argv); Register_dev 0;
   Bind "rp_master" "monitor"; Bind "monitor" "dummy";
   Write_rst true; Sc_start_zero; Write_rst false; Sc_start].

(** ** Properties *)

Local Close Scope string_scope.

(** The prefix test and the pointer arithmetic, on concatenations. *)
Lemma strncmp_eq_app p s : strncmp_eq (p ++ s)%string p (String.length p) = true.
Proof.
  induction p as [|a p IH]; simpl; [by destruct s|]. by rewrite Ascii.eqb_refl.
Qed.
Lemma string_drop_app p s : string_drop (String.length p) (p ++ s)%string = s.
Proof. induction p as [|a p IH]; simpl; [by destruct s|done]. Qed.

Lemma dummy_log_loop (bs : list Z) : ∀ n, n = Z.of_nat (length bs) →
  for_range n (λ i log, match bs !! Z.to_nat i with
    | Some b => Ok (log ++ [b]) | None => UB OutOfBoundsRead end) [] = Ok bs.
Proof.
  intros n ->.
  destruct (for_range_inv (λ i log, log = take (Z.to_nat i) bs)
    (λ i log, match bs !! Z.to_nat i with
      | Some b => Ok (log ++ [b]) | None => UB OutOfBoundsRead end)
    (Z.of_nat (length bs)) []) as (l & E & Hl); [lia| |done|].
  - intros i log Hi ->. destruct (lookup_lt_is_Some_2 bs (Z.to_nat i)) as [b Hb]; [lia|].
    rewrite Hb. eexists; split; [done|].
    replace (Z.to_nat (i + 1)) with (S (Z.to_nat i)) by lia. by rewrite (take_S_r _ _ b).
  - rewrite E, Hl. f_equal. apply take_ge. lia.
Qed.

(** C35: The endpoint behind the monitor, on every transaction whose buffer has the
    announced length, up to what the loop counts with an [int].  Anything but a read is accepted, changes nothing and is printed as
    a write with its data; a read of at most 4 bytes gives the first bytes of 0xABCD1234
    and prints their value; a longer read copies past the 4-byte constant, which is
    undefined behaviour.  The annotated delay is never touched. *)
Theorem endpoint_cases (p : payload) (t : Z) :
  0 ≤ data_length p < 2 ^ 31 → Z.of_nat (length (data p)) = data_length p →
  endpoint_b_transport Dummy p t =
    if is_read p then
      if data_length p <=? 4 then
        let bs := take (Z.to_nat (data_length p)) (le_bytes 4 dummy_data) in
        Ok (Dummy, set_response TLM_OK_RESPONSE (set_data bs p), t,
            [Log_request true (address p) (data_length p);
             Log_response (dummy_data mod 256 ^ data_length p)])
      else UB OutOfBoundsRead
    else
      Ok (Dummy, set_response TLM_OK_RESPONSE p, t,
          [Log_request false (address p) (data_length p); Log_data (data p)]).
Proof.
  intros H0 Hl. unfold endpoint_b_transport, monitor_b_transport, log_transport, dummy_log,
    dummy_b_transport.
  destruct (is_read p) eqn:Hr.
  - destruct (Z.leb_spec (data_length p) 4) as [H4|H4].
    + rewrite memcpy_ok by (rewrite ?length_le_bytes; lia).
      rewrite (drop_ge (data p)) by lia. rewrite app_nil_r, !bind_ok. cbn [andb].
      payload_simpl. unfold is_response_ok. payload_simpl. rewrite bool_decide_eq_true_2 by done.
      set (n := data_length p) in *. clearbody n.
      assert (n = 0 ∨ n = 1 ∨ n = 2 ∨ n = 3 ∨ n = 4) as [->|[->|[->|[->| ->]]]] by lia; done.
    + by rewrite memcpy_overread by (rewrite ?length_le_bytes; lia).
  - rewrite dummy_log_loop by done. by rewrite !bind_ok.
Qed.

Lemma endpoint_cases_witness :
  endpoint_b_transport Dummy (request TLM_READ_COMMAND 0x10 [0; 0; 0; 0; 0; 0; 0; 0] 8) 0 =
    UB OutOfBoundsRead ∧
  endpoint_b_transport Dummy (request TLM_READ_COMMAND 0x10 [0; 0] 2) 0 =
    Ok (Dummy, Payload TLM_READ_COMMAND 0x10 [0x34; 0x12] 2 TLM_OK_RESPONSE, 0,
        [Log_request true 0x10 2; Log_response 0x1234]).
Proof.
  split.
  - rewrite (endpoint_cases (request _ _ _ _)) by (cbn; lia). reflexivity.
  - rewrite (endpoint_cases (request _ _ _ _)) by (cbn; lia). reflexivity.
Defined.

(** ** The monitor *)

Lemma le_val_app bs1 bs2 :
  le_val (bs1 ++ bs2) = le_val bs1 + 256 ^ Z.of_nat (length bs1) * le_val bs2.
Proof.
  induction bs1 as [|b bs1 IH]; cbn [le_val app length].
  - rewrite Z.pow_0_r. lia.
  - rewrite IH, pow256_S. ring.
Qed.

Lemma le_val_zeros n : le_val (replicate n 0) = 0.
Proof. induction n as [|n IH]; cbn [replicate le_val]; [done|]. by rewrite IH. Qed.

(** C36: the monitor is transparent.  Whatever target it sits in front of, a transaction
    the target answers is answered through the monitor with the same state, payload and
    delay; the request is printed before and, after a successful read, the value read:
    exact up to 4 bytes, and 0 for any longer read. *)
Theorem monitor_transparent {S : Type} {T : LogTarget S} (s : S) (p : payload) (t : Z)
    (s' : S) (p' : payload) (t' : Z) (log : list log_entry) :
  0 ≤ data_length p → Z.of_nat (length (data p)) = data_length p →
  log_transport s p t = Ok (s', p', t', log) → answers p p' →
  monitor_b_transport s p t =
    Ok (s', p', t',
        Log_request (is_read p) (address p) (data_length p) :: log ++
        if is_read p && is_response_ok p'
        then [Log_response (if data_length p <=? 4 then le_val (data p') else 0)]
        else []).
Proof.
  intros H0 Hl E (_ & _ & _ & Hlen & _). unfold monitor_b_transport. rewrite E, bind_ok.
  destruct (is_read p && is_response_ok p'); [|by rewrite bind_ok].
  destruct (Z.leb_spec (data_length p) 4); [|by rewrite !bind_ok, le_val_zeros].
  rewrite memcpy_ok by (cbn [replicate length]; lia).
  rewrite !bind_ok, take_ge, drop_replicate, le_val_app, le_val_zeros by lia.
  by rewrite Z.mul_0_r, Z.add_0_r.
Qed.

(** A 4-byte read of the testbench memory through the monitor. *)
Lemma monitor_transparent_witness :
  let m := store host_memory_init 0x1000 [0x78; 0x56; 0x34; 0x12] in
  let p := request TLM_READ_COMMAND 0x1000 [0; 0; 0; 0] 4 in
  monitor_b_transport (T := silent) m p 50 =
    Ok (m, Payload TLM_READ_COMMAND 0x1000 [0x78; 0x56; 0x34; 0x12] 4 TLM_OK_RESPONSE, 70,
        [Log_request true 0x1000 4; Log_response 0x12345678]).
Proof.
  intros m p.
  rewrite (monitor_transparent (T := silent) m p 50 m
    (Payload TLM_READ_COMMAND 0x1000 [0x78; 0x56; 0x34; 0x12] 4 TLM_OK_RESPONSE) 70 []);
    by vm_compute.
Defined.

(** Memory behind a monitor is memory: the client's theorems apply to it unchanged. *)
Section monitored.
Context {S : Type} {T : Target S} {W : WellBehaved S} {MT : MemTarget S}.

Definition monitored : Target S := unlogged (H := monitor_b_transport (T := silent)).

Lemma monitored_transport s p t s' p' t' :
  0 ≤ data_length p → Z.of_nat (length (data p)) = data_length p →
  b_transport s p t = Ok (s', p', t') → monitored s p t = Ok (s', p', t').
Proof.
  intros H0 Hl E. pose proof (transport_answers _ _ _ _ _ _ E) as [(_ & _ & _ & Hlen & _) _].
  unfold monitored, unlogged, log_transport at 1, monitor_b_transport, log_transport, silent.
  rewrite E, !bind_ok. destruct (is_read p && is_response_ok p'); [|done].
  destruct (Z.leb_spec (data_length p) 4); [|done].
  by rewrite memcpy_ok by (cbn [replicate length]; lia).
Qed.

#[export] Program Instance monitored_mem : @MemTarget S monitored := {
  mem_valid s a n := 0 ≤ n ∧ mem_valid s a n;
  mem_load := mem_load;
  mem_store := mem_store;
  mem_latency := mem_latency
}.
Next Obligation. intros s a n [_ Hv]. by apply mem_load_length. Qed.
Next Obligation.
  intros s p d Hc [H0 Hv] Hl. apply monitored_transport; [done|done|]. by apply mem_read_spec.
Qed.
Next Obligation.
  intros s p d Hc [H0 Hv] Hl. apply monitored_transport; [done|done|]. by apply mem_write_spec.
Qed.
Next Obligation. intros s a bs b n. cbv beta. by rewrite mem_store_valid. Qed.
Next Obligation. intros s a bs [_ Hv]. by apply mem_load_store. Qed.
Next Obligation. intros s a bs b n [_ Hv] [_ Hb]. by apply mem_load_store_disjoint. Qed.
End monitored.

(** The bridge forwards unchanged: memory upstream of it is memory. *)
#[export] Instance bridged_mem {S} {T : Target S} {MT : MemTarget S} :
  @MemTarget S bridge_b_transport := MT.

(** ** Start-up *)

Lemma unlink_startup p d : Unlink p ∈
  [New_adapter d; Register_dev 0; Bind "rp_master" "monitor"; Bind "monitor" "dummy";
   Write_rst true; Sc_start_zero; Write_rst false; Sc_start] ↔ False.
Proof.
  split; [|done]. repeat (intros [[=]|H]%elem_of_cons; revert H). by intros ?%elem_of_nil.
Qed.

(** The socket file of the server.  For a "unix:" descriptor it is the path after
    the prefix, whatever the path; any other argument is used as a file name itself.  In
    both cases an existing file of that name, and nothing else, is deleted before the
    adapter is created with the full descriptor.  Without arguments the descriptor is
    unix:/tmp/qemu-rport, and arguments after the first one make no difference. *)
Theorem server_startup (a path : string) (argv : list string) (access : string → bool) :
  socket_file (("unix:" ++ path)%string :: argv) = path ∧
  (strncmp_eq a "unix:" 5 = false → socket_file (a :: argv) = a) ∧
  (∀ p, Unlink p ∈ sc_main (a :: argv) access ↔ p = socket_file [a] ∧ access p = true) ∧
  sc_main (a :: argv) access = sc_main [a] access ∧
  sc_main [] access = sc_main ["unix:/tmp/qemu-rport"%string] access.
Proof.
  split; [|split; [|split; [|done]]].
  - unfold socket_file, sk_descr. change 5%nat with (String.length "unix:").
    by rewrite strncmp_eq_app, string_drop_app.
  - intros Ha. unfold socket_file, sk_descr. by rewrite Ha.
  - intros p. unfold sc_main. change (socket_file (a :: argv)) with (socket_file [a]).
    rewrite elem_of_app, unlink_startup.
    destruct (access (socket_file [a])) eqn:Ha.
    + rewrite list_elem_of_singleton. split; [by intros [[= ->]|[]]|intros [-> _]; by left].
    + rewrite elem_of_nil. split; [by intros [[]|[]]|]. intros [-> Hp]. congruence.
Qed.

Lemma server_startup_witness :
  socket_file ["unix:/tmp/qemu-rport"%string; "10000"%string] = "/tmp/qemu-rport"%string ∧
  socket_file ["/etc/hosts"%string] = "/etc/hosts"%string.
Proof.
  split.
  - exact (proj1 (server_startup "" "/tmp/qemu-rport" ["10000"%string] (λ _, true))).
  - refine (proj1 (proj2 (server_startup "/etc/hosts" "" [] (λ _, true))) _). reflexivity.
Defined.
