(* ===== verification/PciConfig.v ===== *)
(** * Configuration of the PCI function

    What the sources ask of the configuration space: the settings [PCIeCoSimTop]
    ([main.cc]) makes, those of [create_pf_config] ([pcie_system_top.h]), both commented
    out in this revision, with the constants of [pci-defs-fix.h]; and the identifiers
    the driver is registered for.  [PhysFuncConfig] and the capability classes belong to
    the controller library: a configuration is the list of calls made on them.  The
    fields of the MSI-X capability are decoded as the PCI specification lays them out:
    message control holds the number of vectors less one in its low 11 bits, the two
    offset registers the number of a BAR in their low 3 bits; an entry of the table has
    16 bytes, the pending bits come in 8-byte words. *)

From S2P Require Import Prelude.
Local Open Scope Z_scope.

Definition PCI_BASE_ADDRESS_MEM_TYPE_64 : Z := 0x04.
Definition PCI_EXP_DEVCAP_RBER : Z := 0x00008000.
Definition PCI_EXP_LNKCAP_SLS_2_5GB : Z := 0x00000001.
Definition PCI_EXP_LNKSTA_CLS_2_5GB : Z := 0x0001.
Definition PCI_EXP_LNKSTA_NLW_X1 : Z := 0x0010.

Record msix := Msix {
  message_control : Z;
  table_offset_bir : Z;
  pending_bit_array : Z
}.

Inductive setting :=
| SetPCIVendorID (v : Z)
| SetPCIDeviceID (v : Z)
| SetPCIRevisionID (v : Z)
| SetPCISubsystemVendorID (v : Z)
| SetPCISubsystemID (v : Z)
| SetPCIClassBase (v : Z)
| SetPCIClassDevice (v : Z)
| SetPCIClassProgIF (v : Z)
| SetPCIBAR (n size flags : Z)
| SetPCIExpansionROMBAR (size flags : Z)
| AddPM
| AddPCIExpress (device_capabilities link_capabilities link_status : Z)
| AddMSIX (c : msix).

Definition config : Type := list setting.

(** [PCI_BASE_ADDRESS_SPACE_MEMORY] comes from the controller library. *)
Section configurations.
Variable PCI_BASE_ADDRESS_SPACE_MEMORY : Z.

(** [PCIeCoSimTop::PCIeCoSimTop] *)
Definition cosim_config : config :=
  [SetPCIVendorID 0x10EE; SetPCIDeviceID 0x0001; SetPCIRevisionID 0x01;
   SetPCIClassBase 0x05; SetPCIClassProgIF 0x00;
   SetPCIBAR 0 0x100000 PCI_BASE_ADDRESS_SPACE_MEMORY;
   SetPCIBAR 1 0x1000 PCI_BASE_ADDRESS_SPACE_MEMORY;
   AddMSIX (Msix 3 1 (Z.lor 0x800 1))].
End configurations.

Definition maxLinkWidth : Z := Z.shiftl 1 4.
Definition msixTableSz : Z := 1.
Definition create_pf_config : config :=
  [SetPCIVendorID 0x10EE; SetPCIDeviceID 0x9038; SetPCISubsystemVendorID 0x10EE;
   SetPCISubsystemID 0x0001; SetPCIClassBase 0x12; SetPCIClassDevice 0x00;
   SetPCIClassProgIF 0x00; SetPCIBAR 0 (4 * 1024) PCI_BASE_ADDRESS_MEM_TYPE_64;
   SetPCIExpansionROMBAR 0 0; AddPM;
   AddPCIExpress PCI_EXP_DEVCAP_RBER (Z.lor PCI_EXP_LNKCAP_SLS_2_5GB maxLinkWidth)
     (Z.lor PCI_EXP_LNKSTA_CLS_2_5GB PCI_EXP_LNKSTA_NLW_X1);
   AddMSIX (Msix (msixTableSz - 1) (Z.lor 0x1000 0) (Z.lor 0x2000 0))].

(** What [pcie_system_top] passes to the controller instead: no setting at all. *)
Definition pf_cfg : config := [].

(** [pci_ids] of [custom_qemu_device_driver.c], up to the terminating entry. *)
Definition QEMU_VENDOR_ID : Z := 0x1234.
Definition EDU_DEVICE_ID : Z := 0xabcd.
Definition pci_ids : list (Z * Z) := [(QEMU_VENDOR_ID, EDU_DEVICE_ID)].

(** ** Reading a configuration *)

(** The last value set counts. *)
Definition last_setting {A} (f : setting → option A) (c : config) : option A :=
  foldl (λ r s, match f s with Some v => Some v | None => r end) None c.

Definition vendor (c : config) : option Z :=
  last_setting (λ s, match s with SetPCIVendorID v => Some v | _ => None end) c.
Definition device (c : config) : option Z :=
  last_setting (λ s, match s with SetPCIDeviceID v => Some v | _ => None end) c.
Definition bar_bytes (c : config) (n : Z) : option Z :=
  last_setting (λ s, match s with
    | SetPCIBAR k size _ => if k =? n then Some size else None | _ => None end) c.
Definition msix_of (c : config) : option msix :=
  last_setting (λ s, match s with AddMSIX x => Some x | _ => None end) c.

(** A driver is offered a device whose identifiers its table lists. *)
Definition bound_by (ids : list (Z * Z)) (c : config) : bool :=
  match vendor c, device c with
  | Some v, Some d => bool_decide ((v, d) ∈ ids)
  | _, _ => false
  end.

Definition vectors (x : msix) : Z := Z.land (message_control x) 0x7FF + 1.
Definition bir (r : Z) : Z := Z.land r 7.
Definition bar_offset (r : Z) : Z := r - bir r.
Definition table_bytes (x : msix) : Z := 16 * vectors x.
Definition pba_bytes (x : msix) : Z := 8 * ((vectors x + 63) / 64).

(** [n] bytes at [off] lie in BAR [b]. *)
Definition in_bar (c : config) (b off n : Z) : bool :=
  match bar_bytes c b with Some size => (0 <=? off) && (off + n <=? size) | None => false end.

(** The table and the pending bits lie in their BARs and do not overlap. *)
Definition msix_placed (c : config) : bool :=
  match msix_of c with
  | None => true
  | Some x =>
      let t := table_offset_bir x in
      let p := pending_bit_array x in
      in_bar c (bir t) (bar_offset t) (table_bytes x) &&
      in_bar c (bir p) (bar_offset p) (pba_bytes x) &&
      (negb (bir t =? bir p) ||
       (bar_offset t + table_bytes x <=? bar_offset p) ||
       (bar_offset p + pba_bytes x <=? bar_offset t))
  end.

(** ** The two configurations

    The layout of [PCIeCoSimTop] (table at the start of BAR 1, pending bits 2 KB into it)
    fits; in that of [create_pf_config] both structures lie past the end of the 4 KB
    BAR 0.  Neither configuration carries the identifiers the driver is registered for. *)
Lemma msix_placement (flags : Z) :
  msix_placed (cosim_config flags) = true ∧ msix_placed create_pf_config = false ∧
  bound_by pci_ids (cosim_config flags) = false ∧ bound_by pci_ids create_pf_config = false.
Proof. done. Qed.
