(* ===== verification/Topology.v ===== *)
(** * Which socket is bound to which

    The four designs the sources put together: the testbench ([sc_main] of
    [testbench.cpp]), the co-simulation server ([sc_main] of [main.cc]),
    [pcie_system_top] and the first top level [PCIeCoSimTop].  A design lists the sockets
    and ports that the modules of this repository declare, and the bindings its
    constructor makes; sockets of library modules appear in bindings only.  SystemC
    requires every declared socket and port to be bound when elaboration ends. *)

From Stdlib Require Import String.
From S2P Require Import Prelude.
From stdpp Require Import strings.
Local Open Scope string_scope.

(** An instance, and a socket or port of it. *)
Record endpoint := Ep { ep_instance : string; ep_port : string }.

#[export] Instance endpoint_eq_dec : EqDecision endpoint.
Proof. solve_decision. Defined.

(** [a.bind(b)] of two sockets; a port on a signal that it writes, or reads (or on
    another port that reads it); a library module bound to another by its own method. *)
Inductive binding :=
| Socket_bind (initiator target : endpoint)
| Port_out (port : endpoint) (signal : string)
| Port_in (port : endpoint) (signal : string)
| Component_bind (component other : string).

Record design := Design {
  declared : list endpoint;
  bindings : list binding
}.

(** The sockets and ports each module declares. *)
Definition matrix_multiplier_ports (i : string) : list endpoint :=
  Ep i <$> ["bar0_target_socket"; "dma_initiator_socket"; "interrupt"].
Definition host_memory_ports (i : string) : list endpoint := [Ep i "target_socket"].
Definition test_driver_ports (i : string) : list endpoint :=
  Ep i <$> ["bar0_socket"; "interrupt_in"].
Definition monitor_ports (i : string) : list endpoint :=
  Ep i <$> ["target_socket"; "init_socket"].
Definition dummy_ports (i : string) : list endpoint := [Ep i "socket"].
Definition qemu_bridge_ports (i : string) : list endpoint :=
  Ep i <$> ["init_socket"; "tgt_socket"; "rst"].
Definition rp_adapter_ports (i : string) : list endpoint :=
  Ep i <$> ["rp_init_socket"; "rp_tgt_socket"].
Definition matmul_ports (i : string) : list endpoint := [Ep i "bar0_tgt_socket"].

(** What the constructors of [PCIeQemuBridge] and [PCIeRPAdapter] bind inside. *)
Definition qemu_bridge_bindings (i : string) : list binding :=
  [Port_in (Ep (i ++ ".rp-pci-ep") "rst") (i ++ ".rst");
   Component_bind (i ++ ".rp-pci-ep") (i ++ ".rootport")].
Definition rp_adapter_bindings (i : string) : list binding :=
  [Port_in (Ep (i ++ ".rp_adapter") "rst") (i ++ ".rst_signal")].

Definition testbench_design : design := Design
  (matrix_multiplier_ports "device" ++ host_memory_ports "memory" ++ test_driver_ports "driver")
  [Socket_bind (Ep "driver" "bar0_socket") (Ep "device" "bar0_target_socket");
   Socket_bind (Ep "device" "dma_initiator_socket") (Ep "memory" "target_socket");
   Port_out (Ep "device" "interrupt") "irq";
   Port_in (Ep "driver" "interrupt_in") "irq"].

Definition server_design : design := Design
  (monitor_ports "monitor" ++ dummy_ports "dummy")
  [Port_in (Ep "rp_adapter" "rst") "rst";
   Socket_bind (Ep "rp_master" "sk") (Ep "monitor" "target_socket");
   Socket_bind (Ep "monitor" "init_socket") (Ep "dummy" "socket")].

Definition pcie_system_top : design := Design
  (matrix_multiplier_ports "matrix_device" ++ qemu_bridge_ports "qemu_bridge")
  (qemu_bridge_bindings "qemu_bridge" ++
  [Port_in (Ep "qemu_bridge" "rst") "rst";
   Socket_bind (Ep "qemu_bridge.rootport" "init_socket") (Ep "pcie_controller" "tgt_socket");
   Socket_bind (Ep "pcie_controller" "init_socket") (Ep "qemu_bridge.rootport" "tgt_socket");
   Socket_bind (Ep "pcie_controller" "bar0_init_socket") (Ep "matrix_device" "bar0_target_socket");
   Socket_bind (Ep "matrix_device" "dma_initiator_socket") (Ep "pcie_controller" "dma_tgt_socket");
   Port_out (Ep "matrix_device" "interrupt") "irq_signals[0]"]).

(** [PCIeCoSimTop] of [main.cc], commented out in this revision. *)
Definition cosim_top : design := Design
  (rp_adapter_ports "rp_adapter" ++ matmul_ports "matrix_mult")
  (rp_adapter_bindings "rp_adapter" ++
  [Socket_bind (Ep "rp_adapter" "rp_init_socket") (Ep "PCIe_Controller" "tgt_socket");
   Socket_bind (Ep "PCIe_Controller" "init_socket") (Ep "rp_adapter" "rp_tgt_socket");
   Socket_bind (Ep "PCIe_Controller" "bar0_init_socket") (Ep "matrix_mult" "bar0_tgt_socket")]).

(** ** Elaboration *)

Definition binds (b : binding) : list endpoint :=
  match b with
  | Socket_bind i t => [i; t]
  | Port_out p _ | Port_in p _ => [p]
  | Component_bind _ _ => []
  end.

Definition bound (d : design) : list endpoint := bindings d ≫= binds.

(** What is declared and left unbound, and what is bound twice. *)
Definition unbound (d : design) : list endpoint := filter (λ e, e ∉ bound d) (declared d).
Definition elaborates (d : design) : bool :=
  bool_decide (unbound d = []) && bool_decide (NoDup (bound d)).

(** The ports that read the signal a port writes. *)
Definition readers (d : design) (e : endpoint) : list endpoint :=
  bindings d ≫= λ b,
    match b with
    | Port_out p s =>
        if bool_decide (p = e) then
          bindings d ≫= λ b,
            match b with
            | Port_in q s' => if bool_decide (s' = s) then [q] else []
            | _ => []
            end
        else []
    | _ => []
    end.

(** The socket an initiator socket reaches. *)
Definition route (d : design) (e : endpoint) : option endpoint :=
  head (bindings d ≫= λ b,
    match b with
    | Socket_bind i t => if bool_decide (i = e) then [t] else []
    | _ => []
    end).

(** The wiring of the four designs.  The testbench, the server and the first
    top level are complete; in the testbench the driver reaches the device, the device
    the memory, and the device's interrupt the driver.  [pcie_system_top] is not: the two sockets that the bridge
    declares for itself are bound to nothing (the constructor binds those of its root
    port instead), so that it cannot elaborate, and the signal the device's interrupt
    drives is read by nobody. *)
Theorem wiring :
  elaborates testbench_design = true ∧ elaborates server_design = true ∧
  elaborates cosim_top = true ∧
  route testbench_design (Ep "driver" "bar0_socket") = Some (Ep "device" "bar0_target_socket") ∧
  route testbench_design (Ep "device" "dma_initiator_socket") = Some (Ep "memory" "target_socket") ∧
  readers testbench_design (Ep "device" "interrupt") = [Ep "driver" "interrupt_in"] ∧
  route server_design (Ep "rp_master" "sk") = Some (Ep "monitor" "target_socket") ∧
  route server_design (Ep "monitor" "init_socket") = Some (Ep "dummy" "socket") ∧
  unbound pcie_system_top =
    [Ep "qemu_bridge" "init_socket"; Ep "qemu_bridge" "tgt_socket"] ∧
  elaborates pcie_system_top = false ∧
  readers pcie_system_top (Ep "matrix_device" "interrupt") = [].
Proof. by vm_compute. Qed.
