(* ===== verification/Kernel.v ===== *)
(** * What the driver and the application rely on

    The Linux kernel, the C library and QEMU are outside the repository.  The driver
    and the application are modelled against interfaces: [Bar], 32-bit accesses to the
    mapped BAR; [UserMem], the two user-copy functions with their documented
    behaviour; [IoctlAbi], the macros that build command codes.  Each has a concrete
    instance, so that everything above can be run. *)

From S2P Require Import Prelude Tlm.
Local Open Scope Z_scope.

(** ** The mapped BAR *)

(** [ioread32] and [iowrite32] at an offset from [mmio].  The other end may be a model
    with undefined behaviour, hence the [res]. *)
Class Bar (D : Type) := {
  ioread32 : D → Z → res (D * Z);
  iowrite32 : D → Z → Z → res D
}.

(** A BAR whose accesses arrive at a TLM target as 4-byte transactions, one each. *)
#[export] Instance target_bar {S : Type} {T : Target S} : Bar S | 10 := {
  ioread32 s off :=
    '(s, p, _) ← b_transport s (request TLM_READ_COMMAND off [0; 0; 0; 0] 4) 0;
    Ok (s, le_val (data p));
  iowrite32 s off v :=
    '(s, _, _) ← b_transport s (request TLM_WRITE_COMMAND off (le_bytes 4 v) 4) 0;
    Ok s
}.

(** Several writes or reads in order. *)
Definition write_words {D} `{Bar D} (d : D) (base : Z) (ws : list Z) : res D :=
  foldM (λ d kw, iowrite32 d (base + 4 * kw.1) kw.2) d (zip (seqZ 0 (Z.of_nat (length ws))) ws).

Definition read_words {D} `{Bar D} (d : D) (base : Z) (n : nat) : res (D * list Z) :=
  foldM (λ '(d, ws) k, '(d, w) ← ioread32 d (base + 4 * k); Ok (d, ws ++ [w]))
    (d, []) (seqZ 0 (Z.of_nat n)).

(** ** User memory *)

(** Both functions return the number of bytes they could not copy; [copy_from_user]
    also the bytes it could.  [u_load] is what a successful copy reads. *)
Class UserMem (U : Type) := {
  u_mapped : U → Z → Z → Prop;
  u_load : U → Z → Z → list Z;
  u_store : U → Z → list Z → U;
  copy_from_user : U → Z → Z → list Z * Z;
  copy_to_user : U → Z → list Z → U * Z;
  u_mapped_dec u a n :: Decision (u_mapped u a n);
  u_load_length u a n : 0 ≤ n → Z.of_nat (length (u_load u a n)) = n;
  u_load_store u a bs : u_load (u_store u a bs) a (Z.of_nat (length bs)) = bs;
  u_load_store_disjoint u a bs b n :
    b + n ≤ a ∨ a + Z.of_nat (length bs) ≤ b → u_load (u_store u a bs) b n = u_load u b n;
  u_store_mapped u a bs b n : u_mapped u b n → u_mapped (u_store u a bs) b n;
  copy_from_user_ok u a n :
    0 < n → u_mapped u a n → copy_from_user u a n = (u_load u a n, 0);
  copy_from_user_fault u a n :
    0 < n → ¬ u_mapped u a n → 0 < (copy_from_user u a n).2;
  copy_to_user_ok u a bs :
    (0 < length bs)%nat → u_mapped u a (Z.of_nat (length bs)) →
    copy_to_user u a bs = (u_store u a bs, 0);
  copy_to_user_fault u a bs :
    (0 < length bs)%nat → ¬ u_mapped u a (Z.of_nat (length bs)) →
    0 < (copy_to_user u a bs).2
}.

(** A flat user address space: the mapped bytes. *)
Abbreviation flat := (gmap Z Z) (only parsing).

Definition flat_mapped (u : flat) (a n : Z) : Prop :=
  Forall (λ x, is_Some (u !! x)) (seqZ a n).
Definition flat_load (u : flat) (a n : Z) : list Z := (λ x, default 0 (u !! x)) <$> seqZ a n.
Fixpoint flat_store (u : flat) (a : Z) (bs : list Z) : flat :=
  match bs with [] => u | b :: bs => flat_store (<[a := b]> u) (a + 1) bs end.

(** The longest mapped prefix of a range: its length. *)
Fixpoint mapped_prefix (u : flat) (a : Z) (n : nat) : nat :=
  match n with
  | O => O
  | S n => match u !! a with Some _ => S (mapped_prefix u (a + 1) n) | None => O end
  end.

Definition flat_from (u : flat) (a n : Z) : list Z * Z :=
  let k := mapped_prefix u a (Z.to_nat n) in
  (flat_load u a (Z.of_nat k), n - Z.of_nat k).
Definition flat_to (u : flat) (a : Z) (bs : list Z) : flat * Z :=
  let k := mapped_prefix u a (length bs) in
  (flat_store u a (take k bs), Z.of_nat (length bs) - Z.of_nat k).

Lemma mapped_prefix_spec u n a :
  (mapped_prefix u a n ≤ n)%nat ∧
  (mapped_prefix u a n = n ↔ flat_mapped u a (Z.of_nat n)).
Proof.
  unfold flat_mapped. revert a. induction n as [|n IH]; intros a; cbn [mapped_prefix].
  - split; [lia|]. split; [constructor|done].
  - rewrite seqZ_cons by lia. replace (Z.pred (Z.of_nat (S n))) with (Z.of_nat n) by lia.
    rewrite Forall_cons. destruct (IH (a + 1)) as [H1 H2].
    replace (Z.succ a) with (a + 1) by lia. destruct (u !! a) as [b|].
    + split; [lia|]. rewrite <-H2. split; [|intros [_ ->]; done].
      intros [= ->]. by split; [eexists|].
    + split; [lia|]. split; [done|]. by intros [[? ?] _].
Qed.

Lemma flat_store_lookup u a bs x :
  flat_store u a bs !! x =
    if bool_decide (a ≤ x < a + Z.of_nat (length bs)) then bs !! Z.to_nat (x - a) else u !! x.
Proof.
  revert u a. induction bs as [|b bs IH]; intros u a; cbn [flat_store length].
  - rewrite bool_decide_eq_false_2 by lia. done.
  - rewrite IH. destruct (decide (x = a)) as [->|Hx].
    + rewrite bool_decide_eq_false_2, bool_decide_eq_true_2, lookup_insert_eq by lia.
      by replace (Z.to_nat (a - a)) with 0%nat by lia.
    + case_bool_decide.
      * rewrite bool_decide_eq_true_2 by lia.
        by replace (Z.to_nat (x - a)) with (S (Z.to_nat (x - (a + 1)))) by lia.
      * rewrite bool_decide_eq_false_2, lookup_insert_ne by lia. done.
Qed.

Lemma flat_store_mapped u a bs b n :
  flat_mapped u b n → flat_mapped (flat_store u a bs) b n.
Proof.
  unfold flat_mapped. rewrite !Forall_forall. intros H x Hx. rewrite flat_store_lookup.
  case_bool_decide; [|by apply H]. apply lookup_lt_is_Some_2. lia.
Qed.

Lemma flat_load_ext u1 u2 a n :
  (∀ x, a ≤ x < a + n → u1 !! x = u2 !! x) → flat_load u1 a n = flat_load u2 a n.
Proof.
  intros H. unfold flat_load. apply list_fmap_ext. intros i x Hx.
  apply lookup_seqZ in Hx as [-> ?]. by rewrite H by lia.
Qed.

Lemma flat_load_store u a bs : flat_load (flat_store u a bs) a (Z.of_nat (length bs)) = bs.
Proof.
  apply list_eq. intros i. unfold flat_load. rewrite list_lookup_fmap.
  destruct (decide (i < length bs)%nat) as [Hi|Hi].
  - rewrite lookup_seqZ_lt by lia. cbn. rewrite flat_store_lookup, bool_decide_eq_true_2 by lia.
    replace (Z.to_nat (a + Z.of_nat i - a)) with i by lia.
    by destruct (lookup_lt_is_Some_2 bs i Hi) as [b ->].
  - rewrite lookup_seqZ_ge by lia. by rewrite lookup_ge_None_2 by lia.
Qed.

#[export] Instance flat_mapped_dec u a n : Decision (flat_mapped u a n).
Proof. unfold flat_mapped. apply _. Defined.

#[export] Program Instance flat_user : UserMem flat := {
  u_mapped := flat_mapped;
  u_load := flat_load;
  u_store := flat_store;
  copy_from_user := flat_from;
  copy_to_user := flat_to
}.
Next Obligation. intros u a n Hn. unfold flat_load. rewrite length_fmap, length_seqZ. lia. Qed.
Next Obligation. apply flat_load_store. Qed.
Next Obligation.
  intros u a bs b n H. apply flat_load_ext. intros x Hx.
  by rewrite flat_store_lookup, bool_decide_eq_false_2 by lia.
Qed.
Next Obligation. apply flat_store_mapped. Qed.
Next Obligation.
  intros u a n Hn Hm. unfold flat_from. rewrite <-(Z2Nat.id n) in Hm by lia.
  apply mapped_prefix_spec in Hm. rewrite Hm. by rewrite Z2Nat.id, Z.sub_diag by lia.
Qed.
Next Obligation.
  intros u a n Hn Hm. unfold flat_from. cbn [snd].
  rewrite <-(Z2Nat.id n) in Hm by lia. rewrite <-(proj2 (mapped_prefix_spec u _ a)) in Hm.
  pose proof (proj1 (mapped_prefix_spec u (Z.to_nat n) a)). lia.
Qed.
Next Obligation.
  intros u a bs Hn Hm. unfold flat_to. apply mapped_prefix_spec in Hm.
  by rewrite Hm, firstn_all, Z.sub_diag.
Qed.
Next Obligation.
  intros u a bs Hn Hm. unfold flat_to. cbn [snd].
  rewrite <-(proj2 (mapped_prefix_spec u _ a)) in Hm.
  pose proof (proj1 (mapped_prefix_spec u (length bs) a)). lia.
Qed.

(** ** Command codes *)

(** [_IOW(type, nr, argtype)], [_IOR] and [_IOWR], by the size of the argument
    type.  The encoding is part of the ABI; what is relied on is that it separates
    direction, type, number and size. *)
Class IoctlAbi := {
  IOW : Z → Z → Z → Z;
  IOR : Z → Z → Z → Z;
  IOWR : Z → Z → Z → Z;
  IOW_inj t1 n1 s1 t2 n2 s2 :
    0 ≤ t1 < 2 ^ 8 → 0 ≤ n1 < 2 ^ 8 → 0 ≤ s1 < 2 ^ 14 →
    0 ≤ t2 < 2 ^ 8 → 0 ≤ n2 < 2 ^ 8 → 0 ≤ s2 < 2 ^ 14 →
    IOW t1 n1 s1 = IOW t2 n2 s2 → t1 = t2 ∧ n1 = n2 ∧ s1 = s2;
  IOR_inj t1 n1 s1 t2 n2 s2 :
    0 ≤ t1 < 2 ^ 8 → 0 ≤ n1 < 2 ^ 8 → 0 ≤ s1 < 2 ^ 14 →
    0 ≤ t2 < 2 ^ 8 → 0 ≤ n2 < 2 ^ 8 → 0 ≤ s2 < 2 ^ 14 →
    IOR t1 n1 s1 = IOR t2 n2 s2 → t1 = t2 ∧ n1 = n2 ∧ s1 = s2;
  IOW_IOR t1 n1 s1 t2 n2 s2 :
    0 ≤ t1 < 2 ^ 8 → 0 ≤ n1 < 2 ^ 8 → 0 ≤ s1 < 2 ^ 14 →
    0 ≤ t2 < 2 ^ 8 → 0 ≤ n2 < 2 ^ 8 → 0 ≤ s2 < 2 ^ 14 →
    IOW t1 n1 s1 ≠ IOR t2 n2 s2;
  IOWR_IOW t1 n1 s1 t2 n2 s2 :
    0 ≤ t1 < 2 ^ 8 → 0 ≤ n1 < 2 ^ 8 → 0 ≤ s1 < 2 ^ 14 →
    0 ≤ t2 < 2 ^ 8 → 0 ≤ n2 < 2 ^ 8 → 0 ≤ s2 < 2 ^ 14 →
    IOWR t1 n1 s1 ≠ IOW t2 n2 s2;
  IOWR_IOR t1 n1 s1 t2 n2 s2 :
    0 ≤ t1 < 2 ^ 8 → 0 ≤ n1 < 2 ^ 8 → 0 ≤ s1 < 2 ^ 14 →
    0 ≤ t2 < 2 ^ 8 → 0 ≤ n2 < 2 ^ 8 → 0 ≤ s2 < 2 ^ 14 →
    IOWR t1 n1 s1 ≠ IOR t2 n2 s2
}.

(** The encoding of most architectures, x86 among them. *)
#[export] Program Instance generic_ioctl : IoctlAbi := {
  IOW t n s := 2 ^ 30 + s * 2 ^ 16 + t * 2 ^ 8 + n;
  IOR t n s := 2 * 2 ^ 30 + s * 2 ^ 16 + t * 2 ^ 8 + n;
  IOWR t n s := 3 * 2 ^ 30 + s * 2 ^ 16 + t * 2 ^ 8 + n
}.
Next Obligation. intros t1 n1 s1 t2 n2 s2 **. cbn in *. lia. Qed.
Next Obligation. intros t1 n1 s1 t2 n2 s2 **. cbn in *. lia. Qed.
Next Obligation. intros t1 n1 s1 t2 n2 s2 ** . cbn in *. lia. Qed.
Next Obligation. intros t1 n1 s1 t2 n2 s2 ** . cbn in *. lia. Qed.
Next Obligation. intros t1 n1 s1 t2 n2 s2 ** . cbn in *. lia. Qed.
