(* ===== verification/Chardev.v ===== *)
(** * The command codes of [chardev.h]

    The header the driver includes defines commands for an earlier interface, under the
    major number 251.  The driver redefines two of the names (IOCTL_GET_RESULT and
    IOCTL_SET_OPCODE) and answers none of these codes, as [Integration.v] shows. *)

From S2P Require Import Prelude Kernel.
Local Open Scope Z_scope.

Definition MAJOR_NUM : Z := 251.

Section codes.
Context {A : IoctlAbi}.

(** An [int] has 4 bytes, a pointer 8. *)
Definition IOCTL_SET_MSG : Z := IOR MAJOR_NUM 0 8.
Definition IOCTL_GET_MSG : Z := IOR MAJOR_NUM 1 4.
Definition IOCTL_GET_NTH_BYTE : Z := IOWR MAJOR_NUM 2 4.
Definition IOCTL_GET_OP1 : Z := IOR MAJOR_NUM 4 8.
Definition IOCTL_GET_OP2 : Z := IOR MAJOR_NUM 5 8.
Definition IOCTL_GET_OPCODE : Z := IOR MAJOR_NUM 6 8.
Definition IOCTL_GET_RESULT : Z := IOR MAJOR_NUM 7 8.
Definition IOCTL_SET_OP1 : Z := IOW MAJOR_NUM 8 4.
Definition IOCTL_SET_OP2 : Z := IOW MAJOR_NUM 9 4.
Definition IOCTL_SET_OPCODE : Z := IOW MAJOR_NUM 10 4.

Definition chardev_commands : list Z :=
  [IOCTL_SET_MSG; IOCTL_GET_MSG; IOCTL_GET_NTH_BYTE;
   IOCTL_GET_OP1; IOCTL_GET_OP2; IOCTL_GET_OPCODE; IOCTL_GET_RESULT;
   IOCTL_SET_OP1; IOCTL_SET_OP2; IOCTL_SET_OPCODE].
End codes.
