(* ===== verification/Driver.v ===== *)
(** * The file operations and the interrupt handler of the driver

    [dev_ioctl], [read], [write], [llseek] and [irq_handler] of
    [custom_qemu_device_driver.c], over any BAR and any user memory.  A [uint32_t[4][4]]
    is its 16 words in row-major order. *)

From S2P Require Import Prelude Tlm Kernel MatMul.
Local Open Scope Z_scope.

Definition IO_IRQ_ACK : Z := 0x64.
Definition IO_IRQ_STATUS : Z := 0x24.

Section codes.
Context {A : IoctlAbi}.

(** The character 'c'. *)
Definition CPCIDEV_MAGIC : Z := 0x63.
Definition IOCTL_SET_OP1_MATRIX : Z := IOW CPCIDEV_MAGIC 1 64.
Definition IOCTL_SET_OP2_MATRIX : Z := IOW CPCIDEV_MAGIC 2 64.
Definition IOCTL_GET_RESULT : Z := IOR CPCIDEV_MAGIC 3 64.
Definition IOCTL_SET_OPCODE : Z := IOW CPCIDEV_MAGIC 4 4.
End codes.

(** What the system call returns: 0, or a negative error number. *)
Inductive errno := EFAULT | EINVAL.
Inductive ioctl_ret := Ret0 | Err (e : errno).

#[export] Instance errno_eq_dec : EqDecision errno.
Proof. solve_decision. Defined.
#[export] Instance ioctl_ret_eq_dec : EqDecision ioctl_ret.
Proof. solve_decision. Defined.

Section driver.
Context {A : IoctlAbi} {U : Type} {UM : UserMem U} {D : Type} {B : Bar D}.

(** [for (i...) for (j...) iowrite32(kbuf[i][j], mmio + base + (i * 4 + j) * 4);] *)
Definition write_matrix (d : D) (base : Z) (kbuf : list Z) : res D :=
  for_range 4 (λ i d, for_range 4 (λ j d,
    v ← vget kbuf (i * 4 + j);
    iowrite32 d (base + (i * 4 + j) * 4) v) d) d.

(** [for (i...) for (j...) kbuf[i][j] = ioread32(mmio + 0xA0 + (i * 4 + j) * 4);] *)
Definition read_matrix (d : D) (base : Z) (kbuf : list Z) : res (D * list Z) :=
  for_range 4 (λ i dk, for_range 4 (λ j dk,
    '(d, v) ← ioread32 dk.1 (base + (i * 4 + j) * 4);
    kbuf ← vset dk.2 (i * 4 + j) v;
    Ok (d, kbuf)) dk) (d, kbuf).

(** [kbuf] is the contents of the uninitialised local. *)
Definition dev_ioctl (kbuf : list Z) (u : U) (d : D) (cmd arg : Z) : res (U * D * ioctl_ret) :=
  if cmd =? IOCTL_SET_OP1_MATRIX then
    let '(bs, rest) := copy_from_user u arg 64 in
    if negb (rest =? 0) then Ok (u, d, Err EFAULT)
    else d ← write_matrix d 0x10 (bytes_words bs); Ok (u, d, Ret0)
  else if cmd =? IOCTL_SET_OP2_MATRIX then
    let '(bs, rest) := copy_from_user u arg 64 in
    if negb (rest =? 0) then Ok (u, d, Err EFAULT)
    else d ← write_matrix d 0x50 (bytes_words bs); Ok (u, d, Ret0)
  else if cmd =? IOCTL_SET_OPCODE then
    let '(bs, rest) := copy_from_user u arg 4 in
    if negb (rest =? 0) then Ok (u, d, Err EFAULT)
    else d ← iowrite32 d 0x90 (le_val bs); Ok (u, d, Ret0)
  else if cmd =? IOCTL_GET_RESULT then
    '(d, kbuf) ← read_matrix d 0xA0 kbuf;
    let '(u, rest) := copy_to_user u arg (words_bytes kbuf) in
    if negb (rest =? 0) then Ok (u, d, Err EFAULT) else Ok (u, d, Ret0)
  else Ok (u, d, Err EINVAL).

(** [read], [write]: unused; [llseek]: the new [f_pos] and the result. *)
Definition fops_read (buf len : Z) : Z := 0.
Definition fops_write (buf len : Z) : Z := 0.
Definition llseek (f_pos off whence : Z) : Z * Z := (off, off).

(** The table of operations given to [cdev_init]. *)
Record file_operations := FileOperations {
  fop_llseek : Z → Z → Z → Z * Z;
  fop_read : Z → Z → Z;
  fop_unlocked_ioctl : list Z → U → D → Z → Z → res (U * D * ioctl_ret);
  fop_write : Z → Z → Z
}.
Definition fops : file_operations := {|
  fop_llseek := llseek;
  fop_read := fops_read;
  fop_unlocked_ioctl := dev_ioctl;
  fop_write := fops_write
|}.

Inductive irqreturn := IRQ_HANDLED | IRQ_NONE.

(** [dev] points to an [int] that holds [devi]. *)
Definition irq_handler (d : D) (major devi : Z) : res (D * irqreturn) :=
  if devi =? major then
    '(d, irq_status) ← ioread32 d IO_IRQ_STATUS;
    d ← iowrite32 d IO_IRQ_ACK irq_status;
    Ok (d, IRQ_HANDLED)
  else Ok (d, IRQ_NONE).

(** ** The loops are sequences of accesses *)

Lemma foldM_vget {X} (f : X → Z → Z → res X) pre ws x :
  foldM (λ x k, v ← vget (pre ++ ws) k; f x k v) x (seqZ (Z.of_nat (length pre)) (Z.of_nat (length ws))) =
  foldM (λ x kv, f x kv.1 kv.2) x (zip (seqZ (Z.of_nat (length pre)) (Z.of_nat (length ws))) ws).
Proof.
  revert pre x. induction ws as [|w ws IH]; intros pre x; [done|].
  cbn [length]. rewrite seqZ_cons by lia. cbn [foldM zip_with fst snd].
  assert (vget (pre ++ w :: ws) (Z.of_nat (length pre)) = Ok w) as ->
    by (unfold vget; by rewrite Nat2Z.id, list_lookup_middle).
  rewrite bind_ok.
  destruct (f x _ w) as [x'|u]; [|done]. rewrite !bind_ok.
  replace (Z.pred (Z.of_nat (S (length ws)))) with (Z.of_nat (length ws)) by lia.
  specialize (IH (pre ++ [w]) x'). rewrite length_app in IH. cbn [length] in IH.
  replace (Z.of_nat (length pre + 1)) with (Z.succ (Z.of_nat (length pre))) in IH by lia.
  rewrite <-IH. by rewrite <-app_assoc.
Qed.

Lemma write_matrix_words d base ws : length ws = 16%nat →
  write_matrix d base ws = write_words d base ws.
Proof.
  intros Hl. unfold write_matrix.
  rewrite (for_range_4x4 (λ k d, v ← vget ws k; iowrite32 d (base + k * 4) v)).
  pose proof (foldM_vget (λ d k v, iowrite32 d (base + 4 * k) v) [] ws d) as H.
  cbn [length app] in H. change (Z.of_nat 0) with 0 in H. unfold for_range, write_words. rewrite <-H, Hl.
  apply foldM_ext. intros d' k _. by rewrite Z.mul_comm.
Qed.

Lemma foldM_vset {X} (f : X → Z → res (X * Z)) ws kbuf x :
  foldM (λ xk k, '(x, v) ← f xk.1 k; kbuf ← vset xk.2 k v; Ok (x, kbuf))
    (x, ws ++ kbuf) (seqZ (Z.of_nat (length ws)) (Z.of_nat (length kbuf))) =
  foldM (λ '(x, ws) k, '(x, v) ← f x k; Ok (x, ws ++ [v]))
    (x, ws) (seqZ (Z.of_nat (length ws)) (Z.of_nat (length kbuf))).
Proof.
  revert ws x. induction kbuf as [|b kbuf IH]; intros ws x; [by rewrite app_nil_r|].
  cbn [length]. rewrite seqZ_cons by lia. cbn [foldM fst snd].
  destruct (f x _) as [[x' v]|u]; [|done]. rewrite !bind_ok.
  unfold vset. rewrite Nat2Z.id, decide_True by (rewrite length_app; cbn; lia).
  rewrite !bind_ok. rewrite insert_app_r_alt by lia. rewrite Nat.sub_diag. cbn [list_insert].
  replace (Z.pred (Z.of_nat (S (length kbuf)))) with (Z.of_nat (length kbuf)) by lia.
  specialize (IH (ws ++ [v]) x'). rewrite length_app in IH. cbn [length] in IH.
  replace (Z.of_nat (length ws + 1)) with (Z.succ (Z.of_nat (length ws))) in IH by lia.
  rewrite <-IH. by rewrite <-app_assoc.
Qed.

Lemma read_matrix_words d base kbuf : length kbuf = 16%nat →
  read_matrix d base kbuf = read_words d base 16.
Proof.
  intros Hl. unfold read_matrix.
  rewrite (for_range_4x4 (λ k dk, '(d, v) ← ioread32 dk.1 (base + k * 4);
    kbuf ← vset dk.2 k v; Ok (d, kbuf))).
  pose proof (foldM_vset (λ d k, ioread32 d (base + k * 4)) [] kbuf d) as H.
  cbn [length app] in H. change (Z.of_nat 0) with 0 in H. unfold for_range. rewrite Hl in H.
  change (Z.of_nat 16) with 16 in H. rewrite H. unfold read_words.
  apply foldM_ext. intros [d' ws] k _. by rewrite Z.mul_comm.
Qed.

(** The command codes are four different values. *)
Lemma command_codes :
  IOCTL_SET_OP2_MATRIX ≠ IOCTL_SET_OP1_MATRIX ∧
  IOCTL_SET_OPCODE ≠ IOCTL_SET_OP1_MATRIX ∧ IOCTL_SET_OPCODE ≠ IOCTL_SET_OP2_MATRIX ∧
  IOCTL_GET_RESULT ≠ IOCTL_SET_OP1_MATRIX ∧ IOCTL_GET_RESULT ≠ IOCTL_SET_OP2_MATRIX ∧
  IOCTL_GET_RESULT ≠ IOCTL_SET_OPCODE.
Proof.
  unfold IOCTL_SET_OP1_MATRIX, IOCTL_SET_OP2_MATRIX, IOCTL_GET_RESULT, IOCTL_SET_OPCODE,
    CPCIDEV_MAGIC.
  split_and!; intros H;
    first [ apply IOW_inj in H; lia | symmetry in H; apply IOW_IOR in H; [done|lia..] ].
Qed.

Lemma copy_from_user_cases u a n : 0 < n →
  copy_from_user u a n = (u_load u a n, 0) ∧ u_mapped u a n ∨
  (copy_from_user u a n).2 ≠ 0 ∧ ¬ u_mapped u a n.
Proof.
  intros Hn. destruct (decide (u_mapped u a n)) as [H|H].
  - left. by rewrite copy_from_user_ok.
  - right. pose proof (copy_from_user_fault u a n Hn H). split; [lia|done].
Qed.

(** What a command does, as accesses to the BAR and to user memory. *)
Definition ioctl_spec (u : U) (d : D) (cmd arg : Z) : res (U * D * ioctl_ret) :=
  let set_op base n :=
    if decide (u_mapped u arg n) then
      d ← write_words d base (bytes_words (u_load u arg n)); Ok (u, d, Ret0)
    else Ok (u, d, Err EFAULT) in
  if cmd =? IOCTL_SET_OP1_MATRIX then set_op 0x10 64
  else if cmd =? IOCTL_SET_OP2_MATRIX then set_op 0x50 64
  else if cmd =? IOCTL_SET_OPCODE then set_op 0x90 4
  else if cmd =? IOCTL_GET_RESULT then
    '(d, ws) ← read_words d 0xA0 16;
    if decide (u_mapped u arg 64) then Ok (u_store u arg (words_bytes ws), d, Ret0)
    else Ok ((copy_to_user u arg (words_bytes ws)).1, d, Err EFAULT)
  else Ok (u, d, Err EINVAL).

Lemma read_words_length d base n d' ws :
  read_words d base n = Ok (d', ws) → length ws = n.
Proof.
  unfold read_words.
  assert (∀ k m d ws0, foldM (λ '(d, ws) k, '(d, w) ← ioread32 d (base + 4 * k); Ok (d, ws ++ [w]))
    (d, ws0) (seqZ k (Z.of_nat m)) = Ok (d', ws) → length ws = (length ws0 + m)%nat) as H.
  2:{ intros Hr. by apply H in Hr. }
  intros k m. revert k. induction m as [|m IH]; intros k d0 ws0 Hr.
  - rewrite seqZ_nil in Hr by lia. cbn in Hr. injection Hr as -> ->. lia.
  - rewrite seqZ_cons in Hr by lia. cbn [foldM] in Hr.
    destruct (ioread32 d0 _) as [[d1 w]|]; [|done]. rewrite !bind_ok in Hr.
    replace (Z.pred (Z.of_nat (S m))) with (Z.of_nat m) in Hr by lia.
    rewrite (IH _ _ _ Hr), length_app. cbn. lia.
Qed.

Lemma dev_ioctl_is_spec kbuf u d cmd arg : length kbuf = 16%nat →
  dev_ioctl kbuf u d cmd arg = ioctl_spec u d cmd arg.
Proof.
  intros Hk. unfold dev_ioctl, ioctl_spec.
  assert (∀ base, (let '(bs, rest) := copy_from_user u arg 64 in
    if negb (rest =? 0) then Ok (u, d, Err EFAULT)
    else d ← write_matrix d base (bytes_words bs); Ok (u, d, Ret0)) =
    if decide (u_mapped u arg 64) then
      d ← write_words d base (bytes_words (u_load u arg 64)); Ok (u, d, Ret0)
    else Ok (u, d, Err EFAULT)) as Hset.
  { intros base. destruct (copy_from_user_cases u arg 64) as [[-> H]|[H1 H]]; [done| |].
    - rewrite decide_True by done. cbn [Z.eqb negb].
      rewrite write_matrix_words; [done|]. apply length_bytes_words.
      pose proof (u_load_length u arg 64 ltac:(lia)). lia.
    - rewrite decide_False by done. destruct (copy_from_user u arg 64) as [bs r].
      by rewrite (proj2 (Z.eqb_neq r 0)). }
  rewrite !Hset, read_matrix_words by done.
  destruct (cmd =? IOCTL_SET_OP1_MATRIX); [done|].
  destruct (cmd =? IOCTL_SET_OP2_MATRIX); [done|].
  destruct (cmd =? IOCTL_SET_OPCODE).
  - destruct (copy_from_user_cases u arg 4) as [[-> H]|[H1 H]]; [done| |].
    + rewrite decide_True by done. pose proof (u_load_length u arg 4 ltac:(lia)) as Hl.
      destruct (u_load u arg 4) as [|b0 [|b1 [|b2 [|b3 [|]]]]]; try (cbn in Hl; lia).
      unfold write_words. cbn -[iowrite32 le_val Z.add Z.mul].
      change (seqZ 0 (Z.of_nat 1)) with [0]. cbn -[iowrite32 le_val Z.add Z.mul].
      change (0x90 + 4 * 0) with 0x90. by destruct (iowrite32 _ _ _).
    + rewrite decide_False by done. destruct (copy_from_user u arg 4) as [bs r].
      by rewrite (proj2 (Z.eqb_neq r 0)).
  - destruct (cmd =? IOCTL_GET_RESULT); [|done].
    destruct (read_words d 0xA0 16) as [[d' ws]|] eqn:E; [|done]. rewrite !bind_ok.
    apply read_words_length in E. pose proof (length_words_bytes ws) as Hl.
    replace 64 with (Z.of_nat (length (words_bytes ws))) by lia.
    destruct (decide (u_mapped u arg (Z.of_nat (length (words_bytes ws))))) as [H|H].
    + by rewrite copy_to_user_ok by (done || lia).
    + pose proof (copy_to_user_fault u arg (words_bytes ws) ltac:(lia) H) as Hr.
      destruct (copy_to_user u arg (words_bytes ws)) as [u' r] eqn:Ec.
      cbn [snd] in Hr. by rewrite (proj2 (Z.eqb_neq r 0)) by lia.
Qed.

(** [pci_probe] registers the handler with [&major]: it finds its own major number there
    whatever device raised the line, and never answers [IRQ_NONE]. *)
Lemma irq_handler_always_claims d major d' r :
  irq_handler d major major = Ok (d', r) → r = IRQ_HANDLED.
Proof.
  unfold irq_handler. rewrite Z.eqb_refl. intros H.
  apply bind_inv in H as ([d1 v] & _ & H). apply bind_inv in H as (d2 & _ & H). by simplify_eq.
Qed.
End driver.

(** A BAR of plain registers, to run the driver on. *)
#[export] Instance regs_bar : Bar (gmap Z Z) := {
  ioread32 d off := Ok (d, default 0 (d !! off));
  iowrite32 d off v := Ok (<[off := v]> d)
}.

(** C14: every command of [dev_ioctl], on every branch.  SET_OP1, SET_OP2 and SET_OPCODE
    read the argument from user memory and write its words to consecutive registers
    from 0x10, 0x50 and 0x90 on, in row-major order, and return 0; if any byte of it is
    unmapped they return -EFAULT and leave the BAR untouched.  GET_RESULT reads the 16
    registers from 0xA0 on in order and stores them in user memory; unmapped memory
    gives -EFAULT after the reads.  Any other command returns -EINVAL and touches
    nothing. *)
Theorem dev_ioctl_refines_spec {A : IoctlAbi} {U : Type} {UM : UserMem U} {D : Type} {B : Bar D}
    (kbuf : list Z) (u : U) (d : D) (cmd arg : Z) :
  length kbuf = 16%nat → dev_ioctl kbuf u d cmd arg = ioctl_spec u d cmd arg.
Proof. apply dev_ioctl_is_spec. Qed.

(** An opcode at user address 8; a matrix of which one byte is unmapped. *)
Lemma dev_ioctl_refines_spec_witness :
  let u : flat := flat_store ∅ 8 (le_bytes 4 1 ++ replicate 59 0) in
  dev_ioctl (replicate 16 0) u (∅ : gmap Z Z) IOCTL_SET_OPCODE 8 =
    Ok (u, {[0x90 := 1]}, Ret0) ∧
  dev_ioctl (replicate 16 0) u (∅ : gmap Z Z) IOCTL_SET_OP1_MATRIX 8 = Ok (u, ∅, Err EFAULT).
Proof.
  split; rewrite dev_ioctl_refines_spec by reflexivity; vm_compute; reflexivity.
Defined.
