(* ===== verification/Probe.v ===== *)
(** * Probe and removal

    [pci_probe], [pci_remove], [myinit] and [myexit] of [custom_qemu_device_driver.c]:
    which kernel resources each path acquires and releases, in order.  The kernel
    functions are outside the repository: their results are the fields of [outcomes],
    and a resource is held from a successful call on until it is released. *)

From S2P Require Import Prelude.
Local Open Scope Z_scope.

Inductive resource :=
| Chrdev   (* alloc_chrdev_region, unregister_chrdev_region *)
| Cdev     (* cdev_add, cdev_del *)
| Cls      (* class_create, class_destroy *)
| Dev      (* device_create, device_destroy *)
| Enabled  (* pci_enable_device, pci_disable_device *)
| Region   (* pci_request_region, pci_release_region *)
| Iomap    (* pci_iomap, pci_iounmap *)
| Irq.     (* request_irq, free_irq *)

#[export] Instance resource_eq_dec : EqDecision resource.
Proof. solve_decision. Defined.

(** What the kernel functions return: an [int] (0, or a negative error number), or a
    pointer ([None] for an [ERR_PTR] or [NULL]). *)
Record outcomes := Outcomes {
  o_alloc_chrdev_region : Z;
  o_cdev_add : Z;
  o_class_create : option unit;
  o_device_create : option unit;
  o_pci_enable_device : Z;
  o_pci_request_region : Z;
  o_pci_iomap : option unit;
  o_request_irq : Z;
  o_resource_mem : bool   (* the BAR has IORESOURCE_MEM *)
}.

Inductive event :=
| Acquire (r : resource)
| Release (r : resource)
| Config_read (i : Z)
| Mmio_write (off v : Z).

#[export] Instance event_eq_dec : EqDecision event.
Proof. solve_decision. Defined.

(** ** The code *)

(** The error labels, from the last one up: each releases and falls through. *)
Definition error (l : list event) : Z * list event := (1, l).
Definition error_cdev_add (l : list event) := error (l ++ [Release Chrdev]).
Definition error_class (l : list event) := error_cdev_add (l ++ [Release Cdev]).
Definition error_device (l : list event) := error_class (l ++ [Release Cls]).
Definition error_pci (l : list event) := error_device (l ++ [Release Dev]).

(** What a successful call adds to the log, by its result. *)
Definition acquired (r : resource) (ret : Z) : list event := if ret =? 0 then [Acquire r] else [].

(** The sanity checks at the end of [pci_probe].  [iowrite32] through a null [mmio] is
    an access outside any object. *)
Definition probe_checks (o : outcomes) (l : list event) : res (Z * list event) :=
  if negb (o_resource_mem o) then Ok (error_pci l)
  else
    let l := l ++ (Config_read <$> seqZ 0 64) in
    match o_pci_iomap o with
    | None => UB OutOfBoundsWrite
    | Some _ => Ok (0, l ++ [Mmio_write 0 0xAB])
    end.

(** From [pci_enable_device] on. *)
Definition probe_pci (o : outcomes) (l : list event) : res (Z * list event) :=
  if o_pci_enable_device o <? 0 then Ok (error_pci l)
  else
    let l := l ++ acquired Enabled (o_pci_enable_device o) in
    if negb (o_pci_request_region o =? 0) then Ok (error_pci l)
    else
      let l := l ++ acquired Region (o_pci_request_region o) in
      let l := l ++ match o_pci_iomap o with Some _ => [Acquire Iomap] | None => [] end in
      let l := l ++ [Config_read 0x3C] in
      if o_request_irq o <? 0 then Ok (error_pci l)
      else probe_checks o (l ++ acquired Irq (o_request_irq o)).

Definition pci_probe (o : outcomes) : res (Z * list event) :=
  if o_alloc_chrdev_region o <? 0 then Ok (error [])
  else
    let l := acquired Chrdev (o_alloc_chrdev_region o) in
    if o_cdev_add o <? 0 then Ok (error_cdev_add l)
    else
      let l := l ++ acquired Cdev (o_cdev_add o) in
      match o_class_create o with
      | None => Ok (error_class l)
      | Some _ =>
          let l := l ++ [Acquire Cls] in
          match o_device_create o with
          | None => Ok (error_device l)
          | Some _ => probe_pci o (l ++ [Acquire Dev])
          end
      end.

Definition pci_remove : list event :=
  [Release Irq; Release Iomap; Release Region; Release Dev; Release Cls; Release Cdev;
   Release Chrdev].

(** [myinit], by the result of [pci_register_driver]. *)
Definition myinit (registered : Z) : Z := if registered <? 0 then 1 else 0.

(** [myexit]: whether the PCI driver is registered afterwards. *)
Definition myexit (registered : bool) : bool := false.

(** ** Held resources *)

(** What goes through a resource while it is held: a device number serves the character
    device and the node, the node is in the class, the mapping is of the region, and the
    interrupt handler reads and writes through the mapping.  (The operations of the
    character device go through the mapping as well; that the driver does not respect
    this is [live_without_mapping].) *)
Definition users (r : resource) : list resource :=
  match r with
  | Chrdev => [Cdev; Dev]
  | Cls => [Dev]
  | Region => [Iomap]
  | Iomap => [Irq]
  | Cdev | Dev | Enabled | Irq => []
  end.

(** The resources held after a log, latest first, or [None] if one is released that is
    not held, or that another one still uses. *)
Fixpoint held_from (h : list resource) (l : list event) : option (list resource) :=
  match l with
  | [] => Some h
  | Acquire r :: l => held_from (r :: h) l
  | Release r :: l =>
      if decide (r ∈ h ∧ Forall (λ x, x ∉ h) (users r))
      then held_from (filter (λ x, x ≠ r) h) l else None
  | _ :: l => held_from h l
  end.
Definition held (l : list event) : option (list resource) := held_from [] l.

(** The results the kernel documents: no positive numbers. *)
Definition documented (o : outcomes) : Prop :=
  o_alloc_chrdev_region o ≤ 0 ∧ o_cdev_add o ≤ 0 ∧ o_pci_enable_device o ≤ 0 ∧
  o_pci_request_region o ≤ 0 ∧ o_request_irq o ≤ 0.

(** The same as booleans, in the order of the calls. *)
Definition ok_calls (o : outcomes) : list bool :=
  [o_alloc_chrdev_region o =? 0; o_cdev_add o =? 0;
   bool_decide (is_Some (o_class_create o)); bool_decide (is_Some (o_device_create o));
   o_pci_enable_device o =? 0; o_pci_request_region o =? 0;
   o_request_irq o =? 0; o_resource_mem o].

(** How many of them succeed before the first that fails. *)
Fixpoint first_failure (l : list bool) : nat :=
  match l with true :: l => S (first_failure l) | _ => 0 end.

(** What a failed probe leaves behind, by the call that failed. *)
Definition leaked (o : outcomes) : list resource :=
  let iomap := match o_pci_iomap o with Some _ => [Iomap] | None => [] end in
  match first_failure (ok_calls o) with
  | 5 => [Enabled]
  | 6 => iomap ++ [Region; Enabled]
  | 7 => [Irq] ++ iomap ++ [Region; Enabled]
  | _ => []
  end%nat.

Lemma held_config h ks l : held_from h ((Config_read <$> ks) ++ l) = held_from h l.
Proof. by induction ks. Qed.

Lemma nonneg_zero (z : Z) : z ≤ 0 → (z <? 0) = negb (z =? 0).
Proof. intros Hz. destruct (Z.ltb_spec z 0), (Z.eqb_spec z 0); cbn; lia || done. Qed.

Lemma probe_outcome o : documented o →
  if forallb id (ok_calls o) && bool_decide (is_Some (o_pci_iomap o)) then
    ∃ l, pci_probe o = Ok (0, l) ∧
      held l = Some [Irq; Iomap; Region; Enabled; Dev; Cls; Cdev; Chrdev]
  else if forallb id (ok_calls o) then pci_probe o = UB OutOfBoundsWrite
  else ∃ l, pci_probe o = Ok (1, l) ∧ held l = Some (leaked o).
Proof.
  intros (H1 & H2 & H3 & H4 & H5). unfold pci_probe, probe_pci, probe_checks, leaked, ok_calls,
    acquired.
  rewrite !nonneg_zero by done.
  destruct (o_alloc_chrdev_region o =? 0); cbn; [|by eexists].
  destruct (o_cdev_add o =? 0); cbn; [|by eexists].
  destruct (o_class_create o) as [[]|]; cbn; [|by eexists].
  destruct (o_device_create o) as [[]|]; cbn; [|by eexists].
  destruct (o_pci_enable_device o =? 0); cbn; [|by eexists].
  destruct (o_pci_request_region o =? 0); cbn; [|by eexists].
  destruct (o_request_irq o =? 0), (o_pci_iomap o) as [[]|]; cbn; try by eexists.
  - destruct (o_resource_mem o); cbn; by eexists.
  - destruct (o_resource_mem o); cbn; [done|by eexists].
Qed.

(** ** Properties *)

(** C32: the outcome of [pci_probe], for all results of the kernel functions.  If every
    call succeeds and the BAR can be mapped, it returns 0 and holds all eight resources;
    if any call reports an error it returns 1 and never releases a resource it does not
    hold, but from [pci_request_region] on it leaks: the error path releases neither the
    enabled device nor the region, the mapping and the interrupt.  A BAR that cannot be
    mapped is not noticed, and the probe writes through the null pointer. *)
Theorem probe_cases (o : outcomes) : documented o →
  let failed := first_failure (ok_calls o) in
  let iomap := match o_pci_iomap o with Some _ => [Iomap] | None => [] end in
  if (failed =? 8)%nat then
    if o_pci_iomap o is Some _ then
      ∃ l, pci_probe o = Ok (0, l) ∧
        held l = Some [Irq; Iomap; Region; Enabled; Dev; Cls; Cdev; Chrdev]
    else pci_probe o = UB OutOfBoundsWrite
  else
    ∃ l, pci_probe o = Ok (1, l) ∧
      held l = Some (if (failed <=? 4)%nat then []
                     else if (failed =? 5)%nat then [Enabled]
                     else if (failed =? 6)%nat then iomap ++ [Region; Enabled]
                     else [Irq] ++ iomap ++ [Region; Enabled]).
Proof.
  intros Hd failed iomap. subst failed iomap. pose proof (probe_outcome o Hd) as H. revert H.
  unfold leaked, ok_calls.
  destruct (o_alloc_chrdev_region o =? 0); cbn; [|done].
  destruct (o_cdev_add o =? 0); cbn; [|done].
  destruct (o_class_create o); cbn; [|done].
  destruct (o_device_create o); cbn; [|done].
  destruct (o_pci_enable_device o =? 0); cbn; [|done].
  destruct (o_pci_request_region o =? 0); cbn; [|done].
  destruct (o_request_irq o =? 0); cbn; [|done].
  destruct (o_resource_mem o); cbn; [|done].
  by destruct (o_pci_iomap o).
Qed.

(** Everything succeeds; the interrupt line is taken. *)
Definition all_ok : outcomes := Outcomes 0 0 (Some tt) (Some tt) 0 0 (Some tt) 0 true.
Definition irq_busy : outcomes := Outcomes 0 0 (Some tt) (Some tt) 0 0 (Some tt) (-16) true.

Lemma probe_cases_witness :
  (∃ l, pci_probe all_ok = Ok (0, l) ∧
    held l = Some [Irq; Iomap; Region; Enabled; Dev; Cls; Cdev; Chrdev]) ∧
  (∃ l, pci_probe irq_busy = Ok (1, l) ∧ held l = Some [Iomap; Region; Enabled]).
Proof.
  split.
  - apply (probe_cases all_ok). by vm_compute.
  - apply (probe_cases irq_busy). by vm_compute.
Defined.

Lemma held_from_app h l1 l2 :
  held_from h (l1 ++ l2) = match held_from h l1 with Some h => held_from h l2 | None => None end.
Proof.
  revert h. induction l1 as [|[r|r|i|off v] l1 IH]; intros h; cbn; auto.
  by case_decide.
Qed.

(** C33: removal.  After a successful probe [pci_remove] releases everything but the
    enabled device, once each and each before what it uses: the interrupt handler before
    the mapping it goes through, the mapping before the region, the node before its class
    and its number, the character device before its number; and the error path of a failed
    probe keeps the same order.  After a failed probe [pci_remove] would release resources
    that are not held: the probe's return value 1 is not an error number, so the caller
    must not take it for success. *)
Theorem remove_after_probe (o : outcomes) (ret : Z) (l : list event) :
  documented o → pci_probe o = Ok (ret, l) →
  (ret = 0 → held (l ++ pci_remove) = Some [Enabled]) ∧
  (ret ≠ 0 → ret = 1 ∧ is_Some (held l) ∧ held (l ++ pci_remove) = None).
Proof.
  intros Hd Hp. unfold held. rewrite held_from_app.
  pose proof (probe_outcome o Hd) as H. rewrite Hp in H.
  destruct (forallb id (ok_calls o)) eqn:Hok; cbn [andb] in H.
  - destruct (bool_decide _); [|done]. destruct H as (l' & [= -> ->] & Hh).
    unfold held in Hh. rewrite Hh. by split.
  - destruct H as (l' & [= -> ->] & Hh). unfold held in Hh. rewrite Hh.
    split; [done|]. intros _. split; [done|]. split; [done|]. unfold leaked.
    destruct (first_failure (ok_calls o)) as [|[|[|[|[|[|[|[|]]]]]]]]; try done;
      by destruct (o_pci_iomap o).
Qed.

Lemma remove_after_probe_witness :
  (∃ l, pci_probe all_ok = Ok (0, l) ∧ held (l ++ pci_remove) = Some [Enabled]) ∧
  (∃ l, pci_probe irq_busy = Ok (1, l) ∧ held (l ++ pci_remove) = None).
Proof.
  split; eexists; (split; [vm_compute; reflexivity|]).
  - refine (proj1 (remove_after_probe all_ok 0 _ _ _) eq_refl); by vm_compute.
  - refine (proj2 (proj2 (proj2 (remove_after_probe irq_busy 1 _ _ _) _))); by vm_compute.
Defined.

(** The device file exists, but its operations would go through an unmapped BAR. *)
Definition unmapped_but_live (h : list resource) : bool :=
  bool_decide (Cdev ∈ h) && negb (bool_decide (Iomap ∈ h)).

(** The character device is live while the BAR is not mapped, on both ends of its
    life: during every successful probe there is a moment after [cdev_add] and before
    [pci_iomap], and during the removal one after [pci_iounmap] and before [cdev_del].
    An [ioctl] at such a moment goes through an invalid [mmio]. *)
Theorem live_without_mapping (o : outcomes) (l : list event) :
  documented o → pci_probe o = Ok (0, l) →
  (∃ l1 l2 h, l = l1 ++ l2 ∧ held l1 = Some h ∧ unmapped_but_live h = true) ∧
  (∃ r1 r2 h, pci_remove = r1 ++ r2 ∧ held (l ++ r1) = Some h ∧ unmapped_but_live h = true).
Proof.
  intros Hd Hp. pose proof (probe_outcome o Hd) as H. rewrite Hp in H. split.
  - unfold pci_probe in Hp. destruct Hd as (H1 & H2 & _).
    rewrite !nonneg_zero in Hp by done. unfold acquired in Hp.
    destruct (o_alloc_chrdev_region o =? 0); cbn in Hp; [|done].
    destruct (o_cdev_add o =? 0); cbn in Hp; [|done].
    destruct (o_class_create o); [|done]. destruct (o_device_create o); [|done].
    exists [Acquire Chrdev; Acquire Cdev], (drop 2 l), [Cdev; Chrdev].
    split; [|done]. assert (take 2 l = [Acquire Chrdev; Acquire Cdev]) as <-;
      [|by rewrite take_drop].
    unfold probe_pci, probe_checks, acquired in Hp.
    repeat case_match; simplify_eq; done.
  - exists [Release Irq; Release Iomap], (drop 2 pci_remove).
    exists [Region; Enabled; Dev; Cls; Cdev; Chrdev]. split; [done|].
    destruct (forallb id (ok_calls o)); cbn [andb] in H.
    + destruct (bool_decide _); [|done]. destruct H as (l' & [= <-] & Hh).
      unfold held in *. rewrite held_from_app, Hh. done.
    + by destruct H as (l' & ? & _).
Qed.

Lemma live_without_mapping_witness :
  ∃ l l1 l2 h, pci_probe all_ok = Ok (0, l) ∧ l = l1 ++ l2 ∧ held l1 = Some h ∧
    unmapped_but_live h = true.
Proof.
  eexists. lazymatch goal with |- ∃ l1 l2 h, pci_probe all_ok = Ok (0, ?l) ∧ _ =>
    assert (pci_probe all_ok = Ok (0, l)) as Hp by (vm_compute; reflexivity) end.
  destruct (live_without_mapping all_ok _ ltac:(by vm_compute) Hp) as [(l1 & l2 & h & H) _].
  exists l1, l2, h. split; [exact Hp|exact H].
Defined.
