(* ===== verification/Lifecycle.v ===== *)
(** * The globals of the driver over its life

    [custom_qemu_device_driver.c] keeps everything it knows about its device in static
    variables.  Here [pci_probe] and [pci_remove] are modelled with the values they
    store and the handles they pass to the kernel; [Probe.v] is the same code with the
    values forgotten ([probe_erases]).  The life of the driver is a step relation: probes
    and removals, one kernel call at a time, with the interrupt handler free to run
    between any two of them. *)

From S2P Require Import Prelude Probe.
Local Open Scope Z_scope.

(** The static variables; [cpcidev_cdev] is an object, not a pointer. *)
Record globals := Globals {
  pci_irq : Z;
  major : Z;
  pdev : Z;
  mmio : Z;
  cpcidev_class : Z;
  cpcidev_device : Z;
  dev_num : Z
}.

Definition globals_init : globals := Globals 0 0 0 0 0 0 0.

Definition set_pci_irq v g := Globals v (major g) (pdev g) (mmio g) (cpcidev_class g) (cpcidev_device g) (dev_num g).
Definition set_major v g := Globals (pci_irq g) v (pdev g) (mmio g) (cpcidev_class g) (cpcidev_device g) (dev_num g).
Definition set_pdev v g := Globals (pci_irq g) (major g) v (mmio g) (cpcidev_class g) (cpcidev_device g) (dev_num g).
Definition set_mmio v g := Globals (pci_irq g) (major g) (pdev g) v (cpcidev_class g) (cpcidev_device g) (dev_num g).
Definition set_class v g := Globals (pci_irq g) (major g) (pdev g) (mmio g) v (cpcidev_device g) (dev_num g).
Definition set_device v g := Globals (pci_irq g) (major g) (pdev g) (mmio g) (cpcidev_class g) v (dev_num g).
Definition set_dev_num v g := Globals (pci_irq g) (major g) (pdev g) (mmio g) (cpcidev_class g) (cpcidev_device g) v.

(** What the kernel answers to one probe: results, and the values they come with.  A
    pointer is a 64-bit word; the last 4095 stand for error numbers. *)
Record kernel := Kernel {
  k_alloc_chrdev_region : Z;
  k_dev_num : Z;
  k_cdev_add : Z;
  k_class_create : Z;
  k_device_create : Z;
  k_pci_enable_device : Z;
  k_pci_request_region : Z;
  k_pci_iomap : Z;
  k_interrupt_line : Z;
  k_request_irq : Z;
  k_resource_mem : bool
}.

Definition IS_ERR (p : Z) : bool := 2 ^ 64 - 4095 <=? p.

(** What a call acquires or releases, by the arguments that identify it. *)
Inductive handle :=
| H_chrdev (d : Z)
| H_cdev
| H_class (c : Z)
| H_device (c d : Z)
| H_enabled (p : Z)
| H_region (p : Z)
| H_iomap (p a : Z)
| H_irq (line : Z).

#[export] Instance handle_eq_dec : EqDecision handle.
Proof. solve_decision. Defined.

Inductive kcall :=
| Got (h : handle)
| Put (h : handle)
| Read_config (i : Z)
| Write_mmio (addr v : Z).

(** The globals, and the calls so far, each with the globals at its return. *)
Definition trace : Type := list (kcall * globals).
Definition st : Type := globals * trace.

Definition emit (c : kcall) (s : st) : st := (s.1, s.2 ++ [(c, s.1)]).
Definition assign (f : globals → globals) (s : st) : st := (f s.1, s.2).
Definition got (ret : Z) (h : handle) (s : st) : st := if ret =? 0 then emit (Got h) s else s.

Section driver.
(** The major number of a [dev_t], a macro of the kernel. *)
Variable MAJOR : Z → Z.

Definition g_error (s : st) : Z * st := (1, s).
Definition g_error_cdev_add (s : st) := g_error (emit (Put (H_chrdev (dev_num s.1))) s).
Definition g_error_class (s : st) := g_error_cdev_add (emit (Put H_cdev) s).
Definition g_error_device (s : st) := g_error_class (emit (Put (H_class (cpcidev_class s.1))) s).
Definition g_error_pci (s : st) :=
  g_error_device (emit (Put (H_device (cpcidev_class s.1) (dev_num s.1))) s).

Definition g_probe_checks (k : kernel) (s : st) : res (Z * st) :=
  if negb (k_resource_mem k) then Ok (g_error_pci s)
  else
    let s := foldl (λ s i, emit (Read_config i) s) s (seqZ 0 64) in
    if mmio s.1 =? 0 then UB OutOfBoundsWrite
    else Ok (0, emit (Write_mmio (mmio s.1) 0xAB) s).

Definition g_probe_pci (k : kernel) (dev : Z) (s : st) : res (Z * st) :=
  let s := assign (set_pdev dev) s in
  if k_pci_enable_device k <? 0 then Ok (g_error_pci s)
  else
    let s := got (k_pci_enable_device k) (H_enabled dev) s in
    if negb (k_pci_request_region k =? 0) then Ok (g_error_pci s)
    else
      let s := got (k_pci_request_region k) (H_region dev) s in
      let s := assign (set_mmio (k_pci_iomap k)) s in
      let s := if k_pci_iomap k =? 0 then s
               else emit (Got (H_iomap (pdev s.1) (mmio s.1))) s in
      let s := assign (set_pci_irq (k_interrupt_line k)) (emit (Read_config 0x3C) s) in
      if k_request_irq k <? 0 then Ok (g_error_pci s)
      else g_probe_checks k (got (k_request_irq k) (H_irq (pci_irq s.1)) s).

Definition g_probe (k : kernel) (dev : Z) (g : globals) : res (Z * st) :=
  if k_alloc_chrdev_region k <? 0 then Ok (g_error (g, []))
  else
    let s := got (k_alloc_chrdev_region k) (H_chrdev (k_dev_num k))
               (assign (set_dev_num (k_dev_num k)) (g, [])) in
    let s := assign (set_major (MAJOR (dev_num s.1))) s in
    if k_cdev_add k <? 0 then Ok (g_error_cdev_add s)
    else
      let s := got (k_cdev_add k) H_cdev s in
      let s := assign (set_class (k_class_create k)) s in
      if IS_ERR (cpcidev_class s.1) then Ok (g_error_class s)
      else
        let s := emit (Got (H_class (cpcidev_class s.1))) s in
        let s := assign (set_device (k_device_create k)) s in
        if IS_ERR (cpcidev_device s.1) then Ok (g_error_device s)
        else
          g_probe_pci k dev (emit (Got (H_device (cpcidev_class s.1) (dev_num s.1))) s).

Definition g_remove (dev : Z) (g : globals) : trace :=
  (λ c, (c, g)) <$>
  [Put (H_irq (pci_irq g)); Put (H_iomap (pdev g) (mmio g)); Put (H_region dev);
   Put (H_device (cpcidev_class g) (dev_num g)); Put (H_class (cpcidev_class g)); Put H_cdev;
   Put (H_chrdev (dev_num g))].

(** ** The same code as [Probe.v] *)

Definition to_outcomes (k : kernel) : outcomes := Outcomes
  (k_alloc_chrdev_region k) (k_cdev_add k)
  (if IS_ERR (k_class_create k) then None else Some tt)
  (if IS_ERR (k_device_create k) then None else Some tt)
  (k_pci_enable_device k) (k_pci_request_region k)
  (if k_pci_iomap k =? 0 then None else Some tt) (k_request_irq k) (k_resource_mem k).

Definition kind (h : handle) : resource :=
  match h with
  | H_chrdev _ => Chrdev | H_cdev => Cdev | H_class _ => Cls | H_device _ _ => Dev
  | H_enabled _ => Enabled | H_region _ => Region | H_iomap _ _ => Iomap | H_irq _ => Irq
  end.
Definition erase_call (g : globals) (c : kcall) : event :=
  match c with
  | Got h => Acquire (kind h)
  | Put h => Release (kind h)
  | Read_config i => Config_read i
  | Write_mmio a v => Mmio_write (a - mmio g) v
  end.
Definition erase (l : trace) : list event := (λ cg, erase_call cg.2 cg.1) <$> l.

Lemma erase_emit c s : erase (emit c s).2 = erase s.2 ++ [erase_call s.1 c].
Proof. unfold erase, emit. cbn. by rewrite fmap_app. Qed.

Lemma erase_got ret h s : erase (got ret h s).2 = erase s.2 ++ acquired (kind h) ret.
Proof.
  unfold got, acquired. destruct (ret =? 0); [by rewrite erase_emit|by rewrite app_nil_r].
Qed.

Definition erase_result (r : res (Z * st)) : res (Z * list event) :=
  '(ret, s) ← r; Ok (ret, erase s.2).

Lemma erase_error_class s :
  erase_result (Ok (g_error_class s)) = Ok (error_class (erase s.2)).
Proof.
  unfold erase_result, g_error_class, g_error_cdev_add, g_error.
  rewrite bind_ok. by rewrite !erase_emit.
Qed.
Lemma erase_error_device s :
  erase_result (Ok (g_error_device s)) = Ok (error_device (erase s.2)).
Proof. unfold g_error_device. rewrite erase_error_class, erase_emit. done. Qed.
Lemma erase_error_pci s : erase_result (Ok (g_error_pci s)) = Ok (error_pci (erase s.2)).
Proof. unfold g_error_pci. rewrite erase_error_device, erase_emit. done. Qed.

Lemma erase_configs l s :
  let s' := foldl (λ s i, emit (Read_config i) s) s l in
  s'.1 = s.1 ∧ erase s'.2 = erase s.2 ++ (Config_read <$> l).
Proof.
  revert s. induction l as [|i l IH]; intros s; cbn [foldl fmap list_fmap].
  - by rewrite app_nil_r.
  - destruct (IH (emit (Read_config i) s)) as [-> ->]. split; [done|].
    by rewrite erase_emit, <-app_assoc.
Qed.

Lemma got_globals ret h s : (got ret h s).1 = s.1.
Proof. unfold got. by destruct (ret =? 0). Qed.

Lemma checks_erase k s : mmio s.1 = k_pci_iomap k →
  erase_result (g_probe_checks k s) = probe_checks (to_outcomes k) (erase s.2).
Proof.
  intros Hm. unfold g_probe_checks, probe_checks. cbn [o_resource_mem to_outcomes o_pci_iomap].
  destruct (k_resource_mem k); cbn [negb]; [|apply erase_error_pci].
  destruct (erase_configs (seqZ 0 64) s) as [E1 E2]. rewrite E1, Hm.
  destruct (k_pci_iomap k =? 0); [done|]. unfold erase_result. rewrite bind_ok, erase_emit, E2, E1.
  cbn [erase_call]. by rewrite Hm, Z.sub_diag.
Qed.

Lemma probe_pci_erases k dev s :
  erase_result (g_probe_pci k dev s) = probe_pci (to_outcomes k) (erase s.2).
Proof.
  unfold g_probe_pci, probe_pci.
  cbn [o_pci_enable_device o_pci_request_region o_pci_iomap o_request_irq to_outcomes].
  destruct (k_pci_enable_device k <? 0); [exact (erase_error_pci (assign (set_pdev dev) s))|].
  destruct (k_pci_request_region k =? 0) eqn:Hr; cbn [negb];
    [|rewrite erase_error_pci, erase_got; done].
  set (s1 := got _ (H_region dev) _).
  assert (erase s1.2 = (erase s.2 ++ acquired Enabled (k_pci_enable_device k)) ++
    acquired Region (k_pci_request_region k)) as E1 by (unfold s1; by rewrite !erase_got).
  set (s2 := if k_pci_iomap k =? 0 then _ else _).
  assert (s2.1 = set_mmio (k_pci_iomap k) s1.1 ∧ erase s2.2 = erase s1.2 ++
    match (if k_pci_iomap k =? 0 then None else Some tt) with Some _ => [Acquire Iomap] | None => [] end)
    as [G2 E2].
  { unfold s2. destruct (k_pci_iomap k =? 0); [by rewrite app_nil_r|]. by rewrite erase_emit. }
  destruct (k_request_irq k <? 0).
  - rewrite erase_error_pci. cbn [assign snd]. by rewrite erase_emit, E2, E1.
  - rewrite checks_erase; rewrite ?got_globals; [|cbn; by rewrite G2].
    rewrite erase_got. cbn [assign snd]. by rewrite erase_emit, E2, E1.
Qed.

(** With the values forgotten the two models of [pci_probe] are the same. *)
Lemma probe_erases k dev g :
  erase_result (g_probe k dev g) = pci_probe (to_outcomes k).
Proof.
  unfold g_probe, pci_probe.
  cbn [o_alloc_chrdev_region o_cdev_add o_class_create o_device_create to_outcomes].
  destruct (k_alloc_chrdev_region k <? 0); [done|].
  set (s := got _ _ _).
  assert (erase s.2 = acquired Chrdev (k_alloc_chrdev_region k)) as E by (unfold s; by rewrite erase_got).
  destruct (k_cdev_add k <? 0).
  { unfold g_error_cdev_add, g_error, erase_result. rewrite bind_ok. by rewrite erase_emit, <-E. }
  set (s1 := got (k_cdev_add k) _ _).
  assert (erase s1.2 = acquired Chrdev (k_alloc_chrdev_region k) ++ acquired Cdev (k_cdev_add k)) as E1
    by (unfold s1; by rewrite erase_got, <-E).
  cbn [assign fst set_class cpcidev_class].
  destruct (IS_ERR (k_class_create k)); [by rewrite erase_error_class, <-E1|].
  cbn [set_device cpcidev_device emit fst].
  destruct (IS_ERR (k_device_create k)).
  - rewrite erase_error_device. cbn [assign snd]. rewrite erase_emit. cbn [assign snd].
    by rewrite E1.
  - rewrite probe_pci_erases, erase_emit. cbn [assign snd]. rewrite erase_emit.
    cbn [assign snd]. by rewrite E1.
Qed.

Lemma remove_erases dev g : erase (g_remove dev g) = pci_remove.
Proof. done. Qed.
End driver.

(** ** The life of the driver *)

Fixpoint remove1 (h : handle) (l : list handle) : list handle :=
  match l with [] => [] | x :: l => if decide (x = h) then l else x :: remove1 h l end.

(** The handles held after a call, [None] if it releases one that is not held. *)
Definition call_effect (c : kcall) (held : list handle) : option (list handle) :=
  match c with
  | Got h => Some (h :: held)
  | Put h => if decide (h ∈ held) then Some (remove1 h held) else None
  | _ => Some held
  end.

(** The globals, what is held, the calls the running probe or removal still makes, and
    the devices that are bound. *)
Record life := Life {
  lf_globals : globals;
  lf_held : list handle;
  lf_todo : trace;
  lf_bound : list Z
}.

Definition unloaded : life := Life globals_init [] [] [].

Section life.
Variable MAJOR : Z → Z.

(** The kernel probes and removes one device at a time.  [single]: it has at most one. *)
Inductive lstep (single : bool) : life → life → Prop :=
| l_probe k dev g held bound ret g' log :
    dev ∉ bound → (single = true → bound = []) → documented (to_outcomes k) →
    g_probe MAJOR k dev g = Ok (ret, (g', log)) → (single = true → ret = 0) →
    lstep single (Life g held [] bound)
      (Life g held log (if ret =? 0 then dev :: bound else bound))
| l_remove dev g held bound :
    dev ∈ bound →
    lstep single (Life g held [] bound)
      (Life g held (g_remove dev g) (filter (λ d, d ≠ dev) bound))
| l_call c g' g held held' todo bound :
    call_effect c held = Some held' →
    lstep single (Life g held ((c, g') :: todo) bound) (Life g' held' todo bound).

(** The interrupt handler may run once it is registered; it goes through [mmio]. *)
Fixpoint has_irq (l : list handle) : bool :=
  match l with [] => false | H_irq _ :: _ => true | _ :: l => has_irq l end.
Definition handler_live (x : life) : bool := has_irq (lf_held x).
Definition mmio_mapped (x : life) : Prop :=
  H_iomap (pdev (lf_globals x)) (mmio (lf_globals x)) ∈ lf_held x.

(** The next call releases a handle that is not held. *)
Definition bad_release (x : life) : Prop :=
  ∃ h g todo, lf_todo x = (Put h, g) :: todo ∧ h ∉ lf_held x.

(** The globals and handles of a bound device. *)
Definition owned (k : kernel) (dev : Z) : list handle :=
  [H_irq (k_interrupt_line k); H_iomap dev (k_pci_iomap k); H_region dev; H_enabled dev;
   H_device (k_class_create k) (k_dev_num k); H_class (k_class_create k); H_cdev;
   H_chrdev (k_dev_num k)].
Definition owner_globals (k : kernel) (dev : Z) : globals :=
  Globals (k_interrupt_line k) (MAJOR (k_dev_num k)) dev (k_pci_iomap k) (k_class_create k)
    (k_device_create k) (k_dev_num k).

(** The loop over the configuration space. *)
Definition config_reads (g : globals) : trace := (λ i, (Read_config i, g)) <$> seqZ 0 64.

(** The log of a probe that succeeds. *)
Definition probe_log (k : kernel) (dev : Z) (g : globals) : trace :=
  let g1 := set_dev_num (k_dev_num k) g in
  let g2 := set_major (MAJOR (k_dev_num k)) g1 in
  let g3 := set_class (k_class_create k) g2 in
  let g4 := set_device (k_device_create k) g3 in
  let g5 := set_pdev dev g4 in
  let g6 := set_mmio (k_pci_iomap k) g5 in
  let g7 := set_pci_irq (k_interrupt_line k) g6 in
  [(Got (H_chrdev (k_dev_num k)), g1); (Got H_cdev, g2); (Got (H_class (k_class_create k)), g3);
   (Got (H_device (k_class_create k) (k_dev_num k)), g4); (Got (H_enabled dev), g5);
   (Got (H_region dev), g5); (Got (H_iomap dev (k_pci_iomap k)), g6); (Read_config 0x3C, g6);
   (Got (H_irq (k_interrupt_line k)), g7)] ++
  config_reads g7 ++ [(Write_mmio (k_pci_iomap k) 0xAB, g7)].

Lemma foldl_configs l (s : st) :
  foldl (λ s i, emit (Read_config i) s) s l = (s.1, s.2 ++ ((λ i, (Read_config i, s.1)) <$> l)).
Proof.
  revert s. induction l as [|i l IH]; intros [g tr]; cbn [foldl fmap list_fmap].
  - by rewrite app_nil_r.
  - rewrite IH. unfold emit. cbn [fst snd]. by rewrite <-app_assoc.
Qed.

Lemma checks_success k s s' : g_probe_checks k s = Ok (0, s') →
  s' = (s.1, s.2 ++ config_reads s.1 ++ [(Write_mmio (mmio s.1) 0xAB, s.1)]) ∧ mmio s.1 ≠ 0.
Proof.
  unfold g_probe_checks. destruct (k_resource_mem k); cbn [negb]; [|done].
  rewrite foldl_configs. cbn [fst]. destruct (Z.eqb_spec (mmio s.1) 0); [done|].
  intros H. apply ok_inj in H. injection H as <-. split; [|done].
  unfold emit. cbn [fst snd]. by rewrite <-app_assoc.
Qed.

Lemma probe_success k dev g g' log : documented (to_outcomes k) →
  g_probe MAJOR k dev g = Ok (0, (g', log)) →
  g' = owner_globals k dev ∧ log = probe_log k dev g ∧ IS_ERR (k_class_create k) = false.
Proof.
  intros (H1 & H2 & H3 & H4 & H5) Hp.
  cbn [o_alloc_chrdev_region o_cdev_add o_pci_enable_device o_pci_request_region o_request_irq
    to_outcomes] in *.
  unfold g_probe, g_probe_pci, got, g_error_pci, g_error_device, g_error_class,
    g_error_cdev_add, g_error in Hp.
  rewrite !nonneg_zero in Hp by done.
  destruct (k_alloc_chrdev_region k =? 0); [|done].
  destruct (k_cdev_add k =? 0); [|done]. cbn [negb assign emit fst snd] in Hp.
  destruct (IS_ERR _) eqn:Hc in Hp; [done|]. cbn [cpcidev_class set_class] in Hc.
  destruct (IS_ERR _) in Hp; [done|].
  destruct (k_pci_enable_device k =? 0); [|done].
  destruct (k_pci_request_region k =? 0); [|done].
  destruct (k_request_irq k =? 0); [|done]. cbn [negb] in Hp.
  apply checks_success in Hp as [E Hm].
  destruct (k_pci_iomap k =? 0) eqn:Hi; cbn [assign emit fst snd] in E, Hm.
  { apply Z.eqb_eq in Hi. by destruct Hm. }
  injection E as -> ->. by split_and!.
Qed.

(** A run of calls during which the handler, when live, finds the BAR mapped, and no call
    releases what is not held; [Q] holds at the end. *)
Fixpoint safe_run (Q : globals → list handle → Prop) (g : globals) (h : list handle)
    (todo : trace) : Prop :=
  (has_irq h = true → H_iomap (pdev g) (mmio g) ∈ h) ∧
  match todo with
  | [] => Q g h
  | (c, g') :: todo => ∃ h', call_effect c h = Some h' ∧ safe_run Q g' h' todo
  end.

Lemma safe_run_configs Q g g0 h cg todo : safe_run Q g h (cg :: todo) →
  (has_irq h = true → H_iomap (pdev g0) (mmio g0) ∈ h) →
  safe_run Q g0 h (config_reads g ++ cg :: todo).
Proof.
  intros Hs. unfold config_reads. generalize (seqZ 0 64) as l. intros l. revert g0.
  induction l as [|i l IH]; intros g0 H0; cbn [fmap list_fmap app].
  - destruct cg as [c g']. cbn in *. by destruct Hs.
  - cbn [safe_run]. split; [done|]. exists h. split; [done|]. apply IH.
    destruct cg. by destruct Hs.
Qed.

(** The handles of an enabled device are all that a removal leaves. *)
Definition is_enabled (h : handle) : bool := match h with H_enabled _ => true | _ => false end.

Lemma no_irq_enabled l : Forall is_enabled l → has_irq l = false.
Proof. induction 1 as [|h l Hh _ IH]; [done|]. by destruct h. Qed.

Lemma put_held h held : h ∈ held → call_effect (Put h) held = Some (remove1 h held).
Proof. intros. cbn. by rewrite decide_True. Qed.

Lemma got_held h held : call_effect (Got h) held = Some (h :: held).
Proof. done. Qed.

Lemma remove1_head h l : remove1 h (h :: l) = l.
Proof. cbn. by rewrite decide_True. Qed.
Lemma remove1_skip h x l : x ≠ h → remove1 h (x :: l) = x :: remove1 h l.
Proof. intros. cbn. by rewrite decide_False. Qed.

(** A probe that succeeds, and the removal that follows it. *)
Lemma probe_safe k dev g h : Forall is_enabled h →
  safe_run (λ g' h', g' = owner_globals k dev ∧ h' = owned k dev ++ h) g h (probe_log k dev g).
Proof.
  intros Hh. pose proof (no_irq_enabled h Hh) as Hirq. unfold probe_log.
  cbn [app safe_run call_effect].
  do 9 (split; [cbn [has_irq]; rewrite ?Hirq; done|]; eexists; split; [reflexivity|]).
  apply safe_run_configs; [|intros _; by right; left].
  split; [intros _; by right; left|]. eexists. split; [reflexivity|].
  split; [intros _; by right; left|]. done.
Qed.

Lemma remove_safe k dev g h : Forall is_enabled h → g = owner_globals k dev →
  safe_run (λ _ h', h' = H_enabled dev :: h) g (owned k dev ++ h) (g_remove dev g).
Proof.
  intros Hh ->. pose proof (no_irq_enabled h Hh) as Hirq. unfold g_remove, owned.
  cbn [app fmap list_fmap safe_run owner_globals pci_irq pdev mmio cpcidev_class dev_num].
  split; [intros _; by right; left|].
  do 7 (eexists; split;
    [rewrite put_held by (rewrite !elem_of_cons; auto 10);
     rewrite ?remove1_skip by done; by rewrite remove1_head|];
    split; [cbn [has_irq]; rewrite ?Hirq; done|]).
  done.
Qed.



Lemma safe_run_now Q g h todo : safe_run Q g h todo →
  (has_irq h = true → H_iomap (pdev g) (mmio g) ∈ h).
Proof. destruct todo; by intros []. Qed.

(** With one device at a time the calls that are left are always a safe run, to the
    state of a bound device or to that of none. *)
Definition life_ok (x : life) : Prop :=
  safe_run (λ g h, ∃ leaks, Forall is_enabled leaks ∧
    ((lf_bound x = [] ∧ h = leaks) ∨
     ∃ k dev, lf_bound x = [dev] ∧ g = owner_globals k dev ∧ h = owned k dev ++ leaks))
    (lf_globals x) (lf_held x) (lf_todo x).

Lemma safe_run_mono (Q1 Q2 : globals → list handle → Prop) g h todo :
  (∀ g h, Q1 g h → Q2 g h) → safe_run Q1 g h todo → safe_run Q2 g h todo.
Proof.
  intros HQ. revert g h. induction todo as [|[c g'] todo IH]; intros g h; cbn [safe_run].
  - intros [H1 H2]. split; [done|by apply HQ].
  - intros [H1 (h' & H2 & H3)]. split; [done|]. exists h'. split; [done|by apply IH].
Qed.

Lemma life_ok_step x y : lstep true x y → life_ok x → life_ok y.
Proof.
  intros Hs Hx. destruct Hs as [k dev g h b ret g' log _ Hb Hdoc Hp Hret|dev g h b Hd|c g' g h h' todo b Hc].
  - rewrite (Hret eq_refl) in Hp |- *. rewrite (Hb eq_refl) in Hx |- *.
    destruct Hx as (_ & leaks & Hl & [[_ Hh]|(k' & d' & [=] & _)]). cbn [lf_held] in Hh. subst h.
    destruct (probe_success _ _ _ _ _ Hdoc Hp) as (-> & -> & _).
    eapply safe_run_mono; [|by apply probe_safe]. cbn [lf_bound lf_globals lf_held lf_todo Z.eqb].
    intros g2 h2 [-> ->]. exists leaks. split; [done|]. right. by exists k, dev.
  - destruct Hx as (_ & leaks & Hl & [[Hb Hh]|(k & d' & Hb & Hg & Hh)]);
      cbn [lf_bound lf_globals lf_held] in Hb, Hh; subst; [by apply elem_of_nil in Hd|].
    apply list_elem_of_singleton in Hd as ->.
    eapply safe_run_mono; [|by apply (remove_safe k)]. cbn [lf_bound].
    intros g2 h2 ->. exists (H_enabled d' :: leaks). split; [by constructor|]. left.
    split; [|done]. by rewrite filter_cons_False by naive_solver.
  - unfold life_ok in Hx |- *. cbn [lf_globals lf_held lf_todo lf_bound safe_run] in *.
    destruct Hx as (_ & h2 & E & Hr). congruence.
Qed.

(** ** Running the calls *)

Fixpoint run_todo (g : globals) (h : list handle) (todo : trace) : option (globals * list handle) :=
  match todo with
  | [] => Some (g, h)
  | (c, g') :: todo => h ← call_effect c h; run_todo g' h todo
  end.

Lemma run_todo_reaches single g h todo rest b g' h' : run_todo g h todo = Some (g', h') →
  rtc (lstep single) (Life g h (todo ++ rest) b) (Life g' h' rest b).
Proof.
  revert g h. induction todo as [|[c g1] todo IH]; intros g h Hr; cbn in Hr; [by simplify_eq|].
  apply bind_Some in Hr as (h1 & Hc & Hr). eapply rtc_l; [by apply l_call|by apply IH].
Qed.

Lemma run_todo_all single g h todo b g' h' : run_todo g h todo = Some (g', h') →
  rtc (lstep single) (Life g h todo b) (Life g' h' [] b).
Proof. intros Hr. rewrite <-(app_nil_r todo). by apply run_todo_reaches. Qed.

Lemma run_configs g g0 h cg todo :
  run_todo g0 h (config_reads g ++ cg :: todo) = run_todo g h (cg :: todo).
Proof.
  unfold config_reads. generalize (seqZ 0 64) as l. intros l. revert g0.
  induction l as [|i l IH]; intros g0; cbn [fmap list_fmap app]; [by destruct cg|].
  cbn [run_todo]. change (call_effect (Read_config i) h) with (Some h). cbn [mbind option_bind].
  apply IH.
Qed.

Lemma run_probe k dev g h :
  run_todo g h (probe_log k dev g) = Some (owner_globals k dev, owned k dev ++ h).
Proof.
  unfold probe_log. cbn [app run_todo call_effect mbind option_bind]. by rewrite run_configs.
Qed.

Lemma run_remove k dev h :
  run_todo (owner_globals k dev) (owned k dev ++ h) (g_remove dev (owner_globals k dev)) =
    Some (owner_globals k dev, H_enabled dev :: h).
Proof.
  unfold g_remove, owned.
  cbn [app fmap list_fmap run_todo owner_globals pci_irq pdev mmio cpcidev_class dev_num].
  do 7 (rewrite put_held by (rewrite !elem_of_cons; auto 10);
    rewrite ?remove1_skip, remove1_head by done; cbn [mbind option_bind]).
  done.
Qed.

(** The probe of one device, all calls made. *)
Lemma probe_reaches single k dev g h b g' log :
  dev ∉ b → (single = true → b = []) → documented (to_outcomes k) →
  g_probe MAJOR k dev g = Ok (0, (g', log)) →
  rtc (lstep single) (Life g h [] b) (Life (owner_globals k dev) (owned k dev ++ h) [] (dev :: b)).
Proof.
  intros Hd Hb Hdoc Hp. eapply rtc_l; [by eapply (l_probe single k dev)|]. cbn [Z.eqb].
  destruct (probe_success _ _ _ _ _ Hdoc Hp) as (_ & -> & _).
  apply run_todo_all, run_probe.
Qed.

(** A probe that finds the name of the class taken. *)
Lemma class_taken k dev g :
  k_alloc_chrdev_region k = 0 → k_cdev_add k = 0 → IS_ERR (k_class_create k) = true →
  ∃ log g', g' = set_class (k_class_create k) (set_major (MAJOR (k_dev_num k)) (set_dev_num (k_dev_num k) g)) ∧
    g_probe MAJOR k dev g = Ok (1, (g', log)) ∧
    ∀ h, run_todo g h log = Some (g', h).
Proof.
  intros Ha Hc Hcls. unfold g_probe, got. rewrite Ha, Hc.
  cbn [Z.ltb Z.eqb assign emit fst snd cpcidev_class set_class]. rewrite Hcls.
  eexists _, _. split; [reflexivity|]. split; [reflexivity|]. intros h.
  cbn [app run_todo emit assign fst snd dev_num set_dev_num set_class set_major]. do 2 (rewrite got_held; cbn [mbind option_bind]).
  rewrite put_held by by left. rewrite remove1_head. cbn [mbind option_bind].
  rewrite put_held by by left. rewrite remove1_head. done.
Qed.
End life.

(** ** Properties *)

(** C28: with one device at a time, the interrupt handler never runs without its BAR.  In
    every state of any number of probes that succeed and removals, in the middle of
    them too, if the handler is registered then the BAR it goes through is mapped; and
    no call releases what is not held. *)
Theorem handler_always_mapped (MAJOR : Z → Z) (x : life) :
  rtc (lstep MAJOR true) unloaded x →
  (handler_live x = true → mmio_mapped x) ∧ ¬ bad_release x.
Proof.
  intros Hr. assert (life_ok MAJOR x) as Hx.
  { revert x Hr. apply (rtc_ind_r (life_ok MAJOR) unloaded).
    - split; [done|]. exists []. split; [constructor|by left].
    - intros y z _ Hs Hy. by eapply life_ok_step. }
  split; [by eapply safe_run_now|].
  intros (h & g & todo & E & Hh). unfold life_ok in Hx. rewrite E in Hx.
  destruct Hx as (_ & h' & Hc & _). cbn in Hc. by rewrite decide_False in Hc.
Qed.

(** Two devices; a probe that fails with -EEXIST at [class_create]. *)
Definition linux_major (d : Z) : Z := Z.shiftr d 20.
Definition first_kernel : kernel := Kernel 0 0xF000000 0 0x1000 0x2000 0 0 0x5000 11 0 true.
Definition second_kernel : kernel := Kernel 0 0xF100000 0 0x3000 0x4000 0 0 0x6000 11 0 true.
Definition eexist_kernel : kernel := Kernel 0 0xF100000 0 (2 ^ 64 - 17) 0x4000 0 0 0x6000 11 0 true.

(** After the first probe. *)
Lemma handler_always_mapped_witness :
  ∃ x, rtc (lstep linux_major true) unloaded x ∧ handler_live x = true ∧ mmio_mapped x.
Proof.
  assert (∃ g' log, g_probe linux_major first_kernel 1 globals_init = Ok (0, (g', log)))
    as (g' & log & E) by (eexists _, _; vm_compute; reflexivity).
  pose proof (probe_reaches linux_major true first_kernel 1 globals_init [] [] g' log
    ltac:(apply not_elem_of_nil) ltac:(done) ltac:(by vm_compute) E) as R.
  eexists. split; [exact R|]. split; [reflexivity|].
  exact (proj1 (handler_always_mapped _ _ R) eq_refl).
Defined.

(** C29: with a second device of the same kind the globals are overwritten and the first
    one is lost.  If both probes succeed, then after the removal of the second device the
    first is still bound and its handler registered, but [mmio] is the unmapped BAR of the
    second.  If the second probe fails because the name of the class is taken, the
    removal of the first device destroys a device of the class [ERR_PTR]: it releases
    what is not held. *)
Theorem second_device_breaks_first (MAJOR : Z → Z) (k1 k2 : kernel) (d1 d2 : Z) g1 l1 :
  d1 ≠ d2 → documented (to_outcomes k1) → documented (to_outcomes k2) →
  g_probe MAJOR k1 d1 globals_init = Ok (0, (g1, l1)) →
  (∀ g2 l2, g_probe MAJOR k2 d2 g1 = Ok (0, (g2, l2)) →
     ∃ x, rtc (lstep MAJOR false) unloaded x ∧ lf_bound x = [d1] ∧
       handler_live x = true ∧ ¬ mmio_mapped x) ∧
  (k_alloc_chrdev_region k2 = 0 → k_cdev_add k2 = 0 → IS_ERR (k_class_create k2) = true →
     ∃ x, rtc (lstep MAJOR false) unloaded x ∧ bad_release x).
Proof.
  intros Hd Hdoc1 Hdoc2 Hp1.
  destruct (probe_success _ _ _ _ _ _ Hdoc1 Hp1) as (-> & -> & Hc1).
  assert (d1 ∉ []) as Hd1 by apply not_elem_of_nil.
  pose proof (probe_reaches MAJOR false k1 d1 _ [] [] _ _ Hd1 ltac:(done) Hdoc1 Hp1) as R1.
  rewrite app_nil_r in R1.
  assert (d2 ∉ [d1]) as Hd2 by (rewrite list_elem_of_singleton; congruence).
  split.
  - intros g2 l2 Hp2. destruct (probe_success _ _ _ _ _ _ Hdoc2 Hp2) as (-> & -> & _).
    pose proof (probe_reaches MAJOR false k2 d2 _ (owned k1 d1) [d1] _ _ Hd2 ltac:(done) Hdoc2 Hp2)
      as R2.
    eexists. split.
    { etrans; [exact R1|]. etrans; [exact R2|].
      eapply rtc_l; [apply (l_remove MAJOR false d2); by left|].
      apply run_todo_all, run_remove. }
    split; [|split; [done|]].
    + cbn [lf_bound]. rewrite filter_cons_False, filter_cons_True by naive_solver. done.
    + unfold mmio_mapped. cbn [lf_globals lf_held pdev mmio owner_globals].
      unfold owned. rewrite !elem_of_cons. intros H.
      destruct_or? H; try congruence. by apply elem_of_nil in H.
  - intros Ha Hc Hcls.
    destruct (class_taken MAJOR k2 d2 (owner_globals MAJOR k1 d1) Ha Hc Hcls)
      as (log & g' & Eg & Hp2 & Hrun).
    eexists. split.
    { etrans; [exact R1|].
      eapply rtc_l; [eapply (l_probe MAJOR false k2 d2); [done|done|done|exact Hp2|done]|].
      etrans; [apply run_todo_all, Hrun|].
      eapply rtc_l; [apply (l_remove MAJOR false d1); by left|].
      unfold g_remove. cbn [fmap list_fmap].
      apply (run_todo_reaches MAJOR false g' (owned k1 d1)
        [(Put (H_irq (pci_irq g')), g'); (Put (H_iomap (pdev g') (mmio g')), g'); (Put (H_region d1), g')]).
      rewrite Eg. unfold owned. cbn [run_todo pci_irq pdev mmio owner_globals set_class set_major set_dev_num].
      do 3 (rewrite put_held by (rewrite !elem_of_cons; auto 10);
        rewrite remove1_head; cbn [mbind option_bind]).
      reflexivity. }
    eexists _, _, _. cbn [lf_todo lf_held]. split; [reflexivity|].
    rewrite Eg. cbn [cpcidev_class set_class]. rewrite !elem_of_cons.
    intros H. destruct_or? H; try congruence. by apply elem_of_nil in H.
Qed.

Lemma second_device_breaks_first_witness :
  (∃ x, rtc (lstep linux_major false) unloaded x ∧ lf_bound x = [1] ∧
     handler_live x = true ∧ ¬ mmio_mapped x) ∧
  (∃ x, rtc (lstep linux_major false) unloaded x ∧ bad_release x).
Proof.
  assert (∃ g' log, g_probe linux_major first_kernel 1 globals_init = Ok (0, (g', log)))
    as (g1 & l1 & E1) by (eexists _, _; vm_compute; reflexivity).
  split.
  - assert (∃ g' log, g_probe linux_major second_kernel 2 g1 = Ok (0, (g', log)))
      as (g2 & l2 & E2) by (eexists _, _; vm_compute; reflexivity).
    exact (proj1 (second_device_breaks_first linux_major first_kernel second_kernel 1 2 g1 l1
      ltac:(done) ltac:(by vm_compute) ltac:(by vm_compute) E1) g2 l2 E2).
  - exact (proj2 (second_device_breaks_first linux_major first_kernel eexist_kernel 1 2 g1 l1
      ltac:(done) ltac:(by vm_compute) ltac:(by vm_compute) E1) eq_refl eq_refl eq_refl).
Defined.
