(* ===== verification/Endpoint.v ===== *)
(** * The endpoint the driver is written for

    [MatrixMultiplier] of [main.cc]: two 4x4 operand matrices, an opcode and a lazily
    computed result behind BAR 0, with the register layout (0x10, 0x50, 0x90, 0xA0)
    that the driver uses and the documentation describes.  In this revision the module
    is commented out and [sc_main] instantiates [DummyTarget] in its place; it is
    modelled because it is the only definition of the layout the driver and the
    application rely on.  [Integration.v] runs them against it and against the
    endpoints that are live. *)

From S2P Require Import Prelude Tlm Kernel MatMul.
Local Open Scope Z_scope.

(** A [uint32_t[4][4]] is its 16 words in row-major order. *)
Record matmul_ep := MatmulEp {
  op1 : list Z;
  op2 : list Z;
  opcode : Z;
  result : list Z;
  result_valid : bool
}.

#[export] Instance matmul_ep_eq_dec : EqDecision matmul_ep.
Proof. solve_decision. Defined.

Definition matmul_ep_init : matmul_ep :=
  MatmulEp (replicate 16 0) (replicate 16 0) 0 (replicate 16 0) false.

(** [m[index / 4][index % 4]] *)
Definition get44 (m : list Z) (index : Z) : res Z := vget m ((index / 4) * 4 + index mod 4).
Definition set44 (m : list Z) (index v : Z) : res (list Z) :=
  vset m ((index / 4) * 4 + index mod 4) v.

Definition handle_write (s : matmul_ep) (addr value : Z) : res matmul_ep :=
  if (0x10 <=? addr) && (addr <? 0x50) then
    m ← set44 (op1 s) ((addr - 0x10) / 4) value;
    Ok (MatmulEp m (op2 s) (opcode s) (result s) false)
  else if (0x50 <=? addr) && (addr <? 0x90) then
    m ← set44 (op2 s) ((addr - 0x50) / 4) value;
    Ok (MatmulEp (op1 s) m (opcode s) (result s) false)
  else if addr =? 0x90 then
    Ok (MatmulEp (op1 s) (op2 s) value (result s) false)
  else Ok s.

(** [result[i][j] = 0; for (k...) result[i][j] += op1[i][k] * op2[k][j];] *)
Definition multiply_entry (a b : list Z) (i j : Z) : res Z :=
  for_range 4 (λ k r,
    x ← vget a (i * 4 + k);
    y ← vget b (k * 4 + j);
    Ok (w32 (r + w32 (x * y)))) 0.

Definition perform_multiplication (s : matmul_ep) : res matmul_ep :=
  r ← (if negb (opcode s =? 1) then
         for_range 4 (λ i r, for_range 4 (λ j r, vset r (i * 4 + j) 0xFFFFFFFF) r) (result s)
       else
         for_range 4 (λ i r, for_range 4 (λ j r,
           v ← multiply_entry (op1 s) (op2 s) i j; vset r (i * 4 + j) v) r) (result s));
  Ok (MatmulEp (op1 s) (op2 s) (opcode s) r true).

Definition handle_read (s : matmul_ep) (addr : Z) : res (matmul_ep * Z) :=
  if (0xA0 <=? addr) && (addr <? 0xE0) then
    s ← (if (addr =? 0xA0) && negb (result_valid s) then perform_multiplication s else Ok s);
    v ← get44 (result s) ((addr - 0xA0) / 4);
    Ok (s, v)
  else if addr =? 0x90 then Ok (s, opcode s)
  else Ok (s, 0xFFFFFFFF).

(** [data32] points to the transaction's buffer. *)
Definition b_transport_bar0 (s : matmul_ep) (trans : payload) (delay : Z)
    : res (matmul_ep * payload * Z) :=
  if negb (data_length trans =? 4) then
    Ok (s, set_response TLM_GENERIC_ERROR_RESPONSE trans, delay)
  else
    '(s, bs) ←
      (if bool_decide (command trans = TLM_WRITE_COMMAND) then
         w ← memcpy (replicate 4 0) (data trans) 4;
         s ← handle_write s (address trans) (le_val w);
         Ok (s, data trans)
       else
         '(s, v) ← handle_read s (address trans);
         bs ← memcpy (data trans) (le_bytes 4 v) 4;
         Ok (s, bs));
    Ok (s, set_response TLM_OK_RESPONSE (set_data bs trans), delay + 10).

#[export] Instance matmul_ep_target : Target matmul_ep := b_transport_bar0.

(** ** The product *)

(** The product modulo 2^32. *)
Definition u32_mat_mul (n : nat) (a b : list Z) : list Z := w32 <$> int_mat_mul n a b.

(** What the result register file should hold. *)
Definition ep_value (s : matmul_ep) : list Z :=
  if opcode s =? 1 then u32_mat_mul 4 (op1 s) (op2 s) else replicate 16 0xFFFFFFFF.

Record ep_wf (s : matmul_ep) : Prop := {
  ep_op1 : length (op1 s) = 16%nat ∧ Forall (λ w, u32 w) (op1 s);
  ep_op2 : length (op2 s) = 16%nat ∧ Forall (λ w, u32 w) (op2 s);
  ep_opcode : u32 (opcode s);
  ep_result : length (result s) = 16%nat;
  ep_valid : result_valid s = true → result s = ep_value s
}.

Lemma w32_add_mod a b : w32 (w32 a + w32 b) = w32 (a + b).
Proof. unfold w32. by rewrite <-Z.add_mod by lia. Qed.

(** A 16-element list, element by element. *)
Lemma list16 (l : list Z) : length l = 16%nat →
  ∃ x0 x1 x2 x3 x4 x5 x6 x7 x8 x9 x10 x11 x12 x13 x14 x15,
    l = [x0; x1; x2; x3; x4; x5; x6; x7; x8; x9; x10; x11; x12; x13; x14; x15].
Proof. intros Hl. do 16 (destruct l as [|? l]; [done|]). destruct l; [|done]. by repeat eexists. Qed.

Lemma vget_lookup v k : (k < length v)%nat → vget v (Z.of_nat k) = Ok (v !!! k).
Proof.
  intros Hk. unfold vget. rewrite Nat2Z.id. by rewrite list_lookup_lookup_total_lt.
Qed.

Lemma multiply_entry_spec a b i j : length a = 16%nat → length b = 16%nat →
  (i < 4)%nat → (j < 4)%nat →
  multiply_entry a b (Z.of_nat i) (Z.of_nat j) = Ok (w32 (int_entry 4 a b i j)).
Proof.
  intros Ha Hb Hi Hj. unfold multiply_entry, int_entry.
  destruct (for_range_inv (λ k r, r = w32 (foldl (λ s k,
      s + (a !!! (i * 4 + k)%nat) * (b !!! (k * 4 + j)%nat)) 0 (seq 0 (Z.to_nat k))))
    (λ k r, x ← vget a (Z.of_nat i * 4 + k); y ← vget b (k * 4 + Z.of_nat j);
            Ok (w32 (r + w32 (x * y)))) 4 0) as (r & -> & ->); [lia| |done|done].
  intros k r Hk ->. rewrite <-(Z2Nat.id k) by lia. set (k' := Z.to_nat k).
  replace (Z.of_nat i * 4 + Z.of_nat k') with (Z.of_nat (i * 4 + k')) by lia.
  replace (Z.of_nat k' * 4 + Z.of_nat j) with (Z.of_nat (k' * 4 + j)) by lia.
  rewrite !vget_lookup, !bind_ok by lia. eexists; split; [done|].
  replace (Z.to_nat (Z.of_nat k' + 1)) with (S k') by lia. rewrite Nat2Z.id.
  rewrite seq_S, foldl_app. cbn [foldl plus]. apply w32_add_mod.
Qed.

(** Filling a 4x4 array in row-major order. *)
Lemma fill44 (f : Z → res Z) (vs r : list Z) : length vs = 16%nat → length r = 16%nat →
  (∀ k, (k < 16)%nat → f (Z.of_nat k) = Ok (vs !!! k)) →
  for_range 16 (λ k r, v ← f k; vset r k v) r = Ok vs.
Proof.
  intros Hv Hr Hf.
  destruct (for_range_inv (λ k r, length r = 16%nat ∧ take (Z.to_nat k) r = take (Z.to_nat k) vs)
    (λ k r, v ← f k; vset r k v) 16 r) as (r' & -> & Hl & E); [lia| |done|].
  - intros k s Hk [Hl E]. rewrite <-(Z2Nat.id k) by lia. set (k' := Z.to_nat k).
    rewrite Hf, bind_ok by lia. unfold vset. rewrite Nat2Z.id, decide_True by lia.
    eexists; split; [done|]. rewrite length_insert. split; [done|].
    replace (Z.to_nat (Z.of_nat k' + 1)) with (S k') by lia.
    rewrite (take_S_r (<[k':=_]> s) k' (vs !!! k')) by (by rewrite list_lookup_insert_eq by lia).
    rewrite (take_S_r vs k' (vs !!! k')) by (apply list_lookup_lookup_total_lt; lia).
    rewrite take_insert_ge by lia. by f_equal.
  - change (Z.to_nat 16) with 16%nat in E. rewrite !take_ge in E by lia. by rewrite E.
Qed.

Lemma u32_mat_mul_lookup a b k : (k < 16)%nat →
  u32_mat_mul 4 a b !!! k = w32 (int_entry 4 a b (k / 4) (k mod 4)).
Proof.
  intros Hk. apply list_lookup_total_correct. unfold u32_mat_mul, int_mat_mul.
  by rewrite list_lookup_fmap, list_lookup_fmap, lookup_seq_lt by done.
Qed.

Lemma length_u32_mat_mul n a b : length (u32_mat_mul n a b) = (n * n)%nat.
Proof. unfold u32_mat_mul, int_mat_mul. by rewrite !length_fmap, length_seq. Qed.

Lemma index44 k : (k < 16)%nat → (k / 4 < 4)%nat ∧ (k mod 4 < 4)%nat ∧
  Z.of_nat k / 4 = Z.of_nat (k / 4) ∧ Z.of_nat k mod 4 = Z.of_nat (k mod 4) ∧
  Z.of_nat k / 4 * 4 + Z.of_nat k mod 4 = Z.of_nat k.
Proof.
  intros Hk. rewrite (Nat2Z.inj_div k 4), (Nat2Z.inj_mod k 4). cbn [Z.of_nat Pos.of_succ_nat Pos.succ].
  split; [apply Nat.Div0.div_lt_upper_bound; lia|]. split; [apply Nat.mod_upper_bound; lia|].
  split; [done|]. split; [done|]. pose proof (Z.div_mod (Z.of_nat k) 4). lia.
Qed.

Lemma perform_spec s : ep_wf s →
  perform_multiplication s = Ok (MatmulEp (op1 s) (op2 s) (opcode s) (ep_value s) true).
Proof.
  intros [[Ha _] [Hb _] _ Hr _]. unfold perform_multiplication, ep_value.
  destruct (opcode s =? 1); cbn [negb].
  - rewrite (for_range_4x4_ij (λ i j r, v ← multiply_entry (op1 s) (op2 s) i j; vset r (i * 4 + j) v)).
    rewrite (for_range_ext _ (λ k r,
      v ← multiply_entry (op1 s) (op2 s) (k / 4) (k mod 4); vset r k v)).
    + rewrite (fill44 (λ k, multiply_entry (op1 s) (op2 s) (k / 4) (k mod 4))
        (u32_mat_mul 4 (op1 s) (op2 s))); [done|apply length_u32_mat_mul|done|].
      intros k Hk. destruct (index44 k Hk) as (H1 & H2 & -> & -> & _).
      by rewrite multiply_entry_spec, u32_mat_mul_lookup.
    + intros k r Hk. rewrite <-(Z2Nat.id k) by lia.
      destruct (index44 (Z.to_nat k)) as (_ & _ & _ & _ & ->); [lia|done].
  - rewrite (for_range_4x4 (λ k r, vset r k 0xFFFFFFFF)).
    rewrite (for_range_ext _ (λ k r, v ← Ok 0xFFFFFFFF; vset r k v)) by done.
    rewrite (fill44 (λ _, Ok 0xFFFFFFFF) (replicate 16 0xFFFFFFFF) (result s)); [done|done|done|].
    intros k Hk. by rewrite lookup_total_replicate_2.
Qed.

(** ** Single accesses *)

Lemma set44_lookup m k v : length m = 16%nat → (k < 16)%nat →
  set44 m (Z.of_nat k) v = Ok (<[k := v]> m).
Proof.
  intros Hm Hk. unfold set44. destruct (index44 k Hk) as (_ & _ & _ & _ & ->).
  unfold vset. by rewrite Nat2Z.id, decide_True by lia.
Qed.

Lemma get44_lookup m k : length m = 16%nat → (k < 16)%nat → get44 m (Z.of_nat k) = Ok (m !!! k).
Proof.
  intros Hm Hk. unfold get44. destruct (index44 k Hk) as (_ & _ & _ & _ & ->).
  apply vget_lookup. lia.
Qed.

Lemma ep_write s off v s' : u32 v → handle_write s off v = Ok s' → iowrite32 s off v = Ok s'.
Proof.
  intros Hv E. unfold iowrite32, target_bar, b_transport, matmul_ep_target, b_transport_bar0.
  cbn [data_length request Z.eqb Pos.eqb negb command bool_decide data address].
  rewrite bool_decide_eq_true_2, memcpy_all, !bind_ok, le_val32, E by
    (rewrite ?length_le_bytes; done). done.
Qed.

Lemma ep_read s off s' v : u32 v → handle_read s off = Ok (s', v) → ioread32 s off = Ok (s', v).
Proof.
  intros Hv E. unfold ioread32, target_bar, b_transport, matmul_ep_target, b_transport_bar0.
  cbn [data_length request Z.eqb Pos.eqb negb command data address].
  rewrite bool_decide_eq_false_2, E, bind_ok, memcpy_all, !bind_ok by
    (rewrite ?length_le_bytes; done). cbn [data set_response set_data]. by rewrite le_val32.
Qed.

Lemma ep_write_op1 s k v : ep_wf s → (k < 16)%nat → u32 v →
  iowrite32 s (0x10 + 4 * Z.of_nat k) v =
    Ok (MatmulEp (<[k := v]> (op1 s)) (op2 s) (opcode s) (result s) false).
Proof.
  intros Hw Hk Hv. apply ep_write; [done|]. unfold handle_write.
  rewrite (proj2 (Z.leb_le _ _)), (proj2 (Z.ltb_lt _ _)) by lia. cbn [andb].
  replace ((0x10 + 4 * Z.of_nat k - 0x10) / 4) with (Z.of_nat k)
    by (apply (Z.div_unique _ _ _ 0); lia).
  by rewrite set44_lookup by (done || apply Hw).
Qed.

Lemma ep_write_op2 s k v : ep_wf s → (k < 16)%nat → u32 v →
  iowrite32 s (0x50 + 4 * Z.of_nat k) v =
    Ok (MatmulEp (op1 s) (<[k := v]> (op2 s)) (opcode s) (result s) false).
Proof.
  intros Hw Hk Hv. apply ep_write; [done|]. unfold handle_write.
  rewrite (proj2 (Z.ltb_ge _ 0x50)) by lia. rewrite andb_false_r.
  rewrite (proj2 (Z.leb_le _ _)), (proj2 (Z.ltb_lt _ _)) by lia. cbn [andb].
  replace ((0x50 + 4 * Z.of_nat k - 0x50) / 4) with (Z.of_nat k)
    by (apply (Z.div_unique _ _ _ 0); lia).
  by rewrite set44_lookup by (done || apply Hw).
Qed.

Lemma ep_read_result s k : ep_wf s → (k < 16)%nat →
  (k = 0%nat ∨ result_valid s = true) → Forall (λ w, u32 w) (ep_value s) →
  ioread32 s (0xA0 + 4 * Z.of_nat k) =
    Ok (MatmulEp (op1 s) (op2 s) (opcode s) (ep_value s) true, ep_value s !!! k).
Proof.
  intros Hw Hk Hv Hu.
  assert (length (ep_value s) = 16%nat) as Hl.
  { unfold ep_value. destruct (_ =? _); [apply length_u32_mat_mul|done]. }
  apply ep_read.
  { apply (Forall_lookup_1 _ _ k _ Hu), list_lookup_lookup_total_lt. lia. }
  unfold handle_read. rewrite (proj2 (Z.leb_le _ _)), (proj2 (Z.ltb_lt _ _)) by lia. cbn [andb].
  replace ((0xA0 + 4 * Z.of_nat k - 0xA0) / 4) with (Z.of_nat k)
    by (apply (Z.div_unique _ _ _ 0); lia).
  destruct (result_valid s) eqn:Hr; cbn [negb].
  - rewrite andb_false_r, bind_ok. pose proof (ep_valid s Hw Hr) as E.
    rewrite E, get44_lookup by done. rewrite bind_ok, <-E, <-Hr. by destruct s.
  - destruct Hv as [->|]; [|done].
    change (0xA0 + 4 * Z.of_nat 0 =? 0xA0) with true. cbn [andb].
    rewrite perform_spec, bind_ok by done. cbn [result].
    by rewrite (get44_lookup _ 0), bind_ok by done.
Qed.

(** ** The contract of the endpoint

    What the driver and the application need from the device behind the BAR: operands
    and opcode written through consecutive registers, and the product read back.  Of the
    endpoints in the sources only [MatrixMultiplier], commented out in this revision,
    keeps it. *)

Definition words44 (ws : list Z) : Prop := length ws = 16%nat ∧ Forall (λ w, u32 w) ws.

Class MatrixBar (D : Type) `{Bar D} := {
  mb_ok : D → Prop;
  mb_op1 : D → list Z;
  mb_op2 : D → list Z;
  mb_opcode : D → Z;
  mb_set_op1 d ws : mb_ok d → words44 ws →
    ∃ d', write_words d 0x10 ws = Ok d' ∧ mb_ok d' ∧
      mb_op1 d' = ws ∧ mb_op2 d' = mb_op2 d ∧ mb_opcode d' = mb_opcode d;
  mb_set_op2 d ws : mb_ok d → words44 ws →
    ∃ d', write_words d 0x50 ws = Ok d' ∧ mb_ok d' ∧
      mb_op1 d' = mb_op1 d ∧ mb_op2 d' = ws ∧ mb_opcode d' = mb_opcode d;
  mb_set_opcode d v : mb_ok d → u32 v →
    ∃ d', write_words d 0x90 [v] = Ok d' ∧ mb_ok d' ∧
      mb_op1 d' = mb_op1 d ∧ mb_op2 d' = mb_op2 d ∧ mb_opcode d' = v;
  mb_get_result d : mb_ok d → mb_opcode d = 1 →
    ∃ d', read_words d 0xA0 16 = Ok (d', u32_mat_mul 4 (mb_op1 d) (mb_op2 d)) ∧ mb_ok d' ∧
      mb_op1 d' = mb_op1 d ∧ mb_op2 d' = mb_op2 d ∧ mb_opcode d' = mb_opcode d
}.

(** The fold of [write_words] by an invariant on the words written so far. *)
Lemma write_words_inv {D} `{Bar D} (I : nat → D → Prop) base ws d :
  (∀ k v d, ws !! k = Some v → I k d →
     ∃ d', iowrite32 d (base + 4 * Z.of_nat k) v = Ok d' ∧ I (S k) d') →
  I 0%nat d → ∃ d', write_words d base ws = Ok d' ∧ I (length ws) d'.
Proof.
  intros Hstep. unfold write_words. change 0 with (Z.of_nat 0) at 1.
  assert (∀ pre post d, ws = pre ++ post → I (length pre) d →
    ∃ d', foldM (λ d kw, iowrite32 d (base + 4 * kw.1) kw.2) d
      (zip (seqZ (Z.of_nat (length pre)) (Z.of_nat (length post))) post) = Ok d' ∧
      I (length ws) d') as Hgo; [|intros Hd; by apply (Hgo [] ws)].
  intros pre post. revert pre. induction post as [|w post IH]; intros pre d0 E Hd.
  - exists d0. split; [done|]. by rewrite E, length_app, Nat.add_0_r.
  - cbn [length]. rewrite seqZ_cons by lia. cbn [zip_with foldM fst snd].
    destruct (Hstep (length pre) w d0) as (d1 & -> & Hd1); [by rewrite E, list_lookup_middle|done|].
    rewrite bind_ok.
    destruct (IH (pre ++ [w]) d1) as (d2 & E2 & Hd2).
    + by rewrite E, <-app_assoc.
    + rewrite length_app. cbn [length]. by rewrite Nat.add_1_r.
    + exists d2. split; [|done]. rewrite <-E2. rewrite length_app. cbn [length].
      f_equal. f_equal. f_equal; lia.
Qed.

(** The same for [read_words]. *)
Lemma read_words_inv {D} `{Bar D} (I : nat → D → Prop) base n vs d :
  length vs = n →
  (∀ k v d, vs !! k = Some v → I k d →
     ∃ d', ioread32 d (base + 4 * Z.of_nat k) = Ok (d', v) ∧ I (S k) d') →
  I 0%nat d → ∃ d', read_words d base n = Ok (d', vs) ∧ I n d'.
Proof.
  intros Hn Hstep. unfold read_words. change 0 with (Z.of_nat 0) at 1. change [] with (take 0 vs) at 1.
  assert (∀ m k d, (k + m = n)%nat → I k d →
    ∃ d', foldM (λ '(d, ws) k, '(d, w) ← ioread32 d (base + 4 * k); Ok (d, ws ++ [w]))
      (d, take k vs) (seqZ (Z.of_nat k) (Z.of_nat m)) = Ok (d', vs) ∧ I n d') as Hgo;
    [|intros Hd; by apply (Hgo n 0%nat)].
  induction m as [|m IH]; intros k d0 Hk Hd.
  - exists d0. rewrite seqZ_nil by lia. cbn [foldM]. rewrite take_ge by lia.
    by replace n with k by lia.
  - rewrite seqZ_cons by lia. cbn [foldM].
    destruct (lookup_lt_is_Some_2 vs k ltac:(lia)) as [v Hv].
    destruct (Hstep k v d0 Hv Hd) as (d1 & -> & Hd1). rewrite !bind_ok.
    destruct (IH (S k) d1) as (d2 & E2 & Hd2); [lia|done|].
    exists d2. split; [|done]. rewrite <-E2, (take_S_r vs k v) by done.
    f_equal. f_equal; lia.
Qed.

Lemma u32_mat_mul_u32 n a b : Forall (λ w, u32 w) (u32_mat_mul n a b).
Proof. apply Forall_fmap, Forall_true. intros x. apply w32_range. Qed.

(** The words of a list being overwritten from the front. *)
Lemma insert_prefix (ws m : list Z) k v : ws !! k = Some v → length m = length ws →
  take k m = take k ws → take (S k) (<[k := v]> m) = take (S k) ws.
Proof.
  intros Hv Hl Ht. pose proof (lookup_lt_Some _ _ _ Hv).
  rewrite (take_S_r (<[k := v]> m) k v) by (by rewrite list_lookup_insert_eq by lia).
  rewrite (take_S_r ws k v) by done. rewrite take_insert_ge by lia. by rewrite Ht.
Qed.

Lemma ep_wf_invalid a b o r : words44 a → words44 b → u32 o → length r = 16%nat →
  ep_wf (MatmulEp a b o r false).
Proof. intros Ha Hb Ho Hr. by split. Qed.

Lemma words44_insert m k v : words44 m → u32 v → words44 (<[k := v]> m).
Proof. intros [Hl Hf] Hv. split; [by rewrite length_insert|by apply Forall_insert]. Qed.

Lemma take_all (m ws : list Z) : length m = length ws →
  take (length ws) m = take (length ws) ws → m = ws.
Proof. intros Hl. by rewrite !take_ge by lia. Qed.

Lemma ep_set_op1 s ws : ep_wf s → words44 ws →
  ∃ s', write_words s 0x10 ws = Ok s' ∧ ep_wf s' ∧
    op1 s' = ws ∧ op2 s' = op2 s ∧ opcode s' = opcode s.
Proof.
  intros Hw [Hl Hf].
  destruct (write_words_inv (λ k s', ep_wf s' ∧ take k (op1 s') = take k ws ∧
    op2 s' = op2 s ∧ opcode s' = opcode s) 0x10 ws s) as (s' & E & Hw' & Ht & H2 & H3).
  - intros k v s0 Hv (Hw0 & Ht & H2 & H3). pose proof (lookup_lt_Some _ _ _ Hv).
    assert (u32 v) by exact (Forall_lookup_1 _ _ _ _ Hf Hv).
    rewrite ep_write_op1 by (done || lia). eexists; split; [done|]. cbn.
    destruct Hw0 as [H1 ? ? ? _]. split; [by apply ep_wf_invalid; [apply words44_insert|..]|].
    split; [|done]. apply insert_prefix; [done| |done]. destruct H1. lia.
  - done.
  - exists s'. split; [done|]. split; [done|]. split; [|done].
    apply take_all; [|done]. destruct (ep_op1 s' Hw'). lia.
Qed.

Lemma ep_set_op2 s ws : ep_wf s → words44 ws →
  ∃ s', write_words s 0x50 ws = Ok s' ∧ ep_wf s' ∧
    op1 s' = op1 s ∧ op2 s' = ws ∧ opcode s' = opcode s.
Proof.
  intros Hw [Hl Hf].
  destruct (write_words_inv (λ k s', ep_wf s' ∧ take k (op2 s') = take k ws ∧
    op1 s' = op1 s ∧ opcode s' = opcode s) 0x50 ws s) as (s' & E & Hw' & Ht & H2 & H3).
  - intros k v s0 Hv (Hw0 & Ht & H2 & H3). pose proof (lookup_lt_Some _ _ _ Hv).
    assert (u32 v) by exact (Forall_lookup_1 _ _ _ _ Hf Hv).
    rewrite ep_write_op2 by (done || lia). eexists; split; [done|]. cbn.
    destruct Hw0 as [? H1 ? ? _]. split; [by apply ep_wf_invalid; [|apply words44_insert|..]|].
    split; [|done]. apply insert_prefix; [done| |done]. destruct H1. lia.
  - done.
  - exists s'. split; [done|]. split; [done|]. split; [done|]. split; [|done].
    apply take_all; [|done]. destruct (ep_op2 s' Hw'). lia.
Qed.

Lemma ep_set_opcode s v : ep_wf s → u32 v →
  ∃ s', write_words s 0x90 [v] = Ok s' ∧ ep_wf s' ∧
    op1 s' = op1 s ∧ op2 s' = op2 s ∧ opcode s' = v.
Proof.
  intros Hw Hv.
  destruct (write_words_inv (λ k s', ep_wf s' ∧ op1 s' = op1 s ∧ op2 s' = op2 s ∧
    (k = 1%nat → opcode s' = v)) 0x90 [v] s) as (s' & E & Hw' & H1 & H2 & H3).
  - intros [|k] w s0 Hk (Hw0 & H1 & H2 & _); [|by apply lookup_nil in Hk || destruct k].
    injection Hk as <-. change (0x90 + 4 * Z.of_nat 0) with 0x90.
    rewrite (ep_write s0 0x90 v (MatmulEp (op1 s0) (op2 s0) v (result s0) false)) by done.
    eexists; split; [done|]. destruct Hw0. split; [by apply ep_wf_invalid|done].
  - by split.
  - exists s'. split; [done|]. split; [done|]. auto.
Qed.

Lemma ep_get_result s : ep_wf s → opcode s = 1 →
  ∃ s', read_words s 0xA0 16 = Ok (s', u32_mat_mul 4 (op1 s) (op2 s)) ∧ ep_wf s' ∧
    op1 s' = op1 s ∧ op2 s' = op2 s ∧ opcode s' = opcode s.
Proof.
  intros Hw Ho. assert (ep_value s = u32_mat_mul 4 (op1 s) (op2 s)) as Ev
    by (unfold ep_value; by rewrite Ho).
  destruct (read_words_inv (λ k s', ep_wf s' ∧ op1 s' = op1 s ∧ op2 s' = op2 s ∧
    opcode s' = opcode s ∧ (k = 0%nat ∨ result_valid s' = true)) 0xA0 16 (ep_value s) s)
    as (s' & E & Hw' & H1 & H2 & H3 & _).
  - rewrite Ev. apply length_u32_mat_mul.
  - intros k v s0 Hv (Hw0 & H1 & H2 & H3 & H4).
    assert (ep_value s0 = ep_value s) as E0 by (unfold ep_value; by rewrite H1, H2, H3).
    pose proof (lookup_lt_Some _ _ _ Hv) as Hk. rewrite Ev, length_u32_mat_mul in Hk.
    rewrite ep_read_result; [|done|done|done|rewrite E0, Ev; apply u32_mat_mul_u32].
    rewrite E0, (list_lookup_total_correct _ _ _ Hv). eexists; split; [done|]. cbn.
    destruct Hw0. split; [|by auto]. split; cbn; try done.
    rewrite Ev. apply length_u32_mat_mul.
  - split; [done|]. auto.
  - exists s'. rewrite <-Ev. auto.
Qed.

(** ** Properties *)

#[export] Instance endpoint_matrix_bar : MatrixBar matmul_ep := {
  mb_ok := ep_wf;
  mb_op1 := op1;
  mb_op2 := op2;
  mb_opcode := opcode;
  mb_set_op1 := ep_set_op1;
  mb_set_op2 := ep_set_op2;
  mb_set_opcode := ep_set_opcode;
  mb_get_result := ep_get_result
}.

(** C26: the endpoint multiplies.  After writing the words of two matrices from 0x10 and
    0x50 on and opcode 1 at 0x90, reading the 16 registers from 0xA0 on gives their
    product modulo 2^32, entry by entry, whatever the endpoint held before. *)
Theorem endpoint_multiplies (s : matmul_ep) (a b : list Z) :
  ep_wf s → words44 a → words44 b →
  ∃ s', (s1 ← write_words s 0x10 a; s2 ← write_words s1 0x50 b; s3 ← write_words s2 0x90 [1];
         read_words s3 0xA0 16) = Ok (s', u32_mat_mul 4 a b) ∧ ep_wf s'.
Proof.
  intros Hw Ha Hb.
  destruct (ep_set_op1 s a Hw Ha) as (s1 & -> & W1 & A1 & B1 & _). rewrite bind_ok.
  destruct (ep_set_op2 s1 b W1 Hb) as (s2 & -> & W2 & A2 & B2 & _). rewrite bind_ok.
  destruct (ep_set_opcode s2 1 W2) as (s3 & -> & W3 & A3 & B3 & O3); [done|]. rewrite bind_ok.
  destruct (ep_get_result s3 W3 O3) as (s4 & -> & W4 & _).
  exists s4. rewrite A3, A2, A1, B3, B2. done.
Qed.

Lemma endpoint_multiplies_witness :
  let a := [1; 2; 0; 0; 3; 4; 0; 0; 0; 0; 1; 0; 0; 0; 0; 0xFFFFFFFF] in
  ∃ s', (s1 ← write_words matmul_ep_init 0x10 a; s2 ← write_words s1 0x50 a;
         s3 ← write_words s2 0x90 [1]; read_words s3 0xA0 16) =
    Ok (s', [7; 10; 0; 0; 15; 22; 0; 0; 0; 0; 1; 0; 0; 0; 0; 1]).
Proof.
  intros a. destruct (endpoint_multiplies matmul_ep_init a a) as (s' & E & _).
  - by repeat split; try (by repeat constructor).
  - by split; [|repeat constructor].
  - by split; [|repeat constructor].
  - exists s'. rewrite E. vm_compute. reflexivity.
Defined.

Lemma index_cases a base : base ≤ a < base + 64 →
  ∃ k, (a - base) / 4 = Z.of_nat k ∧ (k < 16)%nat.
Proof.
  intros Ha. exists (Z.to_nat ((a - base) / 4)).
  assert (0 ≤ (a - base) / 4 < 16) by (split; [apply Z.div_pos|apply Z.div_lt_upper_bound]; lia).
  lia.
Qed.

Lemma handle_write_ok s a v : ep_wf s → u32 v →
  ∃ s', handle_write s a v = Ok s' ∧ ep_wf s' ∧
    result_valid s' = result_valid s && negb ((0x10 <=? a) && (a <=? 0x90)).
Proof.
  intros Hw Hv. unfold handle_write.
  destruct (Z.leb_spec 0x10 a) as [H1|H1], (Z.ltb_spec a 0x50) as [H2|H2],
    (Z.leb_spec 0x50 a) as [H3|H3], (Z.ltb_spec a 0x90) as [H4|H4],
    (Z.eqb_spec a 0x90) as [H5|H5], (Z.leb_spec a 0x90) as [H6|H6]; try lia; cbn [andb negb];
    rewrite ?andb_false_r, ?andb_true_r;
    try (eexists; split; [reflexivity|]; by destruct Hw);
    [destruct (index_cases a 0x10) as (k & -> & Hk)|destruct (index_cases a 0x50) as (k & -> & Hk)];
    try lia; rewrite set44_lookup, bind_ok by (done || apply Hw);
    (eexists; split; [reflexivity|]; split; [|done]);
    destruct Hw; apply ep_wf_invalid; by try apply words44_insert.
Qed.

Lemma handle_read_ok s a : ep_wf s → ∃ s' v, handle_read s a = Ok (s', v) ∧ ep_wf s'.
Proof.
  intros Hw. unfold handle_read. destruct ((0xA0 <=? a) && (a <? 0xE0)) eqn:E.
  - apply andb_true_iff in E as [H1%Z.leb_le H2%Z.ltb_lt].
    destruct (index_cases a 0xA0) as (k & -> & Hk); [lia|].
    destruct ((a =? 0xA0) && negb (result_valid s)).
    + rewrite perform_spec, bind_ok by done.
      assert (length (ep_value s) = 16%nat) as Hl.
      { unfold ep_value. destruct (_ =? _); [apply length_u32_mat_mul|done]. }
      cbn [result]. rewrite get44_lookup, bind_ok by done.
      eexists _, _. split; [reflexivity|]. by destruct Hw.
    + rewrite bind_ok, get44_lookup, bind_ok by (done || apply Hw). eauto.
  - destruct (a =? 0x90); eauto.
Qed.

(** C27: the registers and responses of the endpoint on every transaction that has a
    buffer of at least 4 bytes: it never leaves its arrays, stays well formed, rejects
    exactly the lengths other than 4 (with no effect), and a write invalidates the
    computed result exactly when it hits an operand or the opcode. *)
Theorem endpoint_transport_invariant (s : matmul_ep) (p : payload) (t : Z) :
  ep_wf s → bytes_ok (data p) → 4 ≤ Z.of_nat (length (data p)) →
  ∃ s' p' t', b_transport s p t = Ok (s', p', t') ∧ ep_wf s' ∧
    (response p' = TLM_OK_RESPONSE ↔ data_length p = 4) ∧
    (data_length p ≠ 4 → s' = s) ∧
    (data_length p = 4 → command p = TLM_WRITE_COMMAND →
       result_valid s' = result_valid s && negb ((0x10 <=? address p) && (address p <=? 0x90))).
Proof.
  intros Hw Hb Hl. unfold b_transport, matmul_ep_target, b_transport_bar0.
  destruct (Z.eqb_spec (data_length p) 4) as [H4|H4]; cbn [negb].
  2:{ eexists _, _, _. split; [done|]. by split_and!. }
  case_bool_decide as Hc.
  - rewrite memcpy_ok by (cbn; lia). rewrite bind_ok.
    change (Z.to_nat 4) with 4%nat. rewrite (drop_ge (replicate 4 0)), app_nil_r by done.
    destruct (handle_write_ok s (address p) (le_val (take 4 (data p)))) as (s' & -> & Hw' & Hr).
    { done. }
    { pose proof (le_val_range (take 4 (data p)) (Forall_take _ _ _ Hb)) as Hv.
      rewrite length_take in Hv. replace (4 `min` length (data p))%nat with 4%nat in Hv by lia. done. }
    rewrite !bind_ok. eexists _, _, _. split; [done|]. by split_and!.
  - destruct (handle_read_ok s (address p) Hw) as (s' & v & -> & Hw'). rewrite bind_ok.
    rewrite memcpy_ok by (rewrite ?length_le_bytes; lia). rewrite !bind_ok.
    eexists _, _, _. split; [done|]. by split_and!.
Qed.

Lemma endpoint_transport_invariant_witness :
  ∃ s' p' t', b_transport matmul_ep_init (request TLM_WRITE_COMMAND 0x8F [1; 0; 0; 0] 4) 0 =
    Ok (s', p', t') ∧ ep_wf s' ∧ result_valid s' = false.
Proof.
  destruct (endpoint_transport_invariant matmul_ep_init
    (request TLM_WRITE_COMMAND 0x8F [1; 0; 0; 0] 4) 0) as (s' & p' & t' & H1 & H2 & _ & _ & H3).
  - by repeat split; try (by repeat constructor).
  - by repeat constructor.
  - by vm_compute.
  - exists s', p', t'. split; [exact H1|]. split; [exact H2|]. by apply H3.
Defined.
