(* ===== verification/Concurrency.v ===== *)
(** * Concurrent calls of the driver

    [dev_ioctl] takes no lock: calls of different processes interleave at every access
    to the BAR.  A call is the list of its accesses ([accesses]), shown to be what
    [dev_ioctl] does when it runs alone; a pool of calls takes turns in any order.
    Shown here: which guarantees [MatrixMultiplier] (the endpoint of [Endpoint.v], whose
    result is computed when its first entry is read) still gives. *)

From S2P Require Import Prelude Tlm Kernel MatMul Driver Endpoint.
Local Open Scope Z_scope.

(** ** Calls as lists of accesses *)

Inductive access :=
| Rd (off : Z)
| Wr (off v : Z).

#[export] Instance access_eq_dec : EqDecision access.
Proof. solve_decision. Defined.

(** The commands, with the words that [copy_from_user] delivered. *)
Inductive ioctl_op :=
| Set_op1 (ws : list Z)
| Set_op2 (ws : list Z)
| Set_opcode (v : Z)
| Get_result.

Definition writes (base : Z) (ws : list Z) : list access :=
  (λ kw, Wr (base + 4 * kw.1) kw.2) <$> zip (seqZ 0 (Z.of_nat (length ws))) ws.

Definition accesses (op : ioctl_op) : list access :=
  match op with
  | Set_op1 ws => writes 0x10 ws
  | Set_op2 ws => writes 0x50 ws
  | Set_opcode v => writes 0x90 [v]
  | Get_result => (λ k, Rd (0xA0 + 4 * k)) <$> seqZ 0 16
  end.

Section calls.
Context {D : Type} {B : Bar D}.

Definition do_access (d : D) (a : access) : res (D * list Z) :=
  match a with
  | Rd off => '(d, v) ← ioread32 d off; Ok (d, [v])
  | Wr off v => d ← iowrite32 d off v; Ok (d, [])
  end.

(** A call on its own, with the values it reads. *)
Definition run_alone (d : D) (l : list access) : res (D * list Z) :=
  foldM (λ '(d, vs) a, '(d, v) ← do_access d a; Ok (d, vs ++ v)) (d, []) l.

(** Calls in progress: what is left of each, and what it has read. *)
Definition thread : Type := list access * list Z.

Inductive pool_step : D * list thread → D * list thread → Prop :=
| pool_access d ts i a l vs d' v :
    ts !! i = Some (a :: l, vs) → do_access d a = Ok (d', v) →
    pool_step (d, ts) (d', <[i := (l, vs ++ v)]> ts).

(** The pool under a schedule: the numbers of the threads that take a turn. *)
Fixpoint schedule (x : D * list thread) (turns : list nat) : option (D * list thread) :=
  match turns with
  | [] => Some x
  | i :: turns =>
      match x.2 !! i with
      | Some (a :: l, vs) =>
          match do_access x.1 a with
          | Ok (d, v) => schedule (d, <[i := (l, vs ++ v)]> x.2) turns
          | UB _ => None
          end
      | _ => None
      end
  end.

Lemma schedule_run turns x y : schedule x turns = Some y → rtc pool_step x y.
Proof.
  revert x. induction turns as [|i turns IH]; intros [d ts] H; cbn in H; [by simplify_eq|].
  destruct (ts !! i) as [[[|a l] vs]|] eqn:Hi; try done.
  destruct (do_access d a) as [[d' v]|] eqn:Ha; [|done].
  eapply rtc_l; [by econstructor|by apply IH].
Qed.

(** ** A call alone is [dev_ioctl] *)

Lemma alone_writes d base ws :
  run_alone d (writes base ws) = d ← write_words d base ws; Ok (d, []).
Proof.
  unfold run_alone, writes, write_words.
  generalize (zip (seqZ 0 (Z.of_nat (length ws))) ws) as l. clear ws. intros l.
  revert d. induction l as [|[k w] l IH]; intros d; cbn [fmap list_fmap foldM fst snd do_access]; [done|].
  destruct (iowrite32 d (base + 4 * k) w) as [d'|]; [|done]. rewrite !bind_ok. apply IH.
Qed.

Lemma alone_reads d : run_alone d (accesses Get_result) = read_words d 0xA0 16.
Proof.
  unfold run_alone, read_words, accesses. change (Z.of_nat 16) with 16.
  generalize (seqZ 0 16) as l. intros l. generalize (nil (A := Z)) at 1 3 as vs. revert d.
  induction l as [|k l IH]; intros d vs; cbn [fmap list_fmap foldM fst snd do_access]; [done|].
  destruct (ioread32 d (0xA0 + 4 * k)) as [[d' v]|]; [|done]. rewrite !bind_ok. apply IH.
Qed.

Context {A : IoctlAbi} {U : Type} {UM : UserMem U}.

(** The command code and the words of a call. *)
Definition op_code (op : ioctl_op) : Z :=
  match op with
  | Set_op1 _ => IOCTL_SET_OP1_MATRIX
  | Set_op2 _ => IOCTL_SET_OP2_MATRIX
  | Set_opcode _ => IOCTL_SET_OPCODE
  | Get_result => IOCTL_GET_RESULT
  end.
Definition op_bytes (op : ioctl_op) : list Z :=
  match op with
  | Set_op1 ws | Set_op2 ws => words_bytes ws
  | Set_opcode v => words_bytes [v]
  | Get_result => []
  end.
Definition op_size (op : ioctl_op) : Z := match op with Set_opcode _ => 4 | _ => 64 end.
Definition op_ok (op : ioctl_op) : Prop :=
  match op with
  | Set_op1 ws | Set_op2 ws => words44 ws
  | Set_opcode v => u32 v
  | Get_result => True
  end.

Lemma alone_ioctl (kbuf : list Z) (u : U) (d : D) (op : ioctl_op) (arg : Z) :
  length kbuf = 16%nat → op_ok op → u_mapped u arg (op_size op) →
  (op ≠ Get_result → u_load u arg (op_size op) = op_bytes op) →
  dev_ioctl kbuf u d (op_code op) arg =
    '(d, vs) ← run_alone d (accesses op);
    Ok (match op with Get_result => u_store u arg (words_bytes vs) | _ => u end, d, Ret0).
Proof.
  intros Hk Hop Hm Hl. rewrite dev_ioctl_is_spec by done. unfold ioctl_spec.
  destruct command_codes as (N1 & N2 & N3 & N4 & N5 & N6).
  destruct op as [ws|ws|v|]; cbn [op_code op_size op_bytes accesses] in *.
  - rewrite Z.eqb_refl, decide_True, Hl, bytes_words_bytes, alone_writes by (done || apply Hop).
    by destruct (write_words _ _ _).
  - rewrite (proj2 (Z.eqb_neq _ _) N1), Z.eqb_refl, decide_True, Hl, bytes_words_bytes, alone_writes
      by (done || apply Hop).
    by destruct (write_words _ _ _).
  - rewrite (proj2 (Z.eqb_neq _ _) N2), (proj2 (Z.eqb_neq _ _) N3), Z.eqb_refl, decide_True, Hl,
      bytes_words_bytes, alone_writes by (done || by apply Forall_singleton).
    by destruct (write_words _ _ _).
  - rewrite (proj2 (Z.eqb_neq _ _) N4), (proj2 (Z.eqb_neq _ _) N5), (proj2 (Z.eqb_neq _ _) N6),
      Z.eqb_refl. fold (accesses Get_result). rewrite alone_reads.
    destruct (read_words d 0xA0 16) as [[d' ws]|]; [|done]. rewrite !bind_ok.
    by rewrite decide_True.
Qed.
End calls.

(** ** The endpoint under concurrent calls *)

Definition access_ok (a : access) : Prop := match a with Wr _ v => u32 v | Rd _ => True end.

(** An access that can start the multiplication, and one that can change its outcome. *)
Definition is_trigger (a : access) : bool := match a with Rd off => off =? 0xA0 | _ => false end.
Definition is_setter (a : access) : bool :=
  match a with Wr off _ => (0x10 <=? off) && (off <=? 0x90) | _ => false end.

Lemma length_ep_value s : length (ep_value s) = 16%nat.
Proof. unfold ep_value. destruct (_ =? _); [apply length_u32_mat_mul|done]. Qed.

Lemma ep_value_u32 s : Forall (λ w, u32 w) (ep_value s).
Proof. unfold ep_value. destruct (_ =? _); [apply u32_mat_mul_u32|by repeat constructor]. Qed.

Lemma ep_read_state s off s' w : handle_read s off = Ok (s', w) →
  ∃ v, ioread32 s off = Ok (s', v).
Proof.
  intros E. unfold ioread32, target_bar, b_transport, matmul_ep_target, b_transport_bar0.
  cbn [data_length request Z.eqb Pos.eqb negb command data address].
  rewrite bool_decide_eq_false_2, E, bind_ok, memcpy_all, !bind_ok by
    (rewrite ?length_le_bytes; done). by eexists.
Qed.

Lemma handle_read_effect s off s' w : ep_wf s → handle_read s off = Ok (s', w) →
  ep_value s' = ep_value s ∧ (result_valid s = true → result_valid s' = true) ∧
  (off ≠ 0xA0 ∨ result_valid s = true → result s' = result s).
Proof.
  intros Hw H. unfold handle_read in H.
  destruct ((0xA0 <=? off) && (off <? 0xE0)); [|by destruct (off =? 0x90); simplify_eq].
  destruct ((off =? 0xA0) && negb (result_valid s)) eqn:Hc.
  - rewrite perform_spec, bind_ok in H by done.
    apply bind_inv in H as (v & _ & H). simplify_eq.
    apply andb_true_iff in Hc as [->%Z.eqb_eq Hv%negb_true_iff].
    split; [done|]. split; [done|]. intros [?|?]; congruence.
  - rewrite bind_ok in H. apply bind_inv in H as (v & _ & H). by simplify_eq.
Qed.

Lemma handle_write_effect s off v s' : handle_write s off v = Ok s' →
  result s' = result s ∧ ((0x10 <=? off) && (off <=? 0x90) = false → s' = s).
Proof.
  intros H. unfold handle_write in H.
  destruct (Z.leb_spec 0x10 off) as [H1|H1], (Z.ltb_spec off 0x50) as [H2|H2],
    (Z.leb_spec 0x50 off) as [H3|H3], (Z.ltb_spec off 0x90) as [H4|H4],
    (Z.eqb_spec off 0x90) as [H5|H5], (Z.leb_spec off 0x90) as [H6|H6]; try lia; cbn [andb] in H |- *;
    try (by simplify_eq); apply bind_inv in H as (m & _ & H); by simplify_eq.
Qed.

(** What an access of some call leaves alone. *)
Lemma endpoint_access (s s' : matmul_ep) a v : ep_wf s → access_ok a →
  do_access s a = Ok (s', v) →
  ep_wf s' ∧
  (is_trigger a = false ∨ result_valid s = true → result s' = result s) ∧
  (is_setter a = false → ep_value s' = ep_value s ∧
     (result_valid s = true → result_valid s' = true)).
Proof.
  intros Hw Ha H. destruct a as [off|off w]; cbn [do_access is_trigger is_setter] in H |- *.
  - destruct (handle_read_ok s off Hw) as (s1 & w & E & Hw1).
    destruct (ep_read_state _ _ _ _ E) as [v1 Er]. rewrite Er in H. cbn in H. simplify_eq.
    destruct (handle_read_effect _ _ _ _ Hw E) as (H1 & H2 & H3).
    split; [done|]. split; [|done]. intros [Hoff%Z.eqb_neq|Hv]; apply H3; auto.
  - destruct (handle_write_ok s off w Hw Ha) as (s1 & E & Hw1 & Hr).
    rewrite (ep_write s off w s1 Ha E) in H. cbn in H. simplify_eq.
    destruct (handle_write_effect _ _ _ _ E) as [H1 H2].
    split; [done|]. split; [done|]. intros Hs. by rewrite (H2 Hs).
Qed.

(** The accesses of GET_RESULT: the first fixes the values of all. *)
Lemma get_result_lookup k : (k < 16)%nat →
  accesses Get_result !! k = Some (Rd (0xA0 + 4 * Z.of_nat k)).
Proof.
  intros Hk. cbn [accesses]. rewrite list_lookup_fmap.
  rewrite lookup_seqZ_lt by lia. done.
Qed.

Lemma length_get_result : length (accesses Get_result) = 16%nat.
Proof. done. Qed.

Lemma reader_first s s' v : ep_wf s → do_access s (Rd 0xA0) = Ok (s', v) →
  v = [ep_value s !!! 0%nat] ∧ result s' = ep_value s ∧ result_valid s' = true.
Proof.
  intros Hw H. cbn [do_access] in H. change 0xA0 with (0xA0 + 4 * Z.of_nat 0) in H.
  rewrite (ep_read_result s 0 Hw) in H; [|lia|by left|apply ep_value_u32].
  rewrite bind_ok in H. by simplify_eq.
Qed.

Lemma reader_next s k s' v : length (result s) = 16%nat → Forall (λ w, u32 w) (result s) →
  (0 < k < 16)%nat → do_access s (Rd (0xA0 + 4 * Z.of_nat k)) = Ok (s', v) →
  v = [result s !!! k] ∧ s' = s.
Proof.
  intros Hl Hu Hk H. cbn [do_access] in H.
  rewrite (ep_read s _ s (result s !!! k)) in H; [rewrite bind_ok in H; by simplify_eq| |].
  - apply (Forall_lookup_1 _ _ k _ Hu), list_lookup_lookup_total_lt. lia.
  - unfold handle_read. rewrite (proj2 (Z.leb_le _ _)), (proj2 (Z.ltb_lt _ _)) by lia. cbn [andb].
    rewrite (proj2 (Z.eqb_neq _ _)) by lia. cbn [andb]. rewrite bind_ok.
    replace ((0xA0 + 4 * Z.of_nat k - 0xA0) / 4) with (Z.of_nat k)
      by (apply (Z.div_unique _ _ _ 0); lia).
    by rewrite get44_lookup by (done || lia).
Qed.

(** The other calls of the pool: either none of them is a GET_RESULT, or all are. *)
Definition others (only_writers : bool) (l : list access) : Prop :=
  Forall access_ok l ∧
  Forall (λ a, (if only_writers then is_trigger a else is_setter a) = false) l.

(** Every SET is of the first kind, a GET_RESULT of the second. *)
Lemma set_others op : op ≠ Get_result → op_ok op → others true (accesses op).
Proof.
  assert (∀ base ws, Forall (λ w, u32 w) ws → others true (writes base ws)) as Hw.
  { intros base ws Hws. unfold writes.
    split; apply Forall_fmap, Forall_forall; [|done]. intros [k w] Hk. cbn.
    apply elem_of_zip_r in Hk. by apply (Forall_forall _ _) with (x := w) in Hws. }
  destruct op as [ws|ws|v|]; intros Hne Hop; cbn [accesses]; try done; apply Hw;
    [apply Hop|apply Hop|by apply Forall_singleton].
Qed.

Lemma get_others : others false (accesses Get_result).
Proof. by split; repeat constructor. Qed.

Section snapshot.
Variables (s0 : matmul_ep) (ts0 : list thread) (i : nat) (mode : bool).

Definition reading (x : matmul_ep * list thread) : Prop :=
  let '(s, ts) := x in
  ep_wf s ∧ (∀ j t, j ≠ i → ts !! j = Some t → others mode t.1) ∧
  (ts !! i = Some (accesses Get_result, []) ∨
   ∃ k s1 ts1, (1 ≤ k ≤ 16)%nat ∧
     ts !! i = Some (drop k (accesses Get_result), take k (ep_value s1)) ∧
     result s = ep_value s1 ∧ (mode = false → result_valid s = true) ∧
     rtc pool_step (s0, ts0) (s1, ts1) ∧ rtc pool_step (s1, ts1) (s, ts) ∧ ep_wf s1).

Lemma reading_step x y : rtc pool_step (s0, ts0) x → reading x → pool_step x y → reading y.
Proof.
  intros Hx Hrd Hs. pose proof Hs as Hs'.
  destruct Hs as [s ts j a l vs s' v Hj Ha]. destruct Hrd as (Hw & Hoth & Hi).
  destruct (decide (j = i)) as [->|Hne].
  - assert (∀ (t : thread) j t', j ≠ i → <[i := t]> ts !! j = Some t' → others mode t'.1) as Hoth'.
    { intros t j t' Hji. rewrite list_lookup_insert_ne by done. by apply Hoth. }
    assert (i < length ts)%nat as Hlt by (by apply lookup_lt_Some in Hj).
    destruct Hi as [Hi|(k & s1 & ts1 & Hk & Hi & Hr & Hv & R1 & R2 & Hw1)]; rewrite Hi in Hj.
    + injection Hj as <- <- <-. change (0xA0 + 4 * 0) with 0xA0 in Ha.
      destruct (endpoint_access s s' (Rd 0xA0) v Hw) as (Hw' & _); [done|done|].
      destruct (reader_first s s' v Hw Ha) as (-> & Hr & Hv).
      split; [done|]. split; [by eauto|]. right. exists 1%nat, s, ts.
      split; [lia|]. split; [|split_and!; try done; by apply rtc_once].
      rewrite list_lookup_insert_eq by done. do 2 f_equal.
      pose proof (length_ep_value s) as Hl. by destruct (ep_value s).
    + assert (k < 16)%nat as Hk16.
      { destruct (decide (k < 16)%nat); [done|].
        by rewrite (drop_ge (accesses Get_result)) in Hj by (rewrite length_get_result; lia). }
      rewrite (drop_S _ _ _ (get_result_lookup k Hk16)) in Hj. injection Hj as <- <- <-.
      destruct (endpoint_access s s' (Rd (0xA0 + 4 * Z.of_nat k)) v Hw) as (Hw' & _); [done|done|].
      apply reader_next in Ha as [-> ->];
        [|by rewrite Hr, length_ep_value|rewrite Hr; apply ep_value_u32|lia].
      split; [done|]. split; [by eauto|]. right. exists (S k), s1, ts1.
      split; [lia|]. split; [|split_and!; try done; by eapply rtc_r].
      rewrite list_lookup_insert_eq by done. do 2 f_equal. rewrite Hr.
      rewrite (take_S_r _ k (ep_value s1 !!! k)); [done|].
      apply list_lookup_lookup_total_lt. rewrite length_ep_value. lia.
  - destruct (Hoth j _ Hne Hj) as [Hok Hcalm]. cbn [fst] in Hok, Hcalm.
    apply Forall_cons in Hok as [Hok Hokl]. apply Forall_cons in Hcalm as [Hcalm Hcalml].
    destruct (endpoint_access s s' a v Hw Hok Ha) as (Hw' & Hres & Hset).
    split; [done|]. split.
    { intros j' t Hne' Ht. destruct (decide (j' = j)) as [->|?].
      - rewrite list_lookup_insert_eq in Ht by (by apply lookup_lt_Some in Hj).
        injection Ht as <-. by split.
      - rewrite list_lookup_insert_ne in Ht by done. by apply (Hoth j'). }
    rewrite list_lookup_insert_ne by done.
    destruct Hi as [Hi|(k & s1 & ts1 & Hk & Hi & Hr & Hv & R1 & R2 & Hw1)]; [by left|right].
    exists k, s1, ts1. split; [done|]. split; [done|]. split.
    { rewrite Hres; [done|]. destruct mode; auto. }
    split; [intros ->; by apply Hset, Hv|]. split_and!; try done. by eapply rtc_r.
Qed.

Lemma reading_run x : reading (s0, ts0) → rtc pool_step (s0, ts0) x → reading x.
Proof.
  intros H0. apply (rtc_ind_r reading (s0, ts0)); [done|].
  intros y z Hy Hs Hr. by apply (reading_step y).
Qed.
End snapshot.

(** ** Properties *)

(** C15: a GET_RESULT among concurrent calls is atomic, although the driver takes no lock:
    its 16 reads, interleaved with the accesses of the other calls in any order, return
    what the endpoint owes for the operands and the opcode at one moment during the call
    (the product, or all ones if the opcode is not 1).  This holds as long as the other
    calls are either all SETs, or none of them is (any number of GET_RESULTs). *)
Theorem get_result_snapshot (s0 s : matmul_ep) (ts0 ts : list thread) (i : nat) (mode : bool) vs :
  ep_wf s0 → ts0 !! i = Some (accesses Get_result, []) →
  (∀ j t, j ≠ i → ts0 !! j = Some t → others mode t.1) →
  rtc pool_step (s0, ts0) (s, ts) → ts !! i = Some ([], vs) →
  ∃ s1 ts1, rtc pool_step (s0, ts0) (s1, ts1) ∧ rtc pool_step (s1, ts1) (s, ts) ∧
    ep_wf s1 ∧ vs = ep_value s1.
Proof.
  intros Hw Hi Hoth Hr Hdone.
  destruct (reading_run s0 ts0 i mode (s, ts)) as (_ & _ & [H|H]);
    [by split_and!; [..|left]|done|by rewrite H in Hdone|].
  destruct H as (k & s1 & ts1 & Hk & H & _ & _ & R1 & R2 & Hw1).
  exists s1, ts1. split_and!; try done. rewrite Hdone in H.
  assert ([] = drop k (accesses Get_result) ∧ vs = take k (ep_value s1)) as [Hd ->]
    by (split; congruence).
  apply (f_equal length) in Hd. rewrite length_drop, length_get_result in Hd. cbn in Hd.
  apply take_ge. rewrite length_ep_value. lia.
Qed.

(** ** Executions *)

Definition call (op : ioctl_op) : thread := (accesses op, []).
Definition ones : list Z := replicate 16 1.
Definition twos : list Z := replicate 16 2.
Definition ready : matmul_ep := MatmulEp ones ones 1 (replicate 16 0) false.

(** A reader, and a writer that runs after the reader's fifth read: the reader still sees
    the old product, all fours. *)
Lemma get_result_snapshot_witness :
  ∃ s ts, schedule (ready, [call Get_result; call (Set_op1 twos)])
      (replicate 5 0%nat ++ replicate 16 1%nat ++ replicate 11 0%nat) = Some (s, ts) ∧
    ts !! 0%nat = Some ([], replicate 16 4) ∧
    ∃ s1, ep_wf s1 ∧ replicate 16 4 = ep_value s1.
Proof.
  destruct (schedule (ready, [call Get_result; call (Set_op1 twos)])
      (replicate 5 0%nat ++ replicate 16 1%nat ++ replicate 11 0%nat)) as [[s ts]|] eqn:He;
    [|vm_compute in He; discriminate He].
  exists s, ts. split; [done|].
  assert (ts !! 0%nat = Some ([], replicate 16 4)) as Hd
    by (vm_compute in He; injection He as <- <-; by vm_compute).
  split; [exact Hd|]. apply schedule_run in He.
  destruct (get_result_snapshot ready s [call Get_result; call (Set_op1 twos)] ts 0 true
    (replicate 16 4)) as (s1 & ts1 & _ & _ & Hw & E).
  - by repeat split; try (by repeat constructor).
  - reflexivity.
  - intros [|[|j]] t Hj Ht; [done| |done]. injection Ht as <-. by repeat constructor.
  - exact He.
  - exact Hd.
  - exists s1. split; [exact Hw|exact E].
Defined.

(** What is not atomic.  Two concurrent SET_OP1 calls can leave an operand that is
    neither of the two matrices; and with two concurrent GET_RESULTs and a SET_OP1, the
    first can return a matrix that is the product of no moment: rows of the old product
    followed by rows of the new one. *)
Theorem concurrent_calls_tear :
  (∃ s ts, schedule (ready, [call (Set_op1 (replicate 16 3)); call (Set_op1 twos)])
      (replicate 8 0%nat ++ replicate 16 1%nat ++ replicate 8 0%nat) = Some (s, ts) ∧
    op1 s = replicate 8 2 ++ replicate 8 3) ∧
  (∃ s ts, schedule (ready, [call Get_result; call (Set_op1 twos); call Get_result])
      (replicate 8 0%nat ++ replicate 16 1%nat ++ replicate 16 2%nat ++ replicate 8 0%nat) =
      Some (s, ts) ∧
    (snd <$> ts) = [replicate 8 4 ++ replicate 8 8; []; replicate 16 8]).
Proof. split; eexists _, _; (split; [vm_compute; reflexivity|reflexivity]). Qed.
