(* ===== verification/Adapter.v ===== *)
(** * The remote-port adapter

    [PCIeRPAdapter] of [main.cc]: requests that fall into the window of BAR 0 go on to the
    target behind [rp_init_socket] at their offset in it, and requests from the device
    are answered by a stub.  The module is commented out in this revision, and even there
    [b_transport_from_qemu] is registered with no socket: the two callbacks are modelled
    by themselves, over any target, and no path from QEMU to the endpoint is claimed. *)

From S2P Require Import Prelude Tlm HostMemory PciConfig.
Local Open Scope Z_scope.

(** The data members; [rst_signal] is only written once. *)
Record rp_adapter := RpAdapter {
  bar_base_address : Z;
  bar_size : Z
}.

(** The adapter of [PCIeCoSimTop]. *)
Definition cosim_adapter : rp_adapter := RpAdapter 0x0 0x100000.

Section adapter.
Context {S : Type} {T : Target S}.

(** [s] is the state behind [rp_init_socket]; the inner transaction uses the data buffer
    of the outer one. *)
Definition b_transport_from_qemu (a : rp_adapter) (s : S) (trans : payload) (delay : Z)
    : res (S * payload * Z) :=
  let addr := address trans in
  if (addr <? bar_base_address a) || (w64 (bar_base_address a + bar_size a) <=? addr) then
    Ok (s, set_response TLM_ADDRESS_ERROR_RESPONSE trans, delay)
  else
    let bar_offset := w64 (addr - bar_base_address a) in
    let pcie_trans := request (command trans) bar_offset (data trans) (data_length trans) in
    '(s, pcie_trans, pcie_delay) ← b_transport s pcie_trans delay;
    Ok (s, set_response (response pcie_trans) (set_data (data pcie_trans) trans), pcie_delay).

(** The upstream callback. *)
Definition b_transport_from_pcie (trans : payload) (delay : Z) : payload * Z :=
  (set_response TLM_OK_RESPONSE trans, delay).

(** What the window lets through. *)
Definition in_window (a : rp_adapter) (addr : Z) : bool :=
  (bar_base_address a <=? addr) && (addr <? bar_base_address a + bar_size a).

Lemma window_check a addr : u64 addr → u64 (bar_base_address a) → u64 (bar_size a) →
  (addr <? bar_base_address a) || (w64 (bar_base_address a + bar_size a) <=? addr) =
    negb (in_window a addr && (bar_base_address a + bar_size a <? 2 ^ 64)).
Proof.
  intros Ha [Hb1 Hb2] [Hs1 Hs2]. unfold in_window. destruct Ha.
  destruct (Z.ltb_spec (bar_base_address a + bar_size a) (2 ^ 64)) as [Hw|Hw].
  - rewrite w64_id, andb_true_r by lia.
    destruct (Z.ltb_spec addr (bar_base_address a)),
      (Z.leb_spec (bar_base_address a + bar_size a) addr),
      (Z.leb_spec (bar_base_address a) addr),
      (Z.ltb_spec addr (bar_base_address a + bar_size a)); done || lia.
  - assert (w64 (bar_base_address a + bar_size a) = bar_base_address a + bar_size a - 2 ^ 64) as ->.
    { unfold w64. rewrite <-(Z.mod_add _ (-1)) by lia. rewrite Z.mod_small; lia. }
    rewrite andb_false_r. cbn [negb].
    destruct (Z.ltb_spec addr (bar_base_address a)); [done|]. cbn [orb]. apply Z.leb_le. lia.
Qed.

(** The downstream target, moved to an address in the window. *)
Lemma from_qemu_in_window a s p t : u64 (address p) →
  u64 (bar_base_address a) → u64 (bar_size a) → bar_base_address a + bar_size a < 2 ^ 64 →
  in_window a (address p) = true →
  b_transport_from_qemu a s p t =
    '(s, q, t) ← b_transport s
       (request (command p) (address p - bar_base_address a) (data p) (data_length p)) t;
    Ok (s, set_response (response q) (set_data (data q) p), t).
Proof.
  intros Hp Hb Hs Hw Hin. unfold b_transport_from_qemu.
  rewrite window_check, Hin, (proj2 (Z.ltb_lt _ _)) by done. cbn [andb negb].
  unfold in_window in Hin. destruct Hb, Hp, Hs. rewrite andb_true_iff, Z.leb_le in Hin.
  by rewrite w64_id by lia.
Qed.
End adapter.

(** The window of the adapter of [PCIeCoSimTop] is BAR 0 as configured there. *)
Lemma cosim_window_is_bar0 flags :
  bar_bytes (cosim_config flags) 0 = Some (bar_size cosim_adapter) ∧
  ∀ addr, in_window cosim_adapter addr = (0 <=? addr) && (addr <? bar_size cosim_adapter).
Proof. done. Qed.

(** ** Properties *)

(** C30: the window of the adapter.  A request reaches the target exactly if its address
    lies in the window and the window ends below 2^64; it arrives at its offset in the
    window, with the same command, buffer and length, and the answer is passed back.
    Every other request gets the address error and nothing else happens: a window that
    reaches the top of the address space lets nothing through, because its end wraps
    around.  Either way the request attributes are left alone and a response is set. *)
Theorem adapter_window {S : Type} {T : Target S} {WB : WellBehaved S}
    (a : rp_adapter) (s s' : S) (p p' : payload) (t t' : Z) :
  u64 (address p) → u64 (bar_base_address a) → u64 (bar_size a) →
  b_transport_from_qemu a s p t = Ok (s', p', t') →
  answers p p' ∧ t ≤ t' ∧
  if in_window a (address p) && (bar_base_address a + bar_size a <? 2 ^ 64) then
    ∃ q, b_transport s
        (request (command p) (address p - bar_base_address a) (data p) (data_length p)) t =
        Ok (s', q, t') ∧ response p' = response q ∧ data p' = data q
  else s' = s ∧ t' = t ∧ data p' = data p ∧ response p' = TLM_ADDRESS_ERROR_RESPONSE.
Proof.
  intros Hp Hb Hs Ht.
  destruct (in_window a (address p) && (bar_base_address a + bar_size a <? 2 ^ 64)) eqn:Hw.
  - apply andb_true_iff in Hw as [Hin Hw%Z.ltb_lt]. rewrite from_qemu_in_window in Ht by done.
    apply bind_inv in Ht as ([[s1 q] t1] & E & Ht). simplify_eq.
    pose proof (transport_answers _ _ _ _ _ _ E) as [(Hc & Ha & Hl & Hd & Hr) Hle].
    split; [by split_and!|]. split; [done|]. by exists q.
  - unfold b_transport_from_qemu in Ht. rewrite window_check, Hw in Ht by done. cbn in Ht.
    by simplify_eq.
Qed.

(** A word behind a window at 0x1000, and a window that ends at 2^64. *)
Definition word_memory : host_memory := store (HostMemory 64 ∅) 0x10 [1; 2; 3; 4].
Definition word_request : payload := request TLM_READ_COMMAND 0x1010 [0; 0; 0; 0] 4.

Lemma adapter_window_witness :
  (∃ s' p' t', b_transport_from_qemu (RpAdapter 0x1000 64) word_memory word_request 0 =
     Ok (s', p', t') ∧ data p' = [1; 2; 3; 4] ∧ answers word_request p') ∧
  (∃ s' p' t', b_transport_from_qemu (RpAdapter 0x1000 (2 ^ 64 - 0x1000)) word_memory word_request 0 =
     Ok (s', p', t') ∧ response p' = TLM_ADDRESS_ERROR_RESPONSE).
Proof.
  split.
  - destruct (b_transport_from_qemu (RpAdapter 0x1000 64) word_memory word_request 0)
      as [[[s' p'] t']|] eqn:E; [|vm_compute in E; discriminate E].
    exists s', p', t'. split; [done|]. split; [vm_compute in E; by injection E as <- <- <-|].
    refine (proj1 (adapter_window _ _ _ _ _ _ _ _ _ _ E)); split; vm_compute; done || congruence.
  - destruct (b_transport_from_qemu (RpAdapter 0x1000 (2 ^ 64 - 0x1000)) word_memory word_request 0)
      as [[[s' p'] t']|] eqn:E; [|vm_compute in E; discriminate E].
    exists s', p', t'. split; [done|].
    refine (proj2 (proj2 (proj2 (proj2 (proj2 (adapter_window _ _ _ _ _ _ _ _ _ _ E))))));
      split; vm_compute; done || congruence.
Defined.
