(* ===== verification/App.v ===== *)
(** * The user-space application

    [main] of [app.c], over any operating system that offers [open], [ioctl] and
    [close] on a user memory.  The four locals that the program passes to [ioctl] live
    in user memory, at the addresses of [frame]. *)

From S2P Require Import Prelude Kernel.
Local Open Scope Z_scope.

(** [sys_ioctl] may go through a model with undefined behaviour, hence the [res]; the
    other results are a file descriptor or an error. *)
Class Sys (K U : Type) := {
  sys_open : K → K * Z;
  sys_ioctl : K → U → Z → Z → Z → res (K * U * Z);
  sys_close : K → Z → K
}.

(** The application has its own copies of the command macros. *)
Section codes.
Context {A : IoctlAbi}.
Definition CPCIDEV_MAGIC : Z := 0x63.
Definition IOCTL_SET_OP1_MATRIX : Z := IOW CPCIDEV_MAGIC 1 64.
Definition IOCTL_SET_OP2_MATRIX : Z := IOW CPCIDEV_MAGIC 2 64.
Definition IOCTL_GET_RESULT : Z := IOR CPCIDEV_MAGIC 3 64.
Definition IOCTL_SET_OPCODE : Z := IOW CPCIDEV_MAGIC 4 4.
End codes.

(** The addresses of [A], [B], [C] and [opcode]. *)
Record frame := Frame { addr_A : Z; addr_B : Z; addr_C : Z; addr_opcode : Z }.

Definition app_A : list Z :=
  [122; 2; 3; 4;
   57; 6; 7; 82;
   9; 171; 252; 37;
   4; 52; 6; 7].
Definition app_B : list Z :=
  [1; 100; 0; 0;
   100; 1; 0; 0;
   0; 20; 1; 0;
   0; 0; 0; 301].

Section app.
Context {A : IoctlAbi} {K U : Type} {UM : UserMem U} {S : Sys K U}.
Variable f : frame.

(** The initialised locals. *)
Definition app_locals (u : U) : U :=
  let u := u_store u (addr_A f) (words_bytes app_A) in
  let u := u_store u (addr_B f) (words_bytes app_B) in
  let u := u_store u (addr_C f) (words_bytes (replicate 16 0)) in
  u_store u (addr_opcode f) (le_bytes 4 1).

(** The system, user memory, the exit status, and the matrix printed at the end. *)
Definition app_result : Type := K * U * Z * option (list Z).

(** [close(fd); return 1;] *)
Definition app_fail (k : K) (u : U) (fd : Z) : res app_result := Ok (sys_close k fd, u, 1, None).

Definition app_main (k : K) (u : U) : res app_result :=
  let u := app_locals u in
  let '(k, fd) := sys_open k in
  if fd <? 0 then Ok (k, u, 1, None)
  else
    '(k, u, ret) ← sys_ioctl k u fd IOCTL_SET_OP1_MATRIX (addr_A f);
    if ret <? 0 then app_fail k u fd
    else
      '(k, u, ret) ← sys_ioctl k u fd IOCTL_SET_OP2_MATRIX (addr_B f);
      if ret <? 0 then app_fail k u fd
      else
        '(k, u, ret) ← sys_ioctl k u fd IOCTL_SET_OPCODE (addr_opcode f);
        if ret <? 0 then app_fail k u fd
        else
          '(k, u, ret) ← sys_ioctl k u fd IOCTL_GET_RESULT (addr_C f);
          if ret <? 0 then app_fail k u fd
          else Ok (sys_close k fd, u, 0, Some (bytes_words (u_load u (addr_C f) 64))).
End app.

(** ** The calls the application makes *)

Inductive call :=
| Call_open (fd : Z)
| Call_ioctl (fd cmd arg ret : Z)
| Call_close (fd : Z).

(** Any system, with a record of the calls made to it. *)
#[export] Instance logged_sys {K U} {S : Sys K U} : Sys (K * list call) U | 5 := {
  sys_open k := let '(k', fd) := sys_open k.1 in (k', k.2 ++ [Call_open fd], fd);
  sys_ioctl k u fd cmd arg :=
    '(k', u, ret) ← sys_ioctl k.1 u fd cmd arg;
    Ok (k', k.2 ++ [Call_ioctl fd cmd arg ret], u, ret);
  sys_close k fd := (sys_close k.1 fd, k.2 ++ [Call_close fd])
}.

Section properties.
Context {A : IoctlAbi} {K U : Type} {UM : UserMem U} {S : Sys K U}.

(** The commands in order, with their arguments. *)
Definition app_commands (f : frame) : list (Z * Z) :=
  [(IOCTL_SET_OP1_MATRIX, addr_A f); (IOCTL_SET_OP2_MATRIX, addr_B f);
   (IOCTL_SET_OPCODE, addr_opcode f); (IOCTL_GET_RESULT, addr_C f)].

(** The first [n] commands, with the results [rets]. *)
Definition ioctl_calls (f : frame) (fd : Z) (rets : list Z) : list call :=
  zip_with (λ '(cmd, arg) ret, Call_ioctl fd cmd arg ret) (app_commands f) rets.

Lemma logged_ioctl (k : K) log (u : U) fd cmd arg x u' ret :
  sys_ioctl (k, log) u fd cmd arg = Ok (x, u', ret) →
  ∃ k', x = (k', log ++ [Call_ioctl fd cmd arg ret]).
Proof.
  unfold sys_ioctl, logged_sys. cbn [fst snd]. intros H.
  apply bind_inv in H as ([[k' u1] r] & _ & H). simplify_eq. by eexists.
Qed.

Lemma Forall_snoc_neg (l : list Z) (x : Z) : x < 0 → ¬ Forall (λ r, 0 ≤ r) (l ++ [x]).
Proof. intros Hx [_ [H _]%Forall_cons]%Forall_app. lia. Qed.

(** C31: the calls of the application and its exit status, whatever the system answers.
    If [open] fails there is no further call and the status is 1.  Otherwise it issues
    SET_OP1, SET_OP2, SET_OPCODE and GET_RESULT in this order, each only if all before
    it succeeded, then closes the descriptor exactly once, last; the status is 0, and a
    matrix is printed, exactly if all four succeeded. *)
Theorem app_calls (f : frame) (k k' : K) (u u' : U) log code out :
  app_main f (k, []) u = Ok (k', log, u', code, out) →
  (∃ fd, fd < 0 ∧ log = [Call_open fd] ∧ code = 1 ∧ out = None) ∨
  (∃ fd rets, 0 ≤ fd ∧ (0 < length rets ≤ 4)%nat ∧
     log = Call_open fd :: ioctl_calls f fd rets ++ [Call_close fd] ∧
     (∀ i ret, rets !! i = Some ret → (i + 1 < length rets)%nat → 0 ≤ ret) ∧
     if decide (Forall (λ ret, 0 ≤ ret) rets)
     then length rets = 4%nat ∧ code = 0 ∧ out = Some (bytes_words (u_load u' (addr_C f) 64))
     else code = 1 ∧ out = None).
Proof.
  unfold app_main, app_fail. cbn [sys_open logged_sys fst snd app].
  destruct (sys_open k) as [k0 fd]. destruct (Z.ltb_spec fd 0) as [Hfd|Hfd].
  { intros E. simplify_eq. left. by eexists. }
  intros H. right. exists fd.
  apply bind_inv in H as ([[x u1] r1] & H1 & H). apply logged_ioctl in H1 as [k1 ->].
  destruct (Z.ltb_spec r1 0) as [G1|G1].
  { simplify_eq. exists [r1]. rewrite decide_False by apply (Forall_snoc_neg []), G1.
    split_and!; cbn; try (done || lia). all: intros [|[]]; cbn; naive_solver lia. }
  apply bind_inv in H as ([[x u2] r2] & H2 & H). apply logged_ioctl in H2 as [k2 ->].
  destruct (Z.ltb_spec r2 0) as [G2|G2].
  { simplify_eq. exists [r1; r2]. rewrite decide_False by apply (Forall_snoc_neg [r1]), G2.
    split_and!; cbn; try (done || lia). all: intros [|[|]]; cbn; naive_solver lia. }
  apply bind_inv in H as ([[x u3] r3] & H3 & H). apply logged_ioctl in H3 as [k3 ->].
  destruct (Z.ltb_spec r3 0) as [G3|G3].
  { simplify_eq. exists [r1; r2; r3]. rewrite decide_False by apply (Forall_snoc_neg [r1; r2]), G3.
    split_and!; cbn; try (done || lia). all: intros [|[|[|]]]; cbn; naive_solver lia. }
  apply bind_inv in H as ([[x u4] r4] & H4 & H). apply logged_ioctl in H4 as [k4 ->].
  destruct (Z.ltb_spec r4 0) as [G4|G4].
  { simplify_eq. exists [r1; r2; r3; r4].
    rewrite decide_False by apply (Forall_snoc_neg [r1; r2; r3]), G4.
    split_and!; cbn; try (done || lia). all: intros [|[|[|[|]]]]; cbn; naive_solver lia. }
  simplify_eq. exists [r1; r2; r3; r4]. rewrite decide_True by (repeat constructor; lia).
  split_and!; cbn; try (done || lia). all: intros [|[|[|[|]]]]; cbn; naive_solver lia.
Qed.
End properties.

(** A system that answers from a script. *)
Definition scripted_sys {U} : Sys (list Z) U := {|
  sys_open k := (tail k, default (-1) (head k));
  sys_ioctl k u _ _ _ := Ok (tail k, u, default (-1) (head k));
  sys_close k _ := k
|}.

(** Four locals one after the other. *)
Definition app_frame : frame := Frame 0 64 128 192.

(** The second command fails. *)
Lemma app_calls_witness :
  ∃ k' log u' code out,
    app_main (S := logged_sys (S := scripted_sys)) app_frame ([3; 0; -1], []) (∅ : flat) =
      Ok (k', log, u', code, out) ∧
    log = [Call_open 3; Call_ioctl 3 IOCTL_SET_OP1_MATRIX 0 0;
           Call_ioctl 3 IOCTL_SET_OP2_MATRIX 64 (-1); Call_close 3] ∧ code = 1.
Proof.
  assert (match app_main (S := logged_sys (S := scripted_sys)) app_frame ([3; 0; -1], []) (∅ : flat) with
    | Ok (_, log, _, _, _) =>
        log = [Call_open 3; Call_ioctl 3 IOCTL_SET_OP1_MATRIX 0 0;
               Call_ioctl 3 IOCTL_SET_OP2_MATRIX 64 (-1); Call_close 3]
    | UB _ => False
    end) as Hl by (vm_compute; reflexivity).
  destruct (app_main (S := logged_sys (S := scripted_sys)) app_frame ([3; 0; -1], []) (∅ : flat))
    as [[[[[k' log] u'] code] out]|] eqn:E; [|done].
  exists k', log, u', code, out. split; [done|]. split; [done|].
  destruct (app_calls (S := scripted_sys) app_frame _ _ _ _ _ _ _ E)
    as [(fd & _ & Hc & _)|(fd & rets & _ & _ & Hc & _ & H)]; [congruence|].
  destruct (decide _) as [Hf|_]; [|by destruct H].
  exfalso. destruct H as (H4 & _). rewrite Hl in Hc.
  destruct rets as [|a [|b [|c [|d [|]]]]]; discriminate.
Defined.
