(* ===== verification/Integration.v ===== *)
(** * Application, driver and device together

    [app.c] on top of [dev_ioctl], on top of a BAR.  Between the three are the system
    call layer, the C library and QEMU, which are outside the repository: opening the
    device file succeeds, [ioctl] runs [dev_ioctl] and turns an error into -1, and a
    32-bit access to the BAR arrives at the endpoint as one transaction of 4 bytes.
    Over the contract [MatrixBar] the application prints the product; then come the
    endpoints of this revision, which do not keep the contract. *)

From S2P Require Import Prelude Tlm Kernel Chardev MatMul Driver Endpoint App.
From S2P Require Import Float32 Registers Device Handshake Interrupts Cosim.
From S2P Require Import HostMemory.
Local Open Scope Z_scope.

(** Which locals of the application [ioctl] can reach. *)
Definition frame_ok {U} `{UserMem U} (f : frame) (u : U) : Prop :=
  u_mapped u (addr_A f) 64 ∧ u_mapped u (addr_B f) 64 ∧ u_mapped u (addr_C f) 64 ∧
  u_mapped u (addr_opcode f) 4 ∧
  let disjoint a n b m := a + n ≤ b ∨ b + m ≤ a in
  disjoint (addr_A f) 64 (addr_B f) 64 ∧ disjoint (addr_A f) 64 (addr_C f) 64 ∧
  disjoint (addr_B f) 64 (addr_C f) 64 ∧ disjoint (addr_A f) 64 (addr_opcode f) 4 ∧
  disjoint (addr_B f) 64 (addr_opcode f) 4 ∧ disjoint (addr_C f) 64 (addr_opcode f) 4.

Section stack.
Context {A : IoctlAbi} {U : Type} {UM : UserMem U} {D : Type} {B : Bar D}.
(** The file descriptor, and the contents of the driver's uninitialised buffer. *)
Variables (fd : Z) (kbuf : list Z).
Hypothesis Hfd : 0 ≤ fd.
Hypothesis Hkbuf : length kbuf = 16%nat.

(** The system call layer over the driver. *)
Definition driver_sys : Sys D U := {|
  sys_open d := (d, fd);
  sys_ioctl d u _ cmd arg :=
    '(u, d, r) ← fop_unlocked_ioctl fops kbuf u d cmd arg;
    Ok (d, u, match r with Ret0 => 0 | Err _ => -1 end);
  sys_close d _ := d
|}.

(** The four commands, as the application sees them. *)
Lemma sys_set_op1 (d d' : D) (u : U) a :
  u_mapped u a 64 → write_words d 0x10 (bytes_words (u_load u a 64)) = Ok d' →
  @sys_ioctl _ _ driver_sys d u fd App.IOCTL_SET_OP1_MATRIX a = Ok (d', u, 0).
Proof.
  intros Hm E. unfold sys_ioctl, driver_sys. cbn [fop_unlocked_ioctl fops]. rewrite dev_ioctl_is_spec by done. unfold ioctl_spec.
  change App.IOCTL_SET_OP1_MATRIX with Driver.IOCTL_SET_OP1_MATRIX.
  by rewrite Z.eqb_refl, decide_True, E by done.
Qed.

Lemma sys_set_op2 (d d' : D) (u : U) a :
  u_mapped u a 64 → write_words d 0x50 (bytes_words (u_load u a 64)) = Ok d' →
  @sys_ioctl _ _ driver_sys d u fd App.IOCTL_SET_OP2_MATRIX a = Ok (d', u, 0).
Proof.
  intros Hm E. unfold sys_ioctl, driver_sys. cbn [fop_unlocked_ioctl fops]. rewrite dev_ioctl_is_spec by done. unfold ioctl_spec.
  change App.IOCTL_SET_OP2_MATRIX with Driver.IOCTL_SET_OP2_MATRIX.
  destruct command_codes as (H1 & _).
  by rewrite (proj2 (Z.eqb_neq _ _) H1), Z.eqb_refl, decide_True, E by done.
Qed.

Lemma sys_set_opcode (d d' : D) (u : U) a :
  u_mapped u a 4 → write_words d 0x90 (bytes_words (u_load u a 4)) = Ok d' →
  @sys_ioctl _ _ driver_sys d u fd App.IOCTL_SET_OPCODE a = Ok (d', u, 0).
Proof.
  intros Hm E. unfold sys_ioctl, driver_sys. cbn [fop_unlocked_ioctl fops]. rewrite dev_ioctl_is_spec by done. unfold ioctl_spec.
  change App.IOCTL_SET_OPCODE with Driver.IOCTL_SET_OPCODE.
  destruct command_codes as (_ & H1 & H2 & _).
  by rewrite (proj2 (Z.eqb_neq _ _) H1), (proj2 (Z.eqb_neq _ _) H2), Z.eqb_refl, decide_True, E by done.
Qed.

Lemma sys_get_result (d d' : D) (u : U) a ws :
  u_mapped u a 64 → read_words d 0xA0 16 = Ok (d', ws) →
  @sys_ioctl _ _ driver_sys d u fd App.IOCTL_GET_RESULT a =
    Ok (d', u_store u a (words_bytes ws), 0).
Proof.
  intros Hm E. unfold sys_ioctl, driver_sys. cbn [fop_unlocked_ioctl fops]. rewrite dev_ioctl_is_spec by done. unfold ioctl_spec.
  change App.IOCTL_GET_RESULT with Driver.IOCTL_GET_RESULT.
  destruct command_codes as (_ & _ & _ & H1 & H2 & H3).
  by rewrite (proj2 (Z.eqb_neq _ _) H1), (proj2 (Z.eqb_neq _ _) H2), (proj2 (Z.eqb_neq _ _) H3),
    Z.eqb_refl, E, bind_ok, decide_True by done.
Qed.

(** Each local still holds its initial value after all are initialised. *)
Lemma app_locals_load f (u : U) : frame_ok f u →
  let u' := app_locals f u in
  u_load u' (addr_A f) 64 = words_bytes app_A ∧ u_load u' (addr_B f) 64 = words_bytes app_B ∧
  u_load u' (addr_opcode f) 4 = le_bytes 4 1 ∧
  u_mapped u' (addr_A f) 64 ∧ u_mapped u' (addr_B f) 64 ∧ u_mapped u' (addr_C f) 64 ∧
  u_mapped u' (addr_opcode f) 4.
Proof.
  intros (MA & MB & MC & MO & AB & AC & BC & AO & BO & CO). cbv zeta. unfold app_locals.
  assert (∀ u a l, length l = 16%nat → u_load (u_store u a (words_bytes l)) a 64 = words_bytes l) as Hown.
  { intros u0 a l Hl. pose proof (u_load_store u0 a (words_bytes l)) as H.
    rewrite length_words_bytes, Hl in H. exact H. }
  assert (∀ u a l b m, length l = 16%nat → b + m ≤ a ∨ a + 64 ≤ b →
    u_load (u_store u a (words_bytes l)) b m = u_load u b m) as Hother.
  { intros u0 a l b m Hl H. apply u_load_store_disjoint. rewrite length_words_bytes, Hl. lia. }
  assert (∀ u b m, b + m ≤ addr_opcode f ∨ addr_opcode f + 4 ≤ b →
    u_load (u_store u (addr_opcode f) (le_bytes 4 1)) b m = u_load u b m) as Hop.
  { intros u0 b m H. apply u_load_store_disjoint. rewrite length_le_bytes. lia. }
  split; [|split; [|split]].
  - rewrite Hop, !Hother by (done || lia). by apply Hown.
  - rewrite Hop, Hother by (done || lia). by apply Hown.
  - exact (u_load_store _ (addr_opcode f) (le_bytes 4 1)).
  - split_and!; by repeat apply u_store_mapped.
Qed.

(** The application, given what the device does with the accesses of the driver. *)
Lemma app_run f (d d1 d2 d3 d4 : D) (u : U) ws : frame_ok f u →
  write_words d 0x10 app_A = Ok d1 → write_words d1 0x50 app_B = Ok d2 →
  write_words d2 0x90 [1] = Ok d3 → read_words d3 0xA0 16 = Ok (d4, ws) →
  Forall (λ w, u32 w) ws →
  ∃ u', app_main (S := driver_sys) f d u = Ok (d4, u', 0, Some ws).
Proof.
  intros Hf E1 E2 E3 E4 Hws.
  destruct (app_locals_load f u Hf) as (LA & LB & LO & MA & MB & MC & MO).
  unfold app_main. set (u' := app_locals f u) in *.
  change (sys_open d) with (d, fd). cbv beta iota. rewrite (proj2 (Z.ltb_ge _ _) Hfd).
  erewrite sys_set_op1; [|done|by rewrite LA, bytes_words_bytes by (by repeat constructor)].
  rewrite bind_ok. cbn [Z.ltb Z.compare].
  erewrite sys_set_op2; [|done|by rewrite LB, bytes_words_bytes by (by repeat constructor)].
  rewrite bind_ok. cbn [Z.ltb Z.compare].
  erewrite sys_set_opcode; [|done|by rewrite LO].
  rewrite bind_ok. cbn [Z.ltb Z.compare].
  erewrite sys_get_result by done. rewrite bind_ok. cbn [Z.ltb Z.compare].
  eexists. do 3 f_equal.
  pose proof (u_load_store u' (addr_C f) (words_bytes ws)) as H.
  rewrite length_words_bytes, (read_words_length _ _ _ _ _ E4) in H.
  change (Z.of_nat (4 * 16)) with 64 in H. by rewrite H, bytes_words_bytes.
Qed.
End stack.

(** The matrix the comment in [app.c] says the result must be. *)
Definition app_expected : list Z :=
  [322; 12262; 3; 1204;
   657; 5846; 7; 24682;
   17109; 6111; 252; 11137;
   5204; 572; 6; 2107].

(** The application over the contract of the endpoint. *)
Lemma app_over_matrix_bar {A : IoctlAbi} {U : Type} {UM : UserMem U}
    {D : Type} {B : Bar D} {MB : MatrixBar D}
    (fd : Z) (kbuf : list Z) (f : frame) (d : D) (u : U) :
  0 ≤ fd → length kbuf = 16%nat → frame_ok f u → mb_ok d →
  ∃ d' u', app_main (S := driver_sys fd kbuf) f d u = Ok (d', u', 0, Some app_expected) ∧
    mb_ok d'.
Proof.
  intros Hfd Hk Hf Hd.
  assert (words44 app_A ∧ words44 app_B) as [HA HB] by (by repeat constructor).
  destruct (mb_set_op1 d app_A Hd HA) as (d1 & E1 & W1 & A1 & B1 & _).
  destruct (mb_set_op2 d1 app_B W1 HB) as (d2 & E2 & W2 & A2 & B2 & _).
  destruct (mb_set_opcode d2 1 W2) as (d3 & E3 & W3 & A3 & B3 & O3); [done|].
  destruct (mb_get_result d3 W3 O3) as (d4 & E4 & W4 & _).
  rewrite A3, A2, A1, B3, B2 in E4. change (u32_mat_mul 4 app_A app_B) with app_expected in E4.
  destruct (app_run fd kbuf Hfd Hk f d d1 d2 d3 d4 u app_expected Hf E1 E2 E3 E4) as (u' & E).
  - by repeat constructor.
  - by exists d4, u'.
Qed.

(** C12: over any device that keeps the contract of the endpoint, whatever it held
    before, the application exits with status 0 and prints the product of its two
    matrices, which is the one its own comment announces. *)
Theorem app_prints_product {A : IoctlAbi} {U : Type} {UM : UserMem U}
    {D : Type} {B : Bar D} {MB : MatrixBar D}
    (fd : Z) (kbuf : list Z) (f : frame) (d : D) (u : U) :
  0 ≤ fd → length kbuf = 16%nat → frame_ok f u → mb_ok d →
  ∃ d' u', app_main (S := driver_sys fd kbuf) f d u = Ok (d', u', 0, Some app_expected) ∧
    mb_ok d'.
Proof. apply app_over_matrix_bar. Qed.

(** The user memory of the witnesses: 196 mapped bytes. *)
Definition witness_user : flat := flat_store ∅ 0 (replicate 196 0).

Lemma witness_frame : frame_ok app_frame witness_user.
Proof.
  assert (∀ a n, 0 ≤ a → a + n ≤ 196 → u_mapped witness_user a n) as Hm.
  { intros a n Ha Hn. change (flat_mapped witness_user a n). unfold flat_mapped. apply Forall_forall. intros x Hx%elem_of_seqZ.
    cbv beta. unfold witness_user.  rewrite flat_store_lookup, bool_decide_eq_true_2 by (rewrite length_replicate; lia).
    apply lookup_lt_is_Some_2. rewrite length_replicate. lia. }
  unfold frame_ok. cbn [addr_A addr_B addr_C addr_opcode app_frame].
  split_and!; (apply Hm; lia) || lia.
Qed.

Lemma app_prints_product_witness :
  ∃ d' u', app_main (S := driver_sys 3 (replicate 16 0xCC)) app_frame matmul_ep_init witness_user =
    Ok (d', u', 0, Some app_expected).
Proof.
  destruct (app_prints_product 3 (replicate 16 0xCC) app_frame matmul_ep_init witness_user)
    as (d' & u' & E & _).
  - lia.
  - reflexivity.
  - exact witness_frame.
  - by repeat split; try (by repeat constructor).
  - exists d', u'. exact E.
Defined.

(** ** The endpoints of this revision *)

(** [DummyTarget] behind the monitor, as a BAR target. *)
#[export] Instance dummy_bar_target : Target dummy := unlogged (H := endpoint_b_transport).

Lemma dummy_write off v : 0 ≤ off → iowrite32 Dummy off v = Ok Dummy.
Proof.
  intros Ho. unfold iowrite32, target_bar, b_transport, dummy_bar_target, unlogged, log_transport.
  unfold endpoint_b_transport, monitor_b_transport, log_transport, dummy_log, dummy_b_transport.
  cbn [is_read command request data data_length]. unfold is_read. cbn [command request].
  rewrite bool_decide_eq_false_2 by done.
  pose proof (dummy_log_loop (le_bytes 4 v) 4) as E. rewrite E by (by rewrite length_le_bytes). done.
Qed.

Lemma dummy_read off : ioread32 Dummy off = Ok (Dummy, dummy_data).
Proof. by vm_compute. Qed.

(** With the endpoint that [sc_main] instantiates in this revision, the application
    also exits with status 0, but every entry it prints is the constant 0xABCD1234,
    whatever the operands. *)
Theorem app_on_dummy_target {A : IoctlAbi} {U : Type} {UM : UserMem U}
    (fd : Z) (kbuf : list Z) (f : frame) (u : U) :
  0 ≤ fd → length kbuf = 16%nat → frame_ok f u →
  ∃ u', app_main (S := driver_sys fd kbuf) f Dummy u =
    Ok (Dummy, u', 0, Some (replicate 16 0xABCD1234)).
Proof.
  intros Hfd Hk Hf.
  assert (∀ base ws, 0 ≤ base → write_words Dummy base ws = Ok Dummy) as Hw.
  { intros base ws Hb. destruct (write_words_inv (λ _ _, True) base ws Dummy) as ([] & E & _); [|done|done].
    intros k v [] _ _. exists Dummy. split; [|done]. apply dummy_write. lia. }
  destruct (read_words_inv (λ _ _, True) 0xA0 16 (replicate 16 dummy_data) Dummy) as ([] & E & _);
    [done| |done|].
  { intros k v [] Hv _. exists Dummy. split; [|done]. apply lookup_replicate in Hv as [-> _].
    apply dummy_read. }
  apply (app_run fd kbuf Hfd Hk f Dummy Dummy Dummy Dummy Dummy u); try by apply Hw.
  - done.
  - exact E.
  - by repeat constructor.
Qed.

Lemma app_on_dummy_target_witness :
  ∃ u', app_main (S := driver_sys 3 (replicate 16 0xCC)) app_frame Dummy witness_user =
    Ok (Dummy, u', 0, Some (replicate 16 0xABCD1234)).
Proof.
  apply app_on_dummy_target; [lia|reflexivity|exact witness_frame].
Defined.

(** The live device as a BAR. *)
Lemma mm_write (s : mm) off v : u32 v →
  ∃ d' evs, handle_mmio_write (m_dev s) off (le_bytes 4 v) 4 = Ok (d', evs) ∧
    iowrite32 s off v = Ok (foldl notify (with_dev d' s) evs).
Proof.
  intros Hv. rewrite write_value by done.
  lazymatch goal with |- ∃ d' evs, Ok ?x = _ ∧ _ => destruct x as [d' evs] eqn:E end.
  exists d', evs. split; [done|].
  unfold iowrite32, target_bar, b_transport, mm_target, bar0_transport.
  cbn [command address data data_length request Z.eqb Pos.eqb negb andb].
  rewrite bool_decide_eq_false_2, bool_decide_eq_true_2 by done.
  rewrite write_value, E by done. done.
Qed.

Lemma mm_read (s : mm) off : dev_wf (m_dev s) →
  ioread32 s off =
    Ok (s, le_val (le_bytes 4 (default 0xDEADBEEF (word_at (m_dev s) off)))).
Proof.
  intros Hd. unfold ioread32, target_bar, b_transport, mm_target, bar0_transport.
  cbn [command address data data_length request Z.eqb Pos.eqb negb andb].
  rewrite bool_decide_eq_true_2, read_word, !bind_ok by done. by destruct s.
Qed.

Lemma mm_write_wf (s : mm) off v : u32 v → dev_wf (m_dev s) →
  ∃ s', iowrite32 s off v = Ok s' ∧ dev_wf (m_dev s') ∧ m_loc s' = m_loc s ∧
    (off ≠ 0 → computation_requested (m_dev s') = computation_requested (m_dev s)).
Proof.
  intros Hv Hd. destruct (mm_write s off v Hv) as (d' & evs & E & ->).
  eexists. split; [done|]. rewrite notify_dev, notify_loc.
  split; [exact (proj1 (handle_mmio_write_wf _ _ _ _ _ _ Hd (le_bytes_ok 4 v) E))|].
  split; [done|]. intros Ho.
  destruct (write_word_spec (m_dev s) off v Hd Hv Ho) as (d1 & E1 & _ & _ & H).
  rewrite E in E1. by simplify_eq.
Qed.

Lemma mm_write_words (s : mm) base ws : 0 < base → Forall (λ w, u32 w) ws → dev_wf (m_dev s) →
  ∃ s', write_words s base ws = Ok s' ∧ dev_wf (m_dev s') ∧ m_loc s' = m_loc s ∧
    computation_requested (m_dev s') = computation_requested (m_dev s).
Proof.
  intros Hb Hws Hd.
  apply (write_words_inv (λ _ s', dev_wf (m_dev s') ∧ m_loc s' = m_loc s ∧
    computation_requested (m_dev s') = computation_requested (m_dev s))); [|done].
  intros k v s0 Hv (W & L & R).
  destruct (mm_write_wf s0 (base + 4 * Z.of_nat k) v) as (s1 & E & W1 & L1 & R1);
    [exact (Forall_lookup_1 _ _ _ _ Hws Hv)|done|].
  exists s1. split; [done|]. split; [done|]. split; [congruence|]. rewrite R1; [done|lia].
Qed.

(** C37: against the PCIe device of this revision the layouts do not match.  The operand
    writes go to the pointer and interrupt registers or nowhere, no computation is ever
    requested, and the application, again with status 0, prints 0xDEADBEEF, the value of
    undefined registers, for every entry, whatever state the device was in. *)
Theorem app_on_live_device {A : IoctlAbi} {U : Type} {UM : UserMem U}
    (fd : Z) (kbuf : list Z) (f : frame) (s : mm) (u : U) :
  0 ≤ fd → length kbuf = 16%nat → frame_ok f u → dev_wf (m_dev s) →
  ∃ s' u', app_main (S := driver_sys fd kbuf) f s u =
      Ok (s', u', 0, Some (replicate 16 0xDEADBEEF)) ∧
    m_loc s' = m_loc s ∧
    computation_requested (m_dev s') = computation_requested (m_dev s).
Proof.
  intros Hfd Hk Hf Hd.
  destruct (mm_write_words s 0x10 app_A) as (s1 & E1 & W1 & L1 & R1);
    [lia|by repeat constructor|done|].
  destruct (mm_write_words s1 0x50 app_B) as (s2 & E2 & W2 & L2 & R2);
    [lia|by repeat constructor|done|].
  destruct (mm_write_words s2 0x90 [1]) as (s3 & E3 & W3 & L3 & R3);
    [lia|by repeat constructor|done|].
  destruct (read_words_inv (λ _ s', s' = s3) 0xA0 16 (replicate 16 0xDEADBEEF) s3)
    as (s4 & E4 & ->); [done| |done|].
  { intros k v s0 [-> Hk16]%lookup_replicate ->. exists s3. split; [|done]. rewrite mm_read by done.
    assert (word_at (m_dev s3) (0xA0 + 4 * Z.of_nat k) = None) as ->; [|done].
    unfold word_at. repeat rewrite (proj2 (Z.eqb_neq (_ + _) _)) by lia. done. }
  destruct (app_run fd kbuf Hfd Hk f s s1 s2 s3 s3 u (replicate 16 0xDEADBEEF) Hf E1 E2 E3 E4)
    as (u' & E).
  - by repeat constructor.
  - exists s3, u'. split; [done|]. split; congruence.
Qed.

Lemma app_on_live_device_witness :
  ∃ s' u', app_main (S := driver_sys 3 (replicate 16 0xCC)) app_frame mm_booted witness_user =
    Ok (s', u', 0, Some (replicate 16 0xDEADBEEF)).
Proof.
  destruct (app_on_live_device 3 (replicate 16 0xCC) app_frame mm_booted witness_user)
    as (s' & u' & E & _); [lia|reflexivity|exact witness_frame|exact reset_device_wf|].
  exists s', u'. exact E.
Defined.

(** C38: the interrupt handler does not acknowledge the live device.  It reads offset
    0x24, which is the high half of MATRIX_C_PTR, writes it to the undefined offset 0x64
    and claims the interrupt; the device is left exactly as it was, so a raised line stays
    raised and a pending interrupt pending. *)
Theorem irq_handler_acknowledges_nothing (s : mm) (major : Z) :
  dev_wf (m_dev s) → irq_handler s major major = Ok (s, IRQ_HANDLED).
Proof.
  intros Hd. unfold irq_handler. rewrite Z.eqb_refl, mm_read, bind_ok by done.
  rewrite le_val32.
  2:{ cbn. split; [apply Z.div_pos; [apply Hd|lia]|].
      apply Z.div_lt_upper_bound; [lia|]. apply Hd. }
  destruct (mm_write s IO_IRQ_ACK (default 0xDEADBEEF (word_at (m_dev s) IO_IRQ_STATUS)))
    as (d' & evs & E & ->).
  { cbn. split; [apply Z.div_pos; [apply Hd|lia]|].
    apply Z.div_lt_upper_bound; [lia|]. apply Hd. }
  rewrite write_value in E.
  2:{ cbn. split; [apply Z.div_pos; [apply Hd|lia]|].
      apply Z.div_lt_upper_bound; [lia|]. apply Hd. }
  cbn in E. simplify_eq. cbn. by destruct s.
Qed.

Lemma irq_handler_acknowledges_nothing_witness :
  let s := MM (set_int_status 1 (set_int_enable 1 reset_device)) C_start false true false true in
  irq_handler s 240 240 = Ok (s, IRQ_HANDLED) ∧ pending (m_dev s) = true.
Proof.
  intros s. split; [|reflexivity]. apply irq_handler_acknowledges_nothing. by split.
Defined.

(** The probe's write of 0xAB to offset 0 has both command bits set: it resets the
    live device and requests a computation with dimension 0, which the compute thread,
    if it was waiting, refuses: STATUS goes to IDLE|ERROR before the driver is used. *)
Theorem probe_write_starts_device {F : FloatOps} {M : Type} {T : Target M} (s : mm) (m : M) :
  m_loc s = C_start →
  ∃ s1 s2, iowrite32 s 0 0xAB = Ok s1 ∧
    m_dev s1 = set_requested true reset_device ∧ compute_enabled s1 = true ∧
    run_compute s1 m = Ok (s2, m, 0) ∧
    reg_status (m_dev s2) = Z.lor STATUS_IDLE STATUS_ERROR ∧ m_loc s2 = C_start.
Proof.
  intros Hl. destruct (mm_write s 0 0xAB) as (d' & evs & E & ->); [done|].
  rewrite write_value in E by done. cbn in E. simplify_eq.
  eexists _, _. split; [done|]. split; [done|].
  unfold compute_enabled, run_compute. cbn. rewrite Hl. cbn.
  split; [by rewrite orb_true_r|]. done.
Qed.

Lemma probe_write_starts_device_witness :
  ∃ s1 s2, iowrite32 mm_booted 0 0xAB = Ok s1 ∧
    run_compute s1 host_memory_init = Ok (s2, host_memory_init, 0) ∧
    reg_status (m_dev s2) = 9.
Proof.
  destruct (probe_write_starts_device mm_booted host_memory_init eq_refl)
    as (s1 & s2 & H1 & _ & _ & H2 & H3 & _).
  exists s1, s2. split; [exact H1|]. split; [exact H2|exact H3].
Defined.

(** The driver answers none of the commands of the header it includes: each of the ten
    codes of chardev.h gives -EINVAL without an access to the device or user memory,
    those of IOCTL_GET_RESULT and IOCTL_SET_OPCODE too, which the driver redefines.  The
    codes of the application, by contrast, are the driver's. *)
Theorem command_codes_of_the_parts {A : IoctlAbi} {U : Type} {UM : UserMem U} {D : Type} {B : Bar D}
    (kbuf : list Z) (u : U) (d : D) (cmd arg : Z) :
  length kbuf = 16%nat →
  (cmd ∈ chardev_commands → dev_ioctl kbuf u d cmd arg = Ok (u, d, Err EINVAL)) ∧
  (cmd ∉ (app_commands app_frame).*1 → dev_ioctl kbuf u d cmd arg = Ok (u, d, Err EINVAL)) ∧
  (cmd ∈ (app_commands app_frame).*1 →
     ∀ r, dev_ioctl kbuf u d cmd arg = Ok r → r.2 ≠ Err EINVAL).
Proof.
  intros Hk. rewrite dev_ioctl_is_spec by done. unfold ioctl_spec.
  change ((app_commands app_frame).*1) with
    [Driver.IOCTL_SET_OP1_MATRIX; Driver.IOCTL_SET_OP2_MATRIX;
     Driver.IOCTL_SET_OPCODE; Driver.IOCTL_GET_RESULT].
  assert (cmd ∉ [Driver.IOCTL_SET_OP1_MATRIX; Driver.IOCTL_SET_OP2_MATRIX;
     Driver.IOCTL_SET_OPCODE; Driver.IOCTL_GET_RESULT] →
    (cmd =? Driver.IOCTL_SET_OP1_MATRIX) = false ∧ (cmd =? Driver.IOCTL_SET_OP2_MATRIX) = false ∧
    (cmd =? Driver.IOCTL_SET_OPCODE) = false ∧ (cmd =? Driver.IOCTL_GET_RESULT) = false) as Hno.
  { rewrite !not_elem_of_cons, !Z.eqb_neq. tauto. }
  split; [|split].
  - intros Hc. destruct Hno as (-> & -> & -> & ->); [|done].
    unfold chardev_commands in Hc. rewrite !elem_of_cons, elem_of_nil in Hc.
    rewrite !not_elem_of_cons.
    unfold IOCTL_SET_MSG, IOCTL_GET_MSG, IOCTL_GET_NTH_BYTE, IOCTL_GET_OP1, IOCTL_GET_OP2,
      IOCTL_GET_OPCODE, Chardev.IOCTL_GET_RESULT, IOCTL_SET_OP1, IOCTL_SET_OP2,
      Chardev.IOCTL_SET_OPCODE, MAJOR_NUM in Hc.
    unfold Driver.IOCTL_SET_OP1_MATRIX, Driver.IOCTL_SET_OP2_MATRIX, Driver.IOCTL_SET_OPCODE,
      Driver.IOCTL_GET_RESULT, Driver.CPCIDEV_MAGIC.
    destruct_or! Hc; subst; split_and!; try apply not_elem_of_nil; intros H;
      first [ done
            | apply IOR_inj in H; lia | apply IOW_inj in H; lia
            | apply IOWR_IOW in H; [done|lia..] | apply IOWR_IOR in H; [done|lia..]
            | apply IOW_IOR in H; [done|lia..]
            | symmetry in H; apply IOW_IOR in H; [done|lia..] ].
  - intros Hc. by destruct Hno as (-> & -> & -> & ->).
  - intros Hc r Hr.
    assert (∀ base n r, (if decide (u_mapped u arg n) then
      d ← write_words d base (bytes_words (u_load u arg n)); Ok (u, d, Ret0)
      else Ok (u, d, Err EFAULT)) = Ok r → r.2 ≠ Err EINVAL) as Hset.
    { intros base n r0 H0. case_decide; [|by simplify_eq].
      apply bind_inv in H0 as (d' & _ & H0). by simplify_eq. }
    destruct (cmd =? Driver.IOCTL_SET_OP1_MATRIX) eqn:E1; [by eapply Hset|].
    destruct (cmd =? Driver.IOCTL_SET_OP2_MATRIX) eqn:E2; [by eapply Hset|].
    destruct (cmd =? Driver.IOCTL_SET_OPCODE) eqn:E3; [by eapply Hset|].
    destruct (cmd =? Driver.IOCTL_GET_RESULT) eqn:E4.
    + apply bind_inv in Hr as ([d' ws] & _ & Hr). case_decide; by simplify_eq.
    + apply Z.eqb_neq in E1, E2, E3, E4. rewrite !elem_of_cons, elem_of_nil in Hc. tauto.
Qed.

Lemma command_codes_of_the_parts_witness :
  dev_ioctl (replicate 16 0) (∅ : flat) (∅ : gmap Z Z) Chardev.IOCTL_GET_RESULT 8 =
    Ok (∅, ∅, Err EINVAL).
Proof.
  refine (proj1 (command_codes_of_the_parts (replicate 16 0) _ _ _ _ eq_refl) _).
  unfold chardev_commands. rewrite !elem_of_cons. tauto.
Defined.
