(* ===== verification/System.v ===== *)
(** * Loading, using and removing the driver

    The driver with its globals ([Lifecycle]), the hardware behind its BAR, and the
    application: inserting a device runs [pci_probe] call by call, the application then
    opens the file the probe created and reaches the device through [fops], and removing
    the device runs [pci_remove].  The kernel is what it takes for this: a file can be
    opened when its node and its character device are there, an access to the BAR
    arrives when [mmio] is a live mapping, and a driver is offered the devices its table
    lists. *)

From Stdlib Require Import String.
From S2P Require Import Prelude Tlm Kernel Driver Probe Lifecycle PciConfig Endpoint App.
From S2P Require Import Integration Registers Device Handshake.
Local Open Scope Z_scope.

(** [struct pci_driver pci_driver]. *)
Record pci_driver_ops := PciDriver {
  drv_name : string;
  drv_id_table : list (Z * Z);
  drv_probe : kernel → Z → globals → res (Z * st);
  drv_remove : Z → globals → trace
}.
Definition pci_driver (MAJOR : Z → Z) : pci_driver_ops := {|
  drv_name := "cpcidev_driver";
  drv_id_table := pci_ids;
  drv_probe := g_probe MAJOR;
  drv_remove := g_remove
|}.

Section machine.
Context {D : Type} {B : Bar D}.

(** The globals of the driver, the resources it holds, and the device. *)
Record machine := Machine {
  mc_globals : globals;
  mc_held : list handle;
  mc_hw : D
}.

Definition with_hw (d : D) (x : machine) : machine := Machine (mc_globals x) (mc_held x) d.

(** [mmio] points to a mapped BAR. *)
Definition mapped (x : machine) : bool :=
  bool_decide (H_iomap (pdev (mc_globals x)) (mmio (mc_globals x)) ∈ mc_held x).

(** [ioread32] and [iowrite32] at an offset from [mmio]. *)
#[export] Instance machine_bar : Bar machine := {
  ioread32 x off :=
    if mapped x then '(d, v) ← ioread32 (mc_hw x) off; Ok (with_hw d x, v)
    else UB OutOfBoundsRead;
  iowrite32 x off v :=
    if mapped x then d ← iowrite32 (mc_hw x) off v; Ok (with_hw d x)
    else UB OutOfBoundsWrite
}.

(** One call of the driver: its effect on what is held, and on the device.  [None]: it
    releases what is not held. *)
Definition do_call (c : kcall) (g : globals) (x : machine) : res (option machine) :=
  match call_effect c (mc_held x) with
  | None => Ok None
  | Some held =>
      let x := Machine g held (mc_hw x) in
      match c with
      | Write_mmio a v => x ← iowrite32 x (a - mmio g) v; Ok (Some x)
      | _ => Ok (Some x)
      end
  end.

Fixpoint run_calls (l : trace) (x : machine) : res (option machine) :=
  match l with
  | [] => Ok (Some x)
  | (c, g) :: l =>
      r ← do_call c g x;
      match r with Some x => run_calls l x | None => Ok None end
  end.

(** The kernel finds a device with the identifiers [ids]; it loses it again. *)
Definition insert_device (drv : pci_driver_ops) (k : kernel) (dev : Z) (ids : Z * Z)
    (x : machine) : res (option machine) :=
  if bool_decide (ids ∈ drv_id_table drv) then
    '(_, (_, l)) ← drv_probe drv k dev (mc_globals x); run_calls l x
  else Ok (Some x).
Definition remove_device (drv : pci_driver_ops) (dev : Z) (x : machine) : res (option machine) :=
  run_calls (drv_remove drv dev (mc_globals x)) x.

(** /dev/cpcidev_pci can be opened: there is a node, and a character device for it. *)
Definition is_node (h : handle) : bool := match h with H_device _ _ => true | _ => false end.
Definition can_open (x : machine) : bool :=
  existsb is_node (mc_held x) && bool_decide (H_cdev ∈ mc_held x).

(** The system calls: [ioctl] and [close] are those of [driver_sys]. *)
Definition machine_sys {A : IoctlAbi} {U} {UM : UserMem U} (fd : Z) (kbuf : list Z)
    : Sys machine U := {|
  sys_open x := (x, if can_open x then fd else -1);
  sys_ioctl := @sys_ioctl _ _ (driver_sys fd kbuf);
  sys_close := @sys_close _ _ (driver_sys (UM := UM) fd kbuf)
|}.

(** ** Accesses through a live mapping *)

Lemma mapped_hw x d : mapped (with_hw d x) = mapped x.
Proof. done. Qed.

Lemma machine_write_words x base ws : mapped x = true →
  write_words x base ws = d ← write_words (mc_hw x) base ws; Ok (with_hw d x).
Proof.
  unfold write_words. generalize (zip (seqZ 0 (Z.of_nat (length ws))) ws) as l. intros l.
  revert x. induction l as [|kw l IH]; intros x Hm; cbn [foldM]; [by destruct x|].
  cbn [iowrite32 machine_bar]. rewrite Hm.
  destruct (iowrite32 (mc_hw x) _ _) as [d|]; [|done]. rewrite !bind_ok. by rewrite IH.
Qed.

Lemma machine_read_words x base n : mapped x = true →
  read_words x base n = '(d, ws) ← read_words (mc_hw x) base n; Ok (with_hw d x, ws).
Proof.
  intros Hm. unfold read_words. set (f := λ '(d, ws) k, _) at 1. set (f0 := λ '(d, ws) k, _) at 1.
  enough (∀ l ws x, mapped x = true →
    foldM f (x, ws) l = '(d, ws) ← foldM f0 (mc_hw x, ws) l; Ok (with_hw d x, ws)) as H by auto.
  clear. induction l as [|k l IH]; intros ws x Hm; cbn [foldM]; [by destruct x|].
  change (f (x, ws) k) with ('(x, v) ← ioread32 x (base + 4 * k); Ok (x, ws ++ [v])).
  change (f0 (mc_hw x, ws) k) with
    ('(d, v) ← ioread32 (mc_hw x) (base + 4 * k); Ok (d, ws ++ [v])).
  cbn [ioread32 machine_bar]. rewrite Hm.
  destruct (ioread32 (mc_hw x) _) as [[d v]|]; [|done]. rewrite !bind_ok. by rewrite IH.
Qed.

Lemma enabled_not_node l : Forall is_enabled l → existsb is_node l = false.
Proof. induction 1 as [|x l Hx _ IH]; [done|]. by destruct x. Qed.

Lemma enabled_not_mapped l p a : Forall is_enabled l → H_iomap p a ∉ l.
Proof. intros Hl Hin. rewrite Forall_forall in Hl. by apply (Hl _ Hin). Qed.

(** ** Running the calls of the driver *)

Lemma run_calls_app l1 l2 x :
  run_calls (l1 ++ l2) x =
    r ← run_calls l1 x; match r with Some x => run_calls l2 x | None => Ok None end.
Proof.
  revert x. induction l1 as [|[c g] l1 IH]; intros x; [done|]. cbn [app run_calls].
  destruct (do_call c g x) as [[y|]|]; rewrite ?bind_ok; done.
Qed.

(** Calls that do not write to the device are those of [Lifecycle]. *)
Definition off_device (cg : kcall * globals) : Prop :=
  match cg.1 with Write_mmio _ _ => False | _ => True end.

Lemma run_calls_quiet l g h (d : D) g' h' : Forall off_device l →
  run_todo g h l = Some (g', h') →
  run_calls l (Machine g h d) = Ok (Some (Machine g' h' d)).
Proof.
  revert g h. induction l as [|[c g1] l IH]; intros g h Hl Hr; cbn [run_todo run_calls] in *.
  - by simplify_eq.
  - apply Forall_cons in Hl as [Hc Hl]. apply bind_Some in Hr as (h1 & E & Hr).
    unfold do_call. cbn [mc_held mc_hw]. rewrite E. destruct c; try done; rewrite bind_ok; by apply IH.
Qed.

Lemma quiet_configs g : Forall off_device (config_reads g).
Proof. unfold config_reads. apply Forall_fmap, Forall_true. done. Qed.

Lemma run_configs_all g g0 h : run_todo g0 h (config_reads g) = Some (g, h).
Proof. reflexivity. Qed.

Lemma run_todo_app l1 l2 g h :
  run_todo g h (l1 ++ l2) = '(g, h) ← run_todo g h l1; run_todo g h l2.
Proof.
  revert g h. induction l1 as [|[c g1] l1 IH]; intros g h; [done|]. cbn [app run_todo].
  destruct (call_effect c h); [apply IH|done].
Qed.

Section loaded.
Variables (MAJOR : Z → Z) (k : kernel) (dev : Z) (g : globals) (h : list handle).

Abbreviation g1 := (owner_globals MAJOR k dev).
Abbreviation h1 := (owned k dev ++ h).

Lemma owned_mapped : H_iomap (pdev g1) (mmio g1) ∈ h1.
Proof. by right; left. Qed.

(** The calls of a probe: the last one is the write to the device. *)
Lemma run_probe_calls d d1 : iowrite32 d 0 0xAB = Ok d1 →
  run_calls (probe_log MAJOR k dev g) (Machine g h d) = Ok (Some (Machine g1 h1 d1)).
Proof.
  intros E. unfold probe_log. rewrite app_assoc, run_calls_app.
  erewrite run_calls_quiet; [|apply Forall_app; split; [by repeat constructor|apply quiet_configs]|].
  2:{ rewrite run_todo_app. cbn [run_todo call_effect mbind option_bind].
      by rewrite run_configs_all. }
  rewrite bind_ok. cbn [run_calls]. unfold do_call. cbn [call_effect mc_held mc_hw].
  cbn [iowrite32 machine_bar]. unfold mapped. cbn [mc_globals mc_held mc_hw].
  rewrite bool_decide_eq_true_2 by apply owned_mapped.
  replace (k_pci_iomap k - mmio _) with 0 by (cbn; lia). by rewrite E.
Qed.

Lemma run_remove_calls d :
  run_calls (g_remove dev g1) (Machine g1 h1 d) = Ok (Some (Machine g1 (H_enabled dev :: h) d)).
Proof. apply run_calls_quiet; [by repeat constructor|apply run_remove]. Qed.

(** What an insertion that succeeds leaves. *)
Lemma insert_ok ids d d1 g' log :
  documented (to_outcomes k) → g_probe MAJOR k dev g = Ok (0, (g', log)) → ids ∈ pci_ids →
  iowrite32 d 0 0xAB = Ok d1 →
  insert_device (pci_driver MAJOR) k dev ids (Machine g h d) = Ok (Some (Machine g1 h1 d1)).
Proof.
  intros Hdoc Hp Hids Hd. destruct (probe_success _ _ _ _ _ _ Hdoc Hp) as (-> & -> & _).
  unfold insert_device. cbn [drv_id_table drv_probe pci_driver mc_globals].
  rewrite bool_decide_eq_true_2, Hp, bind_ok by done. by apply run_probe_calls.
Qed.

(** The first calls of the removal: the interrupt, the mapping, the region. *)
Lemma run_remove_start i : (2 ≤ i ≤ 3)%nat →
  run_todo g1 h1 (take i (g_remove dev g1)) = Some (g1, drop i h1).
Proof.
  intros Hi. assert (i = 2 ∨ i = 3)%nat as [->| ->] by lia.
  all: unfold g_remove, owned;
    cbn [app fmap list_fmap run_todo owner_globals pci_irq pdev mmio take drop].
  all: repeat (rewrite put_held by (by left); rewrite remove1_head; cbn [mbind option_bind]).
  all: reflexivity.
Qed.
End loaded.

Lemma enabled_closed g h (d : D) : Forall is_enabled h → can_open (Machine g h d) = false.
Proof. intros Hh. unfold can_open. cbn [mc_held]. by rewrite enabled_not_node. Qed.

Lemma owned_open g k dev h (d : D) : can_open (Machine g (owned k dev ++ h) d) = true.
Proof.
  unfold can_open. cbn [mc_held]. rewrite bool_decide_eq_true_2; [done|].
  apply elem_of_app. left. unfold owned. rewrite !elem_of_cons. auto 10.
Qed.

(** ** The application on the machine *)

Section app.
Context {A : IoctlAbi} {U : Type} {UM : UserMem U}.
Variables (fd : Z) (kbuf : list Z).
Hypothesis Hfd : 0 ≤ fd.
Hypothesis Hkbuf : length kbuf = 16%nat.

Lemma app_no_node f x u : can_open x = false →
  app_main (S := machine_sys fd kbuf) f x u = Ok (x, app_locals f u, 1, None).
Proof. intros Hx. unfold app_main. cbn [sys_open machine_sys]. by rewrite Hx. Qed.

Lemma app_node f x u : can_open x = true →
  app_main (S := machine_sys fd kbuf) f x u = app_main (S := driver_sys fd kbuf) f x u.
Proof. intros Hx. unfold app_main. cbn [sys_open machine_sys]. by rewrite Hx. Qed.

(** With the BAR mapped every command, and so the application, does what it does on the
    device itself. *)
Lemma machine_ioctl (x : machine) (u : U) fd' cmd arg : mapped x = true →
  @sys_ioctl _ _ (driver_sys fd kbuf) x u fd' cmd arg =
    '(d, u, r) ← @sys_ioctl _ _ (driver_sys fd kbuf) (mc_hw x) u fd' cmd arg;
    Ok (with_hw d x, u, r).
Proof.
  intros Hm. unfold sys_ioctl, driver_sys. cbn [fop_unlocked_ioctl fops].
  rewrite !dev_ioctl_is_spec by done. unfold ioctl_spec.
  assert (with_hw (mc_hw x) x = x) as Hx by (by destruct x).
  repeat case_match; rewrite ?machine_write_words, ?machine_read_words, ?bind_ok, ?Hx by done;
    try done.
  - by destruct (write_words (mc_hw x) _ _).
  - by destruct (write_words (mc_hw x) _ _).
  - by destruct (write_words (mc_hw x) _ _).
  - by destruct (read_words (mc_hw x) _ _) as [[d ws]|].
  - by destruct (read_words (mc_hw x) _ _) as [[d ws]|].
Qed.

Lemma app_machine f x u : mapped x = true →
  app_main (S := driver_sys fd kbuf) f x u =
    '(d, u, code, out) ← app_main (S := driver_sys fd kbuf) f (mc_hw x) u;
    Ok (with_hw d x, u, code, out).
Proof.
  intros Hm. unfold app_main, app_fail.
  change (@sys_open machine U (driver_sys fd kbuf) x) with (x, fd).
  change (@sys_open D U (driver_sys fd kbuf) (mc_hw x)) with (mc_hw x, fd). cbv beta iota.
  rewrite (proj2 (Z.ltb_ge _ _) Hfd).
  do 4 (rewrite machine_ioctl by done; cbn [mc_hw with_hw];
    lazymatch goal with |- context [@sys_ioctl D U ?s ?d ?u ?f ?c ?a] =>
      destruct (@sys_ioctl D U s d u f c a) as [[[? ?] ?]|]; [|done] end;
    rewrite !bind_ok; case_match; [done|]).
  done.
Qed.

(** With the BAR not mapped the first command goes wrong. *)
Lemma app_unmapped f x u : can_open x = true → mapped x = false → frame_ok f u →
  app_main (S := machine_sys fd kbuf) f x u = UB OutOfBoundsWrite.
Proof.
  intros Hx Hm Hf. rewrite app_node by done. unfold app_main.
  destruct (app_locals_load kbuf Hkbuf f u Hf) as (LA & _ & _ & MA & _). set (u' := app_locals f u) in *.
  change (sys_open x) with (x, fd). cbv beta iota. rewrite (proj2 (Z.ltb_ge _ _) Hfd).
  assert (@sys_ioctl _ _ (driver_sys fd kbuf) x u' fd App.IOCTL_SET_OP1_MATRIX (addr_A f) =
    UB OutOfBoundsWrite) as ->; [|done].
  unfold sys_ioctl, driver_sys. cbn [fop_unlocked_ioctl fops].
  rewrite dev_ioctl_is_spec by done. unfold ioctl_spec.
  change App.IOCTL_SET_OP1_MATRIX with Driver.IOCTL_SET_OP1_MATRIX.
  rewrite Z.eqb_refl, decide_True, LA, bytes_words_bytes by (done || by repeat constructor).
  assert (write_words x 0x10 app_A = UB OutOfBoundsWrite) as ->; [|done].
  unfold write_words. change (seqZ 0 (Z.of_nat (length app_A))) with (0 :: seqZ 1 15).
  cbn [zip_with app_A foldM iowrite32 machine_bar]. by rewrite Hm.
Qed.
End app.
End machine.
Arguments machine D : clear implicits.

(** ** Properties *)

(** C13: the whole life of the driver, seen from the application, over any device [d]
    that takes the probe's write of 0xAB at offset 0 (and becomes [d1]).  Before the PCI
    device is inserted, the application cannot open the file and exits with status 1
    without another call.  Once a PCI device that the table lists is inserted and its
    probe has succeeded, the application does what it does over the bare device [d1], with
    the same output and exit status, and leaves the driver as it was; in particular, if
    the device keeps the contract [MatrixBar] of the driver interface, which of the
    endpoints in the sources only the commented-out [MatrixMultiplier] does, it exits with
    status 0 and prints the product.  After the removal it fails as before, and all the
    driver still holds beside what it held at the start is that the PCI device is
    enabled. *)
Theorem load_use_unload {A : IoctlAbi} {U : Type} {UM : UserMem U} {D : Type} {B : Bar D}
    (MAJOR : Z → Z) (k : kernel) (dev : Z) (ids : Z * Z) (g : globals) (h : list handle)
    (d d1 : D) (fd : Z) (kbuf : list Z) (f : frame) (u : U) g' log :
  documented (to_outcomes k) → g_probe MAJOR k dev g = Ok (0, (g', log)) → ids ∈ pci_ids →
  Forall is_enabled h → iowrite32 d 0 0xAB = Ok d1 → 0 ≤ fd → length kbuf = 16%nat →
  app_main (S := machine_sys fd kbuf) f (Machine g h d) u =
    Ok (Machine g h d, app_locals f u, 1, None) ∧
  ∃ g1 h1,
    insert_device (pci_driver MAJOR) k dev ids (Machine g h d) = Ok (Some (Machine g1 h1 d1)) ∧
    app_main (S := machine_sys fd kbuf) f (Machine g1 h1 d1) u =
      ('(d2, u2, code, out) ← app_main (S := driver_sys fd kbuf) f d1 u;
       Ok (Machine g1 h1 d2, u2, code, out)) ∧
    (∀ MB : MatrixBar D, mb_ok d1 → frame_ok f u → ∃ d2 u2,
       app_main (S := machine_sys fd kbuf) f (Machine g1 h1 d1) u =
         Ok (Machine g1 h1 d2, u2, 0, Some app_expected)) ∧
    ∀ d2, ∃ x3,
      remove_device (pci_driver MAJOR) dev (Machine g1 h1 d2) = Ok (Some x3) ∧
      mc_hw x3 = d2 ∧ mc_held x3 = H_enabled dev :: h ∧
      ∀ f3 u3, app_main (S := machine_sys fd kbuf) f3 x3 u3 = Ok (x3, app_locals f3 u3, 1, None).
Proof.
  intros Hdoc Hp Hids Hh Hd Hfd Hk.
  split; [by apply app_no_node, enabled_closed|].
  exists (owner_globals MAJOR k dev), (owned k dev ++ h).
  pose proof (bool_decide_eq_true_2 _ (owned_mapped MAJOR k dev h)) as Hm.
  assert (app_main (S := machine_sys fd kbuf) f
      (Machine (owner_globals MAJOR k dev) (owned k dev ++ h) d1) u =
    '(d2, u2, code, out) ← app_main (S := driver_sys fd kbuf) f d1 u;
    Ok (Machine (owner_globals MAJOR k dev) (owned k dev ++ h) d2, u2, code, out)) as Happ.
  { rewrite app_node by apply owned_open. by apply app_machine. }
  split; [by eapply insert_ok|]. split; [exact Happ|]. split.
  - intros MB Hd1 Hf. rewrite Happ.
    destruct (app_over_matrix_bar fd kbuf f d1 u) as (d2 & u2 & -> & _); [done..|]. eauto.
  - intros d2. eexists. split; [by apply run_remove_calls|]. split; [done|]. split; [done|].
    intros f3 u3. apply app_no_node, enabled_closed. by constructor.
Qed.

(** C34: the two ends of that life, over any device that takes the probe's write.  The
    file can be opened before the probe has mapped the BAR and after the removal has
    unmapped it: an application that starts there goes wrong, its first command writes
    through an invalid [mmio]. *)
Theorem app_in_unmapped_window {A : IoctlAbi} {U : Type} {UM : UserMem U}
    {D : Type} {B : Bar D} (MAJOR : Z → Z) (k : kernel) (dev : Z) (ids : Z * Z)
    (g : globals) (h : list handle) (d d1 : D) (fd : Z) (kbuf : list Z) (f : frame) (u : U)
    g' log :
  documented (to_outcomes k) → g_probe MAJOR k dev g = Ok (0, (g', log)) → ids ∈ pci_ids →
  Forall is_enabled h → iowrite32 d 0 0xAB = Ok d1 → 0 ≤ fd → length kbuf = 16%nat →
  frame_ok f u →
  (∀ i, (4 ≤ i ≤ 6)%nat → ∃ x, run_calls (take i log) (Machine g h d) = Ok (Some x) ∧
     app_main (S := machine_sys fd kbuf) f x u = UB OutOfBoundsWrite) ∧
  ∃ x1, insert_device (pci_driver MAJOR) k dev ids (Machine g h d) = Ok (Some x1) ∧
    ∀ i, (2 ≤ i ≤ 3)%nat →
      ∃ x, run_calls (take i (drv_remove (pci_driver MAJOR) dev (mc_globals x1))) x1 = Ok (Some x) ∧
        app_main (S := machine_sys fd kbuf) f x u = UB OutOfBoundsWrite.
Proof.
  intros Hdoc Hp Hids Hh Hd Hfd Hk Hf. split.
  - destruct (probe_success _ _ _ _ _ _ Hdoc Hp) as (_ & -> & _).
    intros i Hi. assert (i = 4 ∨ i = 5 ∨ i = 6)%nat as [->|[->| ->]] by lia.
    all: eexists; (split; [reflexivity|]); apply app_unmapped; try done.
    all: apply bool_decide_eq_false_2; cbn [mc_held mc_globals]; rewrite !elem_of_cons.
    all: intros Hin; destruct_or? Hin; try discriminate Hin; by eapply enabled_not_mapped.
  - pose proof (insert_ok MAJOR k dev g h ids d d1 g' log Hdoc Hp Hids Hd) as E1.
    eexists. split; [exact E1|].
    intros i Hi. eexists. split.
    { apply run_calls_quiet; [|by apply run_remove_start].
      apply Forall_take. by repeat constructor. }
    apply app_unmapped; try done.
    + unfold can_open. cbn [mc_held]. assert (i = 2 ∨ i = 3)%nat as [->| ->] by lia.
      all: rewrite bool_decide_eq_true_2; [done|]; cbn [owned app drop]; rewrite !elem_of_cons; auto 10.
    + apply bool_decide_eq_false_2. cbn [mc_held mc_globals].
      assert (i = 2 ∨ i = 3)%nat as [->| ->] by lia.
      all: cbn [owned app drop]; rewrite !elem_of_cons; intros Hin; destruct_or? Hin;
        try discriminate Hin; by eapply enabled_not_mapped.
Qed.

(** The two configurations of the simulated device name other identifiers than the table:
    the driver is not offered the device, and the application finds no file. *)
Theorem simulated_device_not_offered {A : IoctlAbi} {U : Type} {UM : UserMem U}
    {D : Type} {B : Bar D} (MAJOR : Z → Z) (k : kernel) (dev v i : Z) (c : config) flags
    (g : globals) (h : list handle) (d : D) (fd : Z) (kbuf : list Z) (f : frame) (u : U) :
  c = cosim_config flags ∨ c = create_pf_config → vendor c = Some v → device c = Some i →
  Forall is_enabled h →
  insert_device (pci_driver MAJOR) k dev (v, i) (Machine g h d) = Ok (Some (Machine g h d)) ∧
  app_main (S := machine_sys fd kbuf) f (Machine g h d) u =
    Ok (Machine g h d, app_locals f u, 1, None).
Proof.
  intros Hc Hv Hi Hh. split.
  - unfold insert_device. cbn [drv_id_table pci_driver]. rewrite bool_decide_eq_false_2; [done|].
    destruct Hc as [->| ->]; vm_compute in Hv, Hi; simplify_eq;
      by intros [[=]|?%elem_of_nil]%elem_of_cons.
  - by apply app_no_node, enabled_closed.
Qed.

Lemma load_use_unload_witness :
  ∃ x1 x2 u2, insert_device (pci_driver linux_major) first_kernel 1 (0x1234, 0xabcd)
      (Machine globals_init [] matmul_ep_init) = Ok (Some x1) ∧
    app_main (S := machine_sys 3 (replicate 16 0xCC)) app_frame x1 witness_user =
      Ok (x2, u2, 0, Some app_expected).
Proof.
  assert (∃ g' log, g_probe linux_major first_kernel 1 globals_init = Ok (0, (g', log)))
    as (g' & log & E) by (eexists _, _; vm_compute; reflexivity).
  destruct (load_use_unload linux_major first_kernel 1 (0x1234, 0xabcd) globals_init []
    matmul_ep_init matmul_ep_init 3 (replicate 16 0xCC) app_frame witness_user g' log)
    as (_ & g1 & h1 & E1 & _ & E2 & _).
  - by vm_compute.
  - exact E.
  - by left.
  - constructor.
  - by vm_compute.
  - lia.
  - reflexivity.
  - destruct (E2 endpoint_matrix_bar) as (d2 & u2 & E3).
    + by repeat split; try (by repeat constructor).
    + exact witness_frame.
    + exists (Machine g1 h1 matmul_ep_init), (Machine g1 h1 d2), u2.
      split; [exact E1|exact E3].
Defined.

(** The device is the register model itself. *)
Lemma app_in_unmapped_window_witness :
  ∃ log x, run_calls (take 5 log) (Machine globals_init [] mm_booted) = Ok (Some x) ∧
    app_main (S := machine_sys 3 (replicate 16 0xCC)) app_frame x witness_user = UB OutOfBoundsWrite.
Proof.
  assert (∃ g' log, g_probe linux_major first_kernel 1 globals_init = Ok (0, (g', log)))
    as (g' & log & E) by (eexists _, _; vm_compute; reflexivity).
  destruct (app_in_unmapped_window linux_major first_kernel 1 (0x1234, 0xabcd) globals_init []
    mm_booted (MM (set_requested true reset_device) C_start true false false false)
    3 (replicate 16 0xCC) app_frame witness_user g' log) as (H & _).
  - by vm_compute.
  - exact E.
  - by left.
  - constructor.
  - vm_compute. reflexivity.
  - lia.
  - reflexivity.
  - exact witness_frame.
  - destruct (H 5%nat) as (x & E1 & E2); [lia|]. exists log, x. split; [exact E1|exact E2].
Defined.
